(* ===== verification/_CoqProject ===== *)
-Q . S2P
Prelude.v
Ext.v
Sha.v
Async.v
Wire.v
Json.v
Store.v
Content.v
Concurrent.v
Interleave.v
HubDb.v
Releases.v
Schema.v
ReleaseTasks.v
ReleaseRace.v
Signer.v
L1.v
Client.v
Web.v
Exchange.v
Router.v
Rig.v
Plan.v
Fanout.v
Relay.v
Campaign.v
Cose.v
Ca.v
Startup.v
Towers.v
Roster.v
Keystore.v
IdentityRouter.v
Vhsm.v
Operator.v
Report.v
Cli.v
Guard.v
Commands.v
Tests.v
