(* ===== verification/Prelude.v ===== *)
(** * sumo-provision: a verification development

    The program is a control plane for test rigs, a Rust workspace under
    src/crates.  Tower 2 (software-tower) stores encrypted artifacts, releases and
    channel targets, and signs campaigns; Tower 1 (identity-tower) keeps the device
    roster, issues certificates and mints the factory keystore; the orchestrator
    reads a rig over SOVD, plans, and relays signed campaigns to the flash engine;
    the client crate is what orchestrator and operator CLI call the towers with;
    the wire crate holds what they all exchange.  No tower ever talks to a rig.

    ** Files

    [Prelude]: results, state passing with errors ([act]), loops, sorting and the
    iteration order of ordered maps, 64-bit integers, strings and UTF-8; triples,
    preservation, the errors a computation raises, and the lemmas on loops every
    component uses; the hint databases [sumo], [sumo_rw] and [preserve].
    [Ext]: third-party interfaces with laws (hex, SHA-256, a streaming AEAD, zstd)
    and a concrete instance of each.  [Sha]: SHA-256 itself, checked on the vectors
    of its standard.
    [Async]: futures as trees of awaited calls, pools of them, and a rely-guarantee
    judgement over their interleavings and cancellations.
    [Wire] (wire/src/lib.rs): content addresses, trees, [diff], [assess_tree],
    [flash_plan].  [Json]: serde's reading and writing of the exchanged types.
    [Store] (software-tower/src/store.rs): the blob store on a file system and the
    artifact index, with failing system calls and statements.
    [Content] (content.rs, crypto.rs): [publish_stream], [get_blob] and the index
    endpoints over those interfaces.  [Concurrent]: the same code as futures, one
    await point per system call, statement and chunk; [Interleave]: what any number
    of concurrent publishes keep true.
    [HubDb] (migrations): tables, constraints, statements and transactions.
    [Schema]: keys, unique indexes and foreign keys as one invariant, statement by
    statement.
    [Releases] (releases.rs): identities, creation of component and vehicle
    releases, channel targets, resolution of a target to a tree.
    [ReleaseTasks]: the handlers of releases and channels as futures, one await
    point per statement; [ReleaseRace]: what concurrent requests keep true of the
    releases, and what they do not.
    [Signer] (signer.rs): envelopes, disable manifests, campaigns, over an
    interface of the SUIT toolkit.  [L1] (releases.rs): [channel_target_l1].
    [Client] (client/src/lib.rs): every call of the three typed clients.
    [Exchange]: the bodies a client writes against the bodies a tower reads.
    [Web]: routing, extractors and responses of an axum server, and a server in one
    process with its client.  [Router] (software-tower/src/main.rs) and
    [IdentityRouter] (identity-tower/src/main.rs): the routes and handlers of the
    two towers, and the typed clients over them.
    [Rig], [Plan], [Fanout], [Campaign] (orchestrator/src/lib.rs): observing a rig;
    the apply plan and flash bundle; the fan-out of a campaign into jobs; the token
    cell, the steps of a campaign and the verbs of the engine.
    [Relay]: the hub's [channel_target_l1] composed with the orchestrator's
    [fanout_l1] and with the next request of the same vehicle.
    [Cose], [Ca], [Roster], [Keystore] (identity-tower/src/keystore.rs, ca.rs and
    delegated_rights.rs, devices.rs): key forms, certificates, the two roster
    tables and their handlers, the factory keystore.
    [Startup] (both main.rs, [Ca::load], [Ca::save]): key files, the retries of the
    database connection, and what a restart keeps.  [Towers]: the options of both
    towers with their environment variables and defaults, and their [main].
    [Vhsm] (cli/src/vhsm.rs): CWT claims, bootstrap tokens and their YAML entry.
    [Operator], [Cli], [Report], [Guard], [Commands] (cli/src/main.rs): the hub and
    ca commands with the files they read and write, the rig commands, what each
    report prints, what the campaign command may do to a rig, and the command line
    as a whole.
    [Tests]: the repository's unit tests (the [tests] modules of the crates) run on
    the definitions, those that need a PostgreSQL included.

    ** How code becomes definitions

    A handler is a value of [act S E A]: from a state to the next state and a
    value or an error; the writes made before an error stay, as auto-committed
    statements do, and [transaction] undoes them.  Statements and system calls
    consume a list of faults chosen by the environment: one fails before it is
    applied, or is applied and its answer is lost.  Theorems on writing handlers
    hold for every such list, or say that they need an empty one.  A panic is an
    error that nothing catches: the command line has those of printing and those of
    the flash engine.  Where
    interleaving matters a handler is also a [task], a tree whose nodes are the
    awaited calls; a pool steps one thread by one call, or drops a thread at an
    await, running the destructors it owes.  Running a task alone is proved equal
    to the [act].  A BTreeMap is a gmap read through [entries], in key order.
    Integers are in Z with their wrap-around, saturation or range written out;
    [u64 as f64] and the decimal printing of a float are integer arithmetic.
    Randomness and the clock are arguments.  Code outside the repository (SUIT
    toolkit, X.509, HSM schema, flash engine, SOVD, reqwest, axum's and
    serde_json's text) is a type class; where a theorem needs a law of it the law
    is a field, and a concrete instance evaluates the witnesses.  The error types
    of both towers implement one interface ([AppErrors]), against which routing
    and clients are proved once.

    ** What the theorems show

    Content: every outcome of a publish keeps each indexed artifact backed by a
    content-addressed blob that decrypts to it; publishing is idempotent and
    succeeds when storage does, and a commit is atomic.
    Concurrency: the same holds of any interleaving, failure and cancellation of
    any number of publishes, none of which fails on account of another or leaves
    litter; idempotence does not survive: two publishes of the same bytes can both
    succeed with different blobs, one of which no index row names.
    Over HTTP: the typed clients over the towers' routers are the towers' handlers;
    what was published is fetched back; the keystore minted for an enrolled device
    opens with the key of its CSR and anchors the keys of both towers; a device
    whose id has a slash is out of reach of every route.
    Restarts: both towers come back with the keys they had, whatever calls failed,
    also when [main] is run from its options; a lost certificate makes Tower 1
    replace its root.
    Releases: creation is idempotent on content, identities are exact for separable
    texts, resolution is exact, setting a target is atomic and its hash pins what
    is served later if no two members of the release are of one entity, and may pin
    nothing if they are; the handlers keep the tables consistent.
    Concurrent release requests: any interleaving, failure and cancellation keeps
    keys, indexes and references, changes no row of an old release, stores at most
    one release per content and leaves the hash of a target that names a complete
    release of distinct entities alone; a target that overtakes a creation is not
    pinned by its hash.
    Wire: the plan, the diff and the assessment against their specifications.
    Campaigns: what the hub signs fans out to exactly the shipped components with
    the index's facts of their parts; a component is pushed by its manifest alone
    when that disables it, or enables one the vehicle holds in full; once a campaign
    was carried out the next request is answered 204; requests read back as they
    were meant.
    Orchestrator and CLI: plan, jobs and steps are exact; the token is of the live
    boot through any sequence of reboots; the engine runs behind the gates only,
    and no other command touches the rig or panics on its own account; a captured
    state is a release the rig is up to date with; sizes are printed within their
    rounding.
    Identity: the roster stays well formed; enrollment, leaves and keystores are
    what the CSR and the roster say; a device may be registered anew with another
    key and no proof that it holds it; CWT windows stay within 64 bits; the two
    files of a bootstrap token belong together.

    Conformance: the definitions pass the unit tests of the code they translate,
    fixture by fixture and assertion by assertion; what these tests say of other
    crates (signatures, certificates, entropy, the ratio of zstd, what a YAML reader
    makes of a bootstrap file) is left out.

    ** Fuel

    [drop_chars] and [utf8_lossy] recurse on fuel equal to the length of their
    input, of which each round consumes at least one unit; [scale] has one round
    per unit of size, and [connect_loop] one per attempt, as the loops of the code
    do; [chunks] of a test has one per byte.  Every other recursion is structural.

    ** Not modelled

    Splitting the arguments of a command line into options and values (clap; the
    constraints between options, the variables and the defaults are modelled); the
    text of the migrations, the socket and the connection itself, which [Towers]
    takes as parameters; tracing, shutdown, standard error; DER, CBOR and COSE
    encodings and the flash engine, which are other crates; scripts and containers.
    HTTP status and body are modelled; headers, body limits and percent-encoding
    are not, so that the clients' theorems ask for ids of plain characters.  Of the
    handlers, the publish and those that create a release, set a target or resolve
    one to a tree are interleaved; the lists, [channel_target_l1] and Tower 1's
    handlers are atomic between their own statements.  A transaction takes effect
    at its commit.  A publish dropped while [File::create] runs in its blocking
    thread may leave an empty staging file behind; such a call counts as finished
    or not begun here. *)

From Stdlib Require Export Strings.Byte.
From Stdlib Require Import ZArith Lia.
From stdpp Require Export base gmap sets list strings sorting pretty numbers.

(** * Results and errors *)

(** Rust's [Result<A, E>]. The error type comes first so that [result E] is a
    monad. *)
Inductive result (E A : Type) : Type :=
  | Ok (a : A)
  | Err (e : E).
Arguments Ok {_ _} _.
Arguments Err {_ _} _.

#[export] Instance Ok_inj {E A} : Inj (=) (=) (@Ok E A).
Proof. by intros a b [= ->]. Qed.

#[export] Instance result_ret (E : Type) : MRet (result E) := λ A a, Ok a.
#[export] Instance result_bind (E : Type) : MBind (result E) := λ A B f r,
  match r with Ok a => f a | Err e => Err e end.

(** [Option::ok_or]: the [?] on an absent value. *)
Definition ok_or {E A} (e : E) (o : option A) : result E A :=
  match o with Some a => Ok a | None => Err e end.

(** [Result::ok]. *)
Definition ok {E A} (r : result E A) : option A :=
  match r with Ok a => Some a | Err _ => None end.

(** [Result::map_err]. *)
Definition map_err {E F A} (f : E → F) (r : result E A) : result F A :=
  match r with Ok a => Ok a | Err e => Err (f e) end.

(** * Effectful code: state passing in which an error keeps the writes made so
    far, as a sequence of auto-committed statements does. *)
Definition act (S E A : Type) : Type := S → S * result E A.

#[export] Instance act_ret (S E : Type) : MRet (act S E) := λ A a s, (s, Ok a).
#[export] Instance act_bind (S E : Type) : MBind (act S E) := λ A B f m s,
  match m s with
  | (s', Ok a) => f a s'
  | (s', Err e) => (s', Err e)
  end.

(** [return Err(e)]. *)
Definition throw {S E A} (e : E) : act S E A := λ s, (s, Err e).

(** A pure fallible computation inside effectful code. *)
Definition lift {S E A} (r : result E A) : act S E A := λ s, (s, r).

(** Reading the state. *)
Definition gets {S E A} (f : S → A) : act S E A := λ s, (s, Ok (f s)).

(** A state update that cannot fail. *)
Definition updating {S E A} (f : S → S * A) : act S E A := λ s,
  let '(s', a) := f s in (s', Ok a).

(** [match m { Ok(a) => .., Err(e) => .. }]: the outcome as a value. *)
Definition attempt {S E F A} (m : act S E A) : act S F (result E A) := λ s,
  let '(s', r) := m s in (s', Ok r).

(** [m.map_err(f)?]. *)
Definition act_map_err {S E F A} (f : E → F) (m : act S E A) : act S F A := λ s,
  let '(s', r) := m s in (s', map_err f r).

(** [for x in xs { body(x)?; }]. *)
Fixpoint for_each {S E A} (f : A → act S E ()) (l : list A) : act S E () :=
  match l with
  | [] => mret ()
  | x :: l' => _ ← f x; for_each f l'
  end.

(** A loop threading a local value, [let mut acc = b; for x in xs { .. ? }]. *)
Fixpoint fold_act {S E A B} (f : B → A → act S E B) (l : list A) (b : B) : act S E B :=
  match l with
  | [] => mret b
  | x :: l' => b' ← f b x; fold_act f l' b'
  end.

(** From a state satisfying [P], [m] either succeeds as [Q] says or fails as [R]
    says. *)
Definition triple {S E A} (P : S → Prop) (m : act S E A) (Q : A → S → Prop)
    (R : E → S → Prop) : Prop :=
  ∀ s, P s → match m s with
             | (s', Ok a) => Q a s'
             | (s', Err e) => R e s'
             end.

(** [P] survives every outcome of [m], errors included. *)
Definition preserves {S E A} (P : S → Prop) (m : act S E A) : Prop :=
  ∀ s, P s → P (m s).1.

(** Every error of [m] is one that [Q] says. *)
Definition raises {S E A} (Q : E → Prop) (m : act S E A) : Prop :=
  ∀ s e, (m s).2 = Err e → Q e.

(** * Sorting and ordered maps *)

(** Rust's stable [sort_by]: insertion before the first element not smaller. *)
Fixpoint insert_by {A} (le : A → A → bool) (x : A) (l : list A) : list A :=
  match l with
  | [] => [x]
  | y :: l' => if le x y then x :: y :: l' else y :: insert_by le x l'
  end.
Definition sort_by {A} (le : A → A → bool) (l : list A) : list A :=
  foldr (insert_by le) [] l.

(** Sorting by a string key, bytewise as [str]'s [Ord] does. *)
Definition sort_on {A} (key : A → string) : list A → list A :=
  sort_by (λ a b, String.leb (key a) (key b)).

(** The order [sort_on] sorts by. *)
Definition key_le {A} (key : A → string) (a b : A) : Prop :=
  String.leb (key a) (key b).

(** Iteration order of a [BTreeMap<String, V>]: ascending keys. *)
Definition entries {V} (m : gmap string V) : list (string * V) :=
  sort_on fst (map_to_list m).

(** Iteration order of a [BTreeSet<String>]. *)
Definition set_entries (X : gset string) : list string :=
  sort_on id (elements X).

(** Collecting key/value pairs into a map: a later pair replaces an earlier one. *)
Definition collect_map {V} (l : list (string * V)) : gmap string V :=
  foldl (λ m p, <[p.1 := p.2]> m) ∅ l.

(** * Machine integers *)

Definition two64 : Z := 2 ^ 64.
Definition u64_ok (z : Z) : Prop := (0 ≤ z < two64)%Z.
Definition i64_ok (z : Z) : Prop := (- 2 ^ 63 ≤ z < 2 ^ 63)%Z.
(** Wrap-around to 64 bits, [as u64]. *)
Definition as_u64 (z : Z) : Z := (z mod two64)%Z.
(** Two's complement reinterpretation, [as i64]. *)
Definition as_i64 (z : Z) : Z :=
  let r := (z mod two64)%Z in if (r <? 2 ^ 63)%Z then r else (r - two64)%Z.
(** [u64::saturating_add]. *)
Definition saturating_add_u64 (a b : Z) : Z := Z.min (a + b) (two64 - 1).

(** * Strings *)

(** [str::as_bytes]. *)
Definition as_bytes (s : string) : list byte := String.list_byte_of_string s.

(** [str::strip_prefix]. *)
Fixpoint strip_prefix (p s : string) : option string :=
  match p, s with
  | EmptyString, _ => Some s
  | String a p', String b s' => if Ascii.eqb a b then strip_prefix p' s' else None
  | String _ _, EmptyString => None
  end.

(** [slice::join]. *)
Fixpoint join (sep : string) (l : list string) : string :=
  match l with
  | [] => ""
  | [s] => s
  | s :: l' => s +:+ sep +:+ join sep l'
  end.

(** The concatenation of a list of strings. *)
Definition concat_str (l : list string) : string := foldr String.append "" l.

(** Characters used as separators. *)
Definition nl : string := String (Ascii.ascii_of_nat 10) "".
Definition nul : string := String (Ascii.ascii_of_nat 0) "".

(** One white space character, by its UTF-8 code units. *)
Definition is_white (l : list nat) : bool :=
  match l with
  | [a] => (Nat.leb 9 a && Nat.leb a 13) || Nat.eqb a 32
  | [a; b] => Nat.eqb a 194 && (Nat.eqb b 133 || Nat.eqb b 160)
  | [a; b; c] =>
      (Nat.eqb a 225 && Nat.eqb b 154 && Nat.eqb c 128) ||
      (Nat.eqb a 226 && Nat.eqb b 128 &&
        ((Nat.leb 128 c && Nat.leb c 138) || Nat.eqb c 168 || Nat.eqb c 169 || Nat.eqb c 175)) ||
      (Nat.eqb a 226 && Nat.eqb b 129 && Nat.eqb c 159) ||
      (Nat.eqb a 227 && Nat.eqb b 128 && Nat.eqb c 128)
  | _ => false
  end.

(** Drop leading characters that [is_char] recognises, of one to three units. *)
Fixpoint drop_chars (fuel : nat) (is_char : list nat → bool) (l : list nat) : list nat :=
  match fuel with
  | O => l
  | S fuel =>
      match filter (λ k, length (take k l) = k ∧ is_char (take k l)) [1; 2; 3] with
      | k :: _ => drop_chars fuel is_char (drop k l)
      | [] => l
      end
  end.

Definition code_units (s : string) : list nat :=
  Ascii.nat_of_ascii <$> String.list_ascii_of_string s.
Definition of_code_units (l : list nat) : string :=
  String.string_of_list_ascii (Ascii.ascii_of_nat <$> l).

(** [str::trim]; each round drops a character, so the length is fuel enough. *)
Definition trim (s : string) : string :=
  let l := code_units s in
  let l := drop_chars (length l) is_white l in
  of_code_units (reverse
    (drop_chars (length l) (λ c, is_white (reverse c)) (reverse l))).

(** [trim_end_matches(c)] and [trim_matches(c)] for a one-byte character. *)
Fixpoint trim_start_matches (c : Ascii.ascii) (s : string) : string :=
  match s with
  | String a s' => if Ascii.eqb a c then trim_start_matches c s' else s
  | EmptyString => s
  end.
Fixpoint trim_end_matches (c : Ascii.ascii) (s : string) : string :=
  match s with
  | EmptyString => EmptyString
  | String a s' =>
      match trim_end_matches c s' with
      | EmptyString => if Ascii.eqb a c then EmptyString else String a EmptyString
      | t => String a t
      end
  end.
Definition trim_matches (c : Ascii.ascii) (s : string) : string :=
  trim_end_matches c (trim_start_matches c s).

(** [str::split_once]. *)
Fixpoint split_once (sep s : string) : option (string * string) :=
  match strip_prefix sep s with
  | Some rest => Some ("", rest)
  | None =>
      match s with
      | EmptyString => None
      | String a s' =>
          '(x, y) ← split_once sep s'; Some (String a x, y)
      end
  end.

(** ** UTF-8 *)

(** The length of the sequence a leading byte opens, and the range of its second
    byte. *)
Definition utf8_width (b : N) : nat :=
  if (b <? 128)%N then 1
  else if (194 <=? b)%N && (b <=? 223)%N then 2
  else if (224 <=? b)%N && (b <=? 239)%N then 3
  else if (240 <=? b)%N && (b <=? 244)%N then 4
  else 0.
Definition utf8_second (b c : N) : bool :=
  let lo := if (b =? 224)%N then 160%N else if (b =? 240)%N then 144%N else 128%N in
  let hi := if (b =? 237)%N then 159%N else if (b =? 244)%N then 143%N else 191%N in
  (lo <=? c)%N && (c <=? hi)%N.
Definition utf8_cont (c : N) : bool := (128 <=? c)%N && (c <=? 191)%N.

(** The longest prefix of the continuation bytes that the leading byte admits. *)
Definition utf8_tail (b : byte) (rest : list byte) : nat :=
  let w := utf8_width (Byte.to_N b) in
  match rest with
  | c :: rest =>
      if Nat.leb 2 w && utf8_second (Byte.to_N b) (Byte.to_N c) then
        match rest with
        | d :: rest =>
            if Nat.leb 3 w && utf8_cont (Byte.to_N d) then
              match rest with
              | e :: _ => if Nat.leb 4 w && utf8_cont (Byte.to_N e) then 3 else 2
              | [] => 2
              end
            else 1
        | [] => 1
        end
      else 0
  | [] => 0
  end.

(** [String::from_utf8_lossy]: a maximal ill-formed prefix becomes U+FFFD. *)
Fixpoint utf8_lossy (fuel : nat) (l : list byte) : list byte :=
  match fuel, l with
  | S fuel, b :: rest =>
      let k := utf8_tail b rest in
      let out := if Nat.eqb (S k) (utf8_width (Byte.to_N b)) then b :: take k rest
                 else [xef; xbf; xbd] in
      out ++ utf8_lossy fuel (drop k rest)
  | _, _ => []
  end.
Definition from_utf8_lossy (l : list byte) : string :=
  String.string_of_list_byte (utf8_lossy (length l) l).

(** A Rust [String] is UTF-8, so decoding its bytes gives it back. *)
Definition utf8_ok (s : string) : bool :=
  bool_decide (from_utf8_lossy (as_bytes s) = s).

(** The characters [/] and the double quote. *)
Definition slash : Ascii.ascii := Ascii.ascii_of_nat 47.
Definition quote : Ascii.ascii := Ascii.ascii_of_nat 34.

(** [c] does not occur in [s]. *)
Fixpoint avoids (c : Ascii.ascii) (s : string) : bool :=
  match s with
  | EmptyString => true
  | String a s' => negb (Ascii.eqb a c) && avoids c s'
  end.

(** * Automation *)

(** Facts that close routine side conditions of the components. *)
Create HintDb sumo.
Create Rewrite HintDb sumo_rw.
(** Invariant preservation of effectful code, one rule per construct. *)
Create HintDb preserve.

(** Split every [match]/[if] of the goal and the context, keeping equations. *)
Ltac split_match :=
  repeat (case_match; simplify_eq/=).

(** A closed decidable proposition, decided by evaluation. *)
Ltac by_compute := apply (bool_decide_unpack _); vm_compute; exact I.

(** Unfold the monad of effectful code. *)
Ltac unfold_act :=
  unfold mbind, act_bind, mret, act_ret, throw, lift, gets, result_bind,
    result_ret in *.

(** * Lemmas: effectful code *)

Section preserves.
Context {S E : Type} (P : S → Prop).

Lemma preserves_ret {A} (a : A) : preserves P (mret a : act S E A).
Proof. by intros s Hs. Qed.

Lemma preserves_throw {A} (e : E) : preserves P (throw e : act S E A).
Proof. by intros s Hs. Qed.

Lemma preserves_lift {A} (r : result E A) : preserves P (lift r : act S E A).
Proof. by intros s Hs. Qed.

Lemma preserves_gets {A} (f : S → A) : preserves P (gets f : act S E A).
Proof. by intros s Hs. Qed.

Lemma preserves_bind {A B} (m : act S E A) (f : A → act S E B) :
  preserves P m → (∀ a, preserves P (f a)) → preserves P (m ≫= f).
Proof.
  intros Hm Hf s Hs. specialize (Hm s Hs). unfold_act.
  destruct (m s) as [s' [a|e]]; simpl in *; [by apply Hf|done].
Qed.

Lemma preserves_for_each {A} (f : A → act S E ()) (l : list A) :
  (∀ a, a ∈ l → preserves P (f a)) → preserves P (for_each f l).
Proof.
  induction l as [|x l IH]; intros Hf; simpl; [apply preserves_ret|].
  apply preserves_bind; [apply Hf; set_solver|].
  intros []. apply IH. set_solver.
Qed.

Lemma preserves_fold {A B} (f : B → A → act S E B) (l : list A) (b : B) :
  (∀ b a, a ∈ l → preserves P (f b a)) → preserves P (fold_act f l b).
Proof.
  revert b. induction l as [|x l IH]; intros b Hf; simpl; [apply preserves_ret|].
  apply preserves_bind; [apply Hf; set_solver|].
  intros b'. apply IH. set_solver.
Qed.

Lemma preserves_attempt {F A} (m : act S E A) :
  preserves P m → preserves P (attempt m : act S F (result E A)).
Proof. intros Hm s Hs. specialize (Hm s Hs). unfold attempt. by destruct (m s). Qed.

Lemma preserves_map_err {F A} (f : E → F) (m : act S E A) :
  preserves P m → preserves P (act_map_err f m).
Proof. intros Hm s Hs. specialize (Hm s Hs). unfold act_map_err. by destruct (m s). Qed.
End preserves.

#[export] Hint Resolve preserves_attempt preserves_map_err : preserve.
#[export] Hint Resolve preserves_ret preserves_throw preserves_lift
  preserves_gets preserves_bind preserves_for_each preserves_fold : preserve.

Section raises.
Context {S E : Type} (Q : E → Prop).

Lemma raises_ret {A} (a : A) : raises Q (mret a : act S E A).
Proof. done. Qed.

Lemma raises_throw {A} (e : E) : Q e → raises Q (throw e : act S E A).
Proof. by intros Hq s e' [= <-]. Qed.

Lemma raises_lift {A} (r : result E A) : (∀ e, r = Err e → Q e) → raises Q (lift r : act S E A).
Proof. intros Hr s e. apply Hr. Qed.

Lemma raises_gets {A} (f : S → A) : raises Q (gets f : act S E A).
Proof. done. Qed.

Lemma raises_bind {A B} (m : act S E A) (f : A → act S E B) :
  raises Q m → (∀ a, raises Q (f a)) → raises Q (m ≫= f).
Proof.
  intros Hm Hf s e. unfold_act. specialize (Hm s). destruct (m s) as [s' [a|e']]; simpl in *.
  - apply Hf.
  - intros [= <-]. by apply Hm.
Qed.

Lemma raises_fold {A B} (f : B → A → act S E B) (l : list A) b :
  (∀ b a, raises Q (f b a)) → raises Q (fold_act f l b).
Proof.
  intros Hf. revert b. induction l as [|x l IH]; intros b; simpl; [apply raises_ret|].
  apply raises_bind; [apply Hf|done].
Qed.

Lemma raises_attempt {F A} (m : act S F A) : raises Q (attempt m : act S E (result F A)).
Proof. intros s e. unfold attempt. by destruct (m s). Qed.

(** A conversion of errors whose results are all as [Q] says. *)
Lemma raises_map_err {F A} (f : F → E) (m : act S F A) :
  (∀ e, Q (f e)) → raises Q (act_map_err f m).
Proof.
  intros Hf s e. unfold act_map_err. destruct (m s) as [s' [a|e']]; simpl; [done|].
  by intros [= <-].
Qed.

Lemma raises_map_err_of {F A} (f : F → E) (m : act S F A) :
  raises (λ e, Q (f e)) m → raises Q (act_map_err f m).
Proof.
  intros Hm s e. unfold act_map_err. specialize (Hm s). destruct (m s) as [s' [a|e']]; simpl in *;
    [done|]. intros [= <-]. by apply Hm.
Qed.
End raises.

Section triple.
Context {S E : Type}.

Lemma triple_ret {A} (a : A) (Q : A → S → Prop) (R : E → S → Prop) :
  triple (Q a) (mret a) Q R.
Proof. by intros s Hs. Qed.

Lemma triple_throw {A} (e : E) (Q : A → S → Prop) (R : E → S → Prop) :
  triple (R e) (throw e) Q R.
Proof. by intros s Hs. Qed.

Lemma triple_lift {A} (r : result E A) (P : S → Prop) (Q : A → S → Prop) R :
  (∀ a, r = Ok a → ∀ s, P s → Q a s) → (∀ e, r = Err e → ∀ s, P s → R e s) →
  triple P (lift r) Q R.
Proof. intros HQ HR s Hs. unfold lift. destruct r; eauto. Qed.

Lemma triple_ok_or {A} (o : option A) (e : E) (P : S → Prop) (R : E → S → Prop) :
  (o = None → ∀ s, P s → R e s) →
  triple P (lift (ok_or e o)) (λ a s, P s ∧ o = Some a) R.
Proof. intros HR s Hs. destruct o; simpl; [done|]. by apply HR. Qed.

(** A pure fact of the precondition. *)
Lemma triple_pure {A} (φ : Prop) (m : act S E A) P Q R :
  (φ → triple P m Q R) → triple (λ s, P s ∧ φ) m Q R.
Proof. intros Hm s [Hs Hφ]. by apply Hm. Qed.

Lemma triple_ret_if {A} (a : A) (P : S → Prop) (Q : A → S → Prop) (R : E → S → Prop) :
  (∀ s, P s → Q a s) → triple P (mret a) Q R.
Proof. intros HQ s Hs. by apply HQ. Qed.

Lemma triple_gets {A} (f : S → A) (P : S → Prop) (R : E → S → Prop) :
  triple P (gets f) (λ a s, P s ∧ a = f s) R.
Proof. by intros s Hs. Qed.

Lemma triple_bind {A B} (m : act S E A) (f : A → act S E B) P Q Q' R :
  triple P m Q R → (∀ a, triple (Q a) (f a) Q' R) → triple P (m ≫= f) Q' R.
Proof.
  intros Hm Hf s Hs. specialize (Hm s Hs). unfold mbind, act_bind.
  destruct (m s) as [s' [a|e]]; [by apply Hf|done].
Qed.

Lemma triple_conseq {A} (m : act S E A) (P P' : S → Prop) (Q Q' : A → S → Prop)
    (R R' : E → S → Prop) :
  triple P' m Q' R' → (∀ s, P s → P' s) → (∀ a s, Q' a s → Q a s) →
  (∀ e s, R' e s → R e s) → triple P m Q R.
Proof.
  intros Hm HP HQ HR s Hs. specialize (Hm s (HP s Hs)).
  destruct (m s) as [s' [a|e]]; eauto.
Qed.

(** A loop, with an invariant over the elements already processed. *)
Lemma triple_fold {A B} (f : B → A → act S E B) (I : list A → B → S → Prop) R l :
  (∀ done x rest b, done ++ x :: rest = l →
     triple (I done b) (f b x) (λ b', I (done ++ [x]) b') R) →
  ∀ b, triple (I [] b) (fold_act f l b) (λ b', I l b') R.
Proof.
  intros Hf. cut (∀ rest done b, done ++ rest = l →
    triple (I done b) (fold_act f rest b) (λ b', I l b') R).
  { intros Hc b. by apply (Hc l []). }
  induction rest as [|x rest IH]; intros dn b Hd; simpl.
  - rewrite app_nil_r in Hd. subst dn. intros s Hs. exact Hs.
  - eapply triple_bind; [by eapply Hf|]. intros b'. apply IH. by rewrite <- app_assoc.
Qed.
End triple.

Lemma bind_Ok {S E A B} (m : act S E A) (f : A → act S E B) s s' a :
  m s = (s', Ok a) → (m ≫= f) s = f a s'.
Proof. intros H. unfold_act. by rewrite H. Qed.

Lemma bind_Err {S E A B} (m : act S E A) (f : A → act S E B) s s' e :
  m s = (s', Err e) → (m ≫= f) s = (s', Err e).
Proof. intros H. unfold_act. by rewrite H. Qed.

Lemma bind_inv_Ok {S E A B} (m : act S E A) (f : A → act S E B) s s2 b :
  (m ≫= f) s = (s2, Ok b) → ∃ s1 a, m s = (s1, Ok a) ∧ f a s1 = (s2, Ok b).
Proof. unfold_act. destruct (m s) as [s1 [a|e]] eqn:Hm; naive_solver. Qed.

(** A loop that pushes one result per element. *)
Lemma fold_snoc_inv {S E A B C} (f : A → act S E B) (g : A → B → C) l acc s s' cs :
  fold_act (λ acc x, b ← f x; mret (acc ++ [g x b])) l acc s = (s', Ok cs) →
  ∃ cs', cs = acc ++ cs' ∧
    Forall2 (λ x c, ∃ s1 s2 b, f x s1 = (s2, Ok b) ∧ c = g x b) l cs'.
Proof.
  revert acc s. induction l as [|x l IH]; intros acc s; simpl.
  - intros [= -> ->]. exists []. split; [by rewrite app_nil_r|constructor].
  - intros (s1 & acc' & Hb & Hl)%bind_inv_Ok.
    apply bind_inv_Ok in Hb as (s0 & b & Hf & Hr). unfold mret, act_ret in Hr.
    injection Hr as -> <-. apply IH in Hl as (cs' & -> & Hcs).
    exists (g x b :: cs'). split; [by rewrite <- app_assoc|].
    constructor; [|done]. by exists s, s1, b.
Qed.

(** What a successful loop has accumulated. *)
Lemma fold_inv_Ok {S E A B} (f : B → A → act S E B) (J : list A → B → Prop) l b s s' b' :
  J [] b →
  (∀ done x rest acc acc' s1 s2, done ++ x :: rest = l → J done acc →
     f acc x s1 = (s2, Ok acc') → J (done ++ [x]) acc') →
  fold_act f l b s = (s', Ok b') → J l b'.
Proof.
  intros Hb Hf. cut (∀ rest done acc s, done ++ rest = l → J done acc →
    fold_act f rest acc s = (s', Ok b') → J l b').
  { intros Hc. by apply (Hc l []). }
  induction rest as [|x rest IH]; intros done acc s0 Hl HJ; simpl.
  - intros [= _ <-]. by rewrite app_nil_r in Hl; subst.
  - intros (s1 & acc' & Hx & Hr)%bind_inv_Ok. eapply (IH (done ++ [x])); [|eauto..].
    by rewrite <- app_assoc.
Qed.

Lemma filter_all {A} (P : A → Prop) `{!∀ x, Decision (P x)} (l : list A) :
  Forall P l → filter P l = l.
Proof.
  induction 1 as [|x l Hx _ IH]; [done|]. rewrite list.filter_cons, decide_True by done.
  by rewrite IH.
Qed.

Lemma ok_or_Ok {E A} (e : E) (o : option A) a : ok_or e o = Ok a → o = Some a.
Proof. destruct o; simpl; congruence. Qed.

(** * Lemmas: sorting *)

Section sort.
Context {A : Type} (le : A → A → bool).

Lemma insert_by_Permutation x l : insert_by le x l ≡ₚ x :: l.
Proof.
  induction l as [|y l IH]; simpl; [done|].
  destruct (le x y); [done|]. rewrite IH. constructor.
Qed.

Lemma sort_by_Permutation l : sort_by le l ≡ₚ l.
Proof.
  induction l as [|x l IH]; simpl; [done|].
  unfold sort_by in *. simpl. by rewrite insert_by_Permutation, IH.
Qed.

Context (Htot : ∀ x y, le x y = true ∨ le y x = true)
        (Htrans : ∀ x y z, le x y = true → le y z = true → le x z = true).

Lemma insert_by_StronglySorted x l :
  StronglySorted le l → StronglySorted le (insert_by le x l).
Proof using Htot Htrans.
  induction 1 as [|y l Hs IH Hy]; simpl; [repeat constructor|].
  destruct (le x y) eqn:Hxy.
  - constructor; [by constructor|]. constructor; [by rewrite Hxy|].
    eapply Forall_impl; [|exact Hy]. intros z Hyz. cbn in Hyz |- *.
    rewrite (Htrans x y z); [done..|]. by destruct (le y z).
  - constructor; [done|]. rewrite insert_by_Permutation.
    constructor; [|done]. by destruct (Htot x y) as [?| ->]; [congruence|].
Qed.

Lemma sort_by_StronglySorted l : StronglySorted le (sort_by le l).
Proof using Htot Htrans.
  induction l as [|x l IH]; [constructor|]. by apply insert_by_StronglySorted.
Qed.
End sort.

(** The order of strings. *)
Lemma leb_total (a b : string) : String.leb a b = true ∨ String.leb b a = true.
Proof. destruct (String.leb_total a b); auto. Qed.

Lemma leb_trans (a b c : string) :
  String.leb a b = true → String.leb b c = true → String.leb a c = true.
Proof.
  intros Hab Hbc. apply Is_true_true.
  by apply (transitivity (R := String.le) (y := b)); apply Is_true_true.
Qed.

Lemma leb_antisym (a b : string) :
  String.leb a b = true → String.leb b a = true → a = b.
Proof. apply String.leb_antisym. Qed.

Section sort_on.
Context {A : Type} (key : A → string).

Lemma sort_on_Permutation l : sort_on key l ≡ₚ l.
Proof. apply sort_by_Permutation. Qed.

Lemma sort_on_StronglySorted l : StronglySorted (key_le key) (sort_on key l).
Proof.
  apply sort_by_StronglySorted; intros.
  - apply leb_total.
  - eapply leb_trans; eauto.
Qed.

(** With distinct keys the sorted list is determined by its elements. *)
Lemma sorted_keys_unique l1 l2 :
  NoDup (key <$> l1) → l1 ≡ₚ l2 →
  StronglySorted (key_le key) l1 → StronglySorted (key_le key) l2 → l1 = l2.
Proof.
  intros Hnd Hp Hs1 Hs2.
  apply (StronglySorted_unique_strong (key_le key)); try done.
  intros x1 x2 H1 H2 H12%Is_true_true H21%Is_true_true.
  assert (key x1 = key x2) as Hk by (by apply leb_antisym).
  rewrite <- Hp in H2.
  apply list_elem_of_lookup in H1 as [i Hi], H2 as [j Hj].
  assert (i = j) as ->.
  { eapply (NoDup_lookup (key <$> l1) _ _ (key x1)); [done|..].
    - by rewrite list_lookup_fmap, Hi.
    - by rewrite list_lookup_fmap, Hj, Hk. }
  congruence.
Qed.

Lemma sort_on_unique l1 l2 :
  NoDup (key <$> l1) → l1 ≡ₚ l2 → sort_on key l1 = sort_on key l2.
Proof.
  intros Hnd Hp. apply sorted_keys_unique; eauto using sort_on_StronglySorted.
  - by rewrite sort_on_Permutation.
  - by rewrite !sort_on_Permutation.
Qed.

Lemma elem_of_sort_on x l : x ∈ sort_on key l ↔ x ∈ l.
Proof. by rewrite sort_on_Permutation. Qed.

Lemma sort_on_nil_inv l : sort_on key l = [] ↔ l = [].
Proof.
  split; [|by intros ->]. intros H. apply Permutation_nil.
  by rewrite <- H, sort_on_Permutation.
Qed.
End sort_on.


(** * Lemmas: ordered maps *)

Lemma NoDup_fst_entries {V} (m : gmap string V) : NoDup (entries m).*1.
Proof. unfold entries. rewrite sort_on_Permutation. apply NoDup_fst_map_to_list. Qed.

Lemma elem_of_fst_entries {V} (m : gmap string V) k : k ∈ (entries m).*1 ↔ k ∈ dom m.
Proof.
  unfold entries. rewrite sort_on_Permutation, list_elem_of_fmap, elem_of_dom. split.
  - intros ([k' v] & -> & Hv%elem_of_map_to_list). eauto.
  - intros [v Hv]. exists (k, v). by rewrite elem_of_map_to_list.
Qed.

Section entries.
Context {V : Type}.
Implicit Types m : gmap string V.

Lemma entries_Permutation m : entries m ≡ₚ map_to_list m.
Proof. apply sort_on_Permutation. Qed.

Lemma elem_of_entries m k v : (k, v) ∈ entries m ↔ m !! k = Some v.
Proof. by rewrite entries_Permutation, elem_of_map_to_list. Qed.

Lemma NoDup_entries_keys m : NoDup (entries m).*1.
Proof. rewrite entries_Permutation. apply NoDup_fst_map_to_list. Qed.

Lemma NoDup_entries m : NoDup (entries m).
Proof. eapply NoDup_fmap_1, NoDup_entries_keys. Qed.

Lemma elem_of_entries_keys m k : k ∈ (entries m).*1 ↔ is_Some (m !! k).
Proof.
  rewrite list_elem_of_fmap. split.
  - intros ([k' v] & -> & H). apply elem_of_entries in H. by eexists.
  - intros [v Hv]. exists (k, v). split; [done|]. by apply elem_of_entries.
Qed.

Lemma entries_sorted m : StronglySorted (key_le fst) (entries m).
Proof. apply sort_on_StronglySorted. Qed.

(** A sorted list of bindings with distinct keys is the iteration of its map. *)
Lemma entries_list_to_map (l : list (string * V)) :
  NoDup l.*1 → StronglySorted (key_le fst) l → entries (list_to_map l) = l.
Proof.
  intros Hnd Hs. symmetry. apply (sorted_keys_unique fst); try done.
  - by rewrite entries_Permutation, map_to_list_to_map.
  - apply entries_sorted.
Qed.

Lemma entries_empty : entries (∅ : gmap string V) = [].
Proof. reflexivity. Qed.

Lemma entries_nil_inv m : entries m = [] ↔ m = ∅.
Proof.
  split; [|intros ->; apply entries_empty].
  intros H. apply map_eq. intros k. rewrite lookup_empty.
  destruct (m !! k) as [v|] eqn:Hk; [|done].
  apply elem_of_entries in Hk. rewrite H in Hk. by apply elem_of_nil in Hk.
Qed.
End entries.

Lemma entries_keys_eq {V W} (m : gmap string V) (m2 : gmap string W) :
  dom m = dom m2 → (entries m).*1 = (entries m2).*1.
Proof.
  assert (∀ {U} (m : gmap string U), StronglySorted (key_le id) (entries m).*1) as Hs.
  { intros U m0. pose proof (sort_on_StronglySorted fst (map_to_list m0)) as Hsort.
    fold (entries m0) in Hsort.
    induction Hsort as [|p l Hl IH Hp]; simpl; constructor; [done|].
    by apply Forall_fmap. }
  intros Hd. apply (sorted_keys_unique id); auto.
  - rewrite list_fmap_id. apply NoDup_fst_entries.
  - apply NoDup_Permutation; auto using NoDup_fst_entries.
    intros k. by rewrite !elem_of_fst_entries, Hd.
Qed.

(** Two maps over the same keys are iterated in step. *)
Lemma entries_Forall2 {V W} (R : string → V → W → Prop) (m : gmap string V)
    (m2 : gmap string W) :
  dom m = dom m2 →
  (∀ k v w, m !! k = Some v → m2 !! k = Some w → R k v w) →
  Forall2 (λ a b, a.1 = b.1 ∧ R a.1 a.2 b.2) (entries m) (entries m2).
Proof.
  intros Hd HR. apply Forall2_same_length_lookup_2.
  - rewrite <- !(length_fmap fst). by rewrite (entries_keys_eq m m2).
  - intros i [k v] [k2 w] H1 H2. simpl.
    assert (k = k2) as <-.
    { pose proof (entries_keys_eq m m2 Hd) as Hk. apply (f_equal (lookup i)) in Hk.
      rewrite !list_lookup_fmap, H1, H2 in Hk. by simplify_eq/=. }
    split; [done|]. apply HR; apply elem_of_entries;
      by eapply list_elem_of_lookup_2.
Qed.

Lemma elem_of_set_entries (X : gset string) x : x ∈ set_entries X ↔ x ∈ X.
Proof. unfold set_entries. by rewrite elem_of_sort_on, elem_of_elements. Qed.

Lemma NoDup_set_entries (X : gset string) : NoDup (set_entries X).
Proof. unfold set_entries. rewrite sort_on_Permutation. apply NoDup_elements. Qed.

Lemma set_entries_nil (X : gset string) : set_entries X = [] ↔ X = ∅.
Proof.
  unfold set_entries. rewrite sort_on_nil_inv. split.
  - intros H. by apply elements_empty_inv, leibniz_equiv in H.
  - intros ->. apply elements_empty.
Qed.

(** Collecting pairs keeps the last binding of each key. *)
Lemma collect_map_snoc {V} (l : list (string * V)) p :
  collect_map (l ++ [p]) = <[p.1 := p.2]> (collect_map l).
Proof. unfold collect_map. by rewrite foldl_app. Qed.

Lemma collect_map_list_to_map {V} (l : list (string * V)) :
  collect_map l = list_to_map (reverse l).
Proof.
  induction l as [|p l IH] using rev_ind; [done|].
  rewrite collect_map_snoc, IH, reverse_app. by destruct p.
Qed.

Lemma collect_map_elem_of {V} (l : list (string * V)) k v :
  collect_map l !! k = Some v → (k, v) ∈ l.
Proof.
  rewrite collect_map_list_to_map. intros H%elem_of_list_to_map_2.
  by rewrite elem_of_reverse in H.
Qed.

Lemma collect_map_lookup {V} (l : list (string * V)) k v :
  NoDup l.*1 → (k, v) ∈ l → collect_map l !! k = Some v.
Proof.
  intros Hnd Hin. rewrite collect_map_list_to_map. apply elem_of_list_to_map_1.
  - by rewrite fmap_reverse, reverse_Permutation.
  - by rewrite elem_of_reverse.
Qed.

(** Collecting distinct keys and iterating gives the pairs back, in another order. *)
Lemma entries_collect_map {V} (l : list (string * V)) :
  NoDup l.*1 → entries (collect_map l) ≡ₚ l.
Proof.
  intros Hnd. apply NoDup_Permutation; [apply NoDup_entries|by eapply NoDup_fmap_1|].
  intros [k v]. rewrite elem_of_entries. split; [apply collect_map_elem_of|].
  by apply collect_map_lookup.
Qed.

Lemma collect_map_None {V} (l : list (string * V)) k :
  collect_map l !! k = None ↔ k ∉ l.*1.
Proof.
  rewrite collect_map_list_to_map, <- not_elem_of_list_to_map, fmap_reverse.
  by rewrite elem_of_reverse.
Qed.

(** * Lemmas: machine integers *)

Lemma as_u64_ok z : u64_ok (as_u64 z).
Proof. unfold u64_ok, as_u64. apply Z.mod_pos_bound. done. Qed.

Lemma as_u64_id z : u64_ok z → as_u64 z = z.
Proof. apply Z.mod_small. Qed.

Lemma as_i64_ok z : i64_ok (as_i64 z).
Proof.
  unfold i64_ok, as_i64. pose proof (as_u64_ok z) as H.
  unfold u64_ok, as_u64 in H. change two64 with (2 ^ 64)%Z in *.
  destruct (Z.ltb_spec (z mod 2 ^ 64) (2 ^ 63)); lia.
Qed.

(** Casting an unsigned word to [i64] and back is the identity. *)
Lemma as_u64_as_i64 z : as_u64 (as_i64 z) = as_u64 z.
Proof.
  unfold as_u64, as_i64. cbv zeta. destruct (Z.ltb _ _).
  - apply Zmod_mod.
  - by rewrite Zminus_mod, Z_mod_same_full, Z.sub_0_r, !Zmod_mod.
Qed.

#[export] Hint Resolve as_u64_ok as_i64_ok as_u64_id : sumo.

(** * Lemmas: strings *)

Lemma sapp_cons a s t : String a s +:+ t = String a (s +:+ t).
Proof. reflexivity. Qed.

Lemma sapp_nil_l s : "" +:+ s = s.
Proof. reflexivity. Qed.

#[export] Hint Rewrite sapp_cons sapp_nil_l : sumo_rw.

(** Induction on a string, with appends of constructors computed. *)
Ltac str_induction s :=
  let a := fresh "a" in let IH := fresh "IH" in
  induction s as [|a s IH]; intros; autorewrite with sumo_rw in *; simpl in *;
  try done; try (f_equal; by auto).

Lemma sapp_nil_r s : s +:+ "" = s.
Proof. str_induction s. Qed.

Lemma sapp_assoc s1 s2 s3 : (s1 +:+ s2) +:+ s3 = s1 +:+ s2 +:+ s3.
Proof. str_induction s1. Qed.

Lemma strip_prefix_app p s : strip_prefix p (p +:+ s) = Some s.
Proof. str_induction p. by rewrite Ascii.eqb_refl. Qed.

Lemma strip_prefix_Some p s r : strip_prefix p s = Some r ↔ s = p +:+ r.
Proof.
  split; [|intros ->; apply strip_prefix_app].
  revert s. induction p as [|a p IH]; intros [|b s]; simpl;
    autorewrite with sumo_rw; try naive_solver.
  destruct (Ascii.eqb_spec a b) as [->|]; [|done]. intros H. f_equal. by apply IH.
Qed.

Lemma as_bytes_inj s1 s2 : as_bytes s1 = as_bytes s2 → s1 = s2.
Proof.
  intros H. rewrite <- (String.string_of_list_byte_of_string s1).
  rewrite <- (String.string_of_list_byte_of_string s2).
  unfold as_bytes in H. by rewrite H.
Qed.

Lemma as_bytes_app s1 s2 : as_bytes (s1 +:+ s2) = as_bytes s1 ++ as_bytes s2.
Proof.
  unfold as_bytes, String.list_byte_of_string. induction s1 as [|a s1 IH]; [done|].
  rewrite sapp_cons. simpl. by rewrite IH.
Qed.

Lemma avoids_app c s1 s2 : avoids c (s1 +:+ s2) = avoids c s1 && avoids c s2.
Proof. str_induction s1. by rewrite IH, andb_assoc. Qed.

(** Splitting at a separator both sides avoid is unambiguous. *)
Lemma avoids_split c s1 s2 t1 t2 :
  avoids c s1 = true → avoids c s2 = true →
  s1 +:+ String c t1 = s2 +:+ String c t2 → s1 = s2 ∧ t1 = t2.
Proof.
  revert s2. induction s1 as [|a s1 IH]; intros [|b s2]; simpl;
    autorewrite with sumo_rw.
  - naive_solver.
  - intros _ [Hb _]%andb_true_iff H. simplify_eq. by rewrite Ascii.eqb_refl in Hb.
  - intros [Ha _]%andb_true_iff _ H. simplify_eq. by rewrite Ascii.eqb_refl in Ha.
  - intros [_ H1]%andb_true_iff [_ H2]%andb_true_iff H. simplify_eq.
    edestruct IH as [-> ->]; eauto.
Qed.

(** Two prefixes of the same length split a string the same way. *)
Lemma sapp_length_split s1 s2 t1 t2 :
  String.length s1 = String.length s2 →
  s1 +:+ t1 = s2 +:+ t2 → s1 = s2 ∧ t1 = t2.
Proof.
  revert s2. induction s1 as [|a s1 IH]; intros [|b s2]; simpl;
    autorewrite with sumo_rw; [by intros|done|done|].
  intros [= Hl] [= -> H]. by destruct (IH _ Hl H) as [-> ->].
Qed.

#[export] Hint Resolve elem_of_entries NoDup_entries_keys NoDup_entries : sumo.

(** * Lemmas: printed integers and joined lists *)

Lemma pretty_N_go_avoids c x s :
  avoids c "0123456789" = true → avoids c s = true → avoids c (pretty_N_go x s) = true.
Proof.
  intros Hc. revert s. induction (N.lt_wf_0 x) as [x _ IH]; intros s Hs.
  assert (x = 0 ∨ 0 < x)%N as [->|Hx] by lia; [by rewrite pretty_N_go_0|].
  rewrite pretty_N_go_step by done. apply IH; [by apply N.div_lt|].
  cbn [avoids]. rewrite Hs, andb_true_r. cbn [avoids] in Hc.
  repeat match goal with H : _ && _ = true |- _ => apply andb_true_iff in H as [? ?] end.
  unfold pretty_N_char. by repeat case_match.
Qed.

(** A printed integer consists of digits and at most a minus sign. *)
Lemma pretty_Z_avoids c (z : Z) :
  avoids c "-0123456789" = true → avoids c (pretty z) = true.
Proof.
  intros [Hm Hc]%andb_true_iff. fold (avoids c "0123456789") in Hc.
  assert (∀ p : positive, avoids c (pretty p) = true) as Hp.
  { intros p. unfold pretty, pretty_positive, pretty, pretty_N.
    rewrite decide_False by done. by apply pretty_N_go_avoids. }
  destruct z as [|p|p]; unfold pretty, pretty_Z; [|apply Hp|].
  - apply andb_true_iff in Hc as [H0 _]. cbn [avoids]. by rewrite H0.
  - rewrite avoids_app, Hp, andb_true_r. cbn [avoids]. by rewrite Hm.
Qed.

Lemma pretty_N_go_nonempty x s : s ≠ "" → pretty_N_go x s ≠ "".
Proof.
  revert s. induction (N.lt_wf_0 x) as [x _ IH]; intros s Hs.
  assert (x = 0 ∨ 0 < x)%N as [->|Hx] by lia; [by rewrite pretty_N_go_0|].
  rewrite pretty_N_go_step by done. apply IH; [by apply N.div_lt|done].
Qed.

Lemma pretty_Z_nonempty (z : Z) : pretty z ≠ "".
Proof.
  assert (∀ p : positive, pretty p ≠ "") as Hp.
  { intros p. unfold pretty, pretty_positive, pretty, pretty_N.
    rewrite decide_False, pretty_N_go_step by done. by apply pretty_N_go_nonempty. }
  destruct z as [|p|p]; unfold pretty, pretty_Z; [done|apply Hp|done].
Qed.

Lemma avoids_join c sep l :
  avoids c sep = true → Forall (λ s, avoids c s = true) l → avoids c (join sep l) = true.
Proof.
  intros Hsep. induction 1 as [|s [|s' l] Hs Hl IH]; [done|done|].
  cbn [join] in *. by rewrite !avoids_app, Hs, Hsep, IH.
Qed.

(** Joining non-empty texts that avoid the separator loses nothing. *)
Lemma join_inj c l1 l2 :
  Forall (λ s, avoids c s = true ∧ s ≠ "") l1 →
  Forall (λ s, avoids c s = true ∧ s ≠ "") l2 →
  join (String c "") l1 = join (String c "") l2 → l1 = l2.
Proof.
  assert (∀ s l, join (String c "") (s :: l) =
    match l with [] => s | _ => s +:+ String c (join (String c "") l) end) as Hj
    by by intros s [|].
  assert (∀ s t, avoids c s = true → s ≠ t +:+ String c "" +:+ "" ∧
    ∀ u, s ≠ t +:+ String c u) as Hne.
  { intros s t Hs. assert (∀ u, s ≠ t +:+ String c u) as Hu.
    { intros u ->. rewrite avoids_app in Hs. cbn [avoids] in Hs.
      rewrite Ascii.eqb_refl, andb_false_r in Hs. done. }
    split; [apply Hu|done]. }
  intros H1. revert l2. induction H1 as [|s1 l1 [Ha1 He1] Hl1 IH]; intros l2 H2.
  - destruct H2 as [|s2 l2 [Ha2 He2] Hl2]; [done|]. rewrite Hj.
    destruct l2; [by intros <-|]. by destruct s2.
  - destruct H2 as [|s2 l2 [Ha2 He2] Hl2]; rewrite !Hj.
    + destruct l1; [by intros ->|]. by destruct s1.
    + destruct l1 as [|t1 l1], l2 as [|t2 l2].
      * by intros ->.
      * intros Heq. by apply (Hne s1 s2) in Heq.
      * intros Heq. symmetry in Heq. by apply (Hne s2 s1) in Heq.
      * intros [-> Heq]%avoids_split; [|done..]. f_equal. by apply IH.
Qed.
