(* ===== verification/Ext.v ===== *)
(** Interfaces of the third-party code the towers call, as type classes whose
    laws are the documented behaviour the code relies on, and small concrete
    instances that show the laws are satisfiable.  Byte arrays of a fixed
    length ([[u8; N]]) live here too, since the interfaces speak of them. *)

From S2P Require Import Prelude.

(** * Byte arrays *)

#[export] Instance byte_eq_dec : EqDecision byte := Byte.byte_eq_dec.
#[export] Instance byte_countable : Countable byte :=
  inj_countable Byte.to_N Byte.of_N Byte.of_to_N.

(** [[u8; n]]. *)
Definition array (n : nat) : Type := dsig (λ b : list byte, length b = n).

(** [as_slice]. *)
Definition slice {n} (a : array n) : list byte := `a.

(** [[x; n]]. *)
Definition fill (n : nat) (x : byte) : array n :=
  dexist (replicate n x) (length_replicate n x).

(** [<[u8; n]>::try_from(&[u8])]. *)
Definition try_into (n : nat) (b : list byte) : option (array n) :=
  match decide (length b = n) with
  | left H => Some (dexist b H)
  | right _ => None
  end.

(** * The hex crate *)

Definition hex_lower (c : Ascii.ascii) : bool :=
  let n := Ascii.nat_of_ascii c in
  (Nat.leb 48 n && Nat.leb n 57) || (Nat.leb 97 n && Nat.leb n 102).

Fixpoint all_chars (p : Ascii.ascii → bool) (s : string) : bool :=
  match s with
  | EmptyString => true
  | String c s' => p c && all_chars p s'
  end.

(** [hex::encode] prints two lower-case digits per byte; [hex::decode] inverts
    it and accepts only texts of two digits per byte. *)
Class HexCodec := {
  hex_encode : list byte → string;
  hex_decode : string → option (list byte);
  hex_decode_encode b : hex_decode (hex_encode b) = Some b;
  hex_encode_lower b : all_chars hex_lower (hex_encode b) = true;
  hex_encode_length b : String.length (hex_encode b) = 2 * length b;
  hex_decode_length s b : hex_decode s = Some b → String.length s = 2 * length b;
}.

(** * The sha2 crate *)

(** An incremental SHA-256: feeding two chunks is feeding their concatenation. *)
Class Sha256 := {
  sha_state : Type;
  sha_new : sha_state;
  sha_update : sha_state → list byte → sha_state;
  sha_finalize : sha_state → array 32;
  sha_update_app st a b :
    sha_update (sha_update st a) b = sha_update st (a ++ b);
  sha_update_nil st : sha_update st [] = st;
}.

(** * Streaming AES-128-GCM (sumo-crypto, aes-gcm) *)

(** Feeding chunks to the encryptor, collecting the ciphertext. *)
Fixpoint run_stream {St : Type} (upd : St → list byte → option (St * list byte))
    (st : St) (chunks : list (list byte)) : option (St * list byte) :=
  match chunks with
  | [] => Some (st, [])
  | c :: cs =>
      '(st1, out1) ← upd st c;
      '(st2, out2) ← run_stream upd st1 cs;
      Some (st2, out1 ++ out2)
  end.

(** The ciphertext of a stream, tag included, decrypts to the stream's
    plaintext, whatever the chunking. *)
Class StreamAead := {
  aead_state : Type;
  aead_start : array 16 → array 12 → option aead_state;
  aead_update : aead_state → list byte → option (aead_state * list byte);
  aead_finalize : aead_state → option (array 16);
  aead_decrypt : array 16 → array 12 → list byte → option (list byte);
  aead_correct cek iv st0 chunks st1 ct tag :
    aead_start cek iv = Some st0 →
    run_stream aead_update st0 chunks = Some (st1, ct) →
    aead_finalize st1 = Some tag →
    aead_decrypt cek iv (ct ++ slice tag) = Some (concat chunks);
}.

(** * The zstd crate *)

(** A streaming compressor: [write_all] may emit nothing until a block is
    complete; [finish] flushes the frame.  The frame decodes to the input. *)
Class Zstd := {
  zstd_state : Type;
  zstd_new : Z → option zstd_state;
  zstd_write : zstd_state → list byte → option (zstd_state * list byte);
  zstd_finish : zstd_state → option (list byte);
  zstd_decode : list byte → option (list byte);
  zstd_correct level st0 chunks st1 out tail :
    zstd_new level = Some st0 →
    run_stream zstd_write st0 chunks = Some (st1, out) →
    zstd_finish st1 = Some tail →
    zstd_decode (out ++ tail) = Some (concat chunks);
}.

(** * Concrete instances *)

(** Hexadecimal digits. *)
Definition nibble_char (n : N) : Ascii.ascii :=
  Ascii.ascii_of_N (if (n <? 10)%N then n + 48 else n + 87).

Definition nibble_of_char (c : Ascii.ascii) : option N :=
  let n := Ascii.N_of_ascii c in
  if (48 <=? n)%N && (n <=? 57)%N then Some (n - 48)%N
  else if (97 <=? n)%N && (n <=? 102)%N then Some (n - 87)%N
  else if (65 <=? n)%N && (n <=? 70)%N then Some (n - 55)%N
  else None.

Fixpoint ref_hex_encode (b : list byte) : string :=
  match b with
  | [] => ""
  | x :: b' =>
      let n := Byte.to_N x in
      String (nibble_char (n / 16)) (String (nibble_char (n mod 16)) (ref_hex_encode b'))
  end.

Fixpoint ref_hex_decode (s : string) : option (list byte) :=
  match s with
  | EmptyString => Some []
  | String c (String d s') =>
      hi ← nibble_of_char c;
      lo ← nibble_of_char d;
      b ← Byte.of_N (hi * 16 + lo);
      rest ← ref_hex_decode s';
      Some (b :: rest)
  | String _ EmptyString => None
  end.

(** A toy hash: a polynomial fold, printed on 32 bytes. *)
Fixpoint z_bytes (n : nat) (z : N) : list byte :=
  match n with
  | O => []
  | S n' => default x00 (Byte.of_N (z mod 256)) :: z_bytes n' (z / 256)
  end.

Definition toy_fold (st : N) (b : list byte) : N :=
  foldl (λ h x, (h * 1099511628211 + Byte.to_N x + 1) mod 2 ^ 256)%N st b.

(** A toy compressor: it buffers everything and emits one framed block. *)
Definition toy_unframe (b : list byte) : option (list byte) :=
  match b with
  | x28 :: rest => Some rest
  | _ => None
  end.

(** * Lemmas *)

Lemma length_slice {n} (a : array n) : length (slice a) = n.
Proof. apply (proj2_dsig a). Qed.

Lemma slice_inj {n} (a b : array n) : slice a = slice b → a = b.
Proof. apply dsig_eq. Qed.

Lemma try_into_slice {n} (a : array n) : try_into n (slice a) = Some a.
Proof.
  unfold try_into. destruct (decide _) as [H|H].
  - f_equal. by apply slice_inj.
  - by destruct H; apply length_slice.
Qed.

Lemma try_into_Some n b a : try_into n b = Some a ↔ slice a = b.
Proof.
  split; [|intros <-; apply try_into_slice].
  unfold try_into. destruct (decide _); naive_solver.
Qed.

Lemma try_into_None n b : try_into n b = None ↔ length b ≠ n.
Proof. unfold try_into. destruct (decide _); naive_solver. Qed.

#[export] Hint Rewrite @length_slice @try_into_slice : sumo_rw.

Lemma all_chars_app p s t : all_chars p (s +:+ t) = all_chars p s && all_chars p t.
Proof. str_induction s. by rewrite IH, andb_assoc. Qed.

(** A text of characters satisfying [p] avoids every character that does not. *)
Lemma all_chars_avoids p c s : p c = false → all_chars p s = true → avoids c s = true.
Proof.
  intros Hc. induction s as [|a s IH]; simpl; [done|].
  intros [Ha Hs]%andb_true_iff. rewrite IH by done.
  destruct (Ascii.eqb_spec a c) as [->|]; [congruence|done].
Qed.

(** A text without white space is its own trim. *)
Definition black (n : nat) : Prop := 32 < n < 128.

Lemma is_white_black l : Forall black l → is_white l = false.
Proof.
  unfold black. intros Hl. destruct l as [|a [|b [|c [|d l]]]]; decompose_Forall; simpl; [done|..|done].
  - apply orb_false_iff. split; [apply andb_false_iff; right; apply Nat.leb_gt; lia|].
    apply Nat.eqb_neq. lia.
  - by replace (Nat.eqb a 194) with false by (symmetry; apply Nat.eqb_neq; lia).
  - replace (Nat.eqb a 225) with false by (symmetry; apply Nat.eqb_neq; lia).
    replace (Nat.eqb a 226) with false by (symmetry; apply Nat.eqb_neq; lia).
    by replace (Nat.eqb a 227) with false by (symmetry; apply Nat.eqb_neq; lia).
Qed.

Lemma drop_chars_keeps fuel f l : (∀ k, f (take k l) = false) → drop_chars fuel f l = l.
Proof.
  intros Hf. destruct fuel as [|fuel]; [done|]. cbn [drop_chars].
  rewrite !filter_cons_False; [done|..]; by rewrite Hf; intros [_ []].
Qed.

Lemma trim_black s : Forall black (code_units s) → trim s = s.
Proof.
  intros Hs. unfold trim. rewrite !(drop_chars_keeps _ is_white).
  2:{ intros k. by apply is_white_black, Forall_take. }
  rewrite drop_chars_keeps.
  2:{ intros k. by apply is_white_black, Forall_reverse, Forall_take, Forall_reverse. }
  rewrite reverse_involutive. unfold of_code_units, code_units.
  rewrite <- list_fmap_compose, (list_fmap_ext _ id), list_fmap_id.
  - apply String.string_of_list_ascii_of_string.
  - intros ? c _. apply Ascii.ascii_nat_embedding.
Qed.

Lemma trim_hex `{HexCodec} b : trim (hex_encode b) = hex_encode b.
Proof.
  apply trim_black. pose proof (hex_encode_lower b) as Hb. revert Hb. unfold code_units.
  generalize (hex_encode b). intros s. induction s as [|c s IH]; [constructor|].
  cbn. intros [Hc Hs]%andb_true_iff. constructor; [|auto]. unfold hex_lower in Hc. unfold black.
  apply orb_true_iff in Hc as [[H1 H2]%andb_true_iff|[H1 H2]%andb_true_iff];
    apply Nat.leb_le in H1, H2; lia.
Qed.

(** The incremental interface computes the digest of the concatenation. *)
Lemma sha_update_concat `{Sha256} st chunks :
  foldl sha_update st chunks = sha_update st (concat chunks).
Proof.
  revert st. induction chunks as [|c cs IH]; intros st; simpl.
  - by rewrite sha_update_nil.
  - by rewrite IH, sha_update_app.
Qed.

Lemma hex_encode_inj `{HexCodec} a b : hex_encode a = hex_encode b → a = b.
Proof.
  intros Heq. apply (inj Some). by rewrite <- !hex_decode_encode, Heq.
Qed.

Lemma nibble_roundtrip n : (n < 16)%N → nibble_of_char (nibble_char n) = Some n.
Proof.
  intros Hn. assert (n ∈ N.of_nat <$> seq 0 16) as Hin.
  { apply list_elem_of_fmap. exists (N.to_nat n). split; [by rewrite N2Nat.id|].
    apply elem_of_seq. lia. }
  repeat (apply elem_of_cons in Hin as [->|Hin]; [done|]). by apply elem_of_nil in Hin.
Qed.

Lemma nibble_char_lower n : (n < 16)%N → hex_lower (nibble_char n) = true.
Proof.
  intros Hn. assert (n ∈ N.of_nat <$> seq 0 16) as Hin.
  { apply list_elem_of_fmap. exists (N.to_nat n). split; [by rewrite N2Nat.id|].
    apply elem_of_seq. lia. }
  repeat (apply elem_of_cons in Hin as [->|Hin]; [done|]). by apply elem_of_nil in Hin.
Qed.

Lemma byte_to_N_lt x : (Byte.to_N x < 256)%N.
Proof. by destruct x. Qed.

Lemma byte_div_lt x : (Byte.to_N x / 16 < 16)%N.
Proof. apply N.Div0.div_lt_upper_bound, (byte_to_N_lt x). Qed.

Lemma byte_mod_lt x : (Byte.to_N x mod 16 < 16)%N.
Proof. by apply N.mod_lt. Qed.

Lemma ref_hex_decode_encode b : ref_hex_decode (ref_hex_encode b) = Some b.
Proof.
  induction b as [|x b IH]; [done|]. simpl.
  rewrite !nibble_roundtrip by auto using byte_div_lt, byte_mod_lt. simpl.
  rewrite N.mul_comm, <- N.div_mod by done. by rewrite Byte.of_to_N, IH.
Qed.

Lemma ref_hex_encode_lower b : all_chars hex_lower (ref_hex_encode b) = true.
Proof.
  induction b as [|x b IH]; [done|]. simpl.
  by rewrite !nibble_char_lower, IH by auto using byte_div_lt, byte_mod_lt.
Qed.

Lemma ref_hex_encode_length b : String.length (ref_hex_encode b) = 2 * length b.
Proof. induction b as [|x b IH]; simpl; lia. Qed.

Lemma ref_hex_decode_length s b :
  ref_hex_decode s = Some b → String.length s = 2 * length b.
Proof.
  revert b. induction s as [s IH] using (well_founded_ind
    (well_founded_ltof _ String.length)); intros b.
  destruct s as [|c [|d s]]; simpl; [naive_solver|done|].
  intros H. simplify_option_eq. rename select (ref_hex_decode s = Some _) into Hs.
  apply IH in Hs; [simpl; lia|]. unfold ltof. simpl. lia.
Qed.

(** ** Instances *)

#[export] Instance ref_hex : HexCodec := {|
  hex_encode := ref_hex_encode;
  hex_decode := ref_hex_decode;
  hex_decode_encode := ref_hex_decode_encode;
  hex_encode_lower := ref_hex_encode_lower;
  hex_encode_length := ref_hex_encode_length;
  hex_decode_length := ref_hex_decode_length;
|}.

Lemma z_bytes_length n z : length (z_bytes n z) = n.
Proof. revert z. induction n; intros z; simpl; auto. Qed.

Lemma toy_fold_app st a b : toy_fold (toy_fold st a) b = toy_fold st (a ++ b).
Proof. unfold toy_fold. by rewrite foldl_app. Qed.

#[export] Instance toy_sha : Sha256 := {|
  sha_state := N;
  sha_new := 14695981039346656037%N;
  sha_update := toy_fold;
  sha_finalize st := dexist (z_bytes 32 st) (z_bytes_length 32 st);
  sha_update_app := toy_fold_app;
  sha_update_nil _ := eq_refl;
|}.

(** A toy cipher: the plaintext, followed by a keyed checksum as the tag. *)
Definition toy_tag (st : N) : array 16 :=
  dexist (z_bytes 16 st) (z_bytes_length 16 st).

Definition toy_start (cek : array 16) (iv : array 12) : N :=
  toy_fold 0 (slice cek ++ slice iv).

Definition toy_decrypt (cek : array 16) (iv : array 12) (ct : list byte) :
    option (list byte) :=
  let n := length ct - 16 in
  if decide (drop n ct = slice (toy_tag (toy_fold (toy_start cek iv) (take n ct))))
  then Some (take n ct) else None.

Lemma toy_stream_run st0 chunks st1 ct :
  run_stream (λ st b, Some (toy_fold st b, b)) st0 chunks = Some (st1, ct) →
  st1 = toy_fold st0 (concat chunks) ∧ ct = concat chunks.
Proof.
  revert st0 st1 ct. induction chunks as [|c cs IH]; intros st0 st1 ct; simpl.
  - naive_solver.
  - intros ([st2 out2] & Hrun & [= <- <-])%bind_Some.
    apply IH in Hrun as [-> ->]. by rewrite toy_fold_app.
Qed.

Lemma toy_aead_correct cek iv st0 chunks st1 ct tag :
  Some (toy_start cek iv) = Some st0 →
  run_stream (λ st b, Some (toy_fold st b, b)) st0 chunks = Some (st1, ct) →
  Some (toy_tag st1) = Some tag →
  toy_decrypt cek iv (ct ++ slice tag) = Some (concat chunks).
Proof.
  intros [= <-] Hrun [= <-]. apply toy_stream_run in Hrun as [-> ->].
  unfold toy_decrypt. rewrite length_app, length_slice, Nat.add_sub.
  rewrite take_app_length, drop_app_length. by rewrite decide_True.
Qed.

#[export] Instance toy_aead : StreamAead := {|
  aead_state := N;
  aead_start cek iv := Some (toy_start cek iv);
  aead_update st b := Some (toy_fold st b, b);
  aead_finalize st := Some (toy_tag st);
  aead_decrypt := toy_decrypt;
  aead_correct := toy_aead_correct;
|}.

Lemma toy_zstd_run st0 chunks st1 out :
  run_stream (λ st b, Some (st ++ b, [])) st0 chunks = Some (st1, out) →
  st1 = st0 ++ concat chunks ∧ out = @nil byte.
Proof.
  revert st0 st1 out. induction chunks as [|c cs IH]; intros st0 st1 out; simpl.
  - rewrite app_nil_r. naive_solver.
  - intros ([st2 out2] & Hrun & [= <- <-])%bind_Some.
    apply IH in Hrun as [-> ->]. by rewrite <- app_assoc.
Qed.

Lemma toy_zstd_correct (level : Z) st0 chunks st1 out tail :
  Some [] = Some st0 →
  run_stream (λ st b, Some (st ++ b, [])) st0 chunks = Some (st1, out) →
  Some (x28 :: st1) = Some tail →
  toy_unframe (out ++ tail) = Some (concat chunks).
Proof.
  intros [= <-] Hrun [= <-]. by apply toy_zstd_run in Hrun as [-> ->].
Qed.

#[export] Instance toy_zstd : Zstd := {|
  zstd_state := list byte;
  zstd_new _ := Some [];
  zstd_write st b := Some (st ++ b, []);
  zstd_finish st := Some (x28 :: st);
  zstd_decode := toy_unframe;
  zstd_correct := toy_zstd_correct;
|}.
