(* ===== verification/Sha.v ===== *)
(** SHA-256 as FIPS 180-4 defines it: an instance of the interface of the sha2
    crate on which the repository's own test vectors evaluate. *)

From S2P Require Import Prelude Ext.
#[local] Open Scope N_scope.

(** * 32-bit words *)

Definition w32 (x : N) : N := N.land x 0xffffffff.
Definition add32 (x y : N) : N := w32 (x + y).
Definition rotr (n x : N) : N :=
  N.lor (N.shiftr x n) (w32 (N.shiftl x (32 - n))).
Definition xor3 (x y z : N) : N := N.lxor x (N.lxor y z).

Definition big_sigma0 (x : N) : N := xor3 (rotr 2 x) (rotr 13 x) (rotr 22 x).
Definition big_sigma1 (x : N) : N := xor3 (rotr 6 x) (rotr 11 x) (rotr 25 x).
Definition small_sigma0 (x : N) : N := xor3 (rotr 7 x) (rotr 18 x) (N.shiftr x 3).
Definition small_sigma1 (x : N) : N := xor3 (rotr 17 x) (rotr 19 x) (N.shiftr x 10).
Definition choose (x y z : N) : N :=
  N.lxor (N.land x y) (N.land (N.lxor x 0xffffffff) z).
Definition majority (x y z : N) : N := xor3 (N.land x y) (N.land x z) (N.land y z).

(** ** Constants *)

Definition is_prime (n : N) : bool :=
  (1 <? n) && forallb (λ d, (n <=? N.of_nat d) || negb (n mod N.of_nat d =? 0)) (seq 2 16).

(** The primes up to the 64th. *)
Definition primes : list N := filter is_prime (N.of_nat <$> seq 0 312).

(** The root of [x] that [power] inverts, rounded down, from bit [n] on. *)
Fixpoint root_bits (power : N → N) (x : N) (n : nat) (r : N) : N :=
  match n with
  | O => r
  | S n =>
      let r' := N.setbit r (N.of_nat n) in
      root_bits power x n (if power r' <=? x then r' else r)
  end.

Definition square (r : N) : N := r * r.
Definition cube (r : N) : N := r * r * r.

(** The first 32 bits of the fractional parts of the roots of primes. *)
Definition square_root_word (p : N) : N := w32 (root_bits square (N.shiftl p 64) 40 0).
Definition cube_root_word (p : N) : N := w32 (root_bits cube (N.shiftl p 96) 40 0).

Definition round_constants : list N := Eval vm_compute in cube_root_word <$> primes.

(** * Blocks *)

(** The eight words of the chaining value. *)
Record Words := mkWords { wa : N; wb : N; wc : N; wd : N; we : N; wf : N; wg : N; wh : N }.

Definition words_of (l : list N) : Words :=
  let w i := nth i l 0 in
  mkWords (w 0%nat) (w 1%nat) (w 2%nat) (w 3%nat) (w 4%nat) (w 5%nat) (w 6%nat) (w 7%nat).

Definition initial_words : Words :=
  Eval vm_compute in words_of (square_root_word <$> take 8 primes).

(** One round with constant [k] and schedule word [w]. *)
Definition sha_round (v : Words) (k w : N) : Words :=
  let t1 := w32 (wh v + big_sigma1 (we v) + choose (we v) (wf v) (wg v) + k + w) in
  let t2 := add32 (big_sigma0 (wa v)) (majority (wa v) (wb v) (wc v)) in
  mkWords (add32 t1 t2) (wa v) (wb v) (wc v) (add32 (wd v) t1) (we v) (wf v) (wg v).

(** The next word of the schedule, given the last sixteen. *)
Definition next_word (window : list N) : N :=
  w32 (small_sigma1 (nth 14 window 0) + nth 9 window 0
       + small_sigma0 (nth 1 window 0) + nth 0 window 0).

Fixpoint sha_rounds (ks window : list N) (v : Words) : Words :=
  match ks with
  | [] => v
  | k :: ks =>
      sha_rounds ks (tail window ++ [next_word window]) (sha_round v k (nth 0 window 0))
  end.

Definition compress (v : Words) (block : list N) : Words :=
  let v' := sha_rounds round_constants block v in
  mkWords (add32 (wa v) (wa v')) (add32 (wb v) (wb v')) (add32 (wc v) (wc v'))
          (add32 (wd v) (wd v')) (add32 (we v) (we v')) (add32 (wf v) (wf v'))
          (add32 (wg v) (wg v')) (add32 (wh v) (wh v')).

(** * The incremental hasher *)

(** The chaining value, the full words of the block being filled and the bytes
    of the word being filled, both latest first, and the bytes seen. *)
Record ShaState := mkShaState {
  st_words : Words;
  st_block : list N;
  st_partial : list byte;
  st_length : N;
}.

Definition sha_init : ShaState := mkShaState initial_words [] [] 0.

(** The big-endian number of four bytes, latest first. *)
Definition word_of (l : list byte) : N :=
  foldr (λ b acc, acc * 256 + Byte.to_N b) 0 l.

Definition push_word (s : ShaState) (w : N) : ShaState :=
  let block := w :: st_block s in
  if Nat.eqb (length block) 16
  then mkShaState (compress (st_words s) (reverse block)) [] [] (st_length s)
  else mkShaState (st_words s) block [] (st_length s).

Definition push_byte (s : ShaState) (b : byte) : ShaState :=
  let partial := b :: st_partial s in
  let s' := mkShaState (st_words s) (st_block s) partial (st_length s + 1) in
  if Nat.eqb (length partial) 4 then push_word s' (word_of partial) else s'.

Definition byte_of (n : N) : byte := default x00 (Byte.of_N (N.land n 255)).

(** The four bytes of a word. *)
Definition word_bytes (w : N) : list byte :=
  [byte_of (N.shiftr w 24); byte_of (N.shiftr w 16); byte_of (N.shiftr w 8); byte_of w].

(** The padding after [n] bytes: a set bit, zeros up to the last eight bytes of a
    block, the length in bits. *)
Definition sha_padding (n : N) : list byte :=
  x80 :: replicate (N.to_nat ((119 - n mod 64) mod 64)) x00
  ++ word_bytes (N.shiftr (n * 8) 32) ++ word_bytes (n * 8).

Definition words_bytes (v : Words) : list byte :=
  concat (word_bytes <$> [wa v; wb v; wc v; wd v; we v; wf v; wg v; wh v]).

Lemma words_bytes_length v : length (words_bytes v) = 32%nat.
Proof. done. Qed.

Definition sha_finish (s : ShaState) : array 32 :=
  let v := st_words (foldl push_byte s (sha_padding (st_length s))) in
  dexist (words_bytes v) (words_bytes_length v).

(** Chunks do not matter: the state is a fold over bytes. *)
Definition fips_sha : Sha256 := {|
  sha_state := ShaState;
  sha_new := sha_init;
  sha_update := foldl push_byte;
  sha_finalize := sha_finish;
  sha_update_app st a b := eq_sym (foldl_app push_byte a b st);
  sha_update_nil st := eq_refl;
|}.

(** The padding completes the last block. *)
Lemma sha_padding_length n : (n + N.of_nat (length (sha_padding n))) mod 64 = 0.
Proof.
  assert (N.of_nat (length (sha_padding n)) = 9 + (119 - n mod 64) mod 64) as ->.
  { unfold sha_padding. cbn [length]. rewrite !length_app, length_replicate.
    cbn [word_bytes length]. lia. }
  pose proof (N.mod_lt n 64 ltac:(done)) as Hr. pose proof (N.Div0.div_mod n 64) as Hn.
  set (q := n / 64) in *. set (r := n mod 64) in *. clearbody q r.
  destruct (decide (r <= 55)).
  - replace (119 - r) with (55 - r + 1 * 64) by lia.
    rewrite N.Div0.mod_add, (N.mod_small (55 - r)) by lia.
    replace (n + (9 + (55 - r))) with ((q + 1) * 64) by lia. apply N.Div0.mod_mul.
  - rewrite (N.mod_small (119 - r)) by lia.
    replace (n + (9 + (119 - r))) with ((q + 2) * 64) by lia. apply N.Div0.mod_mul.
Qed.

(** * Test vectors of the standard *)

Definition digest (text : string) : string :=
  ref_hex_encode (slice (sha_finish (foldl push_byte sha_init (as_bytes text)))).

Lemma sha_vectors :
  digest "" = "e3b0c44298fc1c149afbf4c8996fb92427ae41e4649b934ca495991b7852b855" ∧
  digest "abc" = "ba7816bf8f01cfea414140de5dae2223b00361a396177a9cb410ff61f20015ad" ∧
  digest "abcdbcdecdefdefgefghfghighijhijkijkljklmklmnlmnomnopnopq" =
    "248d6a61d20638b8e5c026930c3e6039a33ce45964ff2167f6ecedd419db06c1".
Proof. split_and!; vm_compute; reflexivity. Qed.
