(* ===== verification/Async.v ===== *)
(** Asynchronous code: the handlers of the towers are futures that a
    multi-threaded runtime interleaves at their await points and drops when a
    client goes away.  A future is a tree of awaited calls, a pool of futures
    takes steps over one shared state, and a rely-guarantee judgement carries
    per-future proofs to every interleaving and cancellation of the pool. *)

From S2P Require Import Prelude.
From stdpp Require Import relations.

(** * Futures *)

(** A suspended computation on a shared state [S]: finished, or awaiting the call
    [call], after which it continues on the call's answer.  [cancel] is what its
    destructors do when it is dropped at this await point. *)
Inductive fut (S A : Type) : Type :=
  | Ready (a : A)
  | Await (X : Type) (cancel : S → S) (call : S → S * X) (k : X → fut S A).
Arguments Ready {_ _} _.
Arguments Await {_ _ _} _ _ _.

Fixpoint fut_bind {S A B} (f : A → fut S B) (m : fut S A) : fut S B :=
  match m with
  | Ready a => f a
  | Await c call k => Await c call (λ x, fut_bind f (k x))
  end.

Definition fut_map {S A B} (f : A → B) : fut S A → fut S B := fut_bind (λ a, Ready (f a)).

(** A future of a [Result]: [async fn(..) -> Result<A, E>]. *)
Definition task (S E A : Type) : Type := fut S (result E A).

#[export] Instance task_ret (S E : Type) : MRet (task S E) := λ A a, Ready (Ok a).
#[export] Instance task_bind (S E : Type) : MBind (task S E) := λ A B f m,
  fut_bind (λ r, match r with Ok a => f a | Err e => Ready (Err e) end) m.

(** One awaited call, with nothing to destroy. *)
Definition call {S E A} (m : act S E A) : task S E A := Await id m Ready.

(** Code between two await points that does not touch the shared state. *)
Definition now {S E A} (r : result E A) : task S E A := Ready r.

Fixpoint fold_task {S E A B} (f : B → A → task S E B) (l : list A) (b : B) : task S E B :=
  match l with
  | [] => mret b
  | x :: l' => b' ← f b x; fold_task f l' b'
  end.

(** A future on a part of the state, [get] and [put] the part. *)
Fixpoint focus {S T A} (get : S → T) (put : T → S → S) (m : fut T A) : fut S A :=
  match m with
  | Ready a => Ready a
  | Await c call k =>
      Await (λ s, put (c (get s)) s)
        (λ s, let '(t, x) := call (get s) in (put t s, x))
        (λ x, focus get put (k x))
  end.

(** A fallible one, [?] converting its errors. *)
Definition zoom {S T E F A} (get : S → T) (put : T → S → S) (f : E → F)
    (m : task T E A) : task S F A :=
  fut_map (map_err f) (focus get put m).

(** A future that owns a local value [k] with a destructor: [drop] runs when the
    future ends and when it is dropped at an await point. *)
Fixpoint owning {S K A} (drop : S * K → S) (k : K) (m : fut (S * K) A) : fut S A :=
  match m with
  | Ready a => Await (λ s, drop (s, k)) (λ s, (drop (s, k), ())) (λ _, Ready a)
  | Await c call next =>
      Await (λ s, drop (c (s, k)))
        (λ s, let '((s', k'), x) := call (s, k) in (s', (k', x)))
        (λ '(k', x), owning drop k' (next x))
  end.

(** Run alone: every call in order, no one else in between. *)
Fixpoint run {S A} (m : fut S A) (s : S) : S * A :=
  match m with
  | Ready a => (s, a)
  | Await _ call k => let '(s', x) := call s in run (k x) s'
  end.

(** A future whose awaits destroy nothing by themselves. *)
Fixpoint plain {S A} (m : fut S A) : Prop :=
  match m with
  | Ready _ => True
  | Await c _ k => (∀ s, c s = s) ∧ ∀ x, plain (k x)
  end.

(** * The pool *)

(** A request being served: its future, or the destructors of a dropped one. *)
Inductive thread (S R : Type) : Type :=
  | Running (m : fut S R)
  | Dropping (cancel : S → S)
  | Cancelled.
Arguments Running {_ _} _.
Arguments Dropping {_ _} _.
Arguments Cancelled {_ _}.

(** What a thread can do next: its awaited call completes; it is dropped before
    the call started; it is dropped with the call in flight, which then completes
    on its own (a blocking file operation, a statement already sent). *)
Definition thread_next {S R} (t : thread S R) (s : S) : list (thread S R * S) :=
  match t with
  | Running (Ready _) | Cancelled => []
  | Running (Await c call k) =>
      let '(s', x) := call s in
      [(Running (k x), s'); (Dropping c, s); (Dropping c, s')]
  | Dropping c => [(Cancelled, c s)]
  end.

Inductive pool_step {S R} : list (thread S R) * S → list (thread S R) * S → Prop :=
  | pool_step_at ts s i t t' s' :
      ts !! i = Some t → (t', s') ∈ thread_next t s →
      pool_step (ts, s) (<[i := t']> ts, s').

(** A schedule picks a thread and one of its possibilities, again and again. *)
Fixpoint run_schedule {S R} (sched : list (nat * nat)) (c : list (thread S R) * S) :
    option (list (thread S R) * S) :=
  match sched with
  | [] => Some c
  | (i, j) :: sched' =>
      t ← c.1 !! i;
      '(t', s') ← thread_next t c.2 !! j;
      run_schedule sched' (<[i := t']> c.1, s')
  end.

(** * Rely and guarantee *)

Section rely.
Context {S G : Type} (rely : G → S → S → Prop) (guar : G → S → G → S → Prop).

(** The destructors keep the promise from every state the others may reach. *)
Definition safe_drop (o : G) (c : S → S) (s : S) : Prop :=
  ∀ s', rely o s s' → guar o s' o (c s').

(** From [s], owning [o], every call of the future keeps its promise whatever the
    others do in between, dropping it at any point does too, and its answer
    satisfies [Q]. *)
Fixpoint safe {R} (Q : G → R → S → Prop) (o : G) (m : fut S R) (s : S) : Prop :=
  match m with
  | Ready r => Q o r s
  | Await c call k =>
      safe_drop o c s ∧
      ∀ s', rely o s s' → ∃ o',
        guar o s' o' (call s').1 ∧ safe_drop o' c (call s').1 ∧
        safe Q o' (k (call s').2) (call s').1
  end.

Definition safe_thread {R} (Q : G → R → S → Prop) (o : G) (t : thread S R) (s : S) : Prop :=
  match t with
  | Running m => safe Q o m s
  | Dropping c => safe_drop o c s
  | Cancelled => True
  end.

(** Every thread of the pool is safe, each with what it owns. *)
Definition safe_pool {R} (Qs : list (G → R → S → Prop)) (os : list G)
    (c : list (thread S R) * S) : Prop :=
  length os = length c.1 ∧ length Qs = length c.1 ∧
  ∀ i Q o t, Qs !! i = Some Q → os !! i = Some o → c.1 !! i = Some t →
    safe_thread Q o t c.2.
End rely.

(** * Lemmas: running alone *)

Section run.
Context {S : Type}.

Lemma run_fut_bind {A B} (f : A → fut S B) (m : fut S A) s :
  run (fut_bind f m) s = let '(s', a) := run m s in run (f a) s'.
Proof.
  revert s. induction m as [a|X c cl k IH]; intros s; simpl; [done|].
  destruct (cl s) as [s' x]. apply IH.
Qed.

(** Awaiting in sequence is sequencing. *)
Lemma run_bind {E A B} (m : task S E A) (f : A → task S E B) (m' : act S E A) f' s :
  (∀ s, run m s = m' s) → (∀ a s, run (f a) s = f' a s) →
  run (m ≫= f) s = (m' ≫= f') s.
Proof.
  intros Hm Hf. unfold mbind at 1, task_bind. rewrite run_fut_bind, Hm.
  unfold mbind, act_bind. destruct (m' s) as [s' [a|e]]; simpl; [apply Hf|done].
Qed.

Lemma run_call {E A} (m : act S E A) s : run (call m) s = m s.
Proof. simpl. by destruct (m s). Qed.

Lemma run_fold {E A B} (f : B → A → task S E B) f' l b s :
  (∀ b a s, run (f b a) s = f' b a s) →
  run (fold_task f l b) s = fold_act f' l b s.
Proof.
  intros Hf. revert b s. induction l as [|x l IH]; intros b s; simpl; [done|].
  by apply run_bind; auto.
Qed.

Lemma run_focus {T A} (get : S → T) put (m : fut T A) s :
  (∀ t s, get (put t s) = t) → (∀ t1 t2 s, put t2 (put t1 s) = put t2 s) →
  (∀ s, put (get s) s = s) →
  run (focus get put m) s = let '(t, a) := run m (get s) in (put t s, a).
Proof.
  intros Hgp Hpp Hpg. revert s. induction m as [a|X c cl k IH]; intros s; simpl.
  { by rewrite Hpg. }
  destruct (cl (get s)) as [t x]. simpl. rewrite IH, Hgp.
  destruct (run (k x) t). by rewrite Hpp.
Qed.

Lemma run_fut_map {A B} (f : A → B) (m : fut S A) s :
  run (fut_map f m) s = let '(s', a) := run m s in (s', f a).
Proof. unfold fut_map. rewrite run_fut_bind. by destruct (run m s). Qed.

Lemma run_zoom {T E F A} (get : S → T) put (f : E → F) (m : task T E A) s :
  (∀ t s, get (put t s) = t) → (∀ t1 t2 s, put t2 (put t1 s) = put t2 s) →
  (∀ s, put (get s) s = s) →
  run (zoom get put f m) s = let '(t, r) := run m (get s) in (put t s, map_err f r).
Proof.
  intros Hgp Hpp Hpg. unfold zoom. rewrite run_fut_map, run_focus by done.
  by destruct (run m (get s)).
Qed.

Lemma run_owning {K A} (drop : S * K → S) (m : fut (S * K) A) s k :
  run (owning drop k m) s = let '(p, a) := run m (s, k) in (drop p, a).
Proof.
  revert s k. induction m as [a|X c cl next IH]; intros s k; simpl; [done|].
  destruct (cl (s, k)) as [[s' k'] x]. simpl. apply IH.
Qed.
End run.

(** * Lemmas: plain futures *)

Create HintDb plain.

Section plain.
Context {S : Type}.

Lemma plain_fut_bind {A B} (f : A → fut S B) (m : fut S A) :
  plain m → (∀ a, plain (f a)) → plain (fut_bind f m).
Proof.
  intros Hm Hf. induction m as [a|X c cl k IH]; simpl; [apply Hf|].
  destruct Hm as [Hc Hk]. auto.
Qed.

Lemma plain_bind {E A B} (m : task S E A) (f : A → task S E B) :
  plain m → (∀ a, plain (f a)) → plain (m ≫= f).
Proof. intros Hm Hf. apply plain_fut_bind; [done|]. by intros [a|e]. Qed.

Lemma plain_ret {E A} (a : A) : plain (mret a : task S E A).
Proof. exact I. Qed.

Lemma plain_now {E A} (r : result E A) : plain (now r : task S E A).
Proof. exact I. Qed.

Lemma plain_call {E A} (m : act S E A) : plain (call m).
Proof. by split. Qed.

Lemma plain_fold {E A B} (f : B → A → task S E B) l b :
  (∀ b a, plain (f b a)) → plain (fold_task f l b).
Proof. intros Hf. revert b. induction l; intros b; simpl; [done|]. by apply plain_bind. Qed.

Lemma plain_zoom {T E F A} (get : S → T) put (f : E → F) (m : task T E A) :
  (∀ s, put (get s) s = s) → plain m → plain (zoom get put f m).
Proof.
  intros Hpg Hm. apply plain_fut_bind; [|done].
  induction m as [a|X c cl k IH]; simpl; [done|]. destruct Hm as [Hc Hk].
  split; [intros s; by rewrite Hc|auto].
Qed.
End plain.

#[export] Hint Resolve plain_bind plain_ret plain_now plain_call plain_fold : plain.

(** * Lemmas: the pool *)

Section pool.
Context {S R : Type}.
Implicit Types (t : thread S R) (ts : list (thread S R)) (s : S).

Lemma run_schedule_steps sched (c c' : list (thread S R) * S) :
  run_schedule sched c = Some c' → rtc pool_step c c'.
Proof.
  revert c. induction sched as [|[i j] sched IH]; intros [ts s]; simpl.
  - by intros [= <-].
  - intros (t & Ht & ([t' s'] & Hn & Hr)%bind_Some)%bind_Some.
    eapply rtc_l; [|by apply IH]. apply pool_step_at with t; [done|].
    by apply list_elem_of_lookup_2 in Hn.
Qed.

(** What is left of a thread after one of its steps. *)
Definition thread_child t' t : Prop := ∃ s s', (t', s') ∈ thread_next t s.

Lemma thread_acc t : Acc thread_child t.
Proof.
  assert (Acc thread_child Cancelled) as Hc
    by (constructor; intros t' (s & s' & ?); set_solver).
  assert (∀ c, Acc thread_child (Dropping c)) as Hd.
  { intros c. constructor. intros t' (s & s' & Hn). simpl in Hn.
    apply list_elem_of_singleton in Hn. by injection Hn as -> _. }
  destruct t as [m|c|]; [|done|done].
  induction m as [a|X c cl k IH]; constructor; intros t' (s & s' & Hn); simpl in Hn.
  - set_solver.
  - destruct (cl s) as [s1 x].
    repeat (apply elem_of_cons in Hn as [[= -> _]|Hn]); [apply IH|done..|set_solver].
Qed.

Definition pool_child ts' ts : Prop :=
  ∃ i t t', ts !! i = Some t ∧ thread_child t' t ∧ ts' = <[i := t']> ts.

Lemma pool_acc ts : Acc pool_child ts.
Proof.
  induction ts as [|t ts IH].
  { constructor. intros ts' (i & t & t' & Hi & _). by rewrite lookup_nil in Hi. }
  revert t. induction IH as [ts Hts IHts]. intros t.
  induction (thread_acc t) as [t Ht IHt]. constructor.
  intros ts' ([|i] & u & u' & Hi & Hc & ->); simpl in Hi.
  - injection Hi as ->. simpl. by apply IHt.
  - simpl. apply IHts. by exists i, u, u'.
Qed.

(** Every schedule of a pool comes to an end: no future runs forever. *)
Lemma pool_terminates (c : list (thread S R) * S) : sn pool_step c.
Proof.
  destruct c as [ts s]. revert s. induction (pool_acc ts) as [ts _ IH]. intros s.
  constructor. intros [ts' s'] Hstep. unfold flip in Hstep.
  inversion Hstep as [? ? i t t' ? Hi Hn]; subst. apply IH.
  exists i, t, t'. split_and!; [done| |done]. by exists s, s'.
Qed.

(** A pool that cannot move has served or dropped every request. *)
Definition settled (c : list (thread S R) * S) : Prop :=
  ∀ t, t ∈ c.1 → t = Cancelled ∨ ∃ r, t = Running (Ready r).

Lemma nf_settled (c : list (thread S R) * S) : nf pool_step c → settled c.
Proof.
  destruct c as [ts s]. intros Hnf t Ht. simpl in Ht.
  apply list_elem_of_lookup in Ht as [i Hi].
  destruct t as [[r|X c cl k]|c|]; [by right; exists r| | |by left]; exfalso; apply Hnf.
  - destruct (cl s) as [s' x] eqn:Hcl.
    exists (<[i := Running (k x)]> ts, s'). eapply pool_step_at; [done|].
    simpl. rewrite Hcl. set_solver.
  - exists (<[i := Cancelled]> ts, c s). eapply pool_step_at; [done|]. simpl. set_solver.
Qed.
End pool.

(** * Lemmas: rely and guarantee *)

Section rely_lemmas.
Context {S G : Type} (rely : G → S → S → Prop) (guar : G → S → G → S → Prop).
Context (rely_trans : ∀ o s1 s2 s3, rely o s1 s2 → rely o s2 s3 → rely o s1 s3).
Context (guar_refl : ∀ o s s', rely o s s' → guar o s' o s').
Implicit Types (o : G) (s : S).

Lemma safe_drop_id o s : safe_drop rely guar o id s.
Proof. intros s'. apply guar_refl. Qed.

Lemma safe_drop_rely o c s s' :
  safe_drop rely guar o c s → rely o s s' → safe_drop rely guar o c s'.
Proof. intros Hd Hr s2 Hr2. by eapply Hd, rely_trans. Qed.

Lemma safe_mono {R} (Q Q' : G → R → S → Prop) m :
  (∀ o r s, Q o r s → Q' o r s) →
  ∀ o s, safe rely guar Q o m s → safe rely guar Q' o m s.
Proof.
  intros HQ. induction m as [r|X c cl k IH]; simpl; intros o s; [apply HQ|].
  intros [Hd Hs]. split; [done|]. intros s' Hr.
  destruct (Hs s' Hr) as (o' & ? & ? & ?). exists o'. auto.
Qed.

Lemma safe_fut_bind {A B} (f : A → fut S B) (m : fut S A) Q :
  ∀ o s, safe rely guar (λ o a s, safe rely guar Q o (f a) s) o m s →
  safe rely guar Q o (fut_bind f m) s.
Proof.
  induction m as [a|X c cl k IH]; simpl; intros o s; [done|].
  intros [Hd Hs]. split; [done|]. intros s' Hr.
  destruct (Hs s' Hr) as (o' & ? & ? & ?). exists o'. auto.
Qed.

(** Sequencing fallible futures: an error skips the rest. *)
Lemma safe_bind {E A B} (m : task S E A) (f : A → task S E B) (Q : G → result E B → S → Prop) o s :
  safe rely guar (λ o r s, match r with
    | Ok a => safe rely guar Q o (f a) s
    | Err e => Q o (Err e) s
    end) o m s →
  safe rely guar Q o (m ≫= f) s.
Proof.
  intros Hm. apply safe_fut_bind. eapply safe_mono; [|exact Hm].
  by intros o' [a|e] s'.
Qed.

(** A local check: [?] on an option. *)
Lemma safe_ok_or {E A B} (x : option A) (e : E) (f : A → task S E B)
    (Q : G → result E B → S → Prop) o s :
  (x = None → Q o (Err e) s) → (∀ a, x = Some a → safe rely guar Q o (f a) s) →
  safe rely guar Q o (now (ok_or e x) ≫= f) s.
Proof. intros Hn Hs. destruct x as [a|]; [by apply (Hs a)|by apply Hn]. Qed.

(** One call, from any state the others may have led to. *)
Lemma safe_call {E A} (m : act S E A) (Q : G → result E A → S → Prop) o s :
  (∀ s1 s2 r, rely o s s1 → m s1 = (s2, r) → ∃ o', guar o s1 o' s2 ∧ Q o' r s2) →
  safe rely guar Q o (call m) s.
Proof.
  intros Hm. simpl. split; [apply safe_drop_id|]. intros s1 Hr.
  destruct (m s1) as [s2 r] eqn:Hcall. simpl.
  destruct (Hm s1 s2 r Hr Hcall) as (o' & Hg & HQ). exists o'.
  split_and!; [done|apply safe_drop_id|done].
Qed.

(** The same two rules for a future on a part of the state. *)
Lemma safe_zoom_bind {T E F A B} (get : S → T) put (h : E → F) (m : task T E A)
    (f : A → task T E B) (Q : G → result F B → S → Prop) o s :
  safe rely guar (λ o r s, match r with
    | Ok a => safe rely guar Q o (zoom get put h (f a)) s
    | Err e => Q o (Err e) s
    end) o (zoom get put h m) s →
  safe rely guar Q o (zoom get put h (m ≫= f)) s.
Proof.
  revert o s. induction m as [[a|e]|X c cl k IH]; intros o s; simpl; [done..|].
  intros [Hd Hs]. split; [done|]. intros s' Hr. destruct (Hs s' Hr) as (o' & ? & ? & Hk).
  exists o'. split_and!; [done..|]. by apply IH.
Qed.

Lemma safe_zoom_call {T E F A} (get : S → T) put (h : E → F) (m : act T E A)
    (Q : G → result F A → S → Prop) o s :
  (∀ s, put (get s) s = s) →
  (∀ s1 t r, rely o s s1 → m (get s1) = (t, r) →
     ∃ o', guar o s1 o' (put t s1) ∧ Q o' (map_err h r) (put t s1)) →
  safe rely guar Q o (zoom get put h (call m)) s.
Proof.
  intros Hpg Hm. assert (∀ o s, safe_drop rely guar o (λ s, put (id (get s)) s) s) as Hd.
  { intros o1 s1 s' Hr. unfold id. rewrite Hpg. by eapply guar_refl. }
  simpl. split; [apply Hd|]. intros s1 Hr.
  destruct (m (get s1)) as [t r] eqn:Hcall. simpl.
  destruct (Hm s1 t r Hr Hcall) as (o' & Hg & HQ). exists o'. split_and!; [done|apply Hd|done].
Qed.

(** A loop, with an invariant over the elements already processed. *)
Lemma safe_fold {E A B} (f : B → A → task S E B) (I : list A → B → G → S → Prop)
    (F : G → E → S → Prop) l :
  (∀ done x rest b o s, done ++ x :: rest = l → I done b o s →
     safe rely guar (λ o r s, match r with
       | Ok b' => I (done ++ [x]) b' o s
       | Err e => F o e s
       end) o (f b x) s) →
  ∀ b o s, I [] b o s →
  safe rely guar (λ o r s, match r with
    | Ok b' => I l b' o s
    | Err e => F o e s
    end) o (fold_task f l b) s.
Proof.
  intros Hf. cut (∀ rest done b o s, done ++ rest = l → I done b o s →
    safe rely guar (λ o r s, match r with
      | Ok b' => I l b' o s | Err e => F o e s end) o (fold_task f rest b) s).
  { intros Hc b o s. by apply (Hc l []). }
  induction rest as [|x rest IH]; intros dn b o s Hd HI; simpl.
  - rewrite app_nil_r in Hd. by subst dn.
  - apply safe_bind. eapply safe_mono; [|by eapply Hf].
    intros o' [b'|e] s'; simpl; [|done]. apply IH. by rewrite <- app_assoc.
Qed.

(** A future that owns a local value [k]: while it runs, [owns] holds of what it
    holds, which the others respect, and which lets the destructor run at any
    moment. *)
Section owning.
Context {K : Type} (drop : S * K → S) (owns : G → S → K → Prop).
Context (owns_rely : ∀ o s s' k, owns o s k → rely o s s' → owns o s' k).
Context (owns_drop : ∀ o s k, owns o s k →
  guar o s o (drop (s, k)) ∧ owns o (drop (s, k)) k).

Definition rely_own o (p p' : S * K) : Prop :=
  rely o p.1 p'.1 ∧ p'.2 = p.2 ∧ owns o p'.1 p'.2.

Definition guar_own o (p : S * K) o' (p' : S * K) : Prop :=
  guar o p.1 o' p'.1 ∧ owns o' p'.1 p'.2 ∧ owns o' p'.1 p.2.

Lemma safe_drop_owning o s k : owns o s k → safe_drop rely guar o (λ s, drop (s, k)) s.
Proof.
  intros Ho s' Hr. apply owns_drop. by eapply owns_rely.
Qed.

Lemma safe_owning {R} (Q : G → R → S → Prop) (m : fut (S * K) R) :
  plain m → ∀ o s k, owns o s k →
  safe rely_own guar_own (λ o r p, owns o p.1 p.2 → ∀ s', rely o p.1 s' →
    Q o r (drop (s', p.2))) o m (s, k) →
  safe rely guar Q o (owning drop k m) s.
Proof.
  induction m as [r|X c cl next IH]; simpl; intros Hpl o s k Ho.
  - intros HQ. split; [by apply safe_drop_owning|]. intros s' Hr.
    assert (owns o s' k) as Ho' by by eapply owns_rely.
    destruct (owns_drop o s' k Ho') as [Hg Hod]. exists o.
    split_and!; [done|by apply safe_drop_owning|by apply HQ].
  - destruct Hpl as [Hc Hpl]. intros [_ Hs].
    assert (∀ o s k, owns o s k → safe_drop rely guar o (λ s, drop (c (s, k))) s) as Hd.
    { intros o' s' k' Ho' s2 Hr. rewrite Hc. by eapply safe_drop_owning. }
    split; [by apply Hd|]. intros s' Hr. assert (owns o s' k) as Ho' by by eapply owns_rely.
    destruct (Hs (s', k)) as (o' & Hg & _ & Hn); [by split_and!|].
    destruct (cl (s', k)) as [[s2 k2] x]. simpl in *. destruct Hg as (Hg & Ho2 & Ho3).
    exists o'. split_and!; [done|by apply Hd|by apply IH].
Qed.
End owning.

(** The pool: what one thread promises is what the others rely on. *)
Section pool_safe.
Context {R : Type} (own : list G → S → Prop).
Context (own_step : ∀ os s i o o' s', own os s → os !! i = Some o → guar o s o' s' →
  own (<[i := o']> os) s' ∧ ∀ j oj, j ≠ i → os !! j = Some oj → rely oj s s').
Implicit Types (Q : G → R → S → Prop) (t : thread S R).

(** What is promised of an answer survives the other threads. *)
Definition stable Q : Prop := ∀ o r s s', Q o r s → rely o s s' → Q o r s'.

Lemma safe_rely Q m o s s' :
  stable Q → safe rely guar Q o m s → rely o s s' → safe rely guar Q o m s'.
Proof.
  destruct m as [r|X c cl k]; simpl; [eauto|].
  intros _ [Hd Hs] Hr. split; [by eapply safe_drop_rely|].
  intros s2 Hr2. apply Hs. by eapply rely_trans.
Qed.

Lemma safe_thread_rely Q t o s s' :
  stable Q → safe_thread rely guar Q o t s → rely o s s' →
  safe_thread rely guar Q o t s'.
Proof. destruct t; simpl; [apply safe_rely|by intros; eapply safe_drop_rely|done]. Qed.

Context (rely_refl : ∀ os s i o, own os s → os !! i = Some o → rely o s s).

Lemma safe_thread_next Q t o os i s t' s' :
  own os s → os !! i = Some o → safe_thread rely guar Q o t s →
  (t', s') ∈ thread_next t s →
  ∃ o', guar o s o' s' ∧ safe_thread rely guar Q o' t' s'.
Proof.
  intros Hown Ho Hs Hn. pose proof (rely_refl _ _ _ _ Hown Ho) as Hrefl.
  destruct t as [[r|X c cl k]|c|]; simpl in *; [set_solver| | |set_solver].
  - destruct Hs as [Hd Hs]. destruct (Hs s Hrefl) as (o' & Hg & Hd' & Hk).
    destruct (cl s) as [s1 x]. simpl in *.
    repeat (apply elem_of_cons in Hn as [[= -> ->]|Hn]); [..|set_solver].
    + by exists o'.
    + exists o. split; [by eapply guar_refl|done].
    + by exists o'.
  - apply list_elem_of_singleton in Hn as [= -> ->]. exists o. split; [by apply Hs|done].
Qed.

Lemma safe_pool_step (Qs : list (G → R → S → Prop)) (c c' : list (thread S R) * S) os :
  Forall stable Qs → own os c.2 → safe_pool rely guar Qs os c → pool_step c c' →
  ∃ os', own os' c'.2 ∧ safe_pool rely guar Qs os' c'.
Proof.
  intros Hst Hown (Hlo & HlQ & Hsafe) Hstep. destruct Hstep as [ts s i t t' s' Hi Hn].
  simpl in *. destruct (lookup_lt_is_Some_2 os i) as [o Ho];
    [rewrite Hlo; by eapply lookup_lt_Some|].
  destruct (lookup_lt_is_Some_2 Qs i) as [Q HQ]; [rewrite HlQ; by eapply lookup_lt_Some|].
  destruct (safe_thread_next Q t o os i s t' s' Hown Ho) as (o' & Hg & Hs');
    [by eapply Hsafe|done|].
  destruct (own_step _ _ _ _ _ _ Hown Ho Hg) as [Hown' Hrely].
  exists (<[i := o']> os). split; [done|].
  split_and!; simpl; [by rewrite !length_insert|by rewrite length_insert|].
  intros j Qj oj tj HQj Hoj Htj. destruct (decide (j = i)) as [->|Hne].
  - rewrite list_lookup_insert_eq in Hoj by by eapply lookup_lt_Some.
    rewrite list_lookup_insert_eq in Htj by by eapply lookup_lt_Some. by simplify_eq.
  - rewrite list_lookup_insert_ne in Hoj by done. rewrite list_lookup_insert_ne in Htj by done.
    eapply safe_thread_rely; [|by eapply Hsafe|by eapply Hrely].
    rewrite Forall_forall in Hst. apply Hst. by eapply list_elem_of_lookup_2.
Qed.

(** Every interleaving and cancellation of a safe pool is safe. *)
Lemma safe_pool_steps (Qs : list (G → R → S → Prop)) (c c' : list (thread S R) * S) os :
  Forall stable Qs → own os c.2 → safe_pool rely guar Qs os c → rtc pool_step c c' →
  ∃ os', own os' c'.2 ∧ safe_pool rely guar Qs os' c'.
Proof.
  intros Hst Hown Hsafe Hsteps. revert os Hown Hsafe.
  induction Hsteps as [c|c c1 c2 Hstep _ IH]; intros os Hown Hsafe; [by eauto|].
  destruct (safe_pool_step Qs c c1 os) as (os' & ? & ?); [done..|]. by eapply IH.
Qed.
End pool_safe.
End rely_lemmas.
