(* ===== verification/Wire.v ===== *)
(** The shared wire types (src/crates/wire/src/lib.rs): content addresses, the
    vehicle tree, the diff of an observed tree against a desired one, the
    convergence assessment and the per-component flash plan.  Definitions first,
    then the lemmas and the properties. *)

From S2P Require Import Prelude Ext.

(** * Content addresses *)

(** [ContentHash([u8; 32])]. *)
Record ContentHash := from_bytes { hash_bytes : array 32 }.

#[export] Instance ContentHash_eq_dec : EqDecision ContentHash.
Proof. solve_decision. Defined.

(** The error of parsing a content hash. *)
Inductive ParseHashError := NotHex | WrongLength.

#[export] Instance ParseHashError_eq_dec : EqDecision ParseHashError.
Proof. solve_decision. Defined.

Section content_hash.
Context `{HexCodec, Sha256}.

(** [ContentHash::of]: one update, then the digest. *)
Definition hash_of (bytes : list byte) : ContentHash :=
  let hasher := sha_new in
  let hasher := sha_update hasher bytes in
  from_bytes (sha_finalize hasher).

(** The incremental [Hasher]. *)
Record Hasher := mk_hasher { hasher_state : sha_state }.

Definition hasher : Hasher := mk_hasher sha_new.

Definition hasher_update (h : Hasher) (bytes : list byte) : Hasher :=
  mk_hasher (sha_update (hasher_state h) bytes).

Definition hasher_finalize (h : Hasher) : ContentHash :=
  from_bytes (sha_finalize (hasher_state h)).

(** [to_prefixed], and [Display] and [From<ContentHash> for String]. *)
Definition to_prefixed (h : ContentHash) : string :=
  "sha256:" +:+ hex_encode (slice (hash_bytes h)).

(** [FromStr], which [TryFrom<String>] calls. *)
Definition from_str (s : string) : result ParseHashError ContentHash :=
  let hex_part := default s (strip_prefix "sha256:" s) in
  bytes ← ok_or NotHex (hex_decode hex_part);
  buf ← ok_or WrongLength (try_into 32 bytes);
  mret (from_bytes buf).
End content_hash.

(** A published artifact's identity: plaintext hash, ciphertext hash, size. *)
Record ArtifactRef := mkArtifactRef {
  ref_inner : ContentHash;
  ref_outer : ContentHash;
  ref_size : Z;
}.

#[export] Instance ArtifactRef_eq_dec : EqDecision ArtifactRef.
Proof. solve_decision. Defined.

(** * Device identity records *)

Record Device := mkDevice {
  device_id : string;
  device_model : option string;
  device_status : string;
  device_pubkey : option string;
  device_ecu_id : option string;
}.

Record RegisterDevice := mkRegisterDevice {
  register_id : string;
  register_model : option string;
  register_pubkey : option string;
}.

Record EnrollResponse := mkEnrollResponse {
  enroll_id : string;
  enroll_key_id : string;
  enroll_certificate_pem : option string;
  enroll_serial : option string;
  enroll_not_after : option string;
  enroll_fingerprint : option string;
}.

(** Anchor name to root certificate. *)
Abbreviation TrustBundle := (gmap string string).

(** * The vehicle tree *)

Record Part := mkPart {
  part_kind : string;
  part_id : string;
  part_content : ContentHash;
}.

#[export] Instance Part_eq_dec : EqDecision Part.
Proof. solve_decision. Defined.

Record UpdateMode := mkUpdateMode {
  update_mode_mode : string;
  supports_rollback : bool;
  dual_bank : bool;
  reset_kind : string;
}.

#[export] Instance UpdateMode_eq_dec : EqDecision UpdateMode.
Proof. solve_decision. Defined.

Record Entity := mkEntity {
  entity_kind : string;
  entity_version : option string;
  entity_update_mode : option UpdateMode;
  entity_parts : list Part;
  entity_disabled : bool;
  entity_admin_disabled : option bool;
}.

#[export] Instance Entity_eq_dec : EqDecision Entity.
Proof. solve_decision. Defined.

(** [Entity::default()]. *)
Definition empty_entity : Entity := mkEntity "" None None [] false None.

(** [Tree { entities : BTreeMap<String, Entity> }]. *)
Abbreviation Tree := (gmap string Entity).

(** * The diff *)

Inductive Change := Added | Removed | Changed.

#[export] Instance Change_eq_dec : EqDecision Change.
Proof. solve_decision. Defined.

Record PartChange := mkPartChange {
  pc_entity : string;
  pc_change : Change;
  pc_part : string;
  pc_kind : string;
}.

#[export] Instance PartChange_eq_dec : EqDecision PartChange.
Proof. solve_decision. Defined.

Record TreeDiff := mkTreeDiff {
  entities_added : list string;
  entities_removed : list string;
  diff_part_changes : list PartChange;
}.

(** [TreeDiff::is_empty]. *)
Definition diff_is_empty (d : TreeDiff) : bool :=
  match entities_added d, entities_removed d, diff_part_changes d with
  | [], [], [] => true
  | _, _, _ => false
  end.

(** [parts.iter().map(|p| (p.id, p)).collect()]: a later part with the same id
    replaces an earlier one. *)
Definition parts_by_id (l : list Part) : gmap string Part :=
  collect_map ((λ p, (part_id p, p)) <$> l).

(** [diff_parts]: what it pushes onto [out]. *)
Definition diff_parts (entity : string) (observed desired : list Part) :
    list PartChange :=
  let obs := parts_by_id observed in
  let des_ids : gset string := list_to_set (part_id <$> desired) in
  let change c p := mkPartChange entity c (part_id p) (part_kind p) in
  omap (λ dp,
    match obs !! part_id dp with
    | None => Some (change Added dp)
    | Some op =>
        if bool_decide (part_content op ≠ part_content dp)
        then Some (change Changed dp) else None
    end) desired ++
  omap (λ op,
    if bool_decide (part_id op ∈ des_ids) then None
    else Some (change Removed op)) observed.

(** [diff]. *)
Definition diff (observed desired : Tree) : TreeDiff :=
  let obs path := default empty_entity (observed !! path) in
  let gone := filter (λ e, desired !! e.1 = None) (entries observed) in
  mkTreeDiff
    (filter (λ path, observed !! path = None) (entries desired).*1)
    gone.*1
    (mjoin ((λ e, diff_parts e.1 (entity_parts (obs e.1)) (entity_parts e.2))
              <$> entries desired) ++
     mjoin ((λ e, diff_parts e.1 (entity_parts e.2) []) <$> gone)).

(** * Convergence *)

Inductive AssessmentOutcome :=
  | Converged
  | ConvergedIgnoringDeviceOnly
  | Deferred
  | Actionable.

#[export] Instance AssessmentOutcome_eq_dec : EqDecision AssessmentOutcome.
Proof. solve_decision. Defined.

Record ConvergenceAssessment := mkAssessment {
  assess_outcome : AssessmentOutcome;
  assess_components : list string;
  ignored_device_only_entities : list string;
}.

(** [ConvergenceAssessment::is_converged]. *)
Definition is_converged (a : ConvergenceAssessment) : bool :=
  match assess_outcome a with
  | Converged | ConvergedIgnoringDeviceOnly => true
  | Deferred | Actionable => false
  end.

(** [observed.entities.get(id).and_then(|e| e.admin_disabled)]. *)
Definition admin_of (t : Tree) (id : string) : option bool :=
  e ← t !! id; entity_admin_disabled e.

(** The set the three loops of [assess_tree] fill. *)
Definition actionable_set (observed desired : Tree) : gset string :=
  let delta := diff observed desired in
  let added : list string := filter (λ id,
    entity_disabled <$> desired !! id = Some false) (entities_added delta) in
  let touched : list string := omap (λ part,
    match desired !! pc_entity part with
    | None => None
    | Some want =>
        let admin := admin_of observed (pc_entity part) in
        if negb (entity_disabled want) || bool_decide (admin = Some false)
        then Some (pc_entity part) else None
    end) (diff_part_changes delta) in
  let mismatched : list string := omap (λ '(id, want),
    let admin := admin_of observed id in
    if (entity_disabled want && bool_decide (admin = Some false))
       || (negb (entity_disabled want) && bool_decide (admin = Some true))
    then Some id else None) (entries desired) in
  list_to_set added ∪ list_to_set touched ∪ list_to_set mismatched.

(** [assess_tree]. *)
Definition assess_tree (observed desired : Tree) : ConvergenceAssessment :=
  let delta := diff observed desired in
  let components := set_entries (actionable_set observed desired) in
  let outcome :=
    match components with
    | [] =>
        match entities_removed delta with
        | [] => Converged
        | _ => ConvergedIgnoringDeviceOnly
        end
    | _ =>
        if forallb (λ id, bool_decide (observed !! id = None)) components
        then Deferred else Actionable
    end in
  mkAssessment outcome components (entities_removed delta).

(** * The flash plan *)

Inductive PartPlan := Ship | Reuse.

#[export] Instance PartPlan_eq_dec : EqDecision PartPlan.
Proof. solve_decision. Defined.

Record PlannedPart := mkPlannedPart {
  pp_entity : string;
  pp_part : string;
  pp_kind : string;
  pp_content : ContentHash;
  pp_plan : PartPlan;
}.

#[export] Instance PlannedPart_eq_dec : EqDecision PlannedPart.
Proof. solve_decision. Defined.

(** [FlashPlan { parts }]. *)
Abbreviation FlashPlan := (list PlannedPart).

Definition ships (p : FlashPlan) : list PlannedPart :=
  filter (λ x, pp_plan x = Ship) p.
Definition reused (p : FlashPlan) : list PlannedPart :=
  filter (λ x, pp_plan x = Reuse) p.
Definition is_noop (p : FlashPlan) : bool :=
  forallb (λ x, bool_decide (pp_plan x = Reuse)) p.

(** The decisions for one desired entity against its own active bank. *)
Definition plan_entity (observed : Tree) (epath : string) (des : Entity) :
    list PlannedPart :=
  let active := default empty_entity (observed !! epath) in
  let active_at : gmap string ContentHash :=
    collect_map ((λ p, (part_id p, part_content p)) <$> entity_parts active) in
  (λ part,
    mkPlannedPart epath (part_id part) (part_kind part) (part_content part)
      (if bool_decide (active_at !! part_id part = Some (part_content part))
       then Reuse else Ship)) <$> entity_parts des.

(** [flash_plan]. *)
Definition flash_plan (observed desired : Tree) : FlashPlan :=
  mjoin ((λ e, plan_entity observed e.1 e.2) <$> entries desired).

(** * A small release and a device, for concrete evaluations *)

Definition hash_a : ContentHash := from_bytes (fill 32 x0a).
Definition hash_b : ContentHash := from_bytes (fill 32 x0b).
Definition hash_c : ContentHash := from_bytes (fill 32 x0c).

Definition example_entity (parts : list Part) (disabled : bool)
    (admin : option bool) : Entity :=
  mkEntity "vm" None None parts disabled admin.

Definition example_release : Tree := list_to_map [
  ("vm1", example_entity [mkPart "file" "kernel" hash_a; mkPart "file" "dtb" hash_b] false None);
  ("vm2", example_entity [] true None)].

Definition example_device : Tree := list_to_map [
  ("vm1", example_entity [mkPart "file" "kernel" hash_a; mkPart "file" "dtb" hash_c] false None);
  ("vm2", example_entity [mkPart "file" "image" hash_b] false (Some false))].

(** * Lemmas *)

Section hash_lemmas.
Context `{HexCodec, Sha256}.

Lemma to_prefixed_inj h1 h2 : to_prefixed h1 = to_prefixed h2 → h1 = h2.
Proof.
  unfold to_prefixed. intros Heq. assert (Some (hex_encode (slice (hash_bytes h1)))
    = Some (hex_encode (slice (hash_bytes h2)))) as Hs.
  { rewrite <- !(strip_prefix_app "sha256:"). by f_equal. }
  simplify_eq. apply hex_encode_inj, slice_inj in Hs. destruct h1, h2; naive_solver.
Qed.

(** Lower-case hex never starts with the [sha256:] tag. *)
Lemma strip_prefix_hex b : strip_prefix "sha256:" (hex_encode b) = None.
Proof.
  destruct (strip_prefix _ _) as [r|] eqn:Hr; [|done].
  apply strip_prefix_Some in Hr. pose proof (hex_encode_lower b) as Hl.
  by rewrite Hr in Hl.
Qed.

Lemma to_prefixed_length h : String.length (to_prefixed h) = 71.
Proof.
  unfold to_prefixed. change (7 + String.length (hex_encode (slice (hash_bytes h))) = 71).
  by rewrite hex_encode_length, length_slice.
Qed.

(** A canonical hash text contains none of the separators of the identities. *)
Lemma to_prefixed_avoids c h :
  hex_lower c = false → avoids c "sha256:" = true → avoids c (to_prefixed h) = true.
Proof.
  intros Hc Hn. unfold to_prefixed. rewrite avoids_app, Hn. simpl.
  eapply all_chars_avoids; [done|]. apply hex_encode_lower.
Qed.

(** Feeding a hasher in chunks hashes the concatenation. *)
Lemma hasher_chunks chunks :
  hasher_finalize (foldl hasher_update hasher chunks) = hash_of (concat chunks).
Proof.
  unfold hash_of, hasher_finalize. cbv zeta. rewrite <- (sha_update_concat sha_new).
  unfold hasher. generalize sha_new as st.
  induction chunks as [|c cs IH]; intros st; simpl; [done|]. apply IH.
Qed.

Lemma from_str_to_prefixed h : from_str (to_prefixed h) = Ok h.
Proof.
  unfold from_str, to_prefixed. rewrite strip_prefix_app. simpl.
  rewrite hex_decode_encode. simpl. rewrite try_into_slice. simpl. by destruct h.
Qed.
End hash_lemmas.

#[export] Hint Resolve from_str_to_prefixed to_prefixed_inj : sumo.

Lemma mjoin_nil_iff {A B} (f : A → list B) l :
  mjoin (f <$> l) = [] ↔ ∀ x, x ∈ l → f x = [].
Proof. by rewrite join_nil, Forall_fmap, list.Forall_forall. Qed.

Lemma elem_of_mjoin_fmap {A B} (f : A → list B) l y :
  y ∈ mjoin (f <$> l) ↔ ∃ x, x ∈ l ∧ y ∈ f x.
Proof. rewrite list_elem_of_join. setoid_rewrite list_elem_of_fmap. naive_solver. Qed.

Lemma omap_nil_iff {A B} (f : A → option B) l :
  omap f l = [] ↔ ∀ x, x ∈ l → f x = None.
Proof.
  induction l as [|x l IH]; simpl; [set_solver|]. destruct (f x) eqn:Hx.
  - split; [done|]. intros Hf. rewrite Hf in Hx; [done|set_solver].
  - rewrite IH. setoid_rewrite elem_of_cons. naive_solver.
Qed.

Section parts_lemmas.
Implicit Types l : list Part.

Lemma parts_by_id_None l i : parts_by_id l !! i = None ↔ i ∉ part_id <$> l.
Proof. unfold parts_by_id. rewrite collect_map_None, <- list_fmap_compose. done. Qed.

Lemma parts_by_id_elem l i p : parts_by_id l !! i = Some p → p ∈ l ∧ part_id p = i.
Proof. intros H%collect_map_elem_of. set_solver. Qed.

Lemma parts_by_id_lookup l p :
  NoDup (part_id <$> l) → p ∈ l → parts_by_id l !! part_id p = Some p.
Proof.
  intros Hnd Hp. apply collect_map_lookup.
  - by rewrite <- list_fmap_compose.
  - apply list_elem_of_fmap. eauto.
Qed.

(** The content map a client compares, without the kinds. *)
Lemma contents_by_id l :
  collect_map ((λ p, (part_id p, part_content p)) <$> l) = part_content <$> parts_by_id l.
Proof.
  induction l as [|p l IH] using rev_ind; [done|].
  unfold parts_by_id in *. rewrite !fmap_app, !fmap_cons, !fmap_nil, !collect_map_snoc.
  by rewrite IH, fmap_insert.
Qed.
End parts_lemmas.

(** What a device's bank or a release holds: slot id to content. *)
Definition contents (l : list Part) : gmap string ContentHash :=
  part_content <$> parts_by_id l.

Definition tree_contents (t : Tree) : gmap string (gmap string ContentHash) :=
  (λ e, contents (entity_parts e)) <$> t.

(** No entity of the tree has two parts with one id. *)
Definition unique_ids (t : Tree) : Prop :=
  map_Forall (λ _ e, NoDup (part_id <$> entity_parts e)) t.

#[export] Instance unique_ids_dec t : Decision (unique_ids t).
Proof. unfold unique_ids. apply _. Defined.

Lemma tree_contents_lookup t id :
  tree_contents t !! id = (contents ∘ entity_parts) <$> t !! id.
Proof. unfold tree_contents. by rewrite lookup_fmap. Qed.

Section diff_lemmas.
Implicit Types (o d : Tree).

Lemma contents_None l i : contents l !! i = None ↔ i ∉ part_id <$> l.
Proof. unfold contents. rewrite lookup_fmap, fmap_None. apply parts_by_id_None. Qed.

Lemma diff_parts_nil e obs des :
  NoDup (part_id <$> des) →
  diff_parts e obs des = [] ↔ contents obs = contents des.
Proof.
  intros Hnd. unfold diff_parts. cbv zeta. rewrite app_nil, !omap_nil_iff. split.
  - intros [Hd Ho]. apply map_eq. intros i. unfold contents. rewrite !lookup_fmap.
    destruct (parts_by_id des !! i) as [dp|] eqn:Hdp.
    + apply parts_by_id_elem in Hdp as [Hdp <-]. specialize (Hd _ Hdp). simpl in Hd.
      destruct (parts_by_id obs !! part_id dp) as [op|]; [|done]. simpl.
      case_bool_decide as Hc; [done|by rewrite Hc].
    + apply parts_by_id_None in Hdp.
      destruct (parts_by_id obs !! i) as [op|] eqn:Hop; [|done].
      apply parts_by_id_elem in Hop as [Hop <-]. specialize (Ho _ Hop). simpl in Ho.
      case_bool_decide as Hc; [|done]. by rewrite elem_of_list_to_set in Hc.
  - intros Hc. split.
    + intros dp Hdp. pose proof (parts_by_id_lookup des dp Hnd Hdp) as Hl.
      assert (contents obs !! part_id dp = Some (part_content dp)) as Ho.
      { rewrite Hc. unfold contents. by rewrite lookup_fmap, Hl. }
      unfold contents in Ho. rewrite lookup_fmap in Ho.
      apply fmap_Some in Ho as (op & -> & ->). by rewrite bool_decide_false by naive_solver.
    + intros op Hop. apply list_elem_of_fmap_2 with (f := part_id) in Hop.
      rewrite bool_decide_true; [done|]. rewrite elem_of_list_to_set.
      destruct (decide (part_id op ∈ part_id <$> des)) as [|Hn]; [done|].
      apply contents_None in Hn. rewrite <- Hc in Hn. by apply contents_None in Hn.
Qed.

Lemma diff_parts_entity e obs des c : c ∈ diff_parts e obs des → pc_entity c = e.
Proof.
  unfold diff_parts. rewrite elem_of_app, !list_elem_of_omap.
  intros [(p & _ & Hp)|(p & _ & Hp)]; by split_match.
Qed.

Lemma diff_parts_removed e obs : diff_parts e obs [] = [] ↔ obs = [].
Proof. rewrite diff_parts_nil by constructor. unfold contents, parts_by_id. split.
  - intros H. destruct obs as [|p obs]; [done|]. exfalso.
    assert (contents (p :: obs) !! part_id p = None) as Hn by (unfold contents, parts_by_id; by rewrite H).
    apply contents_None in Hn. set_solver.
  - by intros ->.
Qed.

(** The observed parts a desired entity is compared against. *)
Definition observed_parts o path : list Part :=
  entity_parts (default empty_entity (o !! path)).

Lemma elem_of_diff_changes o d c :
  c ∈ diff_part_changes (diff o d) ↔
    (∃ des : Entity, d !! pc_entity c = Some des ∧
      c ∈ diff_parts (pc_entity c) (observed_parts o (pc_entity c)) (entity_parts des)) ∨
    (d !! pc_entity c = None ∧ ∃ obs : Entity, o !! pc_entity c = Some obs ∧
      c ∈ diff_parts (pc_entity c) (entity_parts obs) []).
Proof.
  unfold diff. simpl. rewrite elem_of_app, !elem_of_mjoin_fmap. split.
  - intros [([p e] & Hin & Hc)|([p e] & Hin & Hc)]; simpl in *.
    + apply elem_of_entries in Hin. pose proof (diff_parts_entity _ _ _ _ Hc) as Hp.
      subst p. left. by exists e.
    + apply list_elem_of_filter in Hin as [Hn Hin]. apply elem_of_entries in Hin.
      pose proof (diff_parts_entity _ _ _ _ Hc) as Hp. subst p. right. eauto.
  - intros [(des & Hd & Hc)|(Hn & obs & Ho & Hc)].
    + left. exists (pc_entity c, des). by rewrite elem_of_entries.
    + right. exists (pc_entity c, obs).
      by rewrite list_elem_of_filter, elem_of_entries.
Qed.

Lemma elem_of_entities_added o d id :
  id ∈ entities_added (diff o d) ↔ is_Some (d !! id) ∧ o !! id = None.
Proof. simpl. rewrite list_elem_of_filter, elem_of_entries_keys. naive_solver. Qed.

Lemma elem_of_entities_removed o d id :
  id ∈ entities_removed (diff o d) ↔ is_Some (o !! id) ∧ d !! id = None.
Proof.
  simpl. rewrite list_elem_of_fmap. split.
  - intros ([p e] & -> & [Hd Hin]%list_elem_of_filter).
    apply elem_of_entries in Hin. simpl in *. eauto.
  - intros [[e He] Hd]. exists (id, e). split; [done|].
    by rewrite list_elem_of_filter, elem_of_entries.
Qed.

Lemma nonempty_elem {A} (l : list A) : l ≠ [] ↔ ∃ x, x ∈ l.
Proof. destruct l; set_solver. Qed.

(** The diff mentions a desired entity exactly when its contents differ. *)
Lemma diff_touches_desired o d id (des : Entity) :
  d !! id = Some des → NoDup (part_id <$> entity_parts des) →
  (∃ c, c ∈ diff_part_changes (diff o d) ∧ pc_entity c = id) ↔
    contents (observed_parts o id) ≠ contents (entity_parts des).
Proof.
  intros Hd Hnd. rewrite <- (diff_parts_nil id) by done. rewrite nonempty_elem. split.
  - intros (c & Hc & <-). apply elem_of_diff_changes in Hc. naive_solver.
  - intros (c & Hc). exists c. pose proof (diff_parts_entity _ _ _ _ Hc) as <-.
    split; [|done]. apply elem_of_diff_changes. eauto.
Qed.

Lemma nil_iff {A} (l : list A) : l = [] ↔ ∀ x, x ∉ l.
Proof. destruct l; set_solver. Qed.

Lemma diff_is_empty_spec dl :
  diff_is_empty dl = true ↔
    entities_added dl = [] ∧ entities_removed dl = [] ∧ diff_part_changes dl = [].
Proof. unfold diff_is_empty. repeat case_match; naive_solver. Qed.

Lemma diff_added_nil o d :
  entities_added (diff o d) = [] ↔ ∀ id, is_Some (d !! id) → is_Some (o !! id).
Proof.
  rewrite nil_iff. setoid_rewrite elem_of_entities_added.
  setoid_rewrite eq_None_not_Some. split; intros Hl id; specialize (Hl id); [|naive_solver].
  intros ?. apply dec_stable. naive_solver.
Qed.

Lemma diff_removed_nil o d :
  entities_removed (diff o d) = [] ↔ ∀ id, is_Some (o !! id) → is_Some (d !! id).
Proof.
  rewrite nil_iff. setoid_rewrite elem_of_entities_removed.
  setoid_rewrite eq_None_not_Some. split; intros Hl id; specialize (Hl id); [|naive_solver].
  intros ?. apply dec_stable. naive_solver.
Qed.

Lemma diff_changes_nil o d :
  (∀ id, is_Some (o !! id) → is_Some (d !! id)) → unique_ids d →
  diff_part_changes (diff o d) = [] ↔
    ∀ id des, d !! id = Some des →
      contents (observed_parts o id) = contents (entity_parts des).
Proof.
  intros Hdom Hd. rewrite nil_iff. split.
  - intros Hn id des Hdes. apply dec_stable. intros Hne.
    apply (diff_touches_desired o d id des) in Hne as (c & Hc & _);
      [by apply Hn in Hc|done|by eapply Hd].
  - intros Hc c Hin.
    pose proof Hin as [(des & Hdes & _)|(Hn & obs & Ho & _)]%elem_of_diff_changes.
    + apply (diff_touches_desired o d (pc_entity c) des); eauto.
    + apply eq_None_not_Some in Hn. by destruct Hn; eauto.
Qed.

(** A part list with the contents of an empty bank is empty. *)
Lemma contents_empty l : contents l = ∅ → l = [].
Proof.
  intros H. apply (diff_parts_removed ""). by apply diff_parts_nil; [constructor|].
Qed.
End diff_lemmas.

(** A release entity needs action on a device: it must be flashed (absent,
    administratively disabled, or holding other contents) or be disabled. *)
Definition needs_action (o : Tree) (id : string) (want : Entity) : Prop :=
  if entity_disabled want then admin_of o id = Some false
  else o !! id = None ∨ admin_of o id = Some true ∨
       contents (observed_parts o id) ≠ contents (entity_parts want).

Section assess_lemmas.
Implicit Types (o d : Tree).

Lemma elem_of_actionable_set o d id :
  unique_ids d →
  id ∈ actionable_set o d ↔ ∃ want, d !! id = Some want ∧ needs_action o id want.
Proof.
  intros Hd. unfold actionable_set. cbv zeta.
  rewrite !elem_of_union, !elem_of_list_to_set, list_elem_of_filter, elem_of_entities_added,
    !list_elem_of_omap. split.
  - intros [[(Hdis & [want Hw] & Ho)|(c & Hc & Hsome)]|([id' want] & Hin & Hsome)].
    + exists want. rewrite Hw in Hdis. simplify_eq/=. unfold needs_action.
      rewrite Hdis. auto.
    + destruct (d !! pc_entity c) as [want|] eqn:Hw; [|done].
      case_match eqn:Hcond; simplify_eq. exists want. split; [done|].
      assert (contents (observed_parts o (pc_entity c)) ≠ contents (entity_parts want))
        by (eapply diff_touches_desired; eauto; by eapply Hd).
      unfold needs_action. destruct (entity_disabled want); [|auto].
      by apply bool_decide_eq_true in Hcond.
    + apply elem_of_entries in Hin. case_match eqn:Hcond; simplify_eq.
      exists want. split; [done|]. unfold needs_action.
      destruct (entity_disabled want); simpl in Hcond;
        rewrite ?orb_false_r, bool_decide_eq_true in Hcond; auto.
  - intros (want & Hw & Hneed). unfold needs_action in Hneed.
    destruct (entity_disabled want) eqn:Hdis.
    + right. exists (id, want). split; [by apply elem_of_entries|].
      by rewrite Hdis, bool_decide_true by done.
    + destruct Hneed as [Ho|[Ha|Hne]].
      * left. left. rewrite Hw. simpl. rewrite Hdis. eauto.
      * right. exists (id, want). split; [by apply elem_of_entries|].
        by rewrite Hdis, Ha.
      * left. right. apply (diff_touches_desired o d id want) in Hne as (c & Hc & <-);
          [|done|by eapply Hd].
        exists c. split; [done|]. by rewrite Hw, Hdis.
Qed.

Lemma elem_of_assess_components o d id :
  id ∈ assess_components (assess_tree o d) ↔ id ∈ actionable_set o d.
Proof. apply elem_of_set_entries. Qed.

Lemma assess_converged_nil o d :
  is_converged (assess_tree o d) = true ↔ assess_components (assess_tree o d) = [].
Proof.
  unfold is_converged, assess_tree. cbv zeta. cbn [assess_outcome assess_components].
  generalize (entities_removed (diff o d)) as r.
  intros r. destruct (set_entries _), r; simpl; by repeat case_match.
Qed.

Lemma forallb_false_elem {A} (f : A → bool) l :
  forallb f l = false ↔ ∃ x, x ∈ l ∧ f x = false.
Proof.
  induction l as [|x l IH]; simpl; [set_solver|]. rewrite andb_false_iff, IH.
  setoid_rewrite elem_of_cons. naive_solver.
Qed.

Lemma forallb_true_elem {A} (f : A → bool) l :
  forallb f l = true ↔ ∀ x, x ∈ l → f x = true.
Proof.
  induction l as [|x l IH]; simpl; [set_solver|]. rewrite andb_true_iff, IH.
  setoid_rewrite elem_of_cons. naive_solver.
Qed.
End assess_lemmas.

Section plan_lemmas.
Implicit Types (o d : Tree).

Lemma elem_of_flash_plan o d p :
  p ∈ flash_plan o d ↔
    ∃ des, d !! pp_entity p = Some des ∧ p ∈ plan_entity o (pp_entity p) des.
Proof.
  unfold flash_plan. rewrite elem_of_mjoin_fmap. split.
  - intros ([e des] & Hin & Hp). apply elem_of_entries in Hin. simpl in *.
    assert (pp_entity p = e) as -> by
      (unfold plan_entity in Hp; apply list_elem_of_fmap in Hp; naive_solver).
    eauto.
  - intros (des & Hd & Hp). exists (pp_entity p, des). by rewrite elem_of_entries.
Qed.

(** The slot test of [flash_plan] in terms of the bank's contents. *)
Lemma plan_entity_contents o e des :
  plan_entity o e des = (λ part,
    mkPlannedPart e (part_id part) (part_kind part) (part_content part)
      (if bool_decide (contents (observed_parts o e) !! part_id part
                       = Some (part_content part)) then Reuse else Ship))
    <$> entity_parts des.
Proof. unfold plan_entity. by rewrite contents_by_id. Qed.

Lemma filter_join {A} (P : A → Prop) `{∀ x, Decision (P x)} (ls : list (list A)) :
  filter P (mjoin ls) = mjoin (filter P <$> ls).
Proof. induction ls as [|l ls IH]; [done|]. simpl. by rewrite list.filter_app, IH. Qed.

Lemma fmap_join {A B} (f : A → B) (ls : list (list A)) :
  f <$> mjoin ls = mjoin (fmap f <$> ls).
Proof. induction ls as [|l ls IH]; [done|]. simpl. by rewrite fmap_app, IH. Qed.

Lemma filter_none {A} (P : A → Prop) `{∀ x, Decision (P x)} (l : list A) :
  (∀ x, x ∈ l → ¬ P x) → filter P l = [].
Proof.
  intros Hl. apply nil_iff. intros x [HP Hx]%list_elem_of_filter. by eapply Hl.
Qed.

(** What a change or a planned part is about. *)
Definition change_key (c : PartChange) := (pc_entity c, pc_part c, pc_kind c).
Definition plan_key (p : PlannedPart) := (pp_entity p, pp_part p, pp_kind p).

Lemma ships_entity_diff o e des :
  plan_key <$> ships (plan_entity o e des) =
  change_key <$> filter (λ c, pc_change c ≠ Removed)
    (diff_parts e (observed_parts o e) (entity_parts des)).
Proof.
  rewrite plan_entity_contents. unfold diff_parts, ships. cbv zeta.
  rewrite list.filter_app, (filter_none _ (omap _ (observed_parts o e))), app_nil_r.
  2:{ intros c (p & _ & Hp)%list_elem_of_omap. case_bool_decide; simplify_eq. naive_solver. }
  unfold contents. induction (entity_parts des) as [|p l IH]; [done|].
  cbn [fmap list_fmap omap list_omap]. rewrite list.filter_cons. simpl. rewrite lookup_fmap.
  destruct (parts_by_id (observed_parts o e) !! part_id p) as [op|]; simpl;
    [|by f_equal].
  destruct (decide (part_content op = part_content p)) as [->|Hne].
  - by rewrite !bool_decide_true, bool_decide_false by naive_solver.
  - rewrite bool_decide_false, bool_decide_true by naive_solver. simpl. by f_equal.
Qed.
End plan_lemmas.

(** * Properties *)

Section hash_properties.
Context `{HexCodec, Sha256}.

(** [FromStr] inverts [to_prefixed], accepts the bare hex form as the
    same hash, and two different hashes never print alike. *)
Lemma content_hash_roundtrip (h : ContentHash) :
  from_str (to_prefixed h) = Ok h ∧
  from_str (hex_encode (slice (hash_bytes h))) = Ok h ∧
  String.length (to_prefixed h) = 71 ∧
  ∀ h', to_prefixed h' = to_prefixed h → h' = h.
Proof.
  split_and!; [apply from_str_to_prefixed| |apply to_prefixed_length|
    intros h'; apply to_prefixed_inj].
  unfold from_str. rewrite strip_prefix_hex. simpl.
  rewrite hex_decode_encode. simpl. rewrite try_into_slice. simpl. by destruct h.
Qed.

(** [FromStr] on every text: it accepts exactly the texts whose digits,
    after at most one [sha256:] tag, decode to 32 bytes (so 64 digits), reports
    [NotHex] exactly when they do not decode, and [WrongLength] exactly when
    they decode to another number of bytes. *)
Lemma from_str_errors (s : string) :
  let digits := default s (strip_prefix "sha256:" s) in
  (from_str s = Err NotHex ↔ hex_decode digits = None) ∧
  (from_str s = Err WrongLength ↔
    ∃ b, hex_decode digits = Some b ∧ length b ≠ 32) ∧
  (∀ h, from_str s = Ok h ↔ hex_decode digits = Some (slice (hash_bytes h))) ∧
  (∀ h, from_str s = Ok h → String.length digits = 64).
Proof.
  intros digits. unfold from_str. fold digits.
  assert (∀ h, hex_decode digits = Some (slice (hash_bytes h)) →
    String.length digits = 64) as Hlen.
  { intros h Hh. rewrite (hex_decode_length _ _ Hh). by rewrite length_slice. }
  destruct (hex_decode digits) as [b|] eqn:Hb; simpl; [|naive_solver].
  destruct (try_into 32 b) as [a|] eqn:Ha; simpl.
  - apply try_into_Some in Ha as <-. pose proof (length_slice a).
    split_and!; [done|naive_solver| |].
    + intros h. split; [by intros [= <-]|].
      intros [= Heq]. apply slice_inj in Heq as ->. by destruct h.
    + intros h [= <-]. by apply (Hlen (from_bytes a)).
  - apply try_into_None in Ha. split_and!; [done|naive_solver| |done].
    intros h. split; [done|]. intros [= ->]. by rewrite length_slice in Ha.
Qed.

(** Hashing a stream chunk by chunk with [Hasher] gives the address
    [ContentHash::of] gives the whole. *)
Lemma hasher_streaming (chunks : list (list byte)) :
  hasher_finalize (foldl hasher_update hasher chunks) = hash_of (concat chunks).
Proof. apply hasher_chunks. Qed.
End hash_properties.

(** [diff] is empty exactly when the observed and the desired tree have
    the same components and, slot by slot, the same contents: a release with
    distinct part ids per component has nothing to flash precisely when the
    device holds it. *)
Lemma diff_empty_iff (o d : Tree) (Hd : unique_ids d) :
  diff_is_empty (diff o d) = true ↔ tree_contents o = tree_contents d.
Proof.
  rewrite diff_is_empty_spec, diff_added_nil, diff_removed_nil. split.
  - intros (Ha & Hr & Hc). rewrite diff_changes_nil in Hc by done.
    apply map_eq. intros id. rewrite !tree_contents_lookup.
    specialize (Ha id). specialize (Hr id). specialize (Hc id). unfold observed_parts in Hc.
    destruct (d !! id) as [de|], (o !! id) as [oe|]; simpl in *;
      [f_equal; by apply Hc|by destruct Ha; eauto|by destruct Hr; eauto|done].
  - intros Heq. assert (∀ id, (contents ∘ entity_parts) <$> o !! id =
      (contents ∘ entity_parts) <$> d !! id) as Hid.
    { intros id. rewrite <- !tree_contents_lookup. by rewrite Heq. }
    assert (∀ id, is_Some (o !! id) ↔ is_Some (d !! id)) as Hdom.
    { intros id. rewrite <- !(fmap_is_Some (contents ∘ entity_parts)). by rewrite Hid. }
    split_and!; [naive_solver..|]. apply diff_changes_nil; [naive_solver|done|].
    intros id de Hde. specialize (Hid id). rewrite Hde in Hid.
    apply fmap_Some in Hid as (oe & Hoe & Hq). unfold observed_parts. by rewrite Hoe.
Qed.

Lemma diff_empty_iff_witness :
  unique_ids example_release ∧
  (diff_is_empty (diff example_device example_release) = true ↔
    tree_contents example_device = tree_contents example_release) ∧
  diff_is_empty (diff example_device example_release) = false ∧
  diff_is_empty (diff example_release example_release) = true.
Proof.
  assert (unique_ids example_release) as Hu by by_compute.
  split_and!; [done|by apply (diff_empty_iff example_device example_release Hu)|..];
    by vm_compute.
Defined.

(** C16: the components an assessment lists are exactly the release's
    components that need action; the device is converged exactly when none does,
    and a component retired from the release or kept disabled on the device never
    counts. *)
Theorem assess_tree_components (o d : Tree) (Hd : unique_ids d) :
  (∀ id, id ∈ assess_components (assess_tree o d) ↔
     ∃ want, d !! id = Some want ∧ needs_action o id want) ∧
  (is_converged (assess_tree o d) = true ↔
     map_Forall (λ id want, ¬ needs_action o id want) d).
Proof.
  assert (∀ id, id ∈ assess_components (assess_tree o d) ↔
     ∃ want, d !! id = Some want ∧ needs_action o id want) as Hc.
  { intros id. by rewrite elem_of_assess_components, elem_of_actionable_set. }
  split; [done|]. rewrite assess_converged_nil, nil_iff. setoid_rewrite Hc.
  unfold map_Forall. naive_solver.
Qed.

Lemma assess_tree_components_witness :
  unique_ids example_release ∧
  assess_components (assess_tree example_device example_release) = ["vm1"; "vm2"] ∧
  is_converged (assess_tree example_device example_release) = false ∧
  ∃ want, example_release !! "vm2" = Some want ∧ needs_action example_device "vm2" want.
Proof.
  assert (unique_ids example_release) as Hu by by_compute.
  assert (assess_components (assess_tree example_device example_release) = ["vm1"; "vm2"])
    as Hc by by vm_compute.
  split_and!; [done|done|by vm_compute|].
  apply (assess_tree_components example_device example_release Hu). rewrite Hc. by_compute.
Defined.

(** The outcome classifies the assessment: [Deferred] exactly when there
    is something to do and the device has none of the components concerned,
    [Actionable] exactly when it has one of them, and otherwise the two converged
    outcomes tell whether device-only components were ignored. *)
Lemma assess_tree_outcome (o d : Tree) :
  let a := assess_tree o d in
  (assess_outcome a = Actionable ↔
     ∃ id, id ∈ assess_components a ∧ is_Some (o !! id)) ∧
  (assess_outcome a = Deferred ↔
     assess_components a ≠ [] ∧ ∀ id, id ∈ assess_components a → o !! id = None) ∧
  (assess_outcome a = ConvergedIgnoringDeviceOnly ↔
     assess_components a = [] ∧ ∃ id, is_Some (o !! id) ∧ d !! id = None) ∧
  (assess_outcome a = Converged ↔
     assess_components a = [] ∧ ∀ id, is_Some (o !! id) → is_Some (d !! id)).
Proof.
  intros a. rewrite <- diff_removed_nil. setoid_rewrite <- elem_of_entities_removed.
  rewrite <- nonempty_elem. unfold a, assess_tree. cbv zeta.
  cbn [assess_outcome assess_components].
  generalize (entities_removed (diff o d)) (set_entries (actionable_set o d)).
  intros r [|c cs].
  - destruct r; split_and!; set_solver.
  - assert (c ∈ c :: cs) as Hin by set_solver. destruct (forallb _ _) eqn:Hall.
    + rewrite forallb_true_elem in Hall. setoid_rewrite bool_decide_eq_true in Hall.
      split_and!; try naive_solver. split; [done|].
      intros (id & Hid & [e He]). by rewrite (Hall id Hid) in He.
    + apply forallb_false_elem in Hall as (id & Hid & Ho%bool_decide_eq_false).
      apply not_eq_None_Some in Ho. split_and!; try naive_solver.
      split; [done|]. intros [_ Hn]. rewrite (Hn id Hid) in Ho. by destruct Ho.
Qed.

(** C26: every part [flash_plan] reuses is a copy within one component: it sits
    in that component's own active bank, in the same slot and with the desired
    content; every part it ships is absent from that slot or differs there; and
    changing another component's banks never changes the decision. *)
Theorem flash_plan_own_bank (o d : Tree) (p : PlannedPart) (Hp : p ∈ flash_plan o d) :
  (pp_plan p = Reuse ↔
    contents (observed_parts o (pp_entity p)) !! pp_part p = Some (pp_content p)) ∧
  (pp_plan p = Reuse → ∃ active slot, o !! pp_entity p = Some active ∧
    slot ∈ entity_parts active ∧ part_id slot = pp_part p ∧
    part_content slot = pp_content p) ∧
  (∀ o', o' !! pp_entity p = o !! pp_entity p → p ∈ flash_plan o' d).
Proof.
  apply elem_of_flash_plan in Hp as (des & Hd & Hp).
  assert (pp_plan p = Reuse ↔
    contents (observed_parts o (pp_entity p)) !! pp_part p = Some (pp_content p)) as Hr.
  { rewrite plan_entity_contents in Hp. apply list_elem_of_fmap in Hp as (part & Heq & _).
    rewrite Heq. simpl. by case_bool_decide. }
  split_and!; [done| |].
  - intros Hc%Hr. unfold contents, observed_parts in Hc. rewrite lookup_fmap in Hc.
    apply fmap_Some in Hc as (slot & Hs & Hcont). apply parts_by_id_elem in Hs as [Hin Hid].
    destruct (o !! pp_entity p) as [active|]; simpl in Hin; [exists active, slot; eauto|by apply elem_of_nil in Hin].
  - intros o' Ho. apply elem_of_flash_plan. exists des. split; [done|].
    unfold plan_entity in *. by rewrite Ho.
Qed.

Lemma flash_plan_own_bank_witness :
  let p := mkPlannedPart "vm1" "kernel" "file" hash_a Reuse in
  p ∈ flash_plan example_device example_release ∧
  ∃ active slot, example_device !! "vm1" = Some active ∧ slot ∈ entity_parts active ∧
    part_id slot = "kernel" ∧ part_content slot = hash_a.
Proof.
  intros p.
  assert (p ∈ flash_plan example_device example_release) as Hp
    by by_compute.
  split; [done|].
  by apply (flash_plan_own_bank example_device example_release p Hp).
Defined.

(** The parts the plan ships are exactly the parts [diff] reports added or
    changed, in the same order, and the plan covers every desired part once. *)
Lemma flash_plan_ships_diff (o d : Tree) :
  plan_key <$> ships (flash_plan o d) =
    change_key <$> filter (λ c, pc_change c ≠ Removed) (diff_part_changes (diff o d)) ∧
  (λ p, (pp_entity p, pp_part p, pp_content p)) <$> flash_plan o d =
    mjoin ((λ e, (λ p, (e.1, part_id p, part_content p)) <$> entity_parts e.2) <$> entries d).
Proof.
  unfold flash_plan, diff, ships. cbn [diff_part_changes]. split.
  - rewrite list.filter_app, (filter_none _ (mjoin (_ <$> filter _ _))), app_nil_r.
    + rewrite !filter_join, !fmap_join, <- !list_fmap_compose. f_equal.
      apply list_fmap_ext. intros _ [e des] _. apply ships_entity_diff.
    + intros c (x & _ & Hc)%elem_of_mjoin_fmap Hr. unfold diff_parts in Hc.
      rewrite elem_of_app in Hc. destruct Hc as [Hc|Hc]; [by apply elem_of_nil in Hc|].
      apply list_elem_of_omap in Hc as (p & _ & Hp). by split_match.
  - rewrite fmap_join, <- list_fmap_compose. f_equal. apply list_fmap_ext.
    intros _ [e des] _. simpl. unfold plan_entity. by rewrite <- list_fmap_compose.
Qed.
