(* ===== verification/Json.v ===== *)
(** JSON as the towers and their clients exchange it: the value type, the reading
    of Rust structs from it (a field by name, or by position when a struct comes as
    an array, with the source's defaults), and the codecs of the shared wire types
    (the serde attributes of src/crates/wire/src/lib.rs). *)

From S2P Require Import Prelude Ext Wire.

(** * Values *)

(** [serde_json::Value]; an object lists its keys once each. A number that is not
    an integer is kept by its text. *)
Inductive Value :=
  | VNull
  | VBool (b : bool)
  | VInt (z : Z)
  | VFloat (text : string)
  | VStr (s : string)
  | VArr (l : list Value)
  | VObj (l : list (string * Value)).

Fixpoint assoc {A} (k : string) (l : list (string * A)) : option A :=
  match l with
  | [] => None
  | (k', a) :: l' => if String.eqb k k' then Some a else assoc k l'
  end.

(** [Value::get] on a field. *)
Definition get_field (k : string) (v : Value) : option Value :=
  match v with VObj l => assoc k l | _ => None end.

(** * Reading *)

Definition d_bool (v : Value) : option bool :=
  match v with VBool b => Some b | _ => None end.
Definition d_str (v : Value) : option string :=
  match v with VStr s => Some s | _ => None end.
Definition d_u64 (v : Value) : option Z :=
  match v with
  | VInt z => if bool_decide (0 ≤ z < two64)%Z then Some z else None
  | _ => None
  end.
Definition d_i64 (v : Value) : option Z :=
  match v with
  | VInt z => if bool_decide (- 2 ^ 63 ≤ z < 2 ^ 63)%Z then Some z else None
  | _ => None
  end.
(** [Option<T>]: [null] is [None]. *)
Definition d_option {A} (d : Value → option A) (v : Value) : option (option A) :=
  match v with VNull => Some None | _ => Some <$> d v end.
(** [Vec<T>]. *)
Definition d_vec {A} (d : Value → option A) (v : Value) : option (list A) :=
  match v with VArr l => mapM d l | _ => None end.
(** [BTreeMap<String, T>]. *)
Definition d_map {A} (d : Value → option A) (v : Value) : option (gmap string A) :=
  match v with
  | VObj l => collect_map <$> mapM (λ p, a ← d p.2; Some (p.1, a)) l
  | _ => None
  end.

(** The fields of a derived struct: by name, unknown names ignored, or by
    position. *)
Definition fields (names : list string) (v : Value) : option (list (string * Value)) :=
  match v with
  | VObj l => Some l
  | VArr l => if Nat.leb (length l) (length names) then Some (zip names l) else None
  | _ => None
  end.
(** A required field, and one with [#[serde(default)]]. *)
Definition required {A} (l : list (string * Value)) (k : string)
    (d : Value → option A) : option A := v ← assoc k l; d v.
Definition defaulted {A} (l : list (string * Value)) (k : string)
    (d : Value → option A) (a : A) : option A :=
  match assoc k l with None => Some a | Some v => d v end.

(** * Writing *)

(** [#[serde(skip_serializing_if = "Option::is_none")]]. *)
Definition skip_none {A} (k : string) (f : A → Value) (o : option A) :
    list (string * Value) :=
  match o with None => [] | Some a => [(k, f a)] end.

(** An [Option] that is not skipped. *)
Definition value_of_option {A} (f : A → Value) (o : option A) : Value :=
  match o with Some a => f a | None => VNull end.

(** * The wire types *)

Section codecs.
Context `{HexCodec}.

Definition value_of_hash (h : ContentHash) : Value := VStr (to_prefixed h).
Definition hash_of_value (v : Value) : option ContentHash :=
  s ← d_str v; ok (from_str s).

Definition artifact_ref_of_value (v : Value) : option ArtifactRef :=
  l ← fields ["inner"; "outer"; "size"] v;
  inner ← required l "inner" hash_of_value;
  outer ← required l "outer" hash_of_value;
  size ← required l "size" d_u64;
  Some (mkArtifactRef inner outer size).

Definition value_of_part (p : Part) : Value :=
  VObj [("kind", VStr (part_kind p)); ("id", VStr (part_id p));
        ("content", value_of_hash (part_content p))].
Definition part_of_value (v : Value) : option Part :=
  l ← fields ["kind"; "id"; "content"] v;
  kind ← required l "kind" d_str;
  id ← required l "id" d_str;
  content ← required l "content" hash_of_value;
  Some (mkPart kind id content).

Definition value_of_update_mode (m : UpdateMode) : Value :=
  VObj [("update_mode", VStr (update_mode_mode m));
        ("supports_rollback", VBool (supports_rollback m));
        ("dual_bank", VBool (dual_bank m)); ("reset_kind", VStr (reset_kind m))].
Definition update_mode_of_value (v : Value) : option UpdateMode :=
  l ← fields ["update_mode"; "supports_rollback"; "dual_bank"; "reset_kind"] v;
  mode ← required l "update_mode" d_str;
  rollback ← required l "supports_rollback" d_bool;
  dual ← defaulted l "dual_bank" d_bool false;
  kind ← defaulted l "reset_kind" d_str "";
  Some (mkUpdateMode mode rollback dual kind).

Definition value_of_entity (e : Entity) : Value :=
  VObj ([("kind", VStr (entity_kind e))]
    ++ skip_none "version" VStr (entity_version e)
    ++ skip_none "update_mode" value_of_update_mode (entity_update_mode e)
    ++ [("parts", VArr (value_of_part <$> entity_parts e));
        ("disabled", VBool (entity_disabled e))]
    ++ skip_none "admin_disabled" VBool (entity_admin_disabled e)).
Definition entity_of_value (v : Value) : option Entity :=
  l ← fields ["kind"; "version"; "update_mode"; "parts"; "disabled"; "admin_disabled"] v;
  kind ← defaulted l "kind" d_str "";
  version ← defaulted l "version" (d_option d_str) None;
  mode ← defaulted l "update_mode" (d_option update_mode_of_value) None;
  parts ← defaulted l "parts" (d_vec part_of_value) [];
  disabled ← defaulted l "disabled" d_bool false;
  admin ← defaulted l "admin_disabled" (d_option d_bool) None;
  Some (mkEntity kind version mode parts disabled admin).

Definition value_of_tree (t : Tree) : Value :=
  VObj [("entities", VObj (prod_map id value_of_entity <$> entries t))].
Definition tree_of_value (v : Value) : option Tree :=
  l ← fields ["entities"] v;
  required l "entities" (d_map entity_of_value).

Definition value_of_register (r : RegisterDevice) : Value :=
  VObj ([("id", VStr (register_id r))] ++ skip_none "model" VStr (register_model r)
    ++ skip_none "pubkey" VStr (register_pubkey r)).
Definition register_of_value (v : Value) : option RegisterDevice :=
  l ← fields ["id"; "model"; "pubkey"] v;
  id ← required l "id" d_str;
  model ← defaulted l "model" (d_option d_str) None;
  pubkey ← defaulted l "pubkey" (d_option d_str) None;
  Some (mkRegisterDevice id model pubkey).

Definition value_of_device (d : Device) : Value :=
  VObj ([("id", VStr (device_id d))] ++ skip_none "model" VStr (device_model d)
    ++ [("status", VStr (device_status d))]
    ++ skip_none "pubkey" VStr (device_pubkey d)
    ++ skip_none "ecu_id" VStr (device_ecu_id d)).
Definition device_of_value (v : Value) : option Device :=
  l ← fields ["id"; "model"; "status"; "pubkey"; "ecu_id"] v;
  id ← required l "id" d_str;
  model ← defaulted l "model" (d_option d_str) None;
  status ← required l "status" d_str;
  pubkey ← defaulted l "pubkey" (d_option d_str) None;
  ecu ← defaulted l "ecu_id" (d_option d_str) None;
  Some (mkDevice id model status pubkey ecu).

Definition enroll_of_value (v : Value) : option EnrollResponse :=
  l ← fields ["id"; "key_id"; "certificate_pem"; "serial"; "not_after"; "fingerprint"] v;
  id ← required l "id" d_str;
  key ← required l "key_id" d_str;
  pem ← defaulted l "certificate_pem" (d_option d_str) None;
  serial ← defaulted l "serial" (d_option d_str) None;
  not_after ← defaulted l "not_after" (d_option d_str) None;
  fp ← defaulted l "fingerprint" (d_option d_str) None;
  Some (mkEnrollResponse id key pem serial not_after fp).

Definition value_of_enroll (r : EnrollResponse) : Value :=
  VObj ([("id", VStr (enroll_id r)); ("key_id", VStr (enroll_key_id r))]
    ++ skip_none "certificate_pem" VStr (enroll_certificate_pem r)
    ++ skip_none "serial" VStr (enroll_serial r)
    ++ skip_none "not_after" VStr (enroll_not_after r)
    ++ skip_none "fingerprint" VStr (enroll_fingerprint r)).

Definition value_of_trust_bundle (b : TrustBundle) : Value :=
  VObj [("anchors", VObj (prod_map id VStr <$> entries b))].
Definition trust_bundle_of_value (v : Value) : option TrustBundle :=
  l ← fields ["anchors"] v;
  required l "anchors" (d_map d_str).
End codecs.

(** * Round trips *)

Lemma mapM_fmap_some {A B C} (f : A → B) (g : B → option C) (h : A → C) (l : list A) :
  (∀ x, g (f x) = Some (h x)) → mapM g (f <$> l) = Some (h <$> l).
Proof.
  intros Hgf. induction l as [|x l IH]; [done|].
  rewrite !fmap_cons. cbn [mapM]. by rewrite Hgf; simpl; rewrite IH.
Qed.

Lemma mapM_fmap_id {A B} (f : A → B) (g : B → option A) (l : list A) :
  (∀ x, g (f x) = Some x) → mapM g (f <$> l) = Some l.
Proof. intros Hgf. rewrite (mapM_fmap_some f g id) by done. by rewrite list_fmap_id. Qed.

(** A map written in key order is read back. *)
Lemma d_map_entries {A} (f : A → Value) (d : Value → option A) (m : gmap string A) :
  (∀ a, d (f a) = Some a) → d_map d (VObj (prod_map id f <$> entries m)) = Some m.
Proof.
  intros Hd. unfold d_map. rewrite mapM_fmap_id by (intros [k a]; simpl; by rewrite Hd).
  simpl. f_equal. apply map_eq. intros k. apply option_eq. intros e.
  rewrite <- (elem_of_entries m). split; [apply collect_map_elem_of|].
  intros Hin. by apply collect_map_lookup; [apply NoDup_entries_keys|].
Qed.

(** What a client posts for a device is what the roster reads. *)
Lemma register_value_roundtrip r : register_of_value (value_of_register r) = Some r.
Proof. by destruct r as [? [] []]. Qed.

Lemma device_value_roundtrip d : device_of_value (value_of_device d) = Some d.
Proof. by destruct d as [? [] ? [] []]. Qed.

Lemma enroll_value_roundtrip r : enroll_of_value (value_of_enroll r) = Some r.
Proof. by destruct r as [? ? [] [] [] []]. Qed.

Lemma trust_bundle_value_roundtrip b : trust_bundle_of_value (value_of_trust_bundle b) = Some b.
Proof. by apply d_map_entries. Qed.

Section roundtrip.
Context `{HexCodec}.

Lemma hash_value_roundtrip h : hash_of_value (value_of_hash h) = Some h.
Proof. unfold hash_of_value, value_of_hash. simpl. by rewrite from_str_to_prefixed. Qed.

Lemma part_value_roundtrip p : part_of_value (value_of_part p) = Some p.
Proof.
  unfold part_of_value, value_of_part, required. simpl.
  rewrite hash_value_roundtrip. by destruct p.
Qed.

Lemma update_mode_value_roundtrip m : update_mode_of_value (value_of_update_mode m) = Some m.
Proof. by destruct m. Qed.

Lemma d_option_update_mode m :
  d_option update_mode_of_value (value_of_update_mode m) = Some (Some m).
Proof. by destruct m. Qed.

Lemma entity_value_roundtrip e : entity_of_value (value_of_entity e) = Some e.
Proof.
  destruct e as [kind version mode parts disabled admin].
  unfold entity_of_value, value_of_entity. cbn [entity_kind entity_version entity_update_mode
    entity_parts entity_disabled entity_admin_disabled].
  assert (d_vec part_of_value (VArr (value_of_part <$> parts)) = Some parts) as Hp
    by (apply mapM_fmap_id, part_value_roundtrip).
  destruct version, mode as [m|], admin; cbn -[d_vec d_option value_of_update_mode];
    rewrite ?d_option_update_mode; cbn -[d_vec d_option value_of_update_mode];
    rewrite ?Hp; done.
Qed.

Lemma tree_of_value_of_tree (t : Tree) : tree_of_value (value_of_tree t) = Some t.
Proof. apply d_map_entries, entity_value_roundtrip. Qed.
End roundtrip.
