(* ===== verification/Store.v ===== *)
(** Storage backends of Tower 2 (src/crates/software-tower/src/store.rs): the
    two traits [BlobStore] and [ArtifactIndex] as type classes with the promises
    the content service relies on, the filesystem blob store, the Postgres index
    and the in-memory index as their implementations. *)

From S2P Require Import Prelude Ext Wire.

(** * Faults: the environment decides, call by call, whether a system call or a
    SQL statement fails.  [None] (and the end of the list) means success;
    [Some n] a failure, after [n] bytes where the call writes bytes. *)

Definition faults : Type := list (option nat).

Definition next_fault (fs : faults) : option nat * faults :=
  match fs with
  | [] => (None, [])
  | f :: fs' => (f, fs')
  end.

(** No call fails from here on. *)
Definition no_faults (fs : faults) : Prop := Forall (λ f, f = None) fs.

(** An [io::Error]; the model keeps only which call failed. *)
Inductive io_error :=
  | IoError (call : string).

(** * The index entry *)

Definition CEK_LEN : nat := 16.
Definition NONCE_LEN : nat := 12.

Record ArtifactEntry := mkArtifactEntry {
  entry_inner : ContentHash;
  entry_outer : ContentHash;
  entry_cek : array CEK_LEN;
  entry_nonce : array NONCE_LEN;
  entry_size : Z;
}.

#[export] Instance ArtifactEntry_eq_dec : EqDecision ArtifactEntry.
Proof. solve_decision. Defined.

(** * The traits *)

(** [BlobStore] and [BlobSink].  A sink is mutable state owned by its publish,
    so its methods run on the store's state paired with the sink's; [drop_sink]
    is [Drop for] the sink. *)
Class BlobStore (S : Type) := {
  Sink : Type;
  begin : act S io_error Sink;
  write_all : list byte → act (S * Sink) io_error ();
  commit : ContentHash → act (S * Sink) io_error ();
  drop_sink : S * Sink → S;
  open : ContentHash → act S io_error (option (Z * list byte));
}.

(** What the content service relies on.  [blob_at] is the abstract content of
    the store, [staged] what a live sink has streamed so far; a committed or
    dropped sink leaves only its blob, whatever call failed. *)
Class BlobStoreSpec (S : Type) `{BlobStore S} := {
  blob_at : S → ContentHash → option (list byte);
  live : S * Sink → Prop;
  staged : S * Sink → option (list byte);

  begin_spec s s' r : begin s = (s', r) →
    (∀ h, blob_at s' h = blob_at s h) ∧
    (∀ k, r = Ok k → live (s', k) ∧ staged (s', k) = Some []);
  write_all_spec b old p p' r : live p → staged p = Some old →
    write_all b p = (p', r) →
    live p' ∧ (∀ h, blob_at p'.1 h = blob_at p.1 h) ∧
    ∃ new, staged p' = Some new ∧ (r = Ok () → new = old ++ b);
  commit_spec h b p p' r : live p → staged p = Some b → commit h p = (p', r) →
    (∀ h', h' ≠ h → blob_at (drop_sink p') h' = blob_at p.1 h') ∧
    (blob_at (drop_sink p') h = blob_at p.1 h ∨ blob_at (drop_sink p') h = Some b) ∧
    (r = Ok () → is_Some (blob_at (drop_sink p') h));
  drop_sink_spec p h : live p → blob_at (drop_sink p) h = blob_at p.1 h;
  open_spec h s s' r : open h s = (s', r) →
    (∀ h', blob_at s' h' = blob_at s h') ∧
    (∀ o, r = Ok o → o = (λ b, (Z.of_nat (length b), b)) <$> blob_at s h);

  (** With no failing call ahead, every call succeeds, and a sink, committed or
      not, leaves no staging file behind. *)
  blob_quiet : S → Prop;
  litter : S → gset string;
  others : S * Sink → gset string;

  begin_quiet s s' r : blob_quiet s → begin s = (s', r) →
    blob_quiet s' ∧ ∃ k, r = Ok k ∧ others (s', k) ⊆ litter s;
  write_all_quiet b old p p' r : blob_quiet p.1 → live p → staged p = Some old →
    write_all b p = (p', r) → blob_quiet p'.1 ∧ r = Ok () ∧ others p' = others p;
  commit_quiet h b p p' r : blob_quiet p.1 → live p → staged p = Some b →
    commit h p = (p', r) →
    blob_quiet (drop_sink p') ∧ r = Ok () ∧ litter (drop_sink p') ⊆ others p;
  drop_sink_quiet p : blob_quiet p.1 → live p →
    blob_quiet (drop_sink p) ∧ litter (drop_sink p) ⊆ others p;
  open_quiet h s s' r : blob_quiet s → open h s = (s', r) →
    blob_quiet s' ∧ ∃ o, r = Ok o;
}.

(** [ArtifactIndex]. *)
Class ArtifactIndex (I : Type) := {
  index_get : ContentHash → act I string (option ArtifactEntry);
  index_put : ArtifactEntry → act I string ();
}.

(** [index_at] is the abstract content; [index_ok] says every stored row can be
    read back. *)
Class ArtifactIndexSpec (I : Type) `{ArtifactIndex I} := {
  index_ok : I → Prop;
  index_at : I → ContentHash → option ArtifactEntry;

  index_get_spec h i i' r : index_ok i → index_get h i = (i', r) →
    index_ok i' ∧ (∀ h', index_at i' h' = index_at i h') ∧
    (∀ o, r = Ok o → o = index_at i h);
  index_put_spec e i i' r : index_ok i → u64_ok (entry_size e) →
    index_put e i = (i', r) →
    index_ok i' ∧
    (∀ h', h' ≠ entry_inner e → index_at i' h' = index_at i h') ∧
    (r = Ok () → index_at i' (entry_inner e) =
       Some (default e (index_at i (entry_inner e)))) ∧
    (index_at i' (entry_inner e) = index_at i (entry_inner e) ∨
     index_at i' (entry_inner e) = Some (default e (index_at i (entry_inner e))));

  index_quiet : I → Prop;
  index_get_quiet h i i' r : index_ok i → index_quiet i → index_get h i = (i', r) →
    index_quiet i' ∧ ∃ o, r = Ok o;
  index_put_quiet e i i' r : index_quiet i → index_put e i = (i', r) →
    index_quiet i' ∧ r = Ok ();
}.

(** * The filesystem blob store *)

(** The blob directory, the process id and [TEMP_SEQ], and the faults ahead. *)
Record Fs := mkFs {
  fs_files : gmap string (list byte);
  fs_pid : Z;
  fs_temp_seq : Z;
  fs_faults : faults;
}.

Definition fs_set_files (f : gmap string (list byte)) (s : Fs) : Fs :=
  mkFs f (fs_pid s) (fs_temp_seq s) (fs_faults s).

(** One system call: it fails when the environment says so. *)
Definition syscall (name : string) : act Fs io_error () := λ s,
  let '(f, fs') := next_fault (fs_faults s) in
  let s' := mkFs (fs_files s) (fs_pid s) (fs_temp_seq s) fs' in
  match f with
  | None => (s', Ok ())
  | Some _ => (s', Err (IoError name))
  end.

(** [FsBlobSink]. *)
Record FsBlobSink := mkFsBlobSink {
  sink_tmp : string;
  sink_file : bool;
  sink_committed : bool;
}.

Section fs.
Context `{HexCodec}.

(** [FsBlobStore::path], relative to the root directory. *)
Definition fs_path (outer : ContentHash) : string :=
  hex_encode (slice (hash_bytes outer)).

(** The staging name [.tmp.{pid}.{seq}]. *)
Definition tmp_name (pid seq : Z) : string :=
  ".tmp." +:+ pretty pid +:+ "." +:+ pretty seq.

(** [TEMP_SEQ.fetch_add(1, Relaxed)]: wrapping, returns the old value. *)
Definition fetch_add_seq : act Fs io_error Z := λ s,
  (mkFs (fs_files s) (fs_pid s) (as_u64 (fs_temp_seq s + 1)) (fs_faults s),
   Ok (fs_temp_seq s)).

(** [FsBlobStore::begin].  [File::create] truncates an existing file. *)
Definition fs_begin : act Fs io_error FsBlobSink :=
  _ ← syscall "create_dir_all";
  seq ← fetch_add_seq;
  pid ← gets fs_pid;
  let tmp := tmp_name pid seq in
  _ ← syscall "create";
  updating (λ s, (fs_set_files (<[tmp := []]> (fs_files s)) s,
                  mkFsBlobSink tmp true false)).

(** [FsBlobSink::write_all]: a failing write may have written a prefix. *)
Definition fs_write_all (buf : list byte) : act (Fs * FsBlobSink) io_error () :=
  λ '(s, k),
    let '(f, fs') := next_fault (fs_faults s) in
    let '(n, r) := match f with
      | None => (length buf, Ok ())
      | Some n => (n, Err (IoError "write"))
      end in
    let files := alter (λ old, old ++ take n buf) (sink_tmp k) (fs_files s) in
    (mkFs files (fs_pid s) (fs_temp_seq s) fs', k, r).

(** A system call of a sink's method. *)
Definition sink_call {A} (m : act Fs io_error A) : act (Fs * FsBlobSink) io_error A :=
  λ '(s, k), let '(s', r) := m s in (s', k, r).

Definition sink_state : act (Fs * FsBlobSink) io_error FsBlobSink := gets snd.

Definition sink_files (f : gmap string (list byte) → gmap string (list byte)) :
    act (Fs * FsBlobSink) io_error () :=
  λ '(s, k), (fs_set_files (f (fs_files s)) s, k, Ok ()).

Definition sink_update (f : FsBlobSink → FsBlobSink) :
    act (Fs * FsBlobSink) io_error () :=
  λ '(s, k), (s, f k, Ok ()).

(** [tokio::fs::try_exists(dest).await.unwrap_or(false)]. *)
Definition try_exists_or_false (dest : string) : act Fs io_error bool := λ s,
  let '(s', r) := syscall "try_exists" s in
  match r with
  | Ok _ => (s', Ok (bool_decide (is_Some (fs_files s !! dest))))
  | Err _ => (s', Ok false)
  end.

(** [remove_file(tmp).ok()]. *)
Definition remove_file_ok (tmp : string) : act Fs io_error () := λ s,
  let '(s', r) := syscall "remove_file" s in
  match r with
  | Ok _ => (fs_set_files (delete tmp (fs_files s')) s', Ok ())
  | Err _ => (s', Ok ())
  end.

(** [rename(tmp, dest)]: atomic, replaces the destination. *)
Definition rename_file (tmp dest : string) : act Fs io_error () :=
  _ ← syscall "rename";
  file ← gets (λ s, fs_files s !! tmp);
  match file with
  | Some b =>
      updating (λ s, (fs_set_files (<[dest := b]> (delete tmp (fs_files s))) s, ()))
  | None => throw (IoError "rename")
  end.

(** The start of [commit]: [if let Some(file) = self.file.take()], flush and
    sync it. *)
Definition fs_flush : act (Fs * FsBlobSink) io_error () :=
  k ← sink_state;
  if sink_file k then
    _ ← sink_update (λ k, mkFsBlobSink (sink_tmp k) false (sink_committed k));
    _ ← sink_call (syscall "flush");
    sink_call (syscall "sync_all")
  else mret ().

(** Then drop the temp when the blob already exists, or rename it. *)
Definition fs_publish (outer : ContentHash) (tmp : string) : act Fs io_error () :=
  let dest := fs_path outer in
  exists_ ← try_exists_or_false dest;
  if exists_ : bool then remove_file_ok tmp else rename_file tmp dest.

(** [FsBlobSink::commit]. *)
Definition fs_commit (outer : ContentHash) : act (Fs * FsBlobSink) io_error () :=
  _ ← fs_flush;
  k ← sink_state;
  _ ← sink_call (fs_publish outer (sink_tmp k));
  sink_update (λ k, mkFsBlobSink (sink_tmp k) (sink_file k) true).

(** [Drop for FsBlobSink]: [let _ = remove_file(tmp)] unless committed. *)
Definition fs_drop (p : Fs * FsBlobSink) : Fs :=
  if negb (sink_committed p.2) then (remove_file_ok (sink_tmp p.2) p.1).1 else p.1.

(** [FsBlobStore::open]: a missing file is [None], not an error. *)
Definition fs_open (outer : ContentHash) : act Fs io_error (option (Z * list byte)) :=
  _ ← syscall "open";
  file ← gets (λ s, fs_files s !! fs_path outer);
  match file with
  | Some b =>
      _ ← syscall "metadata";
      mret (Some (Z.of_nat (length b), b))
  | None => mret None
  end.
End fs.

(** * The Postgres index *)

(** A row of the [artifacts] table, keyed by [inner_hash]. *)
Record ArtifactRow := mkArtifactRow {
  row_outer_hash : string;
  row_cek : list byte;
  row_nonce : list byte;
  row_size : Z;
}.

Record PgIndex := mkPgIndex {
  pg_artifacts : gmap string ArtifactRow;
  pg_faults : faults;
}.

(** One SQL statement: a fault hits it before it is applied, or its answer is lost. *)
Definition pg_statement {A} (f : PgIndex → gmap string ArtifactRow * A) :
    act PgIndex string A := λ s,
  let '(flt, fs') := next_fault (pg_faults s) in
  match flt with
  | None => let '(t, a) := f s in (mkPgIndex t fs', Ok a)
  | Some O => (mkPgIndex (pg_artifacts s) fs', Err "database error")
  | Some (S _) => (mkPgIndex (f s).1 fs', Err "connection lost")
  end.

Section pg.
Context `{HexCodec}.

(** Reading a row back, [outer.parse()?] and the two [try_into()?]. *)
Definition read_row (inner : ContentHash) (row : ArtifactRow) :
    result string ArtifactEntry :=
  outer ← map_err (λ _, "invalid outer hash") (from_str (row_outer_hash row));
  cek ← ok_or "invalid cek" (try_into CEK_LEN (row_cek row));
  nonce ← ok_or "invalid nonce" (try_into NONCE_LEN (row_nonce row));
  mret (mkArtifactEntry inner outer cek nonce (as_u64 (row_size row))).

(** [PgIndex::get]. *)
Definition pg_get (inner : ContentHash) : act PgIndex string (option ArtifactEntry) :=
  row ← pg_statement (λ s, (pg_artifacts s, pg_artifacts s !! to_prefixed inner));
  match row with
  | None => mret None
  | Some row => e ← lift (read_row inner row); mret (Some e)
  end.

(** [PgIndex::put]: [INSERT ... ON CONFLICT (inner_hash) DO NOTHING]. *)
Definition pg_put (e : ArtifactEntry) : act PgIndex string () :=
  pg_statement (λ s,
    let key := to_prefixed (entry_inner e) in
    let row := mkArtifactRow (to_prefixed (entry_outer e)) (slice (entry_cek e))
      (slice (entry_nonce e)) (as_i64 (entry_size e)) in
    (match pg_artifacts s !! key with
     | Some _ => pg_artifacts s
     | None => <[key := row]> (pg_artifacts s)
     end, ())).

(** Every row can be read back. *)
Definition pg_ok (s : PgIndex) : Prop :=
  ∀ h row, pg_artifacts s !! to_prefixed h = Some row →
    ∃ e, read_row h row = Ok e.

(** What the table says about an artifact. *)
Definition pg_at (s : PgIndex) (h : ContentHash) : option ArtifactEntry :=
  row ← pg_artifacts s !! to_prefixed h; ok (read_row h row).
End pg.

(** * The in-memory index of the tests *)

Abbreviation MemIndex := (list (ContentHash * ArtifactEntry)).

Definition mem_lookup (m : MemIndex) (h : ContentHash) : option ArtifactEntry :=
  snd <$> head (filter (λ p, p.1 = h) m).

Definition mem_get (h : ContentHash) : act MemIndex string (option ArtifactEntry) :=
  gets (λ m, mem_lookup m h).

(** [entry(inner).or_insert_with(..)]. *)
Definition mem_put (e : ArtifactEntry) : act MemIndex string () := λ m,
  match mem_lookup m (entry_inner e) with
  | Some _ => (m, Ok ())
  | None => ((entry_inner e, e) :: m, Ok ())
  end.

(** * Lemmas: the filesystem *)

Lemma no_faults_next fs : no_faults fs →
  (next_fault fs).1 = None ∧ no_faults (next_fault fs).2.
Proof. destruct 1; simpl; [by split; [|constructor]|by split]. Qed.

Section fs_lemmas.
Context `{HexCodec}.

#[export] Instance fs_store : BlobStore Fs := {|
  Sink := FsBlobSink;
  begin := fs_begin;
  write_all := fs_write_all;
  commit := fs_commit;
  drop_sink := fs_drop;
  open := fs_open;
|}.

(** The published files: those named by a hash. *)
Definition fs_blob_at (s : Fs) (h : ContentHash) : option (list byte) :=
  fs_files s !! fs_path h.

(** A staging file's name starts with a dot, which no hex name does. *)
Definition is_tmp (name : string) : Prop := ∃ rest, name = ".tmp." +:+ rest.

#[export] Instance is_tmp_dec name : Decision (is_tmp name).
Proof.
  refine (cast_if (decide (is_Some (strip_prefix ".tmp." name)))).
  - abstract (destruct i as [rest Hr%strip_prefix_Some]; by exists rest).
  - abstract (intros [rest ->]; destruct n; rewrite strip_prefix_app; eauto).
Defined.

Definition fs_live (p : Fs * FsBlobSink) : Prop :=
  is_tmp (sink_tmp p.2) ∧ sink_committed p.2 = false.

Definition fs_staged (p : Fs * FsBlobSink) : option (list byte) :=
  fs_files p.1 !! sink_tmp p.2.

Definition fs_litter (s : Fs) : gset string :=
  filter is_tmp (dom (fs_files s)).

Definition fs_others (p : Fs * FsBlobSink) : gset string :=
  fs_litter p.1 ∖ {[ sink_tmp p.2 ]}.

Lemma fs_path_not_tmp h : ¬ is_tmp (fs_path h).
Proof.
  intros [rest Hr]. unfold fs_path in Hr.
  pose proof (hex_encode_lower (slice (hash_bytes h))) as Hl. by rewrite Hr in Hl.
Qed.

Lemma fs_path_inj h1 h2 : fs_path h1 = fs_path h2 → h1 = h2.
Proof.
  intros Heq%hex_encode_inj%slice_inj. destruct h1, h2. simpl in Heq. by subst.
Qed.

Lemma tmp_name_is_tmp pid seq : is_tmp (tmp_name pid seq).
Proof. by eexists. Qed.

Lemma path_ne_tmp h tmp : is_tmp tmp → fs_path h ≠ tmp.
Proof. intros Ht <-. by apply fs_path_not_tmp in Ht. Qed.

Lemma syscall_inv name s s' r : syscall name s = (s', r) →
  fs_files s' = fs_files s ∧
  (no_faults (fs_faults s) → no_faults (fs_faults s') ∧ r = Ok ()).
Proof.
  unfold syscall. pose proof (no_faults_next (fs_faults s)) as Hq.
  destruct (next_fault _) as [[n|] fs']; intros [= <- <-]; simpl; split; try done.
  - intros Hn. by destruct (Hq Hn).
  - intros Hn. by destruct (Hq Hn).
Qed.

(** Run the effectful code, one system call at a time. *)
Ltac fs_run :=
  unfold_act; unfold sink_call, sink_state, sink_update, updating, gets in *; simpl in *;
  repeat match goal with
  | _ : context [syscall ?n ?s] |- _ =>
      let s' := fresh "s" in let r := fresh "r" in let Hs := fresh "Hs" in
      let Hf := fresh "Hf" in let Hq := fresh "Hq" in
      destruct (syscall n s) as [s' r] eqn:Hs;
      apply syscall_inv in Hs as [Hf Hq]; destruct r as [[]|?]; simplify_eq/=
  end.

Lemma fs_begin_inv s s' r : fs_begin s = (s', r) →
  (∃ tmp, is_tmp tmp ∧ fs_files s' = <[tmp := []]> (fs_files s) ∧
     r = Ok (mkFsBlobSink tmp true false)) ∨
  (fs_files s' = fs_files s ∧ ∃ e, r = Err e).
Proof.
  unfold fs_begin. intros Hb. fs_run; [left|right..]; try by rewrite ?Hf, ?Hf0; eauto.
  eexists. split; [apply tmp_name_is_tmp|]. split; [by rewrite Hf0, Hf|done].
Qed.

Lemma remove_file_ok_inv tmp s s' r : remove_file_ok tmp s = (s', r) →
  r = Ok () ∧ (fs_files s' = delete tmp (fs_files s) ∨ fs_files s' = fs_files s) ∧
  (no_faults (fs_faults s) →
     no_faults (fs_faults s') ∧ fs_files s' = delete tmp (fs_files s)).
Proof.
  unfold remove_file_ok. intros Hr. fs_run; rewrite Hf; split_and!; auto.
  - intros [Hn _]%Hq. done.
  - intros [_ ?]%Hq. done.
Qed.

Lemma rename_file_inv tmp dest b s s' r :
  fs_files s !! tmp = Some b → rename_file tmp dest s = (s', r) →
  (r = Ok () ∧ fs_files s' = <[dest := b]> (delete tmp (fs_files s)) ∨
   (∃ e, r = Err e) ∧ fs_files s' = fs_files s) ∧
  (no_faults (fs_faults s) → no_faults (fs_faults s') ∧ r = Ok ()).
Proof.
  intros Hb. unfold rename_file. intros Hr. fs_run.
  - rewrite Hf, Hb in Hr. simplify_eq/=. rewrite Hf. naive_solver.
  - rewrite Hf. naive_solver.
Qed.

Lemma try_exists_inv dest s s' r : try_exists_or_false dest s = (s', r) →
  fs_files s' = fs_files s ∧
  (∃ x : bool, r = Ok x ∧ (x = true → is_Some (fs_files s !! dest))) ∧
  (no_faults (fs_faults s) → no_faults (fs_faults s')).
Proof.
  unfold try_exists_or_false. intros Hr. fs_run; split_and!; try naive_solver.
  eexists. split; [done|]. by intros ?%bool_decide_eq_true.
Qed.

Lemma fs_publish_inv outer tmp b s s' r :
  is_tmp tmp → fs_files s !! tmp = Some b → fs_publish outer tmp s = (s', r) →
  (r = Ok () ∧ is_Some (fs_files s !! fs_path outer) ∧
     (fs_files s' = delete tmp (fs_files s) ∨ fs_files s' = fs_files s) ∨
   r = Ok () ∧ fs_files s' = <[fs_path outer := b]> (delete tmp (fs_files s)) ∨
   (∃ e, r = Err e) ∧ fs_files s' = fs_files s) ∧
  (no_faults (fs_faults s) → no_faults (fs_faults s') ∧ r = Ok () ∧
     fs_files s' !! tmp = None).
Proof.
  intros Htmp Hb. unfold fs_publish, mbind, act_bind. intros Hr.
  destruct (try_exists_or_false _ s) as [s1 r1] eqn:He.
  apply try_exists_inv in He as (Hf & (x & -> & Hx) & Hq). destruct x.
  - apply remove_file_ok_inv in Hr as (-> & Hd & Hn). rewrite Hf in Hd, Hn.
    split; [left; auto|]. intros Hn0. destruct (Hn (Hq Hn0)) as [? ->].
    split_and!; [done..|]. apply lookup_delete_eq.
  - apply (rename_file_inv _ _ b) in Hr as [Hd Hn]; [|by rewrite Hf].
    rewrite Hf in Hd. split; [naive_solver|].
    intros Hn0. destruct (Hn (Hq Hn0)) as [? ->]. split_and!; [done..|].
    destruct Hd as [[_ ->]|[[e ?] _]]; [|done].
    rewrite lookup_insert_ne by by apply path_ne_tmp. apply lookup_delete_eq.
Qed.

Lemma fs_flush_inv s k s' k' r :
  fs_flush (s, k) = ((s', k'), r) →
  fs_files s' = fs_files s ∧ sink_tmp k' = sink_tmp k ∧
  sink_committed k' = sink_committed k ∧
  (no_faults (fs_faults s) → no_faults (fs_faults s') ∧ r = Ok ()).
Proof.
  unfold fs_flush. intros Hr. unfold_act. unfold sink_state, gets in Hr. simpl in Hr.
  destruct (sink_file k); [|by simplify_eq/=].
  fs_run; split_and!; try congruence; naive_solver.
Qed.

Lemma fs_commit_inv outer s k s' k' r :
  fs_commit outer (s, k) = ((s', k'), r) →
  sink_tmp k' = sink_tmp k ∧
  ∃ s1 (r1 : result io_error ()), fs_files s1 = fs_files s ∧
    (no_faults (fs_faults s) → no_faults (fs_faults s1) ∧ r1 = Ok ()) ∧
    ((∃ e, r1 = Err e) ∧ (∃ e, r = Err e) ∧ s' = s1 ∧ sink_committed k' = sink_committed k ∨
     r1 = Ok () ∧ ∃ r2, fs_publish outer (sink_tmp k) s1 = (s', r2) ∧
       (r2 = Ok () ∧ r = Ok () ∧ sink_committed k' = true ∨
        (∃ e, r2 = Err e) ∧ (∃ e, r = Err e) ∧ sink_committed k' = sink_committed k)).
Proof.
  unfold fs_commit. unfold mbind, act_bind. intros Hr.
  destruct (fs_flush (s, k)) as [[s1 k1] r1] eqn:Hf.
  apply fs_flush_inv in Hf as (Hfiles & Htmp & Hcom & Hq).
  destruct r1 as [[]|e1]; simpl in Hr.
  - unfold sink_call, sink_update in Hr. simpl in Hr. rewrite Htmp in Hr.
    destruct (fs_publish outer (sink_tmp k) s1) as [s2 r2] eqn:Hp.
    destruct r2 as [[]|e2]; simplify_eq/=; (split; [done|]); exists s1, (Ok ());
      (split_and!; [done|done|right; split; [done|]]); naive_solver.
  - simplify_eq/=. split; [done|]. exists s', (Err e1). naive_solver.
Qed.

Lemma fs_blob_at_eq s s' h :
  fs_files s' = fs_files s → fs_blob_at s' h = fs_blob_at s h.
Proof. unfold fs_blob_at. by intros ->. Qed.

(** Touching a staging file leaves every blob alone. *)
Lemma fs_blob_at_tmp s s' tmp h :
  is_tmp tmp → (∀ n, n ≠ tmp → fs_files s' !! n = fs_files s !! n) →
  fs_blob_at s' h = fs_blob_at s h.
Proof. intros Ht Hn. apply Hn. by apply path_ne_tmp. Qed.

Lemma fs_drop_spec p h :
  is_tmp (sink_tmp p.2) → fs_blob_at (fs_drop p) h = fs_blob_at p.1 h.
Proof.
  intros Ht. unfold fs_drop. destruct (negb _); [|done].
  destruct (remove_file_ok _ _) as [s' r] eqn:Hr.
  apply remove_file_ok_inv in Hr as (_ & [Hd|Hd] & _); simpl.
  - eapply fs_blob_at_tmp; [done|]. intros n Hn. rewrite Hd. by apply lookup_delete_ne.
  - by apply fs_blob_at_eq.
Qed.

Lemma fs_commit_spec h b p p' r :
  fs_live p → fs_staged p = Some b → fs_commit h p = (p', r) →
  (∀ h', h' ≠ h → fs_blob_at (fs_drop p') h' = fs_blob_at p.1 h') ∧
  (fs_blob_at (fs_drop p') h = fs_blob_at p.1 h ∨ fs_blob_at (fs_drop p') h = Some b) ∧
  (r = Ok () → is_Some (fs_blob_at (fs_drop p') h)).
Proof.
  destruct p as [s k], p' as [s' k']. intros [Ht Hc] Hb Hr. simpl in *.
  apply fs_commit_inv in Hr as (Htmp & s1 & r1 & Hf & _ & Hcase).
  rewrite !(fs_drop_spec (s', k')) by (simpl; by rewrite Htmp).
  setoid_rewrite (fs_drop_spec (s', k')); [|simpl; by rewrite Htmp..]. simpl.
  assert (∀ h', fs_blob_at s1 h' = fs_blob_at s h') as Hs1 by (intros; by apply fs_blob_at_eq).
  destruct Hcase as [(_ & [e ->] & -> & _)|(_ & r2 & Hp & Hr2)].
  { setoid_rewrite Hs1. naive_solver. }
  unfold fs_staged in Hb. simpl in Hb. rewrite <- Hf in Hb.
  apply (fs_publish_inv _ _ b) in Hp as [Hp _]; [|done..]. setoid_rewrite <- Hs1.
  destruct Hp as [(-> & Hex & Hd)|[(-> & Hd)|([e ->] & Hd)]].
  - assert (∀ h', fs_blob_at s' h' = fs_blob_at s1 h') as Hall.
    { intros h'. destruct Hd as [Hd|Hd]; [|by apply fs_blob_at_eq].
      eapply fs_blob_at_tmp; [exact Ht|]. intros n Hn. rewrite Hd. by apply lookup_delete_ne. }
    setoid_rewrite Hall. split_and!; auto.
  - unfold fs_blob_at. rewrite Hd, !lookup_insert_eq. split_and!; eauto.
    intros h' Hne. rewrite lookup_insert_ne by (intros ?%fs_path_inj; congruence).
    apply lookup_delete_ne. by apply not_eq_sym, path_ne_tmp.
  - assert (∀ h', fs_blob_at s' h' = fs_blob_at s1 h') as Hall
      by (intros; by apply fs_blob_at_eq).
    setoid_rewrite Hall. naive_solver.
Qed.

(** An existing blob survives a commit whose existence check succeeds. *)
Lemma fs_commit_keeps h b p p' r old :
  no_faults (fs_faults p.1) → fs_live p → fs_staged p = Some b →
  fs_commit h p = (p', r) → fs_blob_at p.1 h = Some old →
  fs_blob_at (fs_drop p') h = Some old.
Proof.
  destruct p as [s k], p' as [s' k']. intros Hn [Ht Hc] Hb Hr Hold. simpl in *.
  apply fs_commit_inv in Hr as (Htmp & s1 & r1 & Hf & Hq & Hcase).
  destruct (Hq Hn) as [Hn1 ->].
  destruct Hcase as [([e ?] & _)|(_ & r2 & Hp & _)]; [done|].
  rewrite fs_drop_spec by (simpl; by rewrite Htmp). simpl.
  unfold fs_publish, mbind, act_bind, try_exists_or_false in Hp.
  destruct (syscall "try_exists" s1) as [s2 r3] eqn:Hs.
  apply syscall_inv in Hs as [Hf2 Hq2]. destruct (Hq2 Hn1) as [_ ->].
  rewrite bool_decide_true in Hp; [|unfold fs_blob_at in Hold; rewrite Hf; eauto].
  apply remove_file_ok_inv in Hp as (_ & Hd & _). rewrite <- Hold.
  destruct Hd as [Hd|Hd]; [|by apply fs_blob_at_eq; rewrite Hd, Hf2, Hf].
  eapply fs_blob_at_tmp; [exact Ht|]. intros n Hne.
  rewrite Hd, Hf2, Hf. by apply lookup_delete_ne.
Qed.

Lemma fs_write_all_inv b p p' r : fs_write_all b p = (p', r) →
  p'.2 = p.2 ∧
  (∃ n, fs_files p'.1 = alter (λ old, old ++ take n b) (sink_tmp p.2) (fs_files p.1) ∧
     (r = Ok () → n = length b)) ∧
  (no_faults (fs_faults p.1) → no_faults (fs_faults p'.1) ∧ r = Ok ()).
Proof.
  destruct p as [s k]. unfold fs_write_all.
  pose proof (no_faults_next (fs_faults s)) as Hq.
  destruct (next_fault _) as [[n|] fs'] eqn:Hn; intros; simplify_eq/=; split_and!;
    try naive_solver; eauto.
Qed.

Lemma fs_write_all_spec b old p p' r :
  fs_live p → fs_staged p = Some old → fs_write_all b p = (p', r) →
  fs_live p' ∧ (∀ h, fs_blob_at p'.1 h = fs_blob_at p.1 h) ∧
  ∃ new, fs_staged p' = Some new ∧ (r = Ok () → new = old ++ b).
Proof.
  intros [Ht Hc] Hold (Hk & (n & Hf & Hn) & _)%fs_write_all_inv.
  unfold fs_live, fs_staged. rewrite Hk. split_and!; try done.
  - intros h. eapply fs_blob_at_tmp; [exact Ht|]. intros m Hm.
    rewrite Hf. by apply lookup_alter_ne.
  - exists (old ++ take n b). rewrite Hf, lookup_alter_eq.
    unfold fs_staged in Hold. rewrite Hold. split; [done|].
    intros ->%Hn. by rewrite firstn_all.
Qed.

Lemma fs_begin_spec s s' r : fs_begin s = (s', r) →
  (∀ h, fs_blob_at s' h = fs_blob_at s h) ∧
  (∀ k, r = Ok k → fs_live (s', k) ∧ fs_staged (s', k) = Some []).
Proof.
  intros [(tmp & Ht & Hf & ->)|(Hf & e & ->)]%fs_begin_inv; split; try done.
  - intros h. eapply fs_blob_at_tmp; [exact Ht|]. intros n Hn.
    rewrite Hf. by apply lookup_insert_ne.
  - intros k [= <-]. unfold fs_live, fs_staged. simpl.
    by rewrite Hf, lookup_insert_eq.
  - intros h. by apply fs_blob_at_eq.
Qed.

Lemma fs_open_inv h s s' r : fs_open h s = (s', r) →
  fs_files s' = fs_files s ∧
  (∀ o, r = Ok o → o = (λ b, (Z.of_nat (length b), b)) <$> fs_blob_at s h) ∧
  (no_faults (fs_faults s) → no_faults (fs_faults s') ∧ ∃ o, r = Ok o).
Proof.
  unfold fs_open, fs_blob_at. intros Hr. unfold_act. fs_run;
    [|split_and!; naive_solver].
  rewrite Hf in Hr. destruct (fs_files s !! fs_path h) as [b|]; fs_run;
    split_and!; try congruence; naive_solver.
Qed.

Lemma fs_litter_elem s n : n ∈ fs_litter s ↔ is_tmp n ∧ is_Some (fs_files s !! n).
Proof. unfold fs_litter. by rewrite elem_of_filter, elem_of_dom. Qed.

Lemma fs_begin_quiet s s' r : no_faults (fs_faults s) → fs_begin s = (s', r) →
  no_faults (fs_faults s') ∧ ∃ k, r = Ok k ∧ fs_others (s', k) ⊆ fs_litter s.
Proof.
  intros Hn Hb. pose proof (fs_begin_inv _ _ _ Hb) as Hinv.
  assert (no_faults (fs_faults s') ∧ ∃ k, r = Ok k) as [Hn' [k ->]].
  { unfold fs_begin in Hb. fs_run; naive_solver. }
  split; [done|]. exists k. split; [done|].
  destruct Hinv as [(tmp & _ & Hf & [= ->])|(_ & e & ?)]; [|done].
  intros n. unfold fs_others. simpl. rewrite elem_of_difference, !fs_litter_elem, Hf.
  intros [[Ht Hs] Hne]. split; [done|]. rewrite lookup_insert_ne in Hs; set_solver.
Qed.

Lemma fs_write_all_quiet b old p p' r :
  no_faults (fs_faults p.1) → fs_live p → fs_staged p = Some old →
  fs_write_all b p = (p', r) →
  no_faults (fs_faults p'.1) ∧ r = Ok () ∧ fs_others p' = fs_others p.
Proof.
  intros Hn _ _ (Hk & (n & Hf & _) & Hq)%fs_write_all_inv.
  destruct (Hq Hn). split_and!; [done..|].
  unfold fs_others. rewrite Hk. f_equal. unfold fs_litter. by rewrite Hf, dom_alter_L.
Qed.

(** Removing the sink's temp leaves only the other staging files. *)
Lemma fs_litter_without s p :
  fs_files s !! sink_tmp p.2 = None →
  (∀ n, is_tmp n → n ≠ sink_tmp p.2 → fs_files s !! n = fs_files p.1 !! n) →
  fs_litter s ⊆ fs_others p.
Proof.
  intros Hnone Hn n. unfold fs_others. rewrite elem_of_difference, !fs_litter_elem.
  intros [Ht Hs]. assert (n ≠ sink_tmp p.2) as Hne by (intros ->; rewrite Hnone in Hs; by destruct Hs).
  rewrite <- Hn by done. set_solver.
Qed.

Lemma fs_drop_quiet p :
  no_faults (fs_faults p.1) → fs_live p →
  no_faults (fs_faults (fs_drop p)) ∧ fs_litter (fs_drop p) ⊆ fs_others p.
Proof.
  intros Hn [Ht Hc]. unfold fs_drop. rewrite Hc. simpl.
  destruct (remove_file_ok _ _) as [s' r] eqn:Hr.
  apply remove_file_ok_inv in Hr as (_ & _ & Hq). destruct (Hq Hn) as [Hn' Hf]. simpl.
  split; [done|]. apply fs_litter_without; rewrite Hf.
  - apply lookup_delete_eq.
  - intros n _ Hne. by apply lookup_delete_ne.
Qed.

Lemma fs_commit_quiet h b p p' r :
  no_faults (fs_faults p.1) → fs_live p → fs_staged p = Some b →
  fs_commit h p = (p', r) →
  no_faults (fs_faults (fs_drop p')) ∧ r = Ok () ∧ fs_litter (fs_drop p') ⊆ fs_others p.
Proof.
  destruct p as [s k], p' as [s' k']. intros Hn [Ht Hc] Hb Hr. simpl in *.
  apply fs_commit_inv in Hr as (Htmp & s1 & r1 & Hf & Hq & Hcase).
  destruct (Hq Hn) as [Hn1 ->].
  destruct Hcase as [([e ?] & _)|(_ & r2 & Hp & Hr2)]; [done|].
  unfold fs_staged in Hb. simpl in Hb. rewrite <- Hf in Hb.
  apply (fs_publish_inv _ _ b) in Hp as [Hp Hpq]; [|done..].
  destruct (Hpq Hn1) as (Hn' & -> & Hnone).
  destruct Hr2 as [(_ & -> & Hcom)|([e ?] & _)]; [|done].
  unfold fs_drop. simpl. rewrite Hcom. simpl. split_and!; [done..|].
  apply fs_litter_without; [done|]. simpl. rewrite <- Hf. intros n Htn Hne.
  destruct Hp as [(_ & _ & [->| ->])|[(_ & ->)|([e ?] & _)]]; try done.
  - by apply lookup_delete_ne.
  - rewrite lookup_insert_ne by by apply path_ne_tmp. by apply lookup_delete_ne.
Qed.

#[export] Instance fs_store_spec : BlobStoreSpec Fs.
Proof.
  refine {|
    blob_at := fs_blob_at; live := fs_live; staged := fs_staged;
    begin_spec := fs_begin_spec; write_all_spec := fs_write_all_spec;
    commit_spec := fs_commit_spec;
    blob_quiet s := no_faults (fs_faults s);
    litter := fs_litter; others := fs_others;
    begin_quiet := fs_begin_quiet; write_all_quiet := fs_write_all_quiet;
    commit_quiet := fs_commit_quiet; drop_sink_quiet := fs_drop_quiet;
  |}.
  - intros p h [Ht _]. by apply fs_drop_spec.
  - intros h s s' r (Hf & Ho & _)%fs_open_inv. split; [|done].
    intros h'. by apply fs_blob_at_eq.
  - intros h s s' r Hn (_ & _ & Hq)%fs_open_inv. by apply Hq.
Defined.
End fs_lemmas.

(** * Lemmas: the indexes *)

Section pg_lemmas.
Context `{HexCodec}.

#[export] Instance pg_index : ArtifactIndex PgIndex := {|
  index_get := pg_get;
  index_put := pg_put;
|}.

(** The row [put] inserts. *)
Definition row_of (e : ArtifactEntry) : ArtifactRow :=
  mkArtifactRow (to_prefixed (entry_outer e)) (slice (entry_cek e))
    (slice (entry_nonce e)) (as_i64 (entry_size e)).

(** Reading an inserted row gives the entry back; the cast of the size to the
    column's signed type and back loses nothing. *)
Lemma read_row_of e : u64_ok (entry_size e) → read_row (entry_inner e) (row_of e) = Ok e.
Proof.
  intros Hs. unfold read_row, row_of. simpl. rewrite from_str_to_prefixed. simpl.
  rewrite !try_into_slice. simpl. rewrite as_u64_as_i64, as_u64_id by done. by destruct e.
Qed.

Lemma pg_statement_inv {A} (f : PgIndex → gmap string ArtifactRow * A) s s' r :
  pg_statement f s = (s', r) →
  (pg_artifacts s' = (f s).1 ∧ r = Ok (f s).2 ∨
   (pg_artifacts s' = pg_artifacts s ∨ pg_artifacts s' = (f s).1) ∧ ∃ e, r = Err e) ∧
  (no_faults (pg_faults s) → no_faults (pg_faults s') ∧ r = Ok (f s).2).
Proof.
  unfold pg_statement. pose proof (no_faults_next (pg_faults s)) as Hq.
  destruct (next_fault _) as [[[|n]|] fs'], (f s); intros; simplify_eq/=; naive_solver.
Qed.

Lemma pg_get_inv h i i' r : pg_get h i = (i', r) →
  pg_artifacts i' = pg_artifacts i ∧ (∀ o, r = Ok o → o = pg_at i h) ∧
  (pg_ok i → no_faults (pg_faults i) → no_faults (pg_faults i') ∧ ∃ o, r = Ok o).
Proof.
  unfold pg_get, pg_at, pg_ok, mbind, act_bind. intros Hr.
  destruct (pg_statement _ i) as [i1 r1] eqn:Hs.
  apply pg_statement_inv in Hs as [[[Hf ->]|[Hf [e ->]]] Hq]; simpl in *;
    [|destruct Hf as [Hf|Hf]].
  - destruct (pg_artifacts i !! to_prefixed h) as [row|] eqn:Hl; simpl in *.
    + destruct (read_row h row) as [e|e] eqn:Hrd; injection Hr as <- <-;
        simpl; (split_and!; [done|naive_solver|]); intros Hok Hn; destruct (Hq Hn).
      * eauto.
      * destruct (Hok h row Hl). congruence.
    + injection Hr as <- <-. split_and!; [done|naive_solver|].
      intros _ Hn. destruct (Hq Hn). eauto.
  - simplify_eq/=. split_and!; [done|done|]. intros _ Hn. by destruct (Hq Hn).
  - simplify_eq/=. split_and!; [done|done|]. intros _ Hn. by destruct (Hq Hn).
Qed.

Lemma pg_at_eq i i' h : pg_artifacts i' = pg_artifacts i → pg_at i' h = pg_at i h.
Proof. unfold pg_at. by intros ->. Qed.

Lemma pg_ok_eq i i' : pg_artifacts i' = pg_artifacts i → pg_ok i → pg_ok i'.
Proof. unfold pg_ok. by intros ->. Qed.

(** An insertion that reached the table, answered or not. *)
Lemma pg_put_applied e i i' (key := to_prefixed (entry_inner e)) :
  pg_ok i → u64_ok (entry_size e) →
  pg_artifacts i' = match pg_artifacts i !! key with
    | Some _ => pg_artifacts i
    | None => <[key := row_of e]> (pg_artifacts i)
    end →
  pg_ok i' ∧ (∀ h', h' ≠ entry_inner e → pg_at i' h' = pg_at i h') ∧
  pg_at i' (entry_inner e) = Some (default e (pg_at i (entry_inner e))).
Proof.
  intros Hok Hs Hf. subst key.
  destruct (pg_artifacts i !! to_prefixed (entry_inner e)) as [row|] eqn:Hl.
  - destruct (Hok _ _ Hl) as [e0 He0].
    split_and!; [eauto using pg_ok_eq|eauto using pg_at_eq|].
    rewrite (pg_at_eq _ _ _ Hf). unfold pg_at. rewrite Hl. simpl. by rewrite He0.
  - pose proof (read_row_of e Hs) as Hrow.
    split_and!; [|intros h' Hne|].
    + intros h row. rewrite Hf. destruct (decide (h = entry_inner e)) as [->|Hne].
      * rewrite lookup_insert_eq. intros [= <-]. eauto.
      * rewrite lookup_insert_ne by (intros ?%to_prefixed_inj; congruence). apply Hok.
    + unfold pg_at. rewrite Hf.
      by rewrite lookup_insert_ne by (intros ?%to_prefixed_inj; congruence).
    + unfold pg_at. rewrite Hf, lookup_insert_eq, Hl. simpl. by rewrite Hrow.
Qed.

Lemma pg_put_spec e i i' r :
  pg_ok i → u64_ok (entry_size e) → pg_put e i = (i', r) →
  pg_ok i' ∧
  (∀ h', h' ≠ entry_inner e → pg_at i' h' = pg_at i h') ∧
  (r = Ok () → pg_at i' (entry_inner e) =
     Some (default e (pg_at i (entry_inner e)))) ∧
  (pg_at i' (entry_inner e) = pg_at i (entry_inner e) ∨
   pg_at i' (entry_inner e) = Some (default e (pg_at i (entry_inner e)))).
Proof.
  intros Hok Hs [[[Hf ->]|[[Hf|Hf] [er ->]]] _]%pg_statement_inv.
  - destruct (pg_put_applied e i i' Hok Hs Hf) as (? & ? & ?). auto.
  - split_and!; eauto using pg_ok_eq, pg_at_eq; done.
  - destruct (pg_put_applied e i i' Hok Hs Hf) as (? & ? & ?). auto.
Qed.

#[export] Instance pg_index_spec : ArtifactIndexSpec PgIndex.
Proof.
  refine {|
    index_ok := pg_ok; index_at := pg_at; index_put_spec := pg_put_spec;
    index_quiet i := no_faults (pg_faults i);
  |}.
  - intros h i i' r Hok (Hf & Ho & _)%pg_get_inv.
    split_and!; eauto using pg_ok_eq, pg_at_eq.
  - intros h i i' r Hok Hq (_ & _ & Hn)%pg_get_inv. auto.
  - intros e i i' r Hq [_ Hn]%pg_statement_inv. by apply Hn.
Defined.
End pg_lemmas.

#[export] Instance mem_index : ArtifactIndex MemIndex := {|
  index_get := mem_get;
  index_put := mem_put;
|}.

Lemma mem_lookup_cons h e m h' :
  mem_lookup ((h, e) :: m) h' = if decide (h = h') then Some e else mem_lookup m h'.
Proof. unfold mem_lookup. rewrite list.filter_cons. simpl. by destruct (decide _). Qed.

#[export] Instance mem_index_spec : ArtifactIndexSpec MemIndex.
Proof.
  refine {| index_ok _ := True; index_at := mem_lookup; index_quiet _ := True |}.
  - intros h i i' r _ [= <- <-]. naive_solver.
  - intros e i i' r _ _ Hp. simpl in Hp. unfold mem_put in Hp.
    destruct (mem_lookup i (entry_inner e)) as [e0|] eqn:Hl; simplify_eq.
    + rewrite Hl. naive_solver.
    + split_and!; [done|intros h' Hne|intros _|right]; rewrite mem_lookup_cons;
        [by rewrite decide_False by done|by rewrite decide_True by done..].
  - intros h i i' r _ _ [= <- <-]. eauto.
  - intros e i i' r _ Hp. simpl in Hp. unfold mem_put in Hp.
    by destruct (mem_lookup _ _); simplify_eq.
Defined.

(** * Properties *)

Section store_properties.
Context `{HexCodec}.

(** Committing a staged blob is atomic whatever system call fails: once
    the sink is dropped, every other address is untouched, the committed address
    holds what it held before or exactly the streamed bytes, a successful commit
    leaves it present, an existing blob is never replaced when no call fails, and
    then no staging file of this sink remains either. *)
Lemma fs_commit_atomic (h : ContentHash) (b : list byte) (p p' : Fs * FsBlobSink)
    (r : result io_error ())
    (Hlive : fs_live p) (Hst : fs_staged p = Some b) (Hc : fs_commit h p = (p', r)) :
  (∀ h', h' ≠ h → fs_blob_at (fs_drop p') h' = fs_blob_at p.1 h') ∧
  (fs_blob_at (fs_drop p') h = fs_blob_at p.1 h ∨ fs_blob_at (fs_drop p') h = Some b) ∧
  (r = Ok () → is_Some (fs_blob_at (fs_drop p') h)) ∧
  (no_faults (fs_faults p.1) →
     r = Ok () ∧ fs_litter (fs_drop p') ⊆ fs_others p ∧
     fs_blob_at (fs_drop p') h = Some (default b (fs_blob_at p.1 h))).
Proof.
  pose proof (fs_commit_spec _ _ _ _ _ Hlive Hst Hc) as (Hne & Hh & Hok).
  split_and!; [done..|]. intros Hn.
  destruct (fs_commit_quiet _ _ _ _ _ Hn Hlive Hst Hc) as (_ & -> & Hl).
  split_and!; [done..|]. specialize (Hok eq_refl).
  destruct (fs_blob_at p.1 h) as [old|] eqn:Hold; simpl;
    [|destruct Hh as [Hh| ->]; [rewrite Hh in Hok; by destruct Hok|done]].
  by apply (fs_commit_keeps h b p p' (Ok ())).
Qed.

(** Reading an artifact back after recording it gives the first entry ever
    recorded for that plaintext, every field included: the hash texts parse, the
    key and nonce keep their lengths, and the unsigned 64-bit size survives the
    signed column; recording it again changes nothing. *)
Lemma pg_put_get (e : ArtifactEntry) (i i1 i2 : PgIndex)
    (o : option ArtifactEntry)
    (Hok : pg_ok i) (Hsize : u64_ok (entry_size e))
    (Hput : pg_put e i = (i1, Ok ())) (Hget : pg_get (entry_inner e) i1 = (i2, Ok o)) :
  o = Some (default e (pg_at i (entry_inner e))) ∧
  pg_ok i2 ∧
  (∀ e' i3, entry_inner e' = entry_inner e → u64_ok (entry_size e') →
     pg_put e' i2 = (i3, Ok ()) → ∀ h, pg_at i3 h = pg_at i2 h).
Proof.
  destruct (pg_put_spec _ _ _ _ Hok Hsize Hput) as (Hok1 & Hne & Hat & _).
  apply pg_get_inv in Hget as (Hf & Ho & _). specialize (Hat eq_refl).
  assert (pg_ok i2) as Hok2 by eauto using pg_ok_eq.
  split_and!; [by rewrite (Ho _ eq_refl)|done|].
  intros e' i3 He Hs' Hput' h.
  destruct (pg_put_spec _ _ _ _ Hok2 Hs' Hput') as (_ & Hne' & Hat' & _).
  destruct (decide (h = entry_inner e')) as [->|Hh]; [|by apply Hne'].
  by rewrite (Hat' eq_refl), He, (pg_at_eq _ _ _ Hf), Hat.
Qed.
End store_properties.

Lemma fs_commit_atomic_witness :
  let s := mkFs {[ ".tmp.7.0" := [x01; x02] ]} 7 1 [] in
  let p := (s, mkFsBlobSink ".tmp.7.0" true false) in
  let p' := (fs_commit hash_a p).1 in
  fs_live p ∧ fs_staged p = Some [x01; x02] ∧
  is_Some (fs_blob_at (fs_drop p') hash_a) ∧ fs_litter (fs_drop p') = ∅.
Proof.
  intros s p p'.
  assert (fs_live p) as Hl by (split; [by exists "7.0"|done]).
  assert (fs_staged p = Some [x01; x02]) as Hs by by_compute.
  destruct (fs_commit hash_a p) as [q r] eqn:Hc.
  destruct (fs_commit_atomic hash_a [x01; x02] p q r Hl Hs Hc) as (_ & _ & _ & Hq).
  destruct Hq as (Hr & _ & Hb); [constructor|].
  split_and!; [done|done| |].
  - subst p'. simpl. rewrite Hb. eauto.
  - subst p'. simpl. assert (q = (fs_commit hash_a p).1) as -> by by rewrite Hc.
    by_compute.
Defined.

Lemma pg_put_get_witness :
  let e := mkArtifactEntry hash_a hash_b (fill 16 x07) (fill 12 x08) (two64 - 1) in
  let i := mkPgIndex ∅ [] in
  pg_ok i ∧ u64_ok (entry_size e) ∧
  (pg_get hash_a (pg_put e i).1).2 = Ok (Some e).
Proof.
  intros e i.
  assert (pg_ok i) as Hok by (intros h row Hr; subst i; simpl in Hr; by rewrite lookup_empty in Hr).
  assert (u64_ok (entry_size e)) as Hs by (split; by vm_compute).
  split_and!; [done|done|].
  destruct (pg_put e i) as [i1 r1] eqn:Hp.
  assert (r1 = Ok ()) as -> by (vm_compute in Hp; congruence).
  destruct (pg_get hash_a i1) as [i2 r2] eqn:Hg. simpl.
  destruct r2 as [o|err].
  - destruct (pg_put_get e i i1 i2 o Hok Hs Hp Hg) as (-> & _). by rewrite Hg.
  - exfalso. assert (i1 = (pg_put e i).1) as -> by by rewrite Hp.
    vm_compute in Hg. congruence.
Defined.
