(* ===== verification/Content.v ===== *)
(** The content service of Tower 2 (src/crates/software-tower/src/content.rs
    and crypto.rs): encrypt-once publishing of a streamed artifact and the
    content-addressed fetch, against the interfaces of [Store].  A request body is
    the list of the chunks its stream yields; the random key and nonce a publish
    draws are its argument. *)

From S2P Require Import Prelude Ext Wire Store.

(** * Errors of the HTTP API *)

(** [AppError].  An [anyhow::Error] keeps only its context message. *)
Inductive AppError :=
  | BadHash
  | BadRequest (msg : string)
  | NotFound
  | Internal (cause : string).

#[export] Instance AppError_eq_dec : EqDecision AppError.
Proof. solve_decision. Defined.

(** [From<std::io::Error>]. *)
Definition app_error_of_io (e : io_error) : AppError :=
  match e with IoError call => Internal call end.

(** [IntoResponse]: the status and the body; an internal error's cause is logged,
    not sent. *)
Definition into_response (e : AppError) : Z * string :=
  match e with
  | BadHash => (400, "invalid content hash")
  | BadRequest m => (400, m)
  | NotFound => (404, "not found")
  | Internal _ => (500, "internal error")
  end%Z.

(** * State *)

(** [AppState]: the stores, the release database and the signer. *)
Record AppState (B I P G : Type) := mkAppState {
  app_blobs : B;
  app_index : I;
  app_pool : option P;
  app_signer : G;
}.
Arguments mkAppState {_ _ _ _}.
Arguments app_blobs {_ _ _ _}.
Arguments app_index {_ _ _ _}.
Arguments app_pool {_ _ _ _}.
Arguments app_signer {_ _ _ _}.

Definition ZSTD_LEVEL : Z := 3.

(** * The encryptor (crypto.rs) *)

Section encryptor.
Context `{StreamAead}.

Record StreamEncryptor := mkEncryptor {
  enc_cek : array CEK_LEN;
  enc_nonce : array NONCE_LEN;
  enc_inner : aead_state;
}.

(** [StreamEncryptor::new]: the random source yields the key and the nonce, or
    fails. *)
Definition encryptor_new (random : option (array CEK_LEN * array NONCE_LEN)) :
    option StreamEncryptor :=
  '(cek, nonce) ← random;
  inner ← aead_start cek nonce;
  Some (mkEncryptor cek nonce inner).

(** [StreamEncryptor::update]. *)
Definition encryptor_update (enc : StreamEncryptor) (plaintext : list byte) :
    option (StreamEncryptor * list byte) :=
  '(inner, out) ← aead_update (enc_inner enc) plaintext;
  Some (mkEncryptor (enc_cek enc) (enc_nonce enc) inner, out).

(** [StreamEncryptor::finish]. *)
Definition encryptor_finish (enc : StreamEncryptor) : option (array 16) :=
  aead_finalize (enc_inner enc).
End encryptor.

(** * Publishing *)

Section content.
Context `{HexCodec, Sha256, StreamAead, Zstd}.
Context {B I P G : Type} `{BlobStore B, ArtifactIndex I}.

Abbreviation App := (AppState B I P G).

(** [AppState::pool]. *)
Definition pool (s : App) : result AppError P :=
  ok_or (Internal "no database configured") (app_pool s).

Definition set_blobs (b : B) (s : App) : App :=
  mkAppState b (app_index s) (app_pool s) (app_signer s).

Definition set_index (i : I) (s : App) : App :=
  mkAppState (app_blobs s) i (app_pool s) (app_signer s).

(** Calls on the blob store, the sink and the index, [?] converting errors. *)
Definition on_blobs {A} (m : act B io_error A) : act App AppError A := λ s,
  let '(b, r) := m (app_blobs s) in (set_blobs b s, map_err app_error_of_io r).

Definition on_sink {A} (m : act (B * Sink) io_error A) : act (App * Sink) AppError A :=
  λ '(s, k),
    let '((b, k'), r) := m (app_blobs s, k) in
    ((set_blobs b s, k'), map_err app_error_of_io r).

Definition on_index {A} (m : act I string A) : act (App * Sink) AppError A := λ '(s, k),
  let '(i, r) := m (app_index s) in ((set_index i s, k), map_err Internal r).

(** A sink lives to the end of the function that opened it, on every path. *)
Definition with_sink {A} (body : act (App * Sink) AppError A) : act App AppError A :=
  k ← on_blobs begin;
  λ s, let '((s', k'), r) := body (s, k) in
       (set_blobs (drop_sink (app_blobs s', k')) s', r).

(** The local variables of [publish_stream]. *)
Record Publishing := mkPublishing {
  pub_enc : StreamEncryptor;
  pub_zenc : zstd_state;
  pub_inner_h : Hasher;
  pub_outer_h : Hasher;
  pub_size : Z;
}.

Abbreviation internal msg := (ok_or (Internal msg)).

(** Encrypt what the compressor emitted, hash the ciphertext, write it. *)
Definition encrypt_and_write (enc : StreamEncryptor) (outer_h : Hasher)
    (compressed : list byte) :
    act (App * Sink) AppError (StreamEncryptor * Hasher) :=
  '(enc, ct) ← lift (internal "encrypt failed" (encryptor_update enc compressed));
  _ ← on_sink (write_all ct);
  mret (enc, hasher_update outer_h ct).

(** One round of the upload loop. *)
Definition publish_chunk (p : Publishing) (item : result string (list byte)) :
    act (App * Sink) AppError Publishing :=
  chunk ← lift (map_err (λ e, BadRequest ("upload aborted: " +:+ e)) item);
  let inner_h := hasher_update (pub_inner_h p) chunk in
  let size := as_u64 (pub_size p + Z.of_nat (length chunk)) in
  '(zenc, compressed) ← lift (internal "compress failed" (zstd_write (pub_zenc p) chunk));
  match compressed with
  | [] => mret (mkPublishing (pub_enc p) zenc inner_h (pub_outer_h p) size)
  | _ =>
      '(enc, outer_h) ← encrypt_and_write (pub_enc p) (pub_outer_h p) compressed;
      mret (mkPublishing enc zenc inner_h outer_h size)
  end.

(** The end of the stream: the frame footer, then the tag. *)
Definition publish_finish (p : Publishing) :
    act (App * Sink) AppError (ContentHash * ContentHash) :=
  tail ← lift (internal "compress finalize failed" (zstd_finish (pub_zenc p)));
  '(enc, outer_h) ← match tail with
    | [] => mret (pub_enc p, pub_outer_h p)
    | _ => encrypt_and_write (pub_enc p) (pub_outer_h p) tail
    end;
  tag ← lift (internal "encrypt finalize failed" (encryptor_finish enc));
  _ ← on_sink (write_all (slice tag));
  mret (hasher_finalize (pub_inner_h p),
        hasher_finalize (hasher_update outer_h (slice tag))).

(** The end of [publish_stream]: return what is indexed, or commit and index. *)
Definition publish_record (cek : array CEK_LEN) (nonce : array NONCE_LEN)
    (inner outer : ContentHash) (size : Z) : act (App * Sink) AppError ArtifactRef :=
  existing ← on_index (index_get inner);
  match existing with
  | Some e => mret (mkArtifactRef (entry_inner e) (entry_outer e) (entry_size e))
  | None =>
      _ ← on_sink (commit outer);
      _ ← on_index (index_put (mkArtifactEntry inner outer cek nonce size));
      mret (mkArtifactRef inner outer size)
  end.

(** [publish_stream], and the [publish] handler. *)
Definition publish_stream (random : option (array CEK_LEN * array NONCE_LEN))
    (body : list (result string (list byte))) : act App AppError ArtifactRef :=
  enc ← lift (internal "encryptor init failed" (encryptor_new random));
  zenc ← lift (internal "zstd init failed" (zstd_new ZSTD_LEVEL));
  with_sink (
    p ← fold_act publish_chunk body (mkPublishing enc zenc hasher hasher 0);
    '(inner, outer) ← publish_finish p;
    publish_record (enc_cek enc) (enc_nonce enc) inner outer (pub_size p)).

(** * Fetching *)

(** The response of [get_blob]. *)
Record BlobResponse := mkBlobResponse {
  content_type : string;
  content_length : Z;
  cache_control : string;
  blob_body : list byte;
}.

(** [get_blob]. *)
Definition get_blob (outer : string) : act App AppError BlobResponse :=
  outer ← lift (map_err (λ _, BadHash) (from_str outer));
  found ← on_blobs (open outer);
  match found with
  | Some (size, reader) =>
      mret (mkBlobResponse "application/octet-stream" size
        "public, immutable, max-age=31536000" reader)
  | None => throw NotFound
  end.
End content.

(** * Lemmas *)

Lemma run_stream_snoc {St : Type} (upd : St → list byte → option (St * list byte))
    st cs c st1 out1 st2 out2 :
  run_stream upd st cs = Some (st1, out1) → upd st1 c = Some (st2, out2) →
  run_stream upd st (cs ++ [c]) = Some (st2, out1 ++ out2).
Proof.
  revert st out1. induction cs as [|b cs IH]; intros st out1; simpl.
  - intros [= <- <-] ->. simpl. by rewrite app_nil_r.
  - intros ([sa oa] & Ha & ([sb ob] & Hb & [= <- <-])%bind_Some)%bind_Some Hu.
    rewrite Ha. simpl. rewrite (IH _ _ Hb Hu). simpl. by rewrite app_assoc.
Qed.

Section content_lemmas.
Context `{HexCodec, Sha256, StreamAead, Zstd}.
Context {B I P G : Type} `{BlobStore B, ArtifactIndex I}.
Context `{!BlobStoreSpec B, !ArtifactIndexSpec I}.

Abbreviation App := (AppState B I P G).
Implicit Types (s : App) (st : App * Sink).

(** The ciphertext [ct] opens to [plain] with the recorded key and nonce. *)
Definition opens (cek : array CEK_LEN) (nonce : array NONCE_LEN)
    (ct plain : list byte) : Prop :=
  ∃ z, aead_decrypt cek nonce ct = Some z ∧ zstd_decode z = Some plain.

(** What the hub maintains: blobs sit at their hash, and every indexed artifact
    has its blob, whose hash is that of a ciphertext that opens to a plaintext
    with the artifact's hash and size. *)
Definition hub_ok s : Prop :=
  index_ok (app_index s) ∧
  (∀ h b, blob_at (app_blobs s) h = Some b → hash_of b = h) ∧
  (∀ h e, index_at (app_index s) h = Some e →
     entry_inner e = h ∧ is_Some (blob_at (app_blobs s) (entry_outer e)) ∧
     ∃ ct plain, hash_of ct = entry_outer e ∧
       opens (entry_cek e) (entry_nonce e) ct plain ∧
       hash_of plain = h ∧ entry_size e = as_u64 (Z.of_nat (length plain))).

(** No storage call fails from here on. *)
Definition quiet s : Prop :=
  blob_quiet (app_blobs s) ∧ index_quiet (app_index s).

(** The two states agree on everything a client can see. *)
Definition same_store s s' : Prop :=
  (∀ h, blob_at (app_blobs s') h = blob_at (app_blobs s) h) ∧
  (∀ h, index_at (app_index s') h = index_at (app_index s) h) ∧
  app_pool s' = app_pool s ∧ app_signer s' = app_signer s.

Lemma hub_ok_same s s' :
  same_store s s' → index_ok (app_index s') → hub_ok s → hub_ok s'.
Proof.
  intros (Hbs & His & _) Hi' (_ & Hb & He). split_and!; [done| |].
  - intros h b. rewrite Hbs. apply Hb.
  - intros h e. rewrite His. intros Hat. destruct (He h e Hat) as (? & ? & ?).
    by rewrite Hbs.
Qed.

(** Storing a ciphertext under its hash. *)
Lemma hub_ok_add_blob s s' h ct :
  (∀ h', h' ≠ h → blob_at (app_blobs s') h' = blob_at (app_blobs s) h') →
  blob_at (app_blobs s') h = Some ct → hash_of ct = h →
  app_index s' = app_index s → hub_ok s → hub_ok s'.
Proof.
  intros Hne Hh Hct Hi (Hok & Hb & He). unfold hub_ok. rewrite Hi. split_and!; [done| |].
  - intros h' b. destruct (decide (h' = h)) as [->|Hd]; [congruence|]. rewrite Hne by done.
    apply Hb.
  - intros h' e Hat. destruct (He h' e Hat) as (? & Hs & ?). split_and!; [done| |done].
    destruct (decide (entry_outer e = h)) as [->|Hd]; [by rewrite Hh|by rewrite Hne].
Qed.

(** Indexing an artifact whose blob is stored, unless it is indexed already. *)
Lemma hub_ok_add_entry s s' e ct plain :
  app_blobs s' = app_blobs s → index_ok (app_index s') →
  (∀ h, h ≠ entry_inner e → index_at (app_index s') h = index_at (app_index s) h) →
  (index_at (app_index s') (entry_inner e) = index_at (app_index s) (entry_inner e) ∨
   index_at (app_index s') (entry_inner e) =
     Some (default e (index_at (app_index s) (entry_inner e)))) →
  is_Some (blob_at (app_blobs s) (entry_outer e)) → hash_of ct = entry_outer e →
  opens (entry_cek e) (entry_nonce e) ct plain → hash_of plain = entry_inner e →
  entry_size e = as_u64 (Z.of_nat (length plain)) → hub_ok s → hub_ok s'.
Proof.
  intros Hbs Hi' Hne Heq Hblob Hct Hop Hin Hsz (Hi & Hb & He).
  split_and!; [done|by rewrite Hbs|]. intros h e' Hat. rewrite Hbs.
  destruct (decide (h = entry_inner e)) as [->|Hd]; [|apply He; by rewrite <- Hne].
  destruct (index_at (app_index s) (entry_inner e)) as [old|] eqn:Hold.
  - apply He. rewrite Hold. destruct Heq; simpl in *; congruence.
  - assert (e' = e) as -> by (destruct Heq; simpl in *; congruence).
    split_and!; [done|done|]. by exists ct, plain.
Qed.

(** While publishing: nothing visible changed, and the sink holds [ct]. *)
Definition streaming s0 (ct : list byte) st : Prop :=
  same_store s0 st.1 ∧ index_ok (app_index st.1) ∧
  live (app_blobs st.1, st.2) ∧ staged (app_blobs st.1, st.2) = Some ct ∧
  (quiet s0 → quiet st.1 ∧ others (app_blobs st.1, st.2) ⊆ litter (app_blobs s0)).

(** The upload was aborted, or the cipher or the compressor failed. *)
Definition external_failure (random : option (array CEK_LEN * array NONCE_LEN))
    (body : list (result string (list byte))) : Prop :=
  (∃ e, Err e ∈ body) ∨ encryptor_new random = None ∨ zstd_new ZSTD_LEVEL = None ∨
  (∃ a b, aead_update a b = None) ∨ (∃ a, aead_finalize a = None) ∨
  (∃ z b, zstd_write z b = None) ∨ (∃ z, zstd_finish z = None).

(** A failure while publishing. *)
Definition stream_failed s0 (cause : Prop) (e : AppError) st : Prop :=
  (∃ ct, streaming s0 ct st) ∧ (quiet s0 → cause).

Lemma write_triple s0 cause ct b :
  triple (streaming s0 ct) (on_sink (write_all b))
    (λ _, streaming s0 (ct ++ b)) (stream_failed s0 cause).
Proof.
  intros [s k] (Hsame & Hok & Hl & Hst & Hq). unfold on_sink. simpl in *.
  destruct (write_all b (app_blobs s, k)) as [[b' k'] r] eqn:Hw.
  destruct (write_all_spec _ _ _ _ _ Hl Hst Hw) as (Hl' & Hb & new & Hnew & Hr).
  assert (quiet s0 → r = Ok () ∧ quiet (set_blobs b' s) ∧
    others (b', k') ⊆ litter (app_blobs s0)) as Hq'.
  { intros Hs0. destruct (Hq Hs0) as [[Hbq Hiq] Ho].
    destruct (write_all_quiet b ct (app_blobs s, k) (b', k') r Hbq Hl Hst Hw) as (Hbq' & -> & Ho').
    split_and!; [done|by split|]. by rewrite Ho'. }
  assert (same_store s0 (set_blobs b' s)) as Hsame'.
  { destruct Hsame as (Hsb & ?). split; [|done]. intros h. simpl. by rewrite Hb. }
  destruct r as [[]|e]; simpl.
  - rewrite <- Hr by done. split_and!; try done. intros Hs0. by destruct (Hq' Hs0).
  - split.
    + exists new. split_and!; try done. intros Hs0. by destruct (Hq' Hs0).
    + intros Hs0. by destruct (Hq' Hs0).
Qed.

Lemma encrypt_triple s0 cause ct enc outer_h b :
  (∀ a c, aead_update a c = None → cause) →
  triple (streaming s0 ct) (encrypt_and_write enc outer_h b)
    (λ r st, ∃ inner out, aead_update (enc_inner enc) b = Some (inner, out) ∧
       r = (mkEncryptor (enc_cek enc) (enc_nonce enc) inner, hasher_update outer_h out) ∧
       streaming s0 (ct ++ out) st)
    (stream_failed s0 cause).
Proof.
  intros Hcause. unfold encrypt_and_write, encryptor_update.
  eapply triple_bind; [apply triple_ok_or; intros Hn st Hst|intros [enc' ct']].
  - split; [by exists ct|]. intros _. destruct (aead_update _ _) as [[??]|] eqn:Ha; [done|].
    by eapply Hcause.
  - apply triple_pure. intros ([inner out] & Ha & [= <- <-])%bind_Some.
    eapply triple_bind; [apply write_triple|]. intros []. apply triple_ret_if.
    intros st Hst. by exists inner, out.
Qed.

(** What has been hashed, compressed and encrypted so far is [ct]. *)
Definition progress (enc : StreamEncryptor) (z0 : zstd_state)
    (chunks : list (list byte)) (p : Publishing) (ct : list byte) : Prop :=
  ∃ zparts,
    run_stream zstd_write z0 chunks = Some (pub_zenc p, concat zparts) ∧
    run_stream aead_update (enc_inner enc) zparts = Some (enc_inner (pub_enc p), ct) ∧
    pub_inner_h p = hasher_update hasher (concat chunks) ∧
    pub_outer_h p = hasher_update hasher ct ∧
    pub_size p = as_u64 (Z.of_nat (length (concat chunks))).

(** Once the compressor is finished: [ct] is the encrypted frame. *)
Definition sealed (enc : StreamEncryptor) (chunks : list (list byte))
    (r : StreamEncryptor * Hasher) (ct : list byte) : Prop :=
  ∃ zparts, zstd_decode (concat zparts) = Some (concat chunks) ∧
    run_stream aead_update (enc_inner enc) zparts = Some (enc_inner r.1, ct) ∧
    r.2 = hasher_update hasher ct.

(** The loop invariant: the ciphertext so far is in the sink. *)
Definition uploading s0 (enc : StreamEncryptor) (z0 : zstd_state)
    (chunks : list (list byte)) (p : Publishing) st : Prop :=
  ∃ ct, streaming s0 ct st ∧ progress enc z0 chunks p ct.

Lemma hasher_update_app h a b :
  hasher_update (hasher_update h a) b = hasher_update h (a ++ b).
Proof. unfold hasher_update. simpl. by rewrite sha_update_app. Qed.

Lemma hasher_update_nil h : hasher_update h [] = h.
Proof. unfold hasher_update. rewrite sha_update_nil. by destruct h. Qed.

Lemma concat_snoc {A} (l : list (list A)) x : concat (l ++ [x]) = concat l ++ x.
Proof. by rewrite concat_app; simpl; rewrite app_nil_r. Qed.

Lemma as_u64_add a b : as_u64 (as_u64 a + b) = as_u64 (a + b).
Proof. apply Zplus_mod_idemp_l. Qed.

Lemma progress_start enc z0 : progress enc z0 [] (mkPublishing enc z0 hasher hasher 0) [].
Proof. exists []. simpl. rewrite hasher_update_nil. by split_and!. Qed.

(** The compressor buffered the chunk. *)
Lemma progress_skip enc z0 chunks p ct chunk zenc :
  progress enc z0 chunks p ct → zstd_write (pub_zenc p) chunk = Some (zenc, []) →
  progress enc z0 (chunks ++ [chunk])
    (mkPublishing (pub_enc p) zenc (hasher_update (pub_inner_h p) chunk) (pub_outer_h p)
      (as_u64 (pub_size p + Z.of_nat (length chunk)))) ct.
Proof.
  intros (zparts & Hzr & Her & Hih & Hoh & Hsz) Hw. exists zparts. simpl.
  rewrite Hih, Hsz, hasher_update_app, as_u64_add, concat_snoc, length_app, Nat2Z.inj_add.
  split_and!; try done. pose proof (run_stream_snoc _ _ _ _ _ _ _ _ Hzr Hw) as Hrun.
  by rewrite app_nil_r in Hrun.
Qed.

(** The compressor emitted [out], which encrypts to [ct']. *)
Lemma progress_emit enc z0 chunks p ct chunk zenc out inner ct' :
  progress enc z0 chunks p ct → zstd_write (pub_zenc p) chunk = Some (zenc, out) →
  aead_update (enc_inner (pub_enc p)) out = Some (inner, ct') →
  progress enc z0 (chunks ++ [chunk])
    (mkPublishing (mkEncryptor (enc_cek (pub_enc p)) (enc_nonce (pub_enc p)) inner) zenc
      (hasher_update (pub_inner_h p) chunk) (hasher_update (pub_outer_h p) ct')
      (as_u64 (pub_size p + Z.of_nat (length chunk)))) (ct ++ ct').
Proof.
  intros (zparts & Hzr & Her & Hih & Hoh & Hsz) Hw Ha. exists (zparts ++ [out]). simpl.
  rewrite Hih, Hsz, Hoh, !hasher_update_app, as_u64_add, !concat_snoc, length_app,
    Nat2Z.inj_add.
  split_and!; try done; by eapply run_stream_snoc.
Qed.

Lemma progress_footer_nil enc z0 chunks p ct :
  zstd_new ZSTD_LEVEL = Some z0 → progress enc z0 chunks p ct →
  zstd_finish (pub_zenc p) = Some [] → sealed enc chunks (pub_enc p, pub_outer_h p) ct.
Proof.
  intros Hz0 (zparts & Hzr & Her & _ & Hoh & _) Hf. exists zparts.
  pose proof (zstd_correct _ _ _ _ _ _ Hz0 Hzr Hf) as Hd. by rewrite app_nil_r in Hd.
Qed.

Lemma progress_footer enc z0 chunks p ct tail inner ct' :
  zstd_new ZSTD_LEVEL = Some z0 → progress enc z0 chunks p ct →
  zstd_finish (pub_zenc p) = Some tail →
  aead_update (enc_inner (pub_enc p)) tail = Some (inner, ct') →
  sealed enc chunks (mkEncryptor (enc_cek (pub_enc p)) (enc_nonce (pub_enc p)) inner,
    hasher_update (pub_outer_h p) ct') (ct ++ ct').
Proof.
  intros Hz0 (zparts & Hzr & Her & _ & Hoh & _) Hf Ha. exists (zparts ++ [tail]).
  pose proof (zstd_correct _ _ _ _ _ _ Hz0 Hzr Hf) as Hd. simpl.
  rewrite concat_snoc, Hoh, hasher_update_app. split_and!; [done| |done].
  by eapply run_stream_snoc.
Qed.

Lemma sealed_opens enc chunks r ct tag :
  aead_start (enc_cek enc) (enc_nonce enc) = Some (enc_inner enc) →
  sealed enc chunks r ct → encryptor_finish r.1 = Some tag →
  opens (enc_cek enc) (enc_nonce enc) (ct ++ slice tag) (concat chunks) ∧
  hasher_finalize (hasher_update r.2 (slice tag)) = hash_of (ct ++ slice tag).
Proof.
  intros Henc (zparts & Hd & Her & ->) Htag. rewrite hasher_update_app. split; [|done].
  exists (concat zparts). split; [|done]. by eapply aead_correct.
Qed.

Lemma chunk_triple s0 cause enc z0 chunks p item :
  (∀ a c, aead_update a c = None → cause) → (∀ z c, zstd_write z c = None → cause) →
  (∀ e, item = Err e → cause) →
  triple (uploading s0 enc z0 chunks p) (publish_chunk p item)
    (λ p' st, ∃ chunk, item = Ok chunk ∧ uploading s0 enc z0 (chunks ++ [chunk]) p' st)
    (stream_failed s0 cause).
Proof.
  intros Ha Hz Hi. unfold publish_chunk. destruct item as [chunk|e]; simpl.
  2:{ intros st (ct & Hst & _). split; [by exists ct|]. intros _. by eapply Hi. }
  eapply (triple_bind _ _ _ (λ c st, uploading s0 enc z0 chunks p st ∧ c = chunk));
    [by apply triple_lift; naive_solver|].
  intros c. apply triple_pure. intros ->.
  eapply triple_bind; [apply triple_ok_or|intros [zenc out]; apply triple_pure; intros Hw].
  { intros Hn st (ct & Hst & _). split; [by exists ct|]. intros _. by eapply Hz. }
  intros st (ct & Hst & Hpr). destruct out as [|x out'] eqn:Hout.
  - exists chunk. split; [done|]. exists ct. split; [done|]. by apply progress_skip.
  - rewrite <- Hout in *. clear Hout.
    eapply (triple_bind _ _ _ _ _ _ (encrypt_triple s0 cause ct (pub_enc p)
      (pub_outer_h p) out Ha)); [|exact Hst].
    intros [enc' oh']. apply triple_ret_if. intros st' (inner & ct' & Hau & [= -> ->] & Hst').
    exists chunk. split; [done|]. exists (ct ++ ct'). split; [done|].
    by eapply progress_emit.
Qed.

Lemma finish_triple s0 cause enc z0 chunks p :
  (∀ a c, aead_update a c = None → cause) → (∀ a, aead_finalize a = None → cause) →
  (∀ z, zstd_finish z = None → cause) →
  aead_start (enc_cek enc) (enc_nonce enc) = Some (enc_inner enc) →
  zstd_new ZSTD_LEVEL = Some z0 →
  triple (uploading s0 enc z0 chunks p) (publish_finish p)
    (λ r st, ∃ ct, streaming s0 ct st ∧
       r = (hash_of (concat chunks), hash_of ct) ∧
       opens (enc_cek enc) (enc_nonce enc) ct (concat chunks) ∧
       pub_size p = as_u64 (Z.of_nat (length (concat chunks))))
    (stream_failed s0 cause).
Proof.
  intros Ha Hf Hz Henc Hz0. unfold publish_finish.
  eapply triple_bind; [apply triple_ok_or|intros tail; apply triple_pure; intros Htail].
  { intros Hn st (ct & Hst & _). split; [by exists ct|]. intros _. by eapply Hz. }
  eapply (triple_bind _ _ _ (λ r st, ∃ ct, streaming s0 ct st ∧ sealed enc chunks r ct ∧
    pub_inner_h p = hasher_update hasher (concat chunks) ∧
    pub_size p = as_u64 (Z.of_nat (length (concat chunks))))).
  - intros st (ct & Hst & Hpr). pose proof Hpr as (_ & _ & _ & Hih & _ & Hsz).
    destruct tail as [|x tl] eqn:Ht.
    + exists ct. split_and!; [done|by eapply progress_footer_nil|done|done].
    + rewrite <- Ht in *. clear Ht.
      pose proof (encrypt_triple s0 cause ct (pub_enc p) (pub_outer_h p) tail Ha st Hst) as Hw.
      destruct (encrypt_and_write _ _ _ st) as [st' [[enc' oh']|e]]; [|done].
      destruct Hw as (inner & out & Hau & [= -> ->] & Hst').
      exists (ct ++ out). split_and!; [done|by eapply progress_footer|done|done].
  - intros [enc' oh].
    eapply triple_bind; [apply triple_ok_or|intros tag; apply triple_pure; intros Htag].
    { intros Hn st (ct & Hst & _). split; [by exists ct|]. intros _. by eapply Hf. }
    intros st (ct & Hst & Hse & Hih & Hsz).
    destruct (sealed_opens enc chunks (enc', oh) ct tag Henc Hse Htag) as [Hop Hoh].
    eapply (triple_bind _ _ _ _ _ _ (write_triple s0 cause ct (slice tag))); [|exact Hst].
    intros []. apply triple_ret_if. intros st' Hst'. exists (ct ++ slice tag).
    split_and!; [done| |done|done]. simpl in Hoh. by rewrite Hih, Hoh.
Qed.

(** The function returns: the sink is dropped. *)
Definition close_sink st : App := set_blobs (drop_sink (app_blobs st.1, st.2)) st.1.

(** What recording the finished ciphertext did to the store. *)
Definition recorded s0 (inner : ContentHash) (ct : list byte) (e : ArtifactEntry) s'
    (r : result AppError ArtifactRef) : Prop :=
  (∀ h, h ≠ entry_outer e → blob_at (app_blobs s') h = blob_at (app_blobs s0) h) ∧
  (blob_at (app_blobs s') (entry_outer e) = blob_at (app_blobs s0) (entry_outer e) ∨
   blob_at (app_blobs s') (entry_outer e) = Some ct) ∧
  (∀ h, h ≠ inner → index_at (app_index s') h = index_at (app_index s0) h) ∧
  app_pool s' = app_pool s0 ∧ app_signer s' = app_signer s0 ∧
  (∀ old, index_at (app_index s0) inner = Some old →
     same_store s0 s' ∧ ∀ ref, r = Ok ref →
       ref = mkArtifactRef (entry_inner old) (entry_outer old) (entry_size old)) ∧
  (index_at (app_index s0) inner = None →
     (∀ ref, r = Ok ref → ref = mkArtifactRef inner (entry_outer e) (entry_size e) ∧
        index_at (app_index s') inner = Some e) ∧
     (index_at (app_index s') inner = None ∨
      index_at (app_index s') inner = Some e ∧
      is_Some (blob_at (app_blobs s') (entry_outer e)))).

Lemma close_streaming s0 ct st :
  streaming s0 ct st →
  same_store s0 (close_sink st) ∧ index_ok (app_index (close_sink st)) ∧
  (quiet s0 → quiet (close_sink st) ∧
     litter (app_blobs (close_sink st)) ⊆ litter (app_blobs s0)).
Proof.
  intros ((Hb & Hi & Hp & Hg) & Hok & Hl & Hst & Hq). unfold close_sink. split_and!.
  - split_and!; simpl; try done. intros h. by rewrite drop_sink_spec.
  - done.
  - intros Hs0. destruct (Hq Hs0) as [[Hbq Hiq] Ho].
    destruct (drop_sink_quiet (app_blobs st.1, st.2) Hbq Hl) as [Hbq' Hlit].
    split; [by split|]. simpl. by etrans.
Qed.

Lemma commit_closed s0 ct st outer b' k' r :
  streaming s0 ct st → commit outer (app_blobs st.1, st.2) = ((b', k'), r) →
  let s' := close_sink (set_blobs b' st.1, k') in
  (∀ h, h ≠ outer → blob_at (app_blobs s') h = blob_at (app_blobs s0) h) ∧
  (blob_at (app_blobs s') outer = blob_at (app_blobs s0) outer ∨
   blob_at (app_blobs s') outer = Some ct) ∧
  (r = Ok () → is_Some (blob_at (app_blobs s') outer)) ∧
  (quiet s0 → r = Ok () ∧ blob_quiet (app_blobs s') ∧
     litter (app_blobs s') ⊆ litter (app_blobs s0)).
Proof.
  intros ((Hb & Hi & Hp & Hg) & Hok & Hl & Hst & Hq) Hc s'. subst s'. simpl.
  destruct (commit_spec _ _ _ _ _ Hl Hst Hc) as (Hne & Hh & Hr). simpl in *.
  setoid_rewrite Hb in Hne. rewrite Hb in Hh. split_and!; try done.
  intros Hs0. destruct (Hq Hs0) as [[Hbq Hiq] Ho].
  destruct (commit_quiet outer ct (app_blobs st.1, st.2) (b', k') r Hbq Hl Hst Hc)
    as (Hbq' & -> & Hlit).
  split_and!; try done. by etrans.
Qed.

(** Nothing visible changed: an existing artifact, or a failure. *)
Lemma recorded_same s0 inner ct e s' r :
  same_store s0 s' →
  (∀ ref, r = Ok ref → ∃ old, index_at (app_index s0) inner = Some old ∧
     ref = mkArtifactRef (entry_inner old) (entry_outer old) (entry_size old)) →
  recorded s0 inner ct e s' r.
Proof.
  intros Hsame Hr. pose proof Hsame as (Hb & Hi & Hp & Hg). split_and!; auto.
  - intros old Hold. split; [done|]. intros ref Href.
    destruct (Hr ref Href) as (old' & Hold' & ->). congruence.
  - intros Hnone. split.
    + intros ref Href. destruct (Hr ref Href) as (old' & Hold' & _). congruence.
    + left. by rewrite Hi.
Qed.

(** Looking the artifact up changes nothing that streaming relies on. *)
Lemma index_get_streaming s0 ct s1 k1 inner i1 r1 :
  streaming s0 ct (s1, k1) → index_get inner (app_index s1) = (i1, r1) →
  streaming s0 ct (set_index i1 s1, k1) ∧ (quiet s0 → (∃ o, r1 = Ok o) ∧ index_quiet i1).
Proof.
  intros ((Hb & Hi & Hp & Hg) & Hok & Hl & Hstd & Hq) Hget. simpl in *.
  destruct (index_get_spec _ _ _ _ Hok Hget) as (Hok1 & Hi1 & Ho1).
  assert (quiet s0 → (∃ o, r1 = Ok o) ∧ index_quiet i1) as Hr1.
  { intros Hs0. destruct (Hq Hs0) as [[Hbq Hiq] Ho].
    by destruct (index_get_quiet _ _ _ _ Hok Hiq Hget). }
  split; [|done]. split_and!; try done; [split_and!; try done; simpl; congruence|].
  intros Hs0. destruct (Hq Hs0) as [[Hbq Hiq] Ho]. by destruct (Hr1 Hs0).
Qed.

Lemma publish_record_run s0 ct st st' cek nonce inner outer size r :
  streaming s0 ct st → u64_ok size →
  publish_record cek nonce inner outer size st = (st', r) →
  let s' := close_sink st' in
  index_ok (app_index s') ∧
  recorded s0 inner ct (mkArtifactEntry inner outer cek nonce size) s' r ∧
  (quiet s0 → quiet s' ∧ litter (app_blobs s') ⊆ litter (app_blobs s0) ∧
     ∃ ref, r = Ok ref).
Proof.
  intros Hst Hsz Hr s'. pose proof Hst as ((Hb & Hi & Hp & Hg) & Hok & Hl & Hstd & Hq).
  unfold publish_record, mbind, act_bind, on_index in Hr. destruct st as [s1 k1]. simpl in *.
  destruct (index_get inner (app_index s1)) as [i1 r1] eqn:Hget.
  destruct (index_get_spec _ _ _ _ Hok Hget) as (Hok1 & Hi1 & Ho1).
  destruct (index_get_streaming _ _ _ _ _ _ _ Hst Hget) as [Hst1 Hr1].
  destruct r1 as [[old|]|e1]; simpl in Hr.
  - injection Hr as <- <-. destruct (close_streaming _ _ _ Hst1) as (Hsame & Hok' & Hq').
    split_and!; [done| |].
    + apply recorded_same; [done|]. intros ref [= <-]. exists old. split; [|done].
      by rewrite <- Hi, <- (Ho1 _ eq_refl).
    + intros Hs0. destruct (Hq' Hs0). eauto.
  - unfold on_sink in Hr. simpl in Hr.
    destruct (commit outer (app_blobs s1, k1)) as [[b2 k2] r2] eqn:Hc.
    destruct (commit_closed _ _ _ _ _ _ _ Hst1 Hc) as (Hne & Hh & Hrc & Hqc). simpl in *.
    assert (index_at (app_index s0) inner = None) as Hnone
      by by rewrite <- Hi, <- (Ho1 _ eq_refl).
    destruct r2 as [[]|e2]; simpl in Hr.
    + destruct (index_put _ i1) as [i3 r3] eqn:Hput.
      set (e := mkArtifactEntry inner outer cek nonce size) in *.
      destruct (index_put_spec e _ _ _ Hok1 Hsz Hput) as (Hok3 & Hne3 & Hat3 & Herr3).
      simpl in *.
      assert (∀ h, h ≠ inner → index_at i3 h = index_at (app_index s0) h) as Hne0
        by (intros h Hh'; by rewrite Hne3, Hi1, Hi).
      assert (index_at i1 inner = None) as Hnone1 by by rewrite Hi1, Hi.
      rewrite Hnone1 in Hat3, Herr3. simpl in Hat3.
      assert (quiet s0 → r3 = Ok () ∧ index_quiet i3) as Hq3.
      { intros Hs0. destruct (Hr1 Hs0) as [_ Hiq1].
        by destruct (index_put_quiet _ _ _ _ Hiq1 Hput). }
      assert (st' = (set_index i3 (set_blobs b2 (set_index i1 s1)), k2) ∧
        r = match r3 with Ok _ => Ok (mkArtifactRef inner outer size)
                        | Err e => Err (Internal e) end) as [-> ->]
        by (destruct r3; simpl in Hr; by injection Hr as <- <-).
      subst s'. simpl in *. split_and!; [done| |].
      * split_and!; simpl; try done; [by intros; congruence|]. intros _.
        destruct r3 as [[]|e3]; simpl; split; try done;
          [|by right; auto|by destruct Herr3; [left|right]; auto].
        intros ref [= <-]. auto.
      * intros Hs0. destruct (Hqc Hs0) as (_ & Hbq & Hlit), (Hq3 Hs0) as [-> Hiq].
        split_and!; [by split|done|eauto].
    + injection Hr as <- <-. subst s'. simpl in *. split_and!; [done| |].
      * split_and!; simpl; try done; [congruence..| |]; [by intros; congruence|].
        intros _. split; [done|]. left. by rewrite Hi1, Hi.
      * intros Hs0. by destruct (Hqc Hs0).
  - injection Hr as <- <-. destruct (close_streaming _ _ _ Hst1) as (Hsame & Hok' & Hq').
    split_and!; [done|by apply recorded_same|].
    intros Hs0. by destruct (Hr1 Hs0) as [[o Ho] _].
Qed.

(** The whole upload, from the opened sink to the tag. *)
Definition upload (enc : StreamEncryptor) (z0 : zstd_state)
    (body : list (result string (list byte))) :
    act (App * Sink) AppError (Publishing * (ContentHash * ContentHash)) :=
  p ← fold_act publish_chunk body (mkPublishing enc z0 hasher hasher 0);
  r ← publish_finish p; mret (p, r).

Lemma upload_triple s0 cause random enc z0 body :
  (external_failure random body → cause) →
  aead_start (enc_cek enc) (enc_nonce enc) = Some (enc_inner enc) →
  zstd_new ZSTD_LEVEL = Some z0 →
  triple (streaming s0 []) (upload enc z0 body)
    (λ a st, ∃ chunks ct, streaming s0 ct st ∧ body = Ok <$> chunks ∧
       a.2 = (hash_of (concat chunks), hash_of ct) ∧
       opens (enc_cek enc) (enc_nonce enc) ct (concat chunks) ∧
       pub_size a.1 = as_u64 (Z.of_nat (length (concat chunks))))
    (stream_failed s0 cause).
Proof.
  intros Hcause Henc Hz0. unfold upload.
  eapply (triple_bind _ _ _ (λ p st, ∃ chunks, body = Ok <$> chunks ∧
    uploading s0 enc z0 chunks p st)).
  - eapply triple_conseq; [apply (triple_fold _ (λ dn p st, ∃ chunks, dn = Ok <$> chunks ∧
      uploading s0 enc z0 chunks p st) (stream_failed s0 cause))|..]; [|simpl|done|done].
    + intros dn x rest b Hbody st (chunks & -> & Hup).
      eapply triple_conseq; [apply (chunk_triple s0 cause enc z0 chunks b x)|..|exact Hup].
      * intros a c Ha. apply Hcause. unfold external_failure. eauto 10.
      * intros z c Hz. apply Hcause. unfold external_failure. eauto 10.
      * intros e ->. apply Hcause. left. exists e. rewrite <- Hbody. set_solver.
      * done.
      * intros p' st' (chunk & -> & Hup'). exists (chunks ++ [chunk]).
        by rewrite fmap_app.
      * done.
    + intros st Hst. exists []. split; [done|]. exists []. auto using progress_start.
  - intros p. intros st (chunks & Hbody & Hup).
    eapply (triple_bind _ _ _ _ _ _ (finish_triple s0 cause enc z0 chunks p _ _ _ Henc Hz0));
      [|exact Hup].
    intros r. apply triple_ret_if. intros st' (ct & Hst & -> & Hop & Hsz).
    exists chunks, ct. done.
    Unshelve.
    + intros a c Ha. apply Hcause. unfold external_failure. eauto 10.
    + intros a Ha. apply Hcause. unfold external_failure. eauto 10.
    + intros z Hz. apply Hcause. unfold external_failure. eauto 10.
Qed.

(** The outcome of a publish. *)
Definition publish_outcome s0 (body : list (result string (list byte))) s'
    (r : result AppError ArtifactRef) : Prop :=
  (same_store s0 s' ∧ ∃ e, r = Err e) ∨
  ∃ chunks ct cek nonce, body = Ok <$> chunks ∧ opens cek nonce ct (concat chunks) ∧
    recorded s0 (hash_of (concat chunks)) ct
      (mkArtifactEntry (hash_of (concat chunks)) (hash_of ct) cek nonce
        (as_u64 (Z.of_nat (length (concat chunks))))) s' r.

Lemma begin_run s0 b r :
  index_ok (app_index s0) → begin (app_blobs s0) = (b, r) →
  match r with
  | Ok k => streaming s0 [] (set_blobs b s0, k)
  | Err _ => same_store s0 (set_blobs b s0) ∧ ¬ quiet s0
  end.
Proof.
  intros Hok Hb. destruct (begin_spec _ _ _ Hb) as [Hv Hk].
  destruct r as [k|e].
  - destruct (Hk k eq_refl) as [Hl Hst]. split_and!; try done.
    intros [Hbq Hiq]. destruct (begin_quiet _ _ _ Hbq Hb) as (Hbq' & k' & [= <-] & Ho).
    done.
  - split; [by split_and!|]. intros [Hbq Hiq].
    by destruct (begin_quiet _ _ _ Hbq Hb) as (_ & k' & ? & _).
Qed.

Lemma publish_stream_run random body s0 s' r :
  index_ok (app_index s0) → publish_stream random body s0 = (s', r) →
  index_ok (app_index s') ∧ publish_outcome s0 body s' r ∧
  (quiet s0 → quiet s' ∧ litter (app_blobs s') ⊆ litter (app_blobs s0) ∧
     ((∃ ref, r = Ok ref) ∨ external_failure random body ∧ same_store s0 s')).
Proof.
  intros Hok. unfold publish_stream, mbind, act_bind, lift.
  assert (∀ e, external_failure random body → r = Err e → s' = s0 →
    index_ok (app_index s') ∧ publish_outcome s0 body s' r ∧
    (quiet s0 → quiet s' ∧ litter (app_blobs s') ⊆ litter (app_blobs s0) ∧
     ((∃ ref, r = Ok ref) ∨ external_failure random body ∧ same_store s0 s'))) as Hearly.
  { intros e He -> ->. assert (same_store s0 s0) by by split_and!.
    split_and!; [done| |by auto]. left. eauto. }
  destruct (encryptor_new random) as [enc|] eqn:Henc; simpl.
  2:{ intros [= <- <-]. eapply Hearly; [|done..]. unfold external_failure. auto. }
  destruct (zstd_new ZSTD_LEVEL) as [z0|] eqn:Hz0; simpl.
  2:{ intros [= <- <-]. eapply Hearly; [|done..]. unfold external_failure. auto. }
  assert (aead_start (enc_cek enc) (enc_nonce enc) = Some (enc_inner enc)) as Hstart.
  { unfold encryptor_new in Henc. destruct random as [[cek nonce]|]; [|done]. simpl in Henc.
    destruct (aead_start cek nonce) eqn:Ha; [|done]. simpl in Henc. by simplify_eq/=. }
  unfold with_sink, mbind, act_bind, on_blobs.
  destruct (begin (app_blobs s0)) as [b1 r1] eqn:Hbegin.
  pose proof (begin_run _ _ _ Hok Hbegin) as Hst1. destruct r1 as [k1|e1]; simpl.
  2:{ intros [= <- <-]. destruct Hst1 as [Hsame Hnq].
      split_and!; [done|left; eauto|done]. }
  pose proof (upload_triple s0 (external_failure random body) random enc z0 body id Hstart
    Hz0 _ Hst1) as Hup.
  unfold upload, mbind, act_bind in Hup.
  destruct (fold_act publish_chunk body _ _) as [st2 [p|e2]].
  - destruct (publish_finish p st2) as [st3 [[inner outer]|e3]]; simpl.
    + destruct Hup as (chunks & ct & Hst & Hbody & [= -> ->] & Hop & Hsz). simpl in *.
      destruct (publish_record _ _ _ _ _ st3) as [[s4 k4] r4] eqn:Hrec.
      intros [= <- <-]. rewrite Hsz in Hrec.
      destruct (publish_record_run _ _ _ _ _ _ _ _ _ _ Hst (as_u64_ok _) Hrec)
        as (Hok4 & Hrecd & Hq4).
      split_and!; [done|right; by eauto 10|].
      intros Hq. destruct (Hq4 Hq) as (? & ? & ?). auto.
    + destruct st3 as [s4 k4]. intros [= <- <-]. destruct Hup as [[ct Hst] Hc].
      destruct (close_streaming _ _ _ Hst) as (Hsame & Hok' & Hq').
      split_and!; [done|left; eauto|]. intros Hq. destruct (Hq' Hq). split_and!; auto.
  - destruct st2 as [s4 k4]. simpl. intros [= <- <-]. destruct Hup as [[ct Hst] Hc].
    destruct (close_streaming _ _ _ Hst) as (Hsame & Hok' & Hq').
    split_and!; [done|left; eauto|]. intros Hq. destruct (Hq' Hq). split_and!; auto.
Qed.
End content_lemmas.

(** * Properties *)

Section content_properties.
Context `{HexCodec, Sha256, StreamAead, Zstd}.
Context {B I P G : Type} `{BlobStore B, ArtifactIndex I}.
Context `{!BlobStoreSpec B, !ArtifactIndexSpec I}.
Implicit Types s : AppState B I P G.

(** What a successful publish has stored. *)
Lemma publish_stored random body s s' ref
    (Hok : index_ok (app_index s)) (Hr : publish_stream random body s = (s', Ok ref)) :
  ∃ chunks e, body = Ok <$> chunks ∧
    index_at (app_index s') (hash_of (concat chunks)) = Some e ∧
    ref = mkArtifactRef (entry_inner e) (entry_outer e) (entry_size e) ∧
    match index_at (app_index s) (hash_of (concat chunks)) with
    | Some old => e = old ∧ same_store s s'
    | None =>
        entry_inner e = hash_of (concat chunks) ∧
        entry_size e = as_u64 (Z.of_nat (length (concat chunks))) ∧
        is_Some (blob_at (app_blobs s') (entry_outer e)) ∧
        ∃ ct, hash_of ct = entry_outer e ∧
          opens (entry_cek e) (entry_nonce e) ct (concat chunks) ∧
          (blob_at (app_blobs s) (entry_outer e) = None →
             blob_at (app_blobs s') (entry_outer e) = Some ct)
    end.
Proof.
  apply publish_stream_run in Hr as (_ & [(_ & e & ?)|Hout] & _); [done| |done].
  destruct Hout as (chunks & ct & cek & nonce & -> & Hop & Hrec).
  destruct Hrec as (_ & Hb & _ & _ & _ & Hold & Hnew). exists chunks.
  destruct (index_at (app_index s) (hash_of (concat chunks))) as [old|] eqn:Hat.
  - destruct (Hold old eq_refl) as [Hsame Href]. exists old.
    pose proof Hsame as (_ & Hi & _). rewrite Hi, Hat. by split_and!; auto.
  - destruct (Hnew eq_refl) as [Href Hblob]. destruct (Href ref eq_refl) as [-> Hi].
    rewrite Hi in Hblob. destruct Hblob as [?|[_ Hblob]]; [done|].
    eexists. split_and!; [done|exact Hi|done|done|done|done|].
    exists ct. split_and!; [done|done|]. simpl in *. intros Hnone.
    destruct Hb as [Hb|Hb]; [|done]. rewrite Hb, Hnone in Hblob. by destruct Hblob.
Qed.

(** C9: a publish that succeeds received the whole upload, and returns the
    reference the index holds for the plaintext's hash; an artifact published
    before is returned unchanged and the store stays as it was; a new one is
    indexed under the plaintext's hash and size, with a key and nonce under which
    the ciphertext of the returned outer hash decrypts and decompresses to exactly
    the uploaded bytes, and its blob is in the store. *)
Theorem publish_stream_stores random body s s' ref
    (Hok : index_ok (app_index s)) (Hr : publish_stream random body s = (s', Ok ref)) :
  ∃ chunks e, body = Ok <$> chunks ∧
    index_at (app_index s') (hash_of (concat chunks)) = Some e ∧
    ref = mkArtifactRef (entry_inner e) (entry_outer e) (entry_size e) ∧
    match index_at (app_index s) (hash_of (concat chunks)) with
    | Some old => e = old ∧ same_store s s'
    | None =>
        entry_inner e = hash_of (concat chunks) ∧
        entry_size e = as_u64 (Z.of_nat (length (concat chunks))) ∧
        is_Some (blob_at (app_blobs s') (entry_outer e)) ∧
        ∃ ct, hash_of ct = entry_outer e ∧
          opens (entry_cek e) (entry_nonce e) ct (concat chunks) ∧
          (blob_at (app_blobs s) (entry_outer e) = None →
             blob_at (app_blobs s') (entry_outer e) = Some ct)
    end.
Proof. exact (publish_stored random body s s' ref Hok Hr). Qed.

(** Whatever the upload (an abort included), the random source, the
    cipher, the compressor and every storage call do, a publish keeps the hub
    consistent: blobs stay at their hash, and every indexed artifact keeps a
    stored blob, whose hash is that of a ciphertext that opens under the indexed
    key to a plaintext with the indexed hash and size. *)
Lemma publish_preserves_hub_ok random body s s' r
    (Hok : hub_ok s) (Hr : publish_stream random body s = (s', r)) : hub_ok s'.
Proof.
  pose proof Hok as (Hi & Hb & He).
  apply publish_stream_run in Hr as (Hi' & [(Hsame & _)|Hout] & _); [| |done].
  { by apply (hub_ok_same s). }
  destruct Hout as (chunks & ct & cek & nonce & -> & Hop & Hrec).
  destruct Hrec as (Hne & Hh & Hin & _ & _ & Hold & Hnew). simpl in *.
  assert (∀ h, is_Some (blob_at (app_blobs s) h) → is_Some (blob_at (app_blobs s') h))
    as Hkeep.
  { intros h. destruct (decide (h = hash_of ct)) as [->|Hd]; [|by rewrite Hne].
    destruct Hh as [-> | ->]; eauto. }
  split_and!; [done| |].
  - intros h b. destruct (decide (h = hash_of ct)) as [->|Hd]; [|by rewrite Hne; auto].
    destruct Hh as [-> | ->]; [by apply Hb|congruence].
  - intros h e Hat. destruct (index_at (app_index s) h) as [old|] eqn:Hs.
    + assert (e = old) as ->.
      { destruct (decide (h = hash_of (concat chunks))) as [->|Hd].
        - destruct (Hold old Hs) as [(_ & Heq & _) _]. congruence.
        - rewrite Hin in Hat by done. congruence. }
      destruct (He h old Hs) as (? & ? & ?). auto.
    + destruct (decide (h = hash_of (concat chunks))) as [->|Hd];
        [|rewrite Hin in Hat by done; congruence].
      destruct (Hnew Hs) as [_ [Hnone|[Hsome Hblob]]]; [congruence|].
      assert (e = mkArtifactEntry (hash_of (concat chunks)) (hash_of ct) cek nonce
        (as_u64 (Z.of_nat (length (concat chunks))))) as -> by congruence.
      split_and!; [done|done|]. exists ct, (concat chunks). done.
Qed.

(** C33: publishing is idempotent on the plaintext: the same bytes, however
    chunked and whatever fresh key is drawn, give the reference of the first
    publish, and the second publish changes nothing a client can see. *)
Theorem publish_idempotent random1 random2 (chunks1 chunks2 : list (list byte))
    s s1 s2 ref1 ref2
    (Hok : hub_ok s) (Heq : concat chunks1 = concat chunks2)
    (Hp1 : publish_stream random1 (Ok <$> chunks1) s = (s1, Ok ref1))
    (Hp2 : publish_stream random2 (Ok <$> chunks2) s1 = (s2, Ok ref2)) :
  ref2 = ref1 ∧ same_store s1 s2.
Proof.
  destruct Hok as (Hi & _).
  apply publish_stream_run in Hp1 as (Hi1 & [(_ & e & ?)|Hout] & _); [done| |done].
  destruct Hout as (c1 & ct & cek & nonce & Hc1 & _ & Hrec).
  apply publish_stream_run in Hp2 as (_ & [(_ & e & ?)|Hout] & _); [done| |done].
  destruct Hout as (c2 & ct2 & cek2 & nonce2 & Hc2 & _ & Hrec2).
  apply (inj (fmap Ok)) in Hc1, Hc2. subst c1 c2. rewrite <- Heq in Hrec2.
  destruct Hrec as (_ & _ & _ & _ & _ & Hold & Hnew).
  destruct Hrec2 as (_ & _ & _ & _ & _ & Hold2 & _).
  destruct (index_at (app_index s) (hash_of (concat chunks1))) as [old|] eqn:Hat.
  - destruct (Hold old eq_refl) as [(_ & His & _) Href]. rewrite <- His in Hat.
    destruct (Hold2 old Hat) as [Hsame Href2]. split; [|done].
    by rewrite (Href2 _ eq_refl), (Href _ eq_refl).
  - destruct (Hnew eq_refl) as [Href _]. destruct (Href _ eq_refl) as [-> Hat1].
    destruct (Hold2 _ Hat1) as [Hsame Href2]. split; [|done].
    by rewrite (Href2 _ eq_refl).
Qed.

(** C39: while no storage call fails, a publish fails only when the upload is
    aborted or the random source, the cipher or the compressor fails; it then
    leaves the store as it was; and on every path, a failed or a duplicate upload
    included, it leaves no staging file behind. *)
Theorem publish_succeeds random body s s' r
    (Hok : index_ok (app_index s)) (Hq : quiet s)
    (Hr : publish_stream random body s = (s', r)) :
  quiet s' ∧ litter (app_blobs s') ⊆ litter (app_blobs s) ∧
  (¬ external_failure random body → ∃ ref, r = Ok ref) ∧
  (∀ e, r = Err e → external_failure random body ∧ same_store s s').
Proof.
  apply publish_stream_run in Hr as (_ & _ & Hcase); [|done].
  destruct (Hcase Hq) as (Hq' & Hl & Hc). split_and!; [done..| |];
    destruct Hc as [[ref ->]|[Hext Hsame]]; eauto; done.
Qed.

(** A blob fetch answers every request: a text that is not a hash is a
    client error and touches nothing, an absent hash is a 404, and a body served
    is the blob stored under that hash, with its length, and hashes to the
    requested address; a 500 needs a failing storage call. *)
Lemma get_blob_spec (outer : string) s s' r
    (Hok : hub_ok s) (Hr : get_blob outer s = (s', r)) :
  same_store s s' ∧
  (r = Err BadHash ↔ ∃ e, from_str outer = Err e) ∧
  (∀ resp, r = Ok resp → ∃ h, from_str outer = Ok h ∧
     blob_at (app_blobs s) h = Some (blob_body resp) ∧
     hash_of (blob_body resp) = h ∧
     content_length resp = Z.of_nat (length (blob_body resp))) ∧
  (r = Err NotFound → ∃ h, from_str outer = Ok h ∧ blob_at (app_blobs s) h = None) ∧
  (∀ c, r = Err (Internal c) → ¬ quiet s) ∧
  (∀ c, r ≠ Err (BadRequest c)).
Proof.
  destruct Hok as (_ & Hb & _). unfold get_blob, mbind, act_bind, lift in Hr.
  destruct (from_str outer) as [h|pe]; simpl in Hr.
  2:{ injection Hr as <- <-. split_and!; try done; naive_solver. }
  unfold on_blobs in Hr. destruct (open h (app_blobs s)) as [b r1] eqn:Ho.
  destruct (open_spec _ _ _ _ Ho) as [Hv Hr1].
  assert (same_store s (set_blobs b s)) as Hsame by by split_and!.
  destruct r1 as [o|[call]]; simpl in Hr.
  - rewrite (Hr1 o eq_refl) in Hr.
    destruct (blob_at (app_blobs s) h) as [c|] eqn:Hc; injection Hr as <- <-.
    + split_and!; try done; [split; [done|naive_solver]|].
      intros resp [= <-]. exists h. simpl. auto.
    + split_and!; try done; [split; [done|naive_solver]|]. eauto.
  - injection Hr as <- <-. split_and!; try done; [split; [done|naive_solver]|].
    intros c _ [Hbq _]. by destruct (open_quiet _ _ _ _ Hbq Ho) as (_ & ? & ?).
Qed.

End content_properties.

(** * Evaluating on concrete stores *)

(** A hub on the filesystem and Postgres models, with no faults ahead. *)
Definition example_hub : AppState Fs PgIndex () () :=
  mkAppState (mkFs ∅ 7 0 []) (mkPgIndex ∅ []) None ().

Definition example_random : option (array CEK_LEN * array NONCE_LEN) :=
  Some (fill 16 x41, fill 12 x42).

Definition example_upload : list (result string (list byte)) :=
  [Ok [x01; x02]; Ok [x03]].

Lemma example_hub_ok : hub_ok example_hub.
Proof.
  split_and!.
  - intros h row Hr. simpl in Hr. by rewrite lookup_empty in Hr.
  - intros h b Hb. simpl in Hb. unfold fs_blob_at in Hb. simpl in Hb.
    by rewrite lookup_empty in Hb.
  - intros h e He. simpl in He. unfold pg_at in He. simpl in He.
    by rewrite lookup_empty in He.
Qed.

Definition is_ok {E A} (r : result E A) : bool :=
  match r with Ok _ => true | Err _ => false end.

Lemma is_ok_Ok {E A} (r : result E A) : is_ok r = true → ∃ a, r = Ok a.
Proof. destruct r; naive_solver. Qed.

(** What the example upload does, and the same bytes in one chunk after it. *)
Definition example_publish := publish_stream example_random example_upload example_hub.
Definition example_republish :=
  publish_stream (Some (fill 16 x00, fill 12 x00)) [Ok [x01; x02; x03]] example_publish.1.

Lemma example_publish_ok : is_ok example_publish.2 = true.
Proof. by vm_compute. Qed.

Lemma example_republish_ok : is_ok example_republish.2 = true.
Proof. by vm_compute. Qed.

Lemma example_hub_quiet : quiet example_hub.
Proof. by repeat constructor. Qed.

Lemma publish_stream_stores_witness :
  index_ok (app_index example_hub) ∧ is_ok example_publish.2 = true ∧
  ∃ e, index_at (app_index example_publish.1) (hash_of [x01; x02; x03]) = Some e ∧
    entry_inner e = hash_of [x01; x02; x03] ∧ entry_size e = 3%Z.
Proof.
  pose proof example_hub_ok as [Hi _].
  split_and!; [done|apply example_publish_ok|].
  destruct (is_ok_Ok _ example_publish_ok) as [ref Href].
  destruct (publish_stream_stores example_random example_upload example_hub
    example_publish.1 ref Hi) as (chunks & e & Hc & Hat & _ & Hcase).
  { rewrite <- Href. apply surjective_pairing. }
  change example_upload with (Ok (E := string) <$> [[x01; x02]; [x03]]) in Hc.
  apply (inj (fmap Ok)) in Hc. subst chunks. exists e. split; [exact Hat|].
  cbn [index_at pg_index_spec example_hub app_index] in Hcase.
  unfold pg_at in Hcase. cbn [pg_artifacts] in Hcase. rewrite lookup_empty in Hcase.
  cbn [mbind option_bind] in Hcase. destruct Hcase as (Hin & Hsz & _).
  split; [exact Hin|]. by rewrite Hsz.
Defined.

Lemma publish_preserves_hub_ok_witness :
  hub_ok example_hub ∧
  hub_ok (publish_stream example_random [Ok [x01]; Err "reset"] example_hub).1 ∧
  is_ok (publish_stream example_random [Ok [x01]; Err "reset"] example_hub).2 = false.
Proof.
  split_and!; [apply example_hub_ok| |by vm_compute].
  destruct (publish_stream _ _ _) as [s' r] eqn:Hr. simpl.
  exact (publish_preserves_hub_ok _ _ _ _ _ example_hub_ok Hr).
Defined.

Lemma publish_idempotent_witness :
  is_ok example_publish.2 = true ∧ is_ok example_republish.2 = true ∧
  example_republish.2 = example_publish.2.
Proof.
  split_and!; [apply example_publish_ok|apply example_republish_ok|].
  destruct (is_ok_Ok _ example_publish_ok) as [ref1 Hp1].
  destruct (is_ok_Ok _ example_republish_ok) as [ref2 Hp2].
  rewrite Hp1, Hp2. f_equal.
  apply (publish_idempotent example_random (Some (fill 16 x00, fill 12 x00))
    [[x01; x02]; [x03]] [[x01; x02; x03]] example_hub example_publish.1
    example_republish.1 ref1 ref2 example_hub_ok eq_refl).
  - rewrite <- Hp1. apply surjective_pairing.
  - rewrite <- Hp2. apply surjective_pairing.
Defined.

Lemma publish_succeeds_witness :
  quiet example_hub ∧ quiet example_publish.1 ∧
  litter (app_blobs example_publish.1) ⊆ litter (app_blobs example_hub).
Proof.
  pose proof example_hub_ok as [Hi _].
  destruct (publish_succeeds example_random example_upload example_hub
    example_publish.1 example_publish.2 Hi example_hub_quiet) as (Hq & Hl & _).
  { apply surjective_pairing. }
  split_and!; [apply example_hub_quiet|done|done].
Defined.

Lemma get_blob_spec_witness :
  hub_ok example_hub ∧
  (get_blob "sha256:zz" example_hub).2 = Err BadHash ∧
  (get_blob (to_prefixed hash_a) example_hub).2 = Err NotFound ∧
  ∃ h, from_str (to_prefixed hash_a) = Ok h ∧ blob_at (app_blobs example_hub) h = None.
Proof.
  assert ((get_blob (to_prefixed hash_a) example_hub).2 = Err NotFound) as Hn
    by by vm_compute.
  split_and!; [apply example_hub_ok|by vm_compute|done|].
  destruct (get_blob (to_prefixed hash_a) example_hub) as [s' r] eqn:Hr. simpl in Hn.
  by apply (get_blob_spec _ example_hub s' r example_hub_ok Hr).
Defined.
