(* ===== verification/Concurrent.v ===== *)
(** Concurrent publishes (src/crates/software-tower/src/content.rs and store.rs):
    [publish_stream] and the filesystem store as futures that await one system
    call, one statement or one chunk of the upload at a time, so that publishes
    interleave anywhere between them and a client that goes away drops its
    publish at any of them.  Run alone, the futures are [Content.publish_stream];
    [Interleave] proves what they guarantee in a pool. *)

From S2P Require Import Prelude Ext Async Wire Store Content.

(** * The store's methods, await by await *)

(** The asynchronous methods of [BlobStore] and [BlobSink] that make several
    calls; [write_all] is one.  Run alone they are the methods of [Store]. *)
Class AsyncBlobStore (B : Type) `{BlobStore B} := {
  begin_task : task B io_error Sink;
  commit_task : ContentHash → task (B * Sink) io_error ();
  run_begin_task s : run begin_task s = begin s;
  run_commit_task h p : run (commit_task h) p = commit h p;
}.

Section fs_tasks.
Context `{HexCodec}.

(** [File::create] on the staging name. *)
Definition fs_create (seq : Z) : act Fs io_error FsBlobSink :=
  pid ← gets fs_pid;
  let tmp := tmp_name pid seq in
  _ ← syscall "create";
  updating (λ s, (fs_set_files (<[tmp := []]> (fs_files s)) s,
                  mkFsBlobSink tmp true false)).

(** [FsBlobStore::begin]: another publish may take its own number between
    [fetch_add] and [create]. *)
Definition fs_begin_task : task Fs io_error FsBlobSink :=
  _ ← call (syscall "create_dir_all");
  seq ← call fetch_add_seq;
  call (fs_create seq).

(** [if let Some(mut file) = self.file.take() { file.flush().await?; .. }] *)
Definition fs_flush_task : task (Fs * FsBlobSink) io_error () :=
  file ← call (
    k ← sink_state;
    if sink_file k then
      _ ← sink_update (λ k, mkFsBlobSink (sink_tmp k) false (sink_committed k));
      _ ← sink_call (syscall "flush");
      mret true
    else mret false);
  if file : bool then call (sink_call (syscall "sync_all")) else now (Ok ()).

(** [FsBlobSink::commit]: another publish may create the blob between the
    existence check and the rename. *)
Definition fs_commit_task (outer : ContentHash) : task (Fs * FsBlobSink) io_error () :=
  let dest := fs_path outer in
  _ ← fs_flush_task;
  exists_ ← call (sink_call (try_exists_or_false dest));
  call (
    k ← sink_state;
    _ ← sink_call (if exists_ : bool then remove_file_ok (sink_tmp k)
                   else rename_file (sink_tmp k) dest);
    sink_update (λ k, mkFsBlobSink (sink_tmp k) (sink_file k) true)).
End fs_tasks.

(** * Publishing *)

Section tasks.
Context `{HexCodec, Sha256, StreamAead, Zstd}.
Context {B I P G : Type} `{BlobStore B, !AsyncBlobStore B, ArtifactIndex I}.

Abbreviation App := (AppState B I P G).
Abbreviation internal msg := (ok_or (Internal msg)).

Definition on_blobs_task {A} (m : task B io_error A) : task App AppError A :=
  zoom app_blobs set_blobs app_error_of_io m.

Definition on_sink_task {A} (m : task (B * Sink) io_error A) :
    task (App * Sink) AppError A :=
  zoom (λ p, (app_blobs p.1, p.2)) (λ b p, (set_blobs b.1 p.1, b.2)) app_error_of_io m.

(** The sink is dropped when the publish returns and when it is cancelled. *)
Definition drop_app_sink (p : App * Sink) : App :=
  set_blobs (drop_sink (app_blobs p.1, p.2)) p.1.

Definition with_sink_task {A} (body : task (App * Sink) AppError A) : task App AppError A :=
  k ← on_blobs_task begin_task;
  owning drop_app_sink k body.

Definition encrypt_and_write_task (enc : StreamEncryptor) (outer_h : Hasher)
    (compressed : list byte) :
    task (App * Sink) AppError (StreamEncryptor * Hasher) :=
  '(enc, ct) ← now (internal "encrypt failed" (encryptor_update enc compressed));
  _ ← call (on_sink (write_all ct));
  mret (enc, hasher_update outer_h ct).

(** One round of the upload loop, awaiting the next chunk first. *)
Definition publish_chunk_task (p : Publishing) (item : result string (list byte)) :
    task (App * Sink) AppError Publishing :=
  chunk ← call (lift (map_err (λ e, BadRequest ("upload aborted: " +:+ e)) item));
  let inner_h := hasher_update (pub_inner_h p) chunk in
  let size := as_u64 (pub_size p + Z.of_nat (length chunk)) in
  '(zenc, compressed) ← now (internal "compress failed" (zstd_write (pub_zenc p) chunk));
  match compressed with
  | [] => mret (mkPublishing (pub_enc p) zenc inner_h (pub_outer_h p) size)
  | _ =>
      '(enc, outer_h) ← encrypt_and_write_task (pub_enc p) (pub_outer_h p) compressed;
      mret (mkPublishing enc zenc inner_h outer_h size)
  end.

Definition publish_finish_task (p : Publishing) :
    task (App * Sink) AppError (ContentHash * ContentHash) :=
  tail ← now (internal "compress finalize failed" (zstd_finish (pub_zenc p)));
  '(enc, outer_h) ← match tail with
    | [] => mret (pub_enc p, pub_outer_h p)
    | _ => encrypt_and_write_task (pub_enc p) (pub_outer_h p) tail
    end;
  tag ← now (internal "encrypt finalize failed" (encryptor_finish enc));
  _ ← call (on_sink (write_all (slice tag)));
  mret (hasher_finalize (pub_inner_h p),
        hasher_finalize (hasher_update outer_h (slice tag))).

(** Another publish may index the same plaintext between the look-up and the
    insertion. *)
Definition publish_record_task (cek : array CEK_LEN) (nonce : array NONCE_LEN)
    (inner outer : ContentHash) (size : Z) : task (App * Sink) AppError ArtifactRef :=
  existing ← call (on_index (index_get inner));
  match existing with
  | Some e => mret (mkArtifactRef (entry_inner e) (entry_outer e) (entry_size e))
  | None =>
      _ ← on_sink_task (commit_task outer);
      _ ← call (on_index (index_put (mkArtifactEntry inner outer cek nonce size)));
      mret (mkArtifactRef inner outer size)
  end.

(** What happens while the sink is open. *)
Definition publish_body (enc : StreamEncryptor) (zenc : zstd_state)
    (body : list (result string (list byte))) : task (App * Sink) AppError ArtifactRef :=
  p ← fold_task publish_chunk_task body (mkPublishing enc zenc hasher hasher 0);
  '(inner, outer) ← publish_finish_task p;
  publish_record_task (enc_cek enc) (enc_nonce enc) inner outer (pub_size p).

Definition publish_task (random : option (array CEK_LEN * array NONCE_LEN))
    (body : list (result string (list byte))) : task App AppError ArtifactRef :=
  enc ← now (internal "encryptor init failed" (encryptor_new random));
  zenc ← now (internal "zstd init failed" (zstd_new ZSTD_LEVEL));
  with_sink_task (publish_body enc zenc body).
End tasks.

(** * Lemmas: run alone, the futures are the sequential code *)

Section run_alone.
Context `{HexCodec, Sha256, StreamAead, Zstd}.
Context {B I P G : Type} `{BlobStore B, !AsyncBlobStore B, ArtifactIndex I}.
Abbreviation App := (AppState B I P G).

Lemma run_on_blobs {A} (m : task B io_error A) m' (s : App) :
  (∀ b, run m b = m' b) → run (on_blobs_task m) s = on_blobs m' s.
Proof.
  intros Hm. unfold on_blobs_task, on_blobs.
  rewrite run_zoom, Hm by (by intros; try destruct s0). by destruct (m' (app_blobs s)).
Qed.

Lemma run_on_sink {A} (m : task (B * Sink) io_error A) m' (p : App * Sink) :
  (∀ b, run m b = m' b) → run (on_sink_task m) p = on_sink m' p.
Proof.
  intros Hm. unfold on_sink_task, on_sink. destruct p as [s k].
  rewrite run_zoom; [|by intros [] []..|by intros [[] ?]].
  simpl. rewrite Hm. by destruct (m' (app_blobs s, k)) as [[b k'] r].
Qed.

Lemma run_encrypt enc oh b (p : App * Sink) :
  run (encrypt_and_write_task enc oh b) p = encrypt_and_write enc oh b p.
Proof.
  apply run_bind; [done|]. intros [e ct] s. apply run_bind; [|done].
  intros. apply run_call.
Qed.

Lemma run_chunk pub item (p : App * Sink) :
  run (publish_chunk_task pub item) p = publish_chunk pub item p.
Proof.
  apply run_bind; [intros; apply run_call|]. intros c s. apply run_bind; [done|].
  intros [z [|x out]] s'; [done|]. apply run_bind; [intros; apply run_encrypt|].
  by intros [].
Qed.

Lemma run_finish pub (p : App * Sink) :
  run (publish_finish_task pub) p = publish_finish pub p.
Proof.
  apply run_bind; [done|]. intros tail s. apply run_bind.
  { intros. destruct tail; [done|apply run_encrypt]. }
  intros [e oh] s'. apply run_bind; [done|]. intros tag s2.
  apply run_bind; [intros; apply run_call|done].
Qed.

Lemma run_record cek nonce inner outer size (p : App * Sink) :
  run (publish_record_task cek nonce inner outer size) p =
  publish_record cek nonce inner outer size p.
Proof.
  apply run_bind; [intros; apply run_call|]. intros [e|] s; [done|].
  apply run_bind; [intros; apply run_on_sink, run_commit_task|]. intros [] s'.
  apply run_bind; [intros; apply run_call|done].
Qed.

Lemma run_with_sink {A} (body : task (App * Sink) AppError A) body' (s : App) :
  (∀ p, run body p = body' p) → run (with_sink_task body) s = with_sink body' s.
Proof.
  intros Hb. unfold with_sink_task, with_sink.
  apply run_bind; [intros; apply run_on_blobs, run_begin_task|].
  intros k s'. rewrite run_owning, Hb. by destruct (body' (s', k)) as [[s2 k2] r].
Qed.

Lemma run_publish random body (s : App) :
  run (publish_task random body) s = publish_stream random body s.
Proof.
  apply run_bind; [done|]. intros enc s1. apply run_bind; [done|]. intros z s2.
  apply run_with_sink. intros p. apply run_bind; [intros; apply run_fold, run_chunk|].
  intros pub p'. apply run_bind; [intros; apply run_finish|].
  intros [inner outer] p2. apply run_record.
Qed.
End run_alone.

Section fs_run.
Context `{HexCodec}.

Lemma fs_run_begin s : run fs_begin_task s = fs_begin s.
Proof.
  apply run_bind; [intros; apply run_call|]. intros [] s1.
  apply run_bind; [intros; apply run_call|]. intros seq s2. apply run_call.
Qed.

Lemma fs_run_commit h p : run (fs_commit_task h) p = fs_commit h p.
Proof.
  unfold fs_commit_task, fs_commit.
  apply run_bind; [clear p; intros [s k]|clear p; intros [] [s k]].
  - unfold fs_flush_task, fs_flush. unfold mbind, task_bind. simpl.
    unfold act_bind, sink_state, gets. simpl. destruct (sink_file k); [|done].
    unfold sink_update, sink_call. simpl.
    destruct (syscall "flush" s) as [s1 [[]|e]]; simpl; [|done].
    by destruct (syscall "sync_all" s1) as [s2 [[]|e]].
  - unfold mbind, task_bind, fs_publish. simpl.
    unfold act_bind, sink_state, gets, sink_call, sink_update, mbind. simpl.
    destruct (try_exists_or_false (fs_path h) s) as [s1 [[]|e]]; simpl; [| |done].
    + by destruct (remove_file_ok (sink_tmp k) s1) as [s2 [[]|e]].
    + by destruct (rename_file (sink_tmp k) (fs_path h) s1) as [s2 [[]|e]].
Qed.

#[export] Instance fs_async : AsyncBlobStore Fs := {|
  begin_task := fs_begin_task;
  commit_task := fs_commit_task;
  run_begin_task := fs_run_begin;
  run_commit_task := fs_run_commit;
|}.
End fs_run.
