(* ===== verification/Interleave.v ===== *)
(** Concurrent publishes into the filesystem store: what each publish promises to
    the others at every step, and what every interleaving and cancellation of any
    number of them keeps true of the hub. *)

From S2P Require Import Prelude Ext Async Wire Store Content Concurrent.
From stdpp Require Import relations.

(** * What a publish promises to the others, and relies on *)

Section rely.
Context `{HexCodec, Sha256, StreamAead, Zstd}.
Context {I P G : Type} `{ArtifactIndex I, !ArtifactIndexSpec I}.
Abbreviation App := (AppState Fs I P G).
Implicit Types (s : App) (o : option Z).

(** The state the pool started in. *)
Context (start : App).

Abbreviation files s := (fs_files (app_blobs s)).
Abbreviation temp_seq s := (fs_temp_seq (app_blobs s)).

(** The staging file of the publish that drew number [q]. *)
Definition tmp_of s (q : Z) : string := tmp_name (fs_pid (app_blobs s)) q.

(** No file-system call fails from here on, and no statement of the index. *)
Definition calm s : Prop := no_faults (fs_faults (app_blobs s)).
Definition answering s : Prop := index_quiet (app_index s).

(** What no step of any publish undoes. *)
Definition grows s s' : Prop :=
  fs_pid (app_blobs s') = fs_pid (app_blobs s) ∧
  (∀ h, is_Some (blob_at (app_blobs s) h) → is_Some (blob_at (app_blobs s') h)) ∧
  (∀ h e, index_at (app_index s) h = Some e → index_at (app_index s') h = Some e) ∧
  (calm s → calm s') ∧ (answering s → answering s') ∧
  app_pool s' = app_pool s ∧ app_signer s' = app_signer s.

(** A publish owns the number it drew, and with it a staging file.  It relies on
    the others to leave that file alone and the hub consistent. *)
Definition frame o s s' : Prop :=
  grows s s' ∧ hub_ok s' ∧ (calm start → calm s') ∧ (answering start → answering s') ∧
  (temp_seq s ≤ temp_seq s')%Z ∧
  ∀ q, o = Some q → files s' !! tmp_of s q = files s !! tmp_of s q.

(** A step keeps the hub consistent, draws at most one number, and touches no
    staging file but its own. *)
Definition promise o s o' s' : Prop :=
  grows s s' ∧ (hub_ok s → hub_ok s') ∧
  (o' = o ∧ temp_seq s' = temp_seq s ∨
   o = None ∧ o' = Some (temp_seq s) ∧ temp_seq s' = as_u64 (temp_seq s + 1)) ∧
  ∀ n, is_tmp n → (∀ q, o' = Some q → n ≠ tmp_of s q) → files s' !! n = files s !! n.

(** The numbers drawn are distinct, and enough are left for the publishes that
    have not drawn one. *)
Definition owned (os : list (option Z)) s : Prop :=
  hub_ok s ∧ grows start s ∧
  (∀ i j q, os !! i = Some (Some q) → os !! j = Some (Some q) → i = j) ∧
  (∀ q, Some q ∈ os → (q < temp_seq s)%Z) ∧ (0 ≤ temp_seq s)%Z ∧
  (temp_seq s + Z.of_nat (length (filter (.= None) os)) < two64)%Z ∧
  ∀ n, is_tmp n → (∀ q, Some q ∈ os → n ≠ tmp_of s q) → files s !! n = files start !! n.

Lemma grows_refl s : grows s s.
Proof. by split_and!. Qed.

Lemma grows_trans s1 s2 s3 : grows s1 s2 → grows s2 s3 → grows s1 s3.
Proof.
  intros (Hp & Hb & Hi & Hc & Ha & Hpool & Hsig) (Hp' & Hb' & Hi' & Hc' & Ha' & Hpool' & Hsig').
  split_and!; [congruence|auto..|congruence|congruence].
Qed.

Lemma tmp_of_grows s s' q : grows s s' → tmp_of s' q = tmp_of s q.
Proof. intros (Hp & _). unfold tmp_of. by rewrite Hp. Qed.

Lemma tmp_of_inj s q1 q2 : tmp_of s q1 = tmp_of s q2 → q1 = q2.
Proof.
  unfold tmp_of, tmp_name. intros Heq. apply (inj pretty).
  by apply (inj (String.append ".tmp.")), (inj (String.append (pretty (fs_pid (app_blobs s))))),
    (inj (String.append ".")) in Heq.
Qed.

Lemma tmp_of_is_tmp s q : is_tmp (tmp_of s q).
Proof. apply tmp_name_is_tmp. Qed.

Lemma frame_trans o s1 s2 s3 : frame o s1 s2 → frame o s2 s3 → frame o s1 s3.
Proof.
  intros (Hg & Hok & Hc & Ha & Hq & Hf) (Hg' & Hok' & Hc' & Ha' & Hq' & Hf').
  split_and!; [by eapply grows_trans|done|done|done|lia|]. intros q Ho.
  rewrite <- (Hf q Ho), <- (tmp_of_grows _ _ _ Hg). by apply Hf'.
Qed.

Lemma promise_refl o s : promise o s o s.
Proof. split_and!; auto using grows_refl. Qed.

Lemma frame_refl os s i o : owned os s → os !! i = Some o → frame o s s.
Proof.
  intros (Hok & (_ & _ & _ & Hc & Ha & _) & _) _. split_and!; auto using grows_refl; lia.
Qed.

(** Drawing a number leaves one publish fewer to draw one. *)
Lemma filter_None_insert (os : list (option Z)) i q :
  os !! i = Some None →
  length (filter (.= None) os) = S (length (filter (.= None) (<[i := Some q]> os))).
Proof.
  revert i. induction os as [|o os IH]; intros [|i]; simpl; try done.
  - intros [= ->]. by rewrite !list.filter_cons.
  - intros Hi. rewrite !list.filter_cons. pose proof (IH i Hi).
    destruct (decide (o = None)); simpl; congruence.
Qed.

Lemma owned_acquire os s s' i :
  owned os s → os !! i = Some None → promise None s (Some (temp_seq s)) s' →
  temp_seq s' = as_u64 (temp_seq s + 1) →
  owned (<[i := Some (temp_seq s)]> os) s'.
Proof.
  intros (Hok & Hg & Hd & Hlt & Hnn & Hcap & Hf) Hi (Hg' & Hok' & _ & Hf') Hseq.
  rewrite (filter_None_insert os i (temp_seq s) Hi) in Hcap.
  rewrite as_u64_id in Hseq by (unfold u64_ok; lia).
  assert (∀ q, Some q ∈ <[i := Some (temp_seq s)]> os → q = temp_seq s ∨ Some q ∈ os) as Hin.
  { intros q [j Hj]%list_elem_of_lookup. destruct (decide (j = i)) as [->|Hne].
    - rewrite list_lookup_insert_eq in Hj by by eapply lookup_lt_Some. left. congruence.
    - rewrite list_lookup_insert_ne in Hj by done. right. by eapply list_elem_of_lookup_2. }
  assert (∀ j q, <[i := Some (temp_seq s)]> os !! j = Some (Some q) →
    j = i ∧ q = temp_seq s ∨ j ≠ i ∧ os !! j = Some (Some q)) as Hat.
  { intros j q Hj. destruct (decide (j = i)) as [->|Hne].
    - rewrite list_lookup_insert_eq in Hj by by eapply lookup_lt_Some. left. by simplify_eq.
    - rewrite list_lookup_insert_ne in Hj by done. auto. }
  assert (∀ j q, os !! j = Some (Some q) → (q < temp_seq s)%Z) as Hlt'
    by (intros j q Hj; eapply Hlt, list_elem_of_lookup_2, Hj).
  split_and!; [by apply Hok'|by eapply grows_trans| | |lia|lia|].
  - intros j1 j2 q Hj1%Hat Hj2%Hat.
    destruct Hj1 as [[-> ->]|[_ Hj1]], Hj2 as [[-> Hq]|[_ Hj2]]; [done| | |by eapply Hd].
    + apply Hlt' in Hj2. lia.
    + apply Hlt' in Hj1. lia.
  - intros q [->|Hq%Hlt]%Hin; lia.
  - intros n Hn Hne. assert (∀ q, Some q ∈ <[i := Some (temp_seq s)]> os → n ≠ tmp_of s q) as Hne'.
    { intros q Hq. rewrite <- (tmp_of_grows _ _ _ Hg'). by apply Hne. }
    rewrite Hf', Hf; [done|done| |done|].
    + intros q Hq. apply Hne'. apply list_elem_of_lookup in Hq as [j Hj].
      apply (list_elem_of_lookup_2 _ j). rewrite list_lookup_insert_ne; [done|congruence].
    + intros q [= <-]. apply Hne'. apply (list_elem_of_lookup_2 _ i).
      apply list_lookup_insert_eq. by eapply lookup_lt_Some.
Qed.

Lemma owned_step os s i o o' s' :
  owned os s → os !! i = Some o → promise o s o' s' →
  owned (<[i := o']> os) s' ∧
  ∀ j oj, j ≠ i → os !! j = Some oj → frame oj s s'.
Proof.
  intros Hown Hi Hpr. pose proof Hown as (Hok & Hg & Hd & Hlt & Hnn & Hcap & Hf).
  pose proof Hpr as (Hg' & Hok' & Hseq & Hf').
  assert (∀ j q, os !! j = Some (Some q) → (q < temp_seq s)%Z) as Hlt'
    by (intros j q Hj; eapply Hlt, list_elem_of_lookup_2, Hj).
  split.
  - destruct Hseq as [[-> Heq]|(-> & -> & Hseq)]; [|by apply owned_acquire].
    rewrite list_insert_id by done.
    split_and!; [by apply Hok'|by eapply grows_trans|done|by rewrite Heq..|].
    intros n Hn Hne. assert (∀ q, Some q ∈ os → n ≠ tmp_of s q) as Hne'.
    { intros q Hq. rewrite <- (tmp_of_grows _ _ _ Hg'). by apply Hne. }
    rewrite Hf', Hf; [done..|]. intros q ->. apply Hne'. by eapply list_elem_of_lookup_2.
  - intros j oj Hne Hj. split_and!; [done|by apply Hok'| | | |].
    + destruct Hg as (_ & _ & _ & Hc & _), Hg' as (_ & _ & _ & Hc' & _). auto.
    + destruct Hg as (_ & _ & _ & _ & Ha & _), Hg' as (_ & _ & _ & _ & Ha' & _). auto.
    + destruct Hseq as [[_ ->]|(-> & _ & ->)]; [done|].
      rewrite (filter_None_insert os i 0 Hi) in Hcap.
      rewrite as_u64_id; [lia|]. unfold u64_ok. lia.
    + intros q ->. apply Hf'; [apply tmp_of_is_tmp|]. intros q' Hq' Heq%tmp_of_inj.
      subst q'. destruct Hseq as [[-> _]|(_ & Ho' & _)].
      * subst o. by apply Hne, (Hd j i q).
      * apply Hlt' in Hj. assert (q = temp_seq s) by congruence. lia.
Qed.

(** ** Steps of the file system *)

(** What every call of the store does to the process and to the faults ahead. *)
Definition ran (b b' : Fs) : Prop :=
  fs_pid b' = fs_pid b ∧ fs_temp_seq b' = fs_temp_seq b ∧
  (no_faults (fs_faults b) → no_faults (fs_faults b')).

Lemma tmp_of_ran s b' q : ran (app_blobs s) b' → tmp_of (set_blobs b' s) q = tmp_of s q.
Proof. intros (Hp & _). unfold tmp_of. simpl. by rewrite Hp. Qed.

Lemma ran_trans b1 b2 b3 : ran b1 b2 → ran b2 b3 → ran b1 b3.
Proof. intros (? & ? & ?) (? & ? & ?). split_and!; [congruence..|auto]. Qed.

Lemma syscall_ran name b b' r : syscall name b = (b', r) → ran b b'.
Proof.
  intros Hs. pose proof (syscall_inv _ _ _ _ Hs) as [_ Hq]. unfold syscall in Hs.
  destruct (next_fault _) as [[n|] fs']; simplify_eq/=; (split_and!; [done..|naive_solver]).
Qed.

Lemma remove_file_ran tmp b b' r : remove_file_ok tmp b = (b', r) → ran b b'.
Proof.
  intros Hr. pose proof (remove_file_ok_inv _ _ _ _ Hr) as (_ & _ & Hq).
  unfold remove_file_ok in Hr. destruct (syscall _ b) as [b1 r1] eqn:Hs.
  apply syscall_ran in Hs as (? & ? & ?). destruct r1; simplify_eq/=; by split_and!.
Qed.

Lemma rename_file_ran tmp dest b b' r : rename_file tmp dest b = (b', r) → ran b b'.
Proof.
  unfold rename_file. unfold_act. unfold gets, updating. simpl. intros Hr.
  destruct (syscall _ b) as [b1 r1] eqn:Hs.
  apply syscall_ran in Hs as (? & ? & ?). destruct r1; simplify_eq/=; [|by split_and!].
  destruct (fs_files b1 !! tmp); simplify_eq/=; by split_and!.
Qed.

Lemma try_exists_ran dest b b' r : try_exists_or_false dest b = (b', r) → ran b b'.
Proof.
  unfold try_exists_or_false. destruct (syscall _ b) as [b1 r1] eqn:Hs.
  apply syscall_ran in Hs. by destruct r1; intros; simplify_eq/=.
Qed.

Lemma write_all_ran buf b k b' k' r : fs_write_all buf (b, k) = ((b', k'), r) → ran b b'.
Proof.
  intros Hw. pose proof (fs_write_all_inv _ _ _ _ Hw) as (_ & _ & Hq).
  unfold fs_write_all in Hw. destruct (next_fault _) as [[n|] fs']; simplify_eq/=;
    (split_and!; [done..|naive_solver]).
Qed.

(** A call that touches only the publish's own staging file keeps the promise. *)
Lemma promise_own o s b' :
  ran (app_blobs s) b' →
  (∀ n, (∀ q, o = Some q → n ≠ tmp_of s q) → fs_files b' !! n = files s !! n) →
  promise o s o (set_blobs b' s).
Proof.
  intros (Hp & Hq & Hc) Hf.
  assert (∀ h, blob_at b' h = blob_at (app_blobs s) h) as Hb.
  { intros h. apply Hf. intros q _. apply path_ne_tmp, tmp_of_is_tmp. }
  split_and!.
  - split_and!; try done. intros h Hh. by rewrite <- Hb in Hh.
  - intros Hok. apply (hub_ok_same s); [by split_and!|by destruct Hok|done].
  - by left.
  - intros n _. apply Hf.
Qed.

(** One that touches no file, in particular. *)
Lemma promise_files o s b' :
  ran (app_blobs s) b' → fs_files b' = files s → promise o s o (set_blobs b' s).
Proof. intros Hr Hf. apply promise_own; [done|]. intros n _. by rewrite Hf. Qed.

(** Drawing a number. *)
Lemma promise_draw s b' q :
  fetch_add_seq (app_blobs s) = (b', Ok q) →
  promise None s (Some q) (set_blobs b' s) ∧ fs_files b' = files s.
Proof.
  unfold fetch_add_seq. intros [= <- <-]. split; [|done]. split_and!; simpl; auto.
  by split_and!.
Qed.

(** What a publish owns together with its sink. *)
Definition owns o s (k : FsBlobSink) : Prop :=
  ∃ q, o = Some q ∧ sink_tmp k = tmp_of s q.

Lemma owns_frame o s s' k : owns o s k → frame o s s' → owns o s' k.
Proof.
  intros (q & -> & Hk) [Hg _]. exists q. split; [done|].
  by rewrite (tmp_of_grows _ _ _ Hg).
Qed.

Lemma owns_promise o s o' s' k : owns o s k → promise o s o' s' → o' = o → owns o' s' k.
Proof.
  intros (q & -> & Hk) [Hg _] ->. exists q. split; [done|].
  by rewrite (tmp_of_grows _ _ _ Hg).
Qed.

Lemma owns_drop o s k : owns o s k →
  promise o s o (drop_app_sink (s, k)) ∧ owns o (drop_app_sink (s, k)) k.
Proof.
  intros Ho. assert (promise o s o (drop_app_sink (s, k))) as Hpr;
    [|by split; [|by eapply owns_promise]].
  destruct Ho as (q & -> & Hk). unfold drop_app_sink. simpl. unfold fs_drop. simpl.
  destruct (negb _); [|by apply promise_files].
  destruct (remove_file_ok _ _) as [b' r] eqn:Hr.
  pose proof (remove_file_ran _ _ _ _ Hr) as Hran.
  apply remove_file_ok_inv in Hr as (_ & Hd & _). simpl. apply promise_own; [done|].
  intros n Hn. destruct Hd as [-> | ->]; [|done].
  apply lookup_delete_ne. rewrite Hk. apply not_eq_sym. by apply Hn.
Qed.

(** ** Steps of a publish that has its sink *)

Abbreviation safe_pub := (safe (rely_own frame owns) (guar_own promise owns)).

(** The staging file holds exactly [ct]. *)
Definition holding (ct : list byte) o (p : App * FsBlobSink) : Prop :=
  ∃ q, o = Some q ∧ sink_tmp p.2 = tmp_of p.1 q ∧ sink_committed p.2 = false ∧
    files p.1 !! tmp_of p.1 q = Some ct.

(** A committed sink has left no staging file behind. *)
Definition tidy (p : App * FsBlobSink) : Prop :=
  calm start → sink_committed p.2 = true → files p.1 !! sink_tmp p.2 = None.

(** What can stop a publish while no call fails: something outside the store, and
    no other publish. *)
Context (cause : Prop).

Definition undisturbed : Prop := calm start ∧ answering start.

Definition lost (p : App * FsBlobSink) : Prop := tidy p ∧ (undisturbed → cause).

Definition blamed {A} (r : result AppError A) : Prop :=
  undisturbed → ∀ e, r = Err e → cause.

Lemma rely_calm o p p' : rely_own frame owns o p p' → undisturbed →
  calm p'.1 ∧ answering p'.1.
Proof. intros ((_ & _ & Hc & Ha & _) & _) [Hcalm Hans]. auto. Qed.

Lemma tidy_uncommitted p : sink_committed p.2 = false → tidy p.
Proof. unfold tidy. congruence. Qed.

Lemma holding_owns ct o p : holding ct o p → owns o p.1 p.2.
Proof. intros (q & ? & ? & _). by exists q. Qed.

Lemma holding_tidy ct o p : holding ct o p → tidy p.
Proof. intros (q & _ & _ & ? & _). by apply tidy_uncommitted. Qed.

Lemma holding_rely ct o p p' : holding ct o p → rely_own frame owns o p p' → holding ct o p'.
Proof.
  destruct p as [s k], p' as [s' k']. intros (q & -> & Ht & Hc & Hf) ((Hg & _ & _ & _ & _ & Hr) & Hk & _).
  simpl in *. subst k'. exists q. simpl. rewrite (tmp_of_grows _ _ _ Hg), Hr by done.
  by split_and!.
Qed.

(** A call that keeps the number and the name of the staging file. *)
Lemma guar_same o s k s' k' :
  owns o s k → promise o s o s' → sink_tmp k' = sink_tmp k →
  guar_own promise owns o (s, k) o (s', k').
Proof.
  intros Ho Hp Hk. assert (owns o s' k) as Ho' by by eapply owns_promise.
  split_and!; [done| |done]. destruct Ho' as (q & -> & Hq). exists q. simpl. by rewrite Hk.
Qed.

Lemma frame_own_trans o p1 p2 p3 :
  rely_own frame owns o p1 p2 → rely_own frame owns o p2 p3 → rely_own frame owns o p1 p3.
Proof.
  intros (? & ? & ?) (? & ? & ?). split_and!; [by eapply frame_trans|congruence|done].
Qed.

Lemma promise_own_refl o p p' : rely_own frame owns o p p' → guar_own promise owns o p' o p'.
Proof. intros (_ & _ & Ho). split_and!; auto using promise_refl. Qed.

(** One call on the state and the sink. *)
Lemma pub_call {A} (m : act (App * FsBlobSink) AppError A) Q o p :
  (∀ p1 p2 r, rely_own frame owns o p p1 → m p1 = (p2, r) →
     promise o p1.1 o p2.1 ∧ sink_tmp p2.2 = sink_tmp p1.2 ∧ Q o r p2) →
  safe_pub Q o (call m) p.
Proof.
  intros Hm. apply safe_call; [apply promise_own_refl|].
  intros p1 p2 r Hr Hcall. destruct (Hm p1 p2 r Hr Hcall) as (Hp & Hk & HQ).
  exists o. split; [|done]. destruct p1, p2. apply guar_same; [by destruct Hr as (_ & _ & ?)|done|done].
Qed.

(** One call of a method of the sink. *)
Lemma pub_zoom_call {A} (m : act (Fs * FsBlobSink) io_error A) Q o p :
  (∀ s1 k1 b2 k2 r, rely_own frame owns o p (s1, k1) → m (app_blobs s1, k1) = ((b2, k2), r) →
     promise o s1 o (set_blobs b2 s1) ∧ sink_tmp k2 = sink_tmp k1 ∧
     Q o (map_err app_error_of_io r) (set_blobs b2 s1, k2)) →
  safe_pub Q o (on_sink_task (call m)) p.
Proof.
  intros Hm. unfold on_sink_task. apply safe_zoom_call; [apply promise_own_refl|by intros [[] ?]|].
  intros [s1 k1] [b2 k2] r Hr Hcall. simpl in *.
  destruct (Hm s1 k1 b2 k2 r Hr Hcall) as (Hp & Hk & HQ).
  exists o. split; [|done]. apply guar_same; [by destruct Hr as (_ & _ & ?)|done|done].
Qed.

(** Writing to the staging file. *)
Lemma write_safe ct b o p :
  holding ct o p →
  safe_pub (λ o r p, match r with
    | Ok _ => holding (ct ++ b) o p
    | Err _ => lost p
    end) o (call (on_sink (write_all b))) p.
Proof.
  intros Hh. apply pub_call. intros [s1 k1] [s2 k2] r Hr Hw.
  pose proof (rely_calm _ _ _ Hr) as Hund.
  apply (holding_rely _ _ _ _ Hh) in Hr. destruct Hr as (q & -> & Ht & Hc & Hf).
  change (on_sink (write_all b) _) with
    (let '((b', k'), r) := fs_write_all b (app_blobs s1, k1) in
     ((set_blobs b' s1, k'), map_err app_error_of_io r)) in Hw.
  destruct (fs_write_all b (app_blobs s1, k1)) as [[b2 k3] r2] eqn:Hcall.
  pose proof (write_all_ran _ _ _ _ _ _ Hcall) as Hran.
  apply fs_write_all_inv in Hcall as (Hk & (n & Hfiles & Hn) & Hq). simpl in *.
  simplify_eq/=. rewrite Ht in Hfiles. split; [|split; [done|]].
  - apply promise_own; [done|]. intros m Hm. rewrite Hfiles. apply lookup_alter_ne.
    by apply not_eq_sym, Hm.
  - destruct r2 as [[]|e]; simpl.
    2:{ split; [by apply tidy_uncommitted|]. intros [Hcalm _]%Hund. by destruct (Hq Hcalm). }
    exists q. rewrite (tmp_of_ran s1 b2) by done. split_and!; [done..|]. simpl.
    by rewrite Hfiles, lookup_alter_eq, Hf, Hn, firstn_all.
Qed.

Lemma encrypt_safe ct enc outer_h b o p :
  (∀ a c, aead_update a c = None → cause) → holding ct o p →
  safe_pub (λ o r p, match r with
    | Ok (enc', oh) => ∃ inner out, aead_update (enc_inner enc) b = Some (inner, out) ∧
        enc' = mkEncryptor (enc_cek enc) (enc_nonce enc) inner ∧
        oh = hasher_update outer_h out ∧ holding (ct ++ out) o p
    | Err _ => lost p
    end) o (encrypt_and_write_task enc outer_h b) p.
Proof.
  intros Hcause Hh. unfold encrypt_and_write_task, encryptor_update.
  apply safe_ok_or.
  { intros Hn. split; [by eapply holding_tidy|]. intros _. apply (Hcause (enc_inner enc) b).
    by destruct (aead_update _ _) as [[]|]. }
  intros [enc' out] ([inner out'] & Ha & [= <- <-])%bind_Some. rewrite Ha.
  apply safe_bind. eapply safe_mono; [|by apply write_safe].
  intros o' [[]|e] p' Hw; [|done]. by exists inner, out'.
Qed.

Lemma chunk_safe enc z0 chunks pub ct item o p :
  (∀ a c, aead_update a c = None → cause) → (∀ z c, zstd_write z c = None → cause) →
  (∀ e, item = Err e → cause) → holding ct o p → progress enc z0 chunks pub ct →
  safe_pub (λ o r p, match r with
    | Ok pub' => ∃ chunk ct', item = Ok chunk ∧ holding ct' o p ∧
        progress enc z0 (chunks ++ [chunk]) pub' ct'
    | Err _ => lost p
    end) o (publish_chunk_task pub item) p.
Proof.
  intros Hcause Hzstd Hitem Hh Hpr. apply safe_bind. apply pub_call. intros p1 p2 r Hr [= <- <-].
  apply (holding_rely _ _ _ _ Hh) in Hr. split; [apply promise_refl|split; [done|]].
  destruct item as [chunk|e]; [|by split; [eapply holding_tidy|eauto]].
  apply safe_ok_or; [intros Hn; split; [by eapply holding_tidy|eauto]|]. intros [zenc out] Hz.
  destruct out as [|x out'] eqn:Hout.
  - exists chunk, ct. split_and!; [done|done|]. by apply progress_skip.
  - rewrite <- Hout in *. clear Hout. apply safe_bind.
    eapply safe_mono; [|by apply encrypt_safe].
    intros o' [[enc' oh]|e] p' Hw; [|done]. destruct Hw as (inner & ct' & Ha & -> & -> & Hh').
    exists chunk, (ct ++ ct'). split; [done|]. split; [done|]. by eapply progress_emit.
Qed.

Lemma finish_safe enc z0 chunks pub ct o p :
  aead_start (enc_cek enc) (enc_nonce enc) = Some (enc_inner enc) →
  zstd_new ZSTD_LEVEL = Some z0 →
  (∀ a c, aead_update a c = None → cause) → (∀ a, aead_finalize a = None → cause) →
  (∀ z, zstd_finish z = None → cause) →
  holding ct o p → progress enc z0 chunks pub ct →
  safe_pub (λ o r p, match r with
    | Ok (inner, outer) => ∃ ct, inner = hash_of (concat chunks) ∧ outer = hash_of ct ∧
        opens (enc_cek enc) (enc_nonce enc) ct (concat chunks) ∧ holding ct o p
    | Err _ => lost p
    end) o (publish_finish_task pub) p.
Proof.
  intros Henc Hz0 Hupd Hfin Hzfin Hh Hpr. pose proof Hpr as (_ & _ & _ & Hih & _).
  apply safe_ok_or; [intros Hn; split; [by eapply holding_tidy|eauto]|]. intros tail Hf.
  apply safe_bind. eapply safe_mono with (Q := λ o r p, match r with
    | Ok r => ∃ ct, sealed enc chunks r ct ∧ holding ct o p | Err _ => lost p end).
  - intros o1 [[e oh]|e] p1; [|done]. intros (ct1 & Hse & Hh1).
    apply safe_ok_or; [intros Hn; split; [by eapply holding_tidy|eauto]|]. intros tag Htag.
    destruct (sealed_opens enc chunks (e, oh) ct1 tag Henc Hse Htag) as [Hop Hoh].
    apply safe_bind. eapply safe_mono; [|by apply write_safe].
    intros o2 [[]|e2] p2 Hh2; [|done]. exists (ct1 ++ slice tag).
    split_and!; [by rewrite Hih|done|done|done].
  - destruct tail as [|x tl] eqn:Ht.
    + exists ct. split; [by eapply progress_footer_nil|done].
    + rewrite <- Ht in *. clear Ht. eapply safe_mono; [|by apply encrypt_safe].
      intros o1 [[enc' oh]|e] p1 Hw; [|done].
      destruct Hw as (inner & out & Ha & -> & -> & Hh1). exists (ct ++ out).
      split; [by eapply progress_footer|done].
Qed.

(** ** Committing *)

Lemma sink_call_inv {A} (m : act Fs io_error A) b k b' k' r :
  sink_call m (b, k) = ((b', k'), r) → m b = (b', r) ∧ k' = k.
Proof. unfold sink_call. destruct (m b); intros; by simplify_eq. Qed.

Lemma holding_files ct o s k b' k' :
  holding ct o (s, k) → ran (app_blobs s) b' → fs_files b' = files s →
  sink_tmp k' = sink_tmp k → sink_committed k' = sink_committed k →
  holding ct o (set_blobs b' s, k').
Proof.
  intros (q & -> & Ht & Hc & Hf) Hran Hfiles Htmp Hcom. simpl in *.
  exists q. rewrite (tmp_of_ran s b') by done. simpl. rewrite Hfiles.
  split_and!; [done|congruence..].
Qed.

(** A call of [commit] that touches no file. *)
Lemma read_safe {A} ct (m : act (Fs * FsBlobSink) io_error A) (Φ : A → App → Prop) o p :
  holding ct o p →
  (∀ s k b' k' r, rely_own frame owns o p (s, k) → m (app_blobs s, k) = ((b', k'), r) →
     ran (app_blobs s) b' ∧ fs_files b' = files s ∧ sink_tmp k' = sink_tmp k ∧
     sink_committed k' = sink_committed k ∧
     (∀ a, r = Ok a → Φ a s) ∧ (calm s → ∃ a, r = Ok a)) →
  (∀ a s b', Φ a s → fs_files b' = files s → Φ a (set_blobs b' s)) →
  safe_pub (λ o r p, match r with
    | Ok a => holding ct o p ∧ Φ a p.1
    | Err _ => lost p
    end) o (on_sink_task (call m)) p.
Proof.
  intros Hh Hm HΦ. apply pub_zoom_call. intros s k b' k' r Hr Hcall.
  destruct (Hm s k b' k' r Hr Hcall) as (Hran & Hf & Ht & Hc & Ha & Hcalm).
  pose proof (holding_rely _ _ _ _ Hh Hr) as Hh1.
  assert (holding ct o (set_blobs b' s, k')) as Hh' by by eapply holding_files.
  split; [by apply promise_files|]. split; [done|].
  destruct r as [a|e]; simpl; [split; [done|]; apply HΦ; auto|].
  split; [by eapply holding_tidy|]. intros Hu. apply (rely_calm _ _ _ Hr) in Hu as [Hs _].
  by destruct (Hcalm Hs).
Qed.

Lemma flush_safe ct o p :
  holding ct o p →
  safe_pub (λ o r p, match r with Ok _ => holding ct o p | Err _ => lost p end) o
    (on_sink_task fs_flush_task) p.
Proof.
  intros Hh. apply safe_zoom_bind.
  eapply safe_mono; [|apply (read_safe ct _ (λ _ _, True) o p Hh)]; [|..|done].
  - intros o1 [[|]|e] p1; [intros [Hh1 _]|by intros []|done].
    eapply safe_mono; [|apply (read_safe ct _ (λ _ _, True) o1 p1 Hh1)]; [|..|done].
    + by intros o2 [[]|e] p2; [intros []|].
    + intros s k b' k' r _ [Hs ->]%sink_call_inv.
      pose proof (syscall_ran _ _ _ _ Hs). apply syscall_inv in Hs as [? Hq].
      split_and!; auto. intros Hc. destruct (Hq Hc). eauto.
  - intros s k b' k' r _. unfold_act. unfold sink_state, gets. simpl.
    destruct (sink_file k); [|intros [= <- <- <-]; split_and!; by eauto]. simpl.
    destruct (syscall "flush" (app_blobs s)) as [b1 r1] eqn:Hs. simpl.
    pose proof (syscall_ran _ _ _ _ Hs). apply syscall_inv in Hs as [? Hq].
    destruct r1 as [[]|e]; simpl; intros [= <- <- <-]; split_and!; eauto.
    intros Hc. by destruct (Hq Hc).
Qed.

(** Publishing the staging file under its hash. *)
Lemma promise_rename q s b' ct :
  ran (app_blobs s) b' → hub_ok s →
  fs_files b' = <[fs_path (hash_of ct) := ct]> (delete (tmp_of s q) (files s)) →
  promise (Some q) s (Some q) (set_blobs b' s) ∧
  is_Some (blob_at b' (hash_of ct)).
Proof.
  intros (Hp & Hq & Hc) Hok Hf.
  assert (∀ h, h ≠ hash_of ct → fs_blob_at b' h = fs_blob_at (app_blobs s) h) as Hne.
  { intros h Hd. unfold fs_blob_at. rewrite Hf, lookup_insert_ne
      by (intros ?%fs_path_inj; congruence).
    apply lookup_delete_ne, not_eq_sym, path_ne_tmp, tmp_of_is_tmp. }
  assert (fs_blob_at b' (hash_of ct) = Some ct) as Hh
    by (unfold fs_blob_at; by rewrite Hf, lookup_insert_eq).
  split; [|change (is_Some (fs_blob_at b' (hash_of ct))); by rewrite Hh]. split_and!.
  - split_and!; try done. intros h Hs. change (is_Some (fs_blob_at b' h)).
    destruct (decide (h = hash_of ct)) as [->|Hd]; [by rewrite Hh|by rewrite Hne].
  - intros _. by apply (hub_ok_add_blob s _ (hash_of ct) ct).
  - by left.
  - intros n Hn Hd. simpl. rewrite Hf, lookup_insert_ne by by apply path_ne_tmp.
    apply lookup_delete_ne, not_eq_sym. by apply Hd.
Qed.

(** What the last call of [commit] did. *)
Lemma publish_file_inv (exists_ : bool) outer b k b' k' r :
  (k ← sink_state;
   _ ← sink_call (if exists_ then remove_file_ok (sink_tmp k)
                  else rename_file (sink_tmp k) (fs_path outer));
   sink_update (λ k, mkFsBlobSink (sink_tmp k) (sink_file k) true)) (b, k) =
    ((b', k'), r) →
  (if exists_ then remove_file_ok (sink_tmp k) else rename_file (sink_tmp k) (fs_path outer))
    b = (b', r) ∧ sink_tmp k' = sink_tmp k ∧
  (∀ e, r = Err e → sink_committed k' = sink_committed k).
Proof.
  unfold_act. unfold sink_state, gets, sink_update, sink_call. simpl.
  destruct exists_; [destruct (remove_file_ok _ b) as [b1 [[]|e]]|
    destruct (rename_file _ _ b) as [b1 [[]|e]]]; intros [= <- <- <-]; by split_and!.
Qed.

Lemma publish_file_safe ct (exists_ : bool) o p :
  holding ct o p →
  (exists_ = true → is_Some (blob_at (app_blobs p.1) (hash_of ct))) →
  safe_pub (λ o r p, tidy p ∧
      (r = Ok () → is_Some (blob_at (app_blobs p.1) (hash_of ct))) ∧
      blamed r) o
    (on_sink_task (call (
      k ← sink_state;
      _ ← sink_call (if exists_ then remove_file_ok (sink_tmp k)
                     else rename_file (sink_tmp k) (fs_path (hash_of ct)));
      sink_update (λ k, mkFsBlobSink (sink_tmp k) (sink_file k) true)))) p.
Proof.
  intros Hh Hex. apply pub_zoom_call.
  intros s k b' k' r Hr (Hcall & Htmp & Herr)%publish_file_inv.
  pose proof (holding_rely _ _ _ _ Hh Hr) as (q & -> & Ht & Hc & Hf).
  pose proof (rely_calm _ _ _ Hr) as Hund.
  destruct Hr as ((Hg & Hok & Hcalm & _) & _). simpl in *. rewrite Ht in Hcall.
  destruct exists_.
  - pose proof (remove_file_ran _ _ _ _ Hcall) as Hran.
    apply remove_file_ok_inv in Hcall as (-> & Hd & Hq).
    assert (promise (Some q) s (Some q) (set_blobs b' s)) as Hp.
    { apply promise_own; [done|]. intros n Hn. destruct Hd as [-> | ->]; [|done].
      by apply lookup_delete_ne, not_eq_sym, Hn. }
    split; [done|]. split; [done|]. split.
    + intros Hc0 _. simpl. rewrite Htmp, Ht. destruct (Hq (Hcalm Hc0)) as [_ ->].
      apply lookup_delete_eq.
    + split; [|by intros _]. intros _. destruct Hp as ((_ & Hb & _) & _). apply Hb.
      destruct Hg as (_ & Hb' & _). by apply Hb', Hex.
  - pose proof (rename_file_ran _ _ _ _ _ Hcall) as Hran.
    apply (rename_file_inv _ _ ct) in Hcall as [[[-> Hd]|[[e ->] Hd]] Hq]; [| |done].
    + destruct (promise_rename q s b' ct Hran Hok Hd) as [Hp Hb].
      split; [done|]. split; [done|]. split; [|by split; [|intros _]]. intros _ _. simpl.
      rewrite Htmp, Ht, Hd, lookup_insert_ne by apply path_ne_tmp, tmp_of_is_tmp.
      apply lookup_delete_eq.
    + split; [by apply promise_files|]. split; [done|]. split; [|split; [done|]].
      * apply tidy_uncommitted. simpl. by rewrite (Herr e).
      * intros [Hs _]%Hund. by destruct (Hq Hs).
Qed.

Lemma commit_safe ct o p :
  holding ct o p →
  safe_pub (λ o r p, tidy p ∧
      (r = Ok () → is_Some (blob_at (app_blobs p.1) (hash_of ct))) ∧
      blamed r) o
    (on_sink_task (commit_task (hash_of ct))) p.
Proof.
  intros Hh. apply safe_zoom_bind. eapply safe_mono; [|by apply flush_safe].
  intros o1 [[]|e] p1; [|by intros [? Hc]; split_and!; [| |intros Hu; auto]].
  intros Hh1. apply safe_zoom_bind.
  eapply safe_mono; [|apply (read_safe ct _ (λ (x : bool) s, x = true →
    is_Some (fs_files (app_blobs s) !! fs_path (hash_of ct))) o1 p1 Hh1)].
  - intros o2 [x|e] p2; [|by intros [? Hc]; split_and!; [| |intros Hu; auto]].
    intros [Hh2 Hx]. by apply publish_file_safe.
  - intros s k b' k' r _ [Hs ->]%sink_call_inv.
    pose proof (try_exists_ran _ _ _ _ Hs).
    apply try_exists_inv in Hs as (? & (x & -> & Hx) & _). split_and!; [done..| |by eauto].
    by intros a [= <-].
  - intros a s b' Ha Hf ?. simpl. rewrite Hf. auto.
Qed.

(** ** Indexing, and the whole publish *)

(** What a publish of [plain] may answer: the reference the index holds, or, when
    another publish of the same bytes was indexed in the meantime, its own. *)
Definition answer s (plain : list byte) (ref : ArtifactRef) : Prop :=
  ref_inner ref = hash_of plain ∧ is_Some (blob_at (app_blobs s) (ref_outer ref)) ∧
  ∃ e, index_at (app_index s) (hash_of plain) = Some e ∧
    (ref = mkArtifactRef (entry_inner e) (entry_outer e) (entry_size e) ∨
     ref_size ref = as_u64 (Z.of_nat (length plain)) ∧
     ∃ cek nonce ct, hash_of ct = ref_outer ref ∧ opens cek nonce ct plain).

Lemma answer_grows s s' plain ref : answer s plain ref → grows s s' → answer s' plain ref.
Proof.
  intros (Hin & Hb & e & He & Hor) (_ & Hb' & Hi' & _).
  split; [done|]. split; [by apply Hb'|]. exists e. by split; [apply Hi'|].
Qed.

Lemma on_index_inv {A} (m : act I string A) s k s' k' r :
  on_index m (s, k) = ((s', k'), r) →
  ∃ i r0, m (app_index s) = (i, r0) ∧ s' = set_index i s ∧ k' = k ∧ r = map_err Internal r0.
Proof. unfold on_index. destruct (m (app_index s)) as [i r0]. intros [= <- <- <-]. eauto 6. Qed.

(** A statement that answers a question leaves what the publish holds alone. *)
Lemma holding_index ct o s k i : holding ct o (s, k) → holding ct o (set_index i s, k).
Proof. by intros (q & ? & ? & ? & ?); exists q. Qed.

Lemma promise_index o s i :
  index_ok i → (answering s → index_quiet i) → (∀ h, index_at i h = index_at (app_index s) h) →
  promise o s o (set_index i s).
Proof.
  intros Hok Hq Hi. split_and!; [split_and!; try done|..|by left|done].
  - intros h e Hh. simpl. by rewrite Hi.
  - intros Hk. apply (hub_ok_same s); [by split_and!|done|done].
Qed.

Lemma promise_index_put o s e i r ct plain :
  hub_ok s → index_put e (app_index s) = (i, r) →
  is_Some (blob_at (app_blobs s) (entry_outer e)) → hash_of ct = entry_outer e →
  opens (entry_cek e) (entry_nonce e) ct plain → hash_of plain = entry_inner e →
  entry_size e = as_u64 (Z.of_nat (length plain)) →
  promise o s o (set_index i s) ∧ (r = Ok () → is_Some (index_at i (entry_inner e))).
Proof.
  intros Hok Hput Hb Hct Hop Hin Hsz. pose proof Hok as (Hi & _).
  assert (u64_ok (entry_size e)) as Hu by (rewrite Hsz; apply as_u64_ok).
  destruct (index_put_spec e _ _ _ Hi Hu Hput) as (Hi' & Hne & Hr & Herr).
  assert (answering s → index_quiet i) as Hq
    by (intros Hq; by destruct (index_put_quiet e _ _ _ Hq Hput)).
  assert (index_at i (entry_inner e) = index_at (app_index s) (entry_inner e) ∨
    index_at i (entry_inner e) = Some (default e (index_at (app_index s) (entry_inner e))))
    as Heq by exact Herr.
  split; [|intros ->; rewrite Hr by done; eauto]. split_and!; [|..|by left|done].
  - split_and!; try done. intros h e' Hh. simpl.
    destruct (decide (h = entry_inner e)) as [->|Hd]; [|by rewrite Hne].
    rewrite Hh in Heq. simpl in Heq. by destruct Heq.
  - intros _. by eapply (hub_ok_add_entry s _ e ct plain).
Qed.

Lemma tidy_rely o p p' : tidy p → rely_own frame owns o p p' → tidy p'.
Proof.
  destruct p as [s k], p' as [s' k']. unfold tidy. simpl.
  intros Ht ((Hg & _ & _ & _ & _ & Hf) & Hk & q & -> & Hq) Hc Hcom. simpl in *. subst k'.
  rewrite Hq, (tmp_of_grows _ _ _ Hg), Hf by done.
  rewrite <- (tmp_of_grows _ _ q Hg), <- Hq. auto.
Qed.

Lemma record_safe ct cek nonce plain o p :
  holding ct o p → opens cek nonce ct plain →
  safe_pub (λ o r p, tidy p ∧ (∀ ref, r = Ok ref → answer p.1 plain ref) ∧ blamed r) o
    (publish_record_task cek nonce (hash_of plain) (hash_of ct)
       (as_u64 (Z.of_nat (length plain)))) p.
Proof.
  intros Hh Hop. apply safe_bind. apply pub_call.
  intros [s1 k1] [s2 k2] r Hr (i & r0 & Hget & -> & -> & ->)%on_index_inv.
  apply (holding_rely _ _ _ _ Hh) in Hr as Hh1.
  pose proof (rely_calm _ _ _ Hr) as Hund. destruct Hr as ((_ & Hok & _) & _).
  pose proof Hok as (Hiok & _ & He).
  destruct (index_get_spec _ _ _ _ Hiok Hget) as (Hiok' & Hi & Ho). simpl in *.
  assert (answering s1 → index_quiet i ∧ ∃ x, r0 = Ok x) as Hq
    by (intros Hq; by apply (index_get_quiet _ _ _ _ Hiok Hq Hget)).
  split; [apply promise_index; [done|intros Ha; apply (Hq Ha)|done]|]. split; [done|].
  apply (holding_index _ _ _ _ i) in Hh1.
  destruct r0 as [[e|]|err]; cbn [map_err].
  - split; [by eapply holding_tidy|]. split; [|by intros _]. intros ref [= <-].
    pose proof (Ho _ eq_refl) as Hat. destruct (He _ e (eq_sym Hat)) as (Hin & Hb & _).
    split; [done|]. split; [done|]. exists e. split; [simpl; by rewrite Hi|by left].
  - apply safe_bind. eapply safe_mono; [|by apply commit_safe].
    intros o1 [[]|e1] p1 (Htidy & Hb & Hbl); [|by split_and!; [..|intros Hu e' _; apply (Hbl Hu e1)]].
    specialize (Hb eq_refl).
    apply safe_bind. apply pub_call.
    intros [s3 k3] [s4 k4] r3 Hr3 (i4 & r4 & Hput & -> & -> & ->)%on_index_inv.
    apply (tidy_rely o1 _ _ Htidy) in Hr3 as Htidy3.
    pose proof (rely_calm _ _ _ Hr3) as Hund3. destruct Hr3 as ((Hg3 & Hok3 & _) & _).
    assert (is_Some (blob_at (app_blobs s3) (hash_of ct))) as Hb3
      by (destruct Hg3 as (_ & Hb3 & _); by apply Hb3).
    destruct (promise_index_put o1 _ _ _ _ ct plain Hok3 Hput) as [Hp Hput']; [done..|].
    split; [done|]. split; [done|]. destruct r4 as [[]|err]; simpl.
    2:{ split_and!; [done..|]. intros [_ Ha]%Hund3. by destruct (index_put_quiet _ _ _ _ Ha Hput). }
    split; [done|]. split; [|by intros _]. intros ref [= <-]. destruct (Hput' eq_refl) as [e He4].
    split; [done|]. split; [done|]. exists e. split; [done|]. right. split; [done|].
    by exists cek, nonce, ct.
  - split_and!; [by eapply holding_tidy|done|]. intros [_ Ha]%Hund.
    by destruct (Hq Ha) as [_ [? ?]].
Qed.

(** What is promised of a served request: its answer, no staging file, and no
    failure that another publish brought about. *)
Definition served (body : list (result string (list byte))) o
    (r : result AppError ArtifactRef) s : Prop :=
  (∀ ref, r = Ok ref → ∃ chunks, body = Ok <$> chunks ∧ answer s (concat chunks) ref) ∧
  (calm start → ∀ q, o = Some q → files s !! tmp_of s q = None) ∧ blamed r.

Lemma served_stable body : stable frame (served body).
Proof.
  intros o r s s' (Hr & Hq & Hb) (Hg & _ & _ & _ & _ & Hf). split_and!; [| |done].
  - intros ref Href. destruct (Hr ref Href) as (chunks & ? & ?). exists chunks.
    split; [done|]. by eapply answer_grows.
  - intros Hc q Ho. rewrite (tmp_of_grows _ _ _ Hg), Hf by done. auto.
Qed.

Lemma plain_encrypt enc oh b :
  plain (encrypt_and_write_task enc oh b : task (App * FsBlobSink) _ _).
Proof. unfold encrypt_and_write_task. apply plain_bind; [done|]. intros [? ?]. by auto with plain. Qed.

Lemma plain_body enc z0 body :
  plain (publish_body enc z0 body : task (App * FsBlobSink) AppError ArtifactRef).
Proof.
  apply plain_bind; [apply plain_fold; intros pub item|intros pub].
  - apply plain_bind; [by apply plain_call|]. intros chunk. apply plain_bind; [done|].
    intros [z [|x out]]; [done|]. apply plain_bind; [apply plain_encrypt|by intros []].
  - apply plain_bind; [|intros [inner outer]].
    + apply plain_bind; [done|]. intros [|x tail]; (apply plain_bind;
        [first [done|apply plain_encrypt]|intros []; by auto with plain]).
    + apply plain_bind; [by apply plain_call|]. intros [e|]; [done|].
      apply plain_bind; [|by auto with plain]. apply plain_zoom; [by intros [[] ?]|].
      apply plain_bind; [|by auto with plain].
      apply plain_bind; [by apply plain_call|]. by intros [].
Qed.

(** The sink's life: whatever its publish does, dropping it leaves no staging
    file. *)
Lemma drop_served body o r p s' :
  tidy p → (∀ ref, r = Ok ref → ∃ chunks, body = Ok <$> chunks ∧ answer p.1 (concat chunks) ref) →
  blamed r → owns o p.1 p.2 → frame o p.1 s' → served body o r (drop_app_sink (s', p.2)).
Proof.
  destruct p as [s k]. simpl. intros Ht Hr Hbl Ho Hfr.
  destruct (owns_drop o s' k) as [Hp _]; [by eapply owns_frame|].
  pose proof Hfr as (Hg & _ & Hcalm & _ & _ & Hf). split_and!; [| |done].
  - intros ref Href. destruct (Hr ref Href) as (chunks & ? & ?). exists chunks.
    split; [done|]. destruct Hp as [Hg' _]. by do 2 (eapply answer_grows; [|done]).
  - intros Hc q ->. destruct Ho as (q' & [= <-] & Hk).
    rewrite (tmp_of_grows _ _ _ (proj1 Hp)), (tmp_of_grows _ _ _ Hg).
    unfold drop_app_sink. simpl. unfold fs_drop. simpl.
    destruct (sink_committed k) eqn:Hcom; simpl.
    + rewrite Hf by done. rewrite <- Hk. by apply Ht.
    + destruct (remove_file_ok _ _) as [b' r'] eqn:Hrm.
      apply remove_file_ok_inv in Hrm as (_ & _ & Hq). destruct (Hq (Hcalm Hc)) as [_ Hfs].
      simpl. rewrite Hfs, Hk. apply lookup_delete_eq.
Qed.

Lemma body_safe random enc z0 body o p :
  (external_failure random body → cause) →
  aead_start (enc_cek enc) (enc_nonce enc) = Some (enc_inner enc) →
  zstd_new ZSTD_LEVEL = Some z0 → holding [] o p →
  safe_pub (λ o r p, tidy p ∧ (∀ ref, r = Ok ref →
      ∃ chunks, body = Ok <$> chunks ∧ answer p.1 (concat chunks) ref) ∧ blamed r) o
    (publish_body enc z0 body) p.
Proof.
  intros Hcause Henc Hz0 Hh.
  assert (∀ a c, aead_update a c = None → cause) as Hupd
    by (intros a c ?; apply Hcause; unfold external_failure; eauto 10).
  assert (∀ a, aead_finalize a = None → cause) as Hfin
    by (intros a ?; apply Hcause; unfold external_failure; eauto 10).
  assert (∀ z c, zstd_write z c = None → cause) as Hzw
    by (intros z c ?; apply Hcause; unfold external_failure; eauto 10).
  assert (∀ z, zstd_finish z = None → cause) as Hzf
    by (intros z ?; apply Hcause; unfold external_failure; eauto 10).
  assert (∀ (e : AppError) p, lost p → tidy p ∧ (∀ ref, Err e = Ok ref →
      ∃ chunks, body = Ok <$> chunks ∧ answer p.1 (concat chunks) ref) ∧
      blamed (Err e : result AppError ArtifactRef)) as Hlost
    by (intros e p1 [? Hc]; split_and!; [done..|intros Hu ? _; auto]).
  apply safe_bind.
  eapply safe_mono with (Q := λ o r p, match r with
    | Ok pub => ∃ chunks ct, body = Ok <$> chunks ∧ holding ct o p ∧
        progress enc z0 chunks pub ct
    | Err _ => lost p end).
  - intros o1 [pub|e] p1; [|apply Hlost]. intros (chunks & ct & Hb & Hh1 & Hpr).
    pose proof Hpr as (_ & _ & _ & _ & _ & Hsz).
    apply safe_bind. eapply safe_mono; [|by apply (finish_safe enc z0 chunks pub ct)].
    intros o2 [[inner outer]|e] p2; [|apply Hlost].
    intros (ct2 & -> & -> & Hop & Hh2). rewrite Hsz.
    eapply safe_mono; [|by apply (record_safe ct2)].
    intros o3 r p3 (Ht & Hr & Hbl). split_and!; [done| |done]. intros ref Href. exists chunks. auto.
  - apply (safe_fold (rely_own frame owns) (guar_own promise owns) _
      (λ dn pub o p, ∃ chunks ct, dn = Ok <$> chunks ∧ holding ct o p ∧
        progress enc z0 chunks pub ct) (λ _ _ p, lost p)).
    + intros dn x rest pub o1 p1 Hbody (chunks & ct & -> & Hh1 & Hpr).
      assert (∀ e, x = Err e → cause) as Hitem
        by (intros e ->; apply Hcause; left; exists e; rewrite <- Hbody; set_solver).
      eapply safe_mono; [|by apply (chunk_safe enc z0 chunks pub ct)].
      intros o2 [pub'|e] p2; [|done]. intros (chunk & ct' & -> & Hh2 & Hpr').
      exists (chunks ++ [chunk]), ct'. by rewrite fmap_app.
    + exists [], []. split_and!; [done|done|apply progress_start].
Qed.

(** Opening the sink. *)
Lemma create_safe q o s :
  o = Some q →
  safe frame promise (λ o r s, match r with
    | Ok k => holding [] o (s, k)
    | Err _ => calm start → False
    end) o
    (on_blobs_task (call (fs_create q))) s.
Proof.
  intros ->. apply safe_zoom_call; [intros ? ? ? _; apply promise_refl|by intros []|].
  intros s1 b r (_ & _ & Hcalm & _). unfold fs_create. unfold_act.
  unfold gets, updating. simpl.
  destruct (syscall "create" (app_blobs s1)) as [b1 r1] eqn:Hs.
  pose proof (syscall_ran _ _ _ _ Hs) as Hran. apply syscall_inv in Hs as [Hf Hq].
  destruct r1 as [[]|e]; intros [= <- <-]; exists (Some q); simpl.
  - split.
    + apply promise_own; [by destruct Hran as (? & ? & ?)|]. intros n Hn. simpl. rewrite Hf.
      apply lookup_insert_ne, not_eq_sym. by apply Hn.
    + exists q. unfold tmp_of. simpl. destruct Hran as (-> & _).
      split_and!; [done..|]. apply lookup_insert_eq.
  - split; [by apply promise_files|]. intros Hc. destruct (Hq (Hcalm Hc)). done.
Qed.

Lemma begin_safe s :
  safe frame promise (λ o r s, match r with
    | Ok k => holding [] o (s, k)
    | Err _ => calm start → False
    end) None (on_blobs_task begin_task) s.
Proof.
  assert (∀ o (s s' : App), frame o s s' → promise o s' o s') as Hrefl
    by (intros; apply promise_refl).
  assert (∀ s : App, set_blobs (app_blobs s) s = s) as Hset by by intros [].
  apply safe_zoom_bind. apply safe_zoom_call; [done..|].
  intros s1 b r (_ & _ & Hcalm & _) Hs. exists None.
  pose proof (syscall_ran _ _ _ _ Hs). apply syscall_inv in Hs as [? Hq].
  split; [by apply promise_files|]. destruct r as [[]|e]; cbn [map_err];
    [|intros Hc; by destruct (Hq (Hcalm Hc))].
  apply safe_zoom_bind. apply safe_zoom_call; [done..|].
  intros s2 b2 [q|e] _ Hd; [|done]. exists (Some q).
  destruct (promise_draw _ _ _ Hd) as [Hp _]. split; [done|]. cbn [map_err].
  by apply create_safe.
Qed.

Lemma publish_safe random body s :
  (external_failure random body → cause) →
  safe frame promise (served body) None (publish_task random body) s.
Proof.
  intros Hcause.
  assert (∀ (e : AppError) (s : App), cause → served body None (Err e) s) as Hfail
    by (intros e s0 Hc; split_and!; [done..|by intros _ ? _]).
  apply safe_ok_or.
  { intros Hn. apply Hfail, Hcause. by right; left. }
  intros enc Henc. apply safe_ok_or.
  { intros Hn. apply Hfail, Hcause. by do 2 right; left. }
  intros z0 Hz0.
  assert (aead_start (enc_cek enc) (enc_nonce enc) = Some (enc_inner enc)) as Hstart.
  { unfold encryptor_new in Henc. destruct random as [[cek nonce]|]; [|done]. simpl in Henc.
    destruct (aead_start cek nonce) eqn:Ha; [|done]. simpl in Henc. by simplify_eq/=. }
  apply safe_bind. eapply safe_mono; [|apply begin_safe].
  intros o [k|e] s1; 
    [|by intros Hn; split_and!; [done|intros []%Hn|intros [[]%Hn _]]]. intros Hh.
  apply (safe_owning frame promise _ owns owns_frame owns_drop);
    [apply plain_body|by apply holding_owns in Hh|].
  eapply safe_mono; [|by apply (body_safe random)].
  intros o2 r p (Ht & Hr & Hbl) Ho s' Hfr. by eapply drop_served.
Qed.
End rely.

(** * Properties *)

Section properties.
Context `{HexCodec, Sha256, StreamAead, Zstd}.
Context {I P G : Type} `{ArtifactIndex I, !ArtifactIndexSpec I}.
Abbreviation App := (AppState Fs I P G).
Abbreviation request := (option (array CEK_LEN * array NONCE_LEN) *
  list (result string (list byte)))%type.
Implicit Types (s : App) (requests : list request).

(** The requests being served, each at its start. *)
Definition serve requests : list (thread App (result AppError ArtifactRef)) :=
  (λ q, Running (publish_task q.1 q.2)) <$> requests.

(** The counter of the staging names does not wrap while they are served. *)
Definition numbered requests s : Prop :=
  (0 ≤ fs_temp_seq (app_blobs s) ∧
   fs_temp_seq (app_blobs s) + Z.of_nat (length requests) < two64)%Z.

(** What a request is answered, whatever the others do: it fails only for a reason
    of its own. *)
Definition promised s (q : request) : option Z → result AppError ArtifactRef → App → Prop :=
  served s (external_failure q.1 q.2) q.2.

Lemma owned_start requests s :
  hub_ok s → numbered requests s → owned s (replicate (length requests) None) s.
Proof.
  intros Hok [Hnn Hcap]. assert (∀ q : Z, Some q ∉ replicate (length requests) None) as Hno
    by (intros q [? _]%elem_of_replicate; done).
  split; [done|]. split; [by apply grows_refl|]. split; [|split; [|split; [done|split]]].
  - intros i j q Hi. apply list_elem_of_lookup_2 in Hi. by apply Hno in Hi.
  - intros q Hq. by apply Hno in Hq.
  - rewrite filter_all, length_replicate; [done|]. by apply Forall_replicate.
  - done.
Qed.

Lemma safe_start requests s :
  safe_pool (frame s) promise (promised s <$> requests)
    (replicate (length requests) None) (serve requests, s).
Proof.
  split; [unfold serve; cbn [fst]; by rewrite length_replicate, length_fmap|].
  split; [unfold serve; cbn [fst]; by rewrite !length_fmap|].
  intros i Q o t HQ Ho Ht. cbn [fst] in Ht. apply lookup_replicate in Ho as [-> _].
  unfold serve in Ht. rewrite list_lookup_fmap in HQ. rewrite list_lookup_fmap in Ht.
  destruct (requests !! i) as [[random body]|]; simplify_eq/=. by apply publish_safe.
Qed.

Lemma publishes_safe requests s0 ts s :
  hub_ok s0 → numbered requests s0 → rtc pool_step (serve requests, s0) (ts, s) →
  ∃ os, owned s0 os s ∧
    safe_pool (frame s0) promise (promised s0 <$> requests) os (ts, s).
Proof.
  intros Hok Hn Hsteps.
  apply (safe_pool_steps (frame s0) promise (frame_trans s0) (λ o s s' _, promise_refl o s')
    (owned s0) (owned_step s0) (frame_refl s0) (promised s0 <$> requests)
    _ _ (replicate (length requests) None)) in Hsteps; [done|..].
  - apply Forall_fmap, Forall_true. intros [random body]. apply served_stable.
  - by apply owned_start.
  - apply safe_start.
Qed.


(** C1: whatever publishes run concurrently, however their system calls,
    statements and uploads interleave, fail or are cancelled, the hub stays
    consistent (every blob at its hash, every indexed artifact backed by a stored
    blob that opens under its key), nothing stored or indexed is ever lost, and
    every publish that succeeded answers with the hash of its whole upload, which is
    indexed, and with a stored blob: the indexed one, or its own when another
    publish of the same bytes was indexed in the meantime. *)
Theorem publishes_interleave requests s0 ts s
    (Hok : hub_ok s0) (Hn : numbered requests s0)
    (Hsteps : rtc pool_step (serve requests, s0) (ts, s)) :
  hub_ok s ∧ grows s0 s ∧
  ∀ i random body ref, requests !! i = Some (random, body) →
    ts !! i = Some (Running (Ready (Ok ref))) →
    ∃ chunks, body = Ok <$> chunks ∧ answer s (concat chunks) ref.
Proof.
  destruct (publishes_safe requests s0 ts s Hok Hn Hsteps)
    as (os & (Hok' & Hg & _) & Hlo & HlQ & Hsafe).
  split; [done|]. split; [done|]. intros i random body ref Hq Ht.
  destruct (lookup_lt_is_Some_2 os i) as [o Ho].
  { rewrite Hlo. by eapply lookup_lt_Some. }
  destruct (Hsafe i (promised s0 (random, body)) o (Running (Ready (Ok ref)))) as [Hr _];
    [|done..|].
  - rewrite list_lookup_fmap, Hq. done.
  - by apply Hr.
Qed.

(** C18: concurrent publishes do not get into each other's way: when no file-system
    call fails and all of them are answered, no staging file is left but those that
    were there before, whatever the interleaving; and when no statement of the index
    fails either, one that was answered with an error failed for a reason of its own
    (its upload broke off, or a cipher, compressor or random source failed), never
    because another one had taken, truncated, renamed or removed its staging file. *)
Theorem publishes_leave_no_litter requests s0 ts s
    (Hok : hub_ok s0) (Hn : numbered requests s0) (Hcalm : calm s0)
    (Hsteps : rtc pool_step (serve requests, s0) (ts, s))
    (Hdone : ∀ t, t ∈ ts → ∃ r, t = Running (Ready r)) :
  litter (app_blobs s) ⊆ litter (app_blobs s0) ∧
  (answering s0 → ∀ i random body e, requests !! i = Some (random, body) →
    ts !! i = Some (Running (Ready (Err e))) → external_failure random body).
Proof.
  destruct (publishes_safe requests s0 ts s Hok Hn Hsteps)
    as (os & (_ & Hg & _ & _ & _ & _ & Hf) & Hlo & HlQ & Hsafe). simpl in Hlo, HlQ.
  assert (∀ i t, ts !! i = Some t → ∃ o q r, os !! i = Some o ∧ requests !! i = Some q ∧
    t = Running (Ready r) ∧ promised s0 q o r s) as Hat.
  { intros i t Ht. pose proof (lookup_lt_Some _ _ _ Ht) as Hi.
    destruct (lookup_lt_is_Some_2 os i) as [o Ho]; [by rewrite Hlo|].
    destruct (lookup_lt_is_Some_2 (promised s0 <$> requests) i) as [Q HQ]; [by rewrite HlQ|].
    destruct (Hdone t) as [r ->]; [by eapply list_elem_of_lookup_2|].
    pose proof (Hsafe i Q o _ HQ Ho Ht) as HQs. rewrite list_lookup_fmap in HQ.
    destruct (requests !! i) as [q|]; [|done]. simplify_eq/=. by exists o, q, r. }
  split.
  - intros n Hn'. apply fs_litter_elem in Hn' as [Htmp Hs]. apply fs_litter_elem.
    split; [done|]. rewrite <- Hf; [done|done|].
    intros q [i Hi]%list_elem_of_lookup ->.
    destruct (lookup_lt_is_Some_2 ts i) as [t Ht]; [rewrite <- Hlo; by eapply lookup_lt_Some|].
    destruct (Hat i t Ht) as (o & q' & r & Ho & _ & _ & _ & Hgone & _). simplify_eq.
    rewrite (Hgone Hcalm q eq_refl) in Hs. by destruct Hs.
  - intros Hans i random body e Hq Ht.
    destruct (Hat i _ Ht) as (o & q & r & _ & Hq' & Hr & _ & _ & Hbl). simplify_eq/=.
    by apply (Hbl (conj Hcalm Hans) e).
Qed.

(** No interleaving of publishes runs forever, and one that cannot go on has
    answered or dropped every request: the hub has no lock to wait for. *)
Lemma publishes_terminate requests s :
  sn pool_step (serve requests, s) ∧
  ∀ c, rtc pool_step (serve requests, s) c → nf pool_step c → settled c.
Proof. split; [apply pool_terminates|]. intros c _. apply nf_settled. Qed.
End properties.

(** * Two publishes of the same bytes *)

(** Thirteen awaits each: three to open the sink, the chunk, the footer and the
    tag, the look-up, the four of the commit, the insertion, the drop. *)
Definition twice : list (option (array CEK_LEN * array NONCE_LEN) *
    list (result string (list byte))) :=
  [(Some (fill 16 x01, fill 12 x01), [Ok [x01]]);
   (Some (fill 16 x02, fill 12 x02), [Ok [x01]])].

(** The first one looks the plaintext up, the second one runs to its end, the first
    one goes on. *)
Definition race : list (nat * nat) :=
  replicate 7 (0, 0) ++ replicate 13 (1, 0) ++ replicate 6 (0, 0).

Definition raced : option (list (thread (AppState Fs PgIndex () ())
    (result AppError ArtifactRef)) * AppState Fs PgIndex () ()) :=
  run_schedule race (serve twice, example_hub).

(** Both succeed, the index keeps the second one's blob, the first one's answer names
    a blob that no row of the index names. *)
Definition raced_apart : bool :=
  match raced with
  | Some ([Running (Ready (Ok a)); Running (Ready (Ok b))], s) =>
      bool_decide (ref_inner a = ref_inner b) &&
      bool_decide (is_Some (blob_at (app_blobs s) (ref_outer a))) &&
      match index_at (app_index s) (ref_inner a) with
      | Some e => bool_decide (entry_outer e = ref_outer b)
      | None => false
      end &&
      bool_decide (map_Forall (λ _ row,
        ok (from_str (row_outer_hash row)) ≠ Some (ref_outer a)) (pg_artifacts (app_index s)))
  | _ => false
  end.

Lemma raced_apart_inv : ∃ a b s e,
  rtc pool_step (serve twice, example_hub)
    ([Running (Ready (Ok a)); Running (Ready (Ok b))], s) ∧
  ref_inner a = ref_inner b ∧ is_Some (blob_at (app_blobs s) (ref_outer a)) ∧
  index_at (app_index s) (ref_inner a) = Some e ∧ entry_outer e = ref_outer b ∧
  ∀ h e', index_at (app_index s) h = Some e' → entry_outer e' ≠ ref_outer a.
Proof.
  assert (raced_apart = true) as Hr by (vm_compute; reflexivity).
  unfold raced_apart in Hr. destruct raced as [[ts s]|] eqn:Hraced; [|done].
  apply run_schedule_steps in Hraced.
  destruct ts as [|[[[a|]|]| |] [|[[[b|]|]| |] [|]]]; try done.
  destruct (index_at (app_index s) (ref_inner a)) as [e|] eqn:He;
    [|by rewrite andb_false_r in Hr].
  apply andb_true_iff in Hr as [[[Hin Hb]%andb_true_iff Ho]%andb_true_iff Hno].
  apply bool_decide_eq_true in Hin, Hb, Ho, Hno. exists a, b, s, e.
  split_and!; try done. intros h e' He'.
  change (pg_at (app_index s) h = Some e') in He'. unfold pg_at in He'.
  apply bind_Some in He' as (row & Hrow & Hread). apply Hno in Hrow. unfold read_row in Hread.
  destruct (from_str (row_outer_hash row)) as [outer|]; [|done]. simpl in *.
  destruct (try_into CEK_LEN _), (try_into NONCE_LEN _); simplify_eq/=. congruence.
Qed.

(** C3: "idempotent on the plaintext hash" does not survive concurrency: there is
    an interleaving of two publishes of the same bytes in which both succeed and
    the plaintext is indexed, but the two answers name different blobs: the index
    holds the second one, and the first is in no entry of it, so that it stays in the
    store and its key is recorded nowhere. *)
Theorem concurrent_publish_not_idempotent : ∃ a b s e,
  rtc pool_step (serve twice, example_hub)
    ([Running (Ready (Ok a)); Running (Ready (Ok b))], s) ∧
  ref_inner a = ref_inner b ∧ is_Some (blob_at (app_blobs s) (ref_outer a)) ∧
  ref_outer a ≠ ref_outer b ∧
  index_at (app_index s) (ref_inner a) = Some e ∧ entry_outer e = ref_outer b ∧
  ∀ h e', index_at (app_index s) h = Some e' → entry_outer e' ≠ ref_outer a.
Proof.
  destruct raced_apart_inv as (a & b & s & e & Hr & Hin & Hb & He & Ho & Hno).
  exists a, b, s, e. split_and!; [done..| |done|done|done].
  rewrite <- Ho. by apply not_eq_sym, (Hno (ref_inner a)).
Qed.

Lemma example_numbered requests :
  (Z.of_nat (length requests) < two64)%Z → numbered requests example_hub.
Proof. intros Hl. split; [done|exact Hl]. Qed.

Lemma publishes_interleave_witness : ∃ s a b,
  hub_ok example_hub ∧ numbered twice example_hub ∧
  rtc pool_step (serve twice, example_hub)
    ([Running (Ready (Ok a)); Running (Ready (Ok b))], s) ∧
  hub_ok s ∧ answer s [x01] a ∧ answer s [x01] b.
Proof.
  destruct raced_apart_inv as (a & b & s & e & Hsteps & _). exists s, a, b.
  pose proof (example_numbered twice eq_refl) as Hn.
  destruct (publishes_interleave twice example_hub _ s example_hub_ok Hn Hsteps)
    as (Hok & _ & Hans).
  split; [exact example_hub_ok|]. split; [exact Hn|]. split; [exact Hsteps|].
  split; [exact Hok|].
  assert (∀ chunks, [Ok [x01]] = Ok (E := string) <$> chunks → concat chunks = [x01]) as Hc.
  { intros [|c [|]]; try done. by intros [= <-]. }
  split.
  - destruct (Hans 0 _ _ a eq_refl eq_refl) as (chunks & Hb & Ha). by rewrite <- (Hc chunks Hb).
  - destruct (Hans 1 _ _ b eq_refl eq_refl) as (chunks & Hb & Ha). by rewrite <- (Hc chunks Hb).
Defined.

Lemma publishes_leave_no_litter_witness : ∃ s a b,
  calm example_hub ∧
  rtc pool_step (serve twice, example_hub)
    ([Running (Ready (Ok a)); Running (Ready (Ok b))], s) ∧
  answering example_hub ∧ litter (app_blobs s) ⊆ litter (app_blobs example_hub).
Proof.
  destruct raced_apart_inv as (a & b & s & e & Hsteps & _). exists s, a, b.
  assert (calm example_hub) as Hcalm by constructor.
  split; [exact Hcalm|]. split; [exact Hsteps|]. split; [constructor|].
  refine (proj1 _). apply (publishes_leave_no_litter twice example_hub _ s example_hub_ok
    (example_numbered twice eq_refl) Hcalm Hsteps).
  intros t Ht. repeat (apply elem_of_cons in Ht as [->|Ht]; [by eexists|]).
  by apply not_elem_of_nil in Ht.
Defined.
