(* ===== verification/HubDb.v ===== *)
(** Tower 2's release database (src/crates/software-tower/migrations): the
    tables with their keys, unique indexes and foreign keys, and the SQL statements
    the release handlers issue.  A table is the list of its rows; a statement fails
    when the environment says so (a lost answer may hide an applied write) or when
    it violates a constraint. *)

From S2P Require Import Prelude Ext Wire Store.

(** * Rows *)

(** A JSON document, by its text; a timestamp, by its instant. *)
Abbreviation json := string (only parsing).
Abbreviation time := Z (only parsing).

Record ComponentRow := mkComponentRow {
  cr_id : Z;
  cr_entity_path : string;
  cr_entity_kind : string;
  cr_version : string;
  cr_created_at : time;
  cr_identity_hash : option string;
}.

Record PartTableRow := mkPartTableRow {
  crp_release_id : Z;
  crp_part_id : string;
  crp_part_kind : string;
  crp_content_hash : string;
}.

Record VehicleRow := mkVehicleRow {
  vr_id : Z;
  vr_tag : string;
  vr_version : string;
  vr_created_at : time;
  vr_identity_hash : option string;
  vr_config_snapshot : option json;
}.

Record MemberRow := mkMemberRow {
  vrm_vehicle : Z;
  vrm_component : Z;
  vrm_disabled : bool;
}.

Record ChannelRow := mkChannelRow {
  ct_channel : string;
  ct_device : string;
  ct_architecture : string;
  ct_vehicle : Z;
  ct_tree_hash : string;
  ct_updated_at : time;
}.

(** [vehicle_release_targets]: every tuple a release has served. *)
Record ServedRow := mkServedRow {
  served_vehicle : Z;
  served_device : string;
  served_architecture : string;
}.

#[export] Instance ComponentRow_eq_dec : EqDecision ComponentRow.
Proof. solve_decision. Defined.
#[export] Instance PartTableRow_eq_dec : EqDecision PartTableRow.
Proof. solve_decision. Defined.
#[export] Instance VehicleRow_eq_dec : EqDecision VehicleRow.
Proof. solve_decision. Defined.
#[export] Instance MemberRow_eq_dec : EqDecision MemberRow.
Proof. solve_decision. Defined.
#[export] Instance ChannelRow_eq_dec : EqDecision ChannelRow.
Proof. solve_decision. Defined.
#[export] Instance ServedRow_eq_dec : EqDecision ServedRow.
Proof. solve_decision. Defined.

(** * The database *)

(** The tables a transaction restores. *)
Record Tables := mkTables {
  t_components : list ComponentRow;
  t_parts : list PartTableRow;
  t_vehicles : list VehicleRow;
  t_members : list MemberRow;
  t_channels : list ChannelRow;
  t_served : list ServedRow;
}.

(** With the two [BIGSERIAL] sequences (never rolled back), the time [now()]
    returns and the faults ahead: [Some 0] a statement that is not applied,
    [Some (S _)] one that is applied but whose answer is lost. *)
Record HubDb := mkHubDb {
  db_tables : Tables;
  db_component_seq : Z;
  db_vehicle_seq : Z;
  db_now : time;
  db_faults : faults;
}.

Definition set_tables (t : Tables) (s : HubDb) : HubDb :=
  mkHubDb t (db_component_seq s) (db_vehicle_seq s) (db_now s) (db_faults s).

Definition set_faults (fs : faults) (s : HubDb) : HubDb :=
  mkHubDb (db_tables s) (db_component_seq s) (db_vehicle_seq s) (db_now s) fs.

(** The order in which a [SELECT] without [ORDER BY] returns its rows is the
    database's choice. *)
Class RowOrder := {
  scan : ∀ {A : Type}, list A → list A;
  scan_Permutation {A} (l : list A) : scan l ≡ₚ l;
}.

(** One statement: its effect on the database and its outcome. *)
Definition statement {A} (f : HubDb → HubDb * result string A) : act HubDb string A := λ s,
  let '(flt, fs') := next_fault (db_faults s) in
  let s := set_faults fs' s in
  match flt with
  | None => f s
  | Some O => (s, Err "connection lost")
  | Some (S _) => ((f s).1, Err "connection lost")
  end.

(** A statement that only reads. *)
Definition query {A} (f : Tables → result string A) : act HubDb string A :=
  statement (λ s, (s, f (db_tables s))).

(** [pool.begin() ... tx.commit()]: an error before the commit rolls the tables
    back. *)
Definition transaction {A} (body : act HubDb string A) : act HubDb string A := λ s0,
  match statement (λ s, (s, Ok ())) s0 with
  | (s, Err e) => (s, Err e)
  | (s, Ok _) =>
      match body s with
      | (s', Err e) => (set_tables (db_tables s0) s', Err e)
      | (s', Ok a) =>
          match next_fault (db_faults s') with
          | (None, fs') => (set_faults fs' s', Ok a)
          | (Some O, fs') =>
              (set_tables (db_tables s0) (set_faults fs' s'), Err "connection lost")
          | (Some (S _), fs') => (set_faults fs' s', Err "connection lost")
          end
      end
  end.

(** [fetch_one]. *)
Definition fetch_one {A} (rows : list A) : result string A :=
  match rows with
  | [] => Err "no rows returned"
  | r :: _ => Ok r
  end.

(** * Statements on releases *)

(** [SELECT ... FROM component_releases WHERE entity_path = $1 AND
    identity_hash = $2]; at most one row, by the unique index. *)
Definition select_component_by_identity (entity_path identity : string) :
    act HubDb string (option ComponentRow) :=
  query (λ t, Ok (head (filter (λ r, cr_entity_path r = entity_path ∧
    cr_identity_hash r = Some identity) (t_components t)))).

(** [INSERT INTO component_releases ... RETURNING ...]: the sequence advances
    even when the unique index refuses the row. *)
Definition insert_component (entity_path entity_kind version identity : string) :
    act HubDb string ComponentRow :=
  statement (λ s,
    let t := db_tables s in
    let id := db_component_seq s in
    let row := mkComponentRow id entity_path entity_kind version (db_now s)
      (Some identity) in
    let s := mkHubDb t (id + 1) (db_vehicle_seq s) (db_now s) (db_faults s) in
    if decide (Exists (λ r, cr_id r = id ∨ (cr_entity_path r = entity_path ∧
                 cr_identity_hash r = Some identity)) (t_components t))
    then (s, Err "unique violation")
    else (set_tables (mkTables (t_components t ++ [row]) (t_parts t) (t_vehicles t)
            (t_members t) (t_channels t) (t_served t)) s, Ok row)).

(** [INSERT INTO component_release_parts]. *)
Definition insert_part (row : PartTableRow) : act HubDb string () :=
  statement (λ s,
    let t := db_tables s in
    if decide (Exists (λ r, crp_release_id r = crp_release_id row ∧
                 crp_part_id r = crp_part_id row) (t_parts t))
    then (s, Err "unique violation")
    else if decide (Exists (λ r, cr_id r = crp_release_id row) (t_components t))
    then (set_tables (mkTables (t_components t) (t_parts t ++ [row]) (t_vehicles t)
            (t_members t) (t_channels t) (t_served t)) s, Ok ())
    else (s, Err "foreign key violation")).

(** [SELECT ... FROM vehicle_releases WHERE tag = $1 AND identity_hash = $2]. *)
Definition select_vehicle_by_identity (tag identity : string) :
    act HubDb string (option VehicleRow) :=
  query (λ t, Ok (head (filter (λ r, vr_tag r = tag ∧
    vr_identity_hash r = Some identity) (t_vehicles t)))).

(** [UPDATE ... SET config_snapshot = COALESCE(config_snapshot, $2) WHERE id]. *)
Definition coalesce_config_snapshot (id : Z) (config : option json) :
    act HubDb string () :=
  statement (λ s,
    let t := db_tables s in
    let update r :=
      if decide (vr_id r = id)
      then mkVehicleRow (vr_id r) (vr_tag r) (vr_version r) (vr_created_at r)
             (vr_identity_hash r)
             (match vr_config_snapshot r with Some c => Some c | None => config end)
      else r in
    (set_tables (mkTables (t_components t) (t_parts t) (update <$> t_vehicles t)
       (t_members t) (t_channels t) (t_served t)) s, Ok ())).

(** [INSERT INTO vehicle_releases ... RETURNING ...]. *)
Definition insert_vehicle (tag version identity : string) (config : option json) :
    act HubDb string VehicleRow :=
  statement (λ s,
    let t := db_tables s in
    let id := db_vehicle_seq s in
    let row := mkVehicleRow id tag version (db_now s) (Some identity) config in
    let s := mkHubDb t (db_component_seq s) (id + 1) (db_now s) (db_faults s) in
    if decide (Exists (λ r, vr_id r = id ∨ (vr_tag r = tag ∧
                 vr_identity_hash r = Some identity)) (t_vehicles t))
    then (s, Err "unique violation")
    else (set_tables (mkTables (t_components t) (t_parts t) (t_vehicles t ++ [row])
            (t_members t) (t_channels t) (t_served t)) s, Ok row)).

(** [INSERT INTO vehicle_release_members]: both foreign keys are checked. *)
Definition insert_member (row : MemberRow) : act HubDb string () :=
  statement (λ s,
    let t := db_tables s in
    if decide (Exists (λ r, vrm_vehicle r = vrm_vehicle row ∧
                 vrm_component r = vrm_component row) (t_members t))
    then (s, Err "unique violation")
    else if decide (Exists (λ r, vr_id r = vrm_vehicle row) (t_vehicles t) ∧
                    Exists (λ r, cr_id r = vrm_component row) (t_components t))
    then (set_tables (mkTables (t_components t) (t_parts t) (t_vehicles t)
            (t_members t ++ [row]) (t_channels t) (t_served t)) s, Ok ())
    else (s, Err "foreign key violation")).

(** [SELECT EXISTS(SELECT 1 FROM vehicle_releases WHERE id = $1)]. *)
Definition vehicle_exists (id : Z) : act HubDb string bool :=
  query (λ t, Ok (bool_decide (Exists (λ r, vr_id r = id) (t_vehicles t)))).

(** * Statements on channels *)

(** [INSERT INTO vehicle_release_targets ... ON CONFLICT DO NOTHING]. *)
Definition insert_served (row : ServedRow) : act HubDb string () :=
  statement (λ s,
    let t := db_tables s in
    if decide (row ∈ t_served t) then (s, Ok ())
    else if decide (Exists (λ r, vr_id r = served_vehicle row) (t_vehicles t))
    then (set_tables (mkTables (t_components t) (t_parts t) (t_vehicles t)
            (t_members t) (t_channels t) (t_served t ++ [row])) s, Ok ())
    else (s, Err "foreign key violation")).

(** The primary key of [channel_targets]. *)
Definition same_channel_key (a b : ChannelRow) : Prop :=
  ct_channel a = ct_channel b ∧ ct_device a = ct_device b ∧
  ct_architecture a = ct_architecture b.

#[export] Instance same_channel_key_dec a b : Decision (same_channel_key a b).
Proof. unfold same_channel_key. apply _. Defined.

(** [INSERT INTO channel_targets ... ON CONFLICT DO UPDATE]. *)
Definition upsert_channel (row : ChannelRow) : act HubDb string () :=
  statement (λ s,
    let t := db_tables s in
    if decide (Exists (λ r, vr_id r = ct_vehicle row) (t_vehicles t))
    then
      let channels :=
        if decide (Exists (same_channel_key row) (t_channels t))
        then (λ r, if decide (same_channel_key row r) then row else r) <$> t_channels t
        else t_channels t ++ [row] in
      (set_tables (mkTables (t_components t) (t_parts t) (t_vehicles t)
         (t_members t) channels (t_served t)) s, Ok ())
    else (s, Err "foreign key violation")).

(** The exact lookup, by primary key. *)
Definition select_channel_exact (channel device architecture : string) :
    act HubDb string (option Z) :=
  query (λ t, Ok (ct_vehicle <$> head (filter (λ r, ct_channel r = channel ∧
    ct_device r = device ∧ ct_architecture r = architecture) (t_channels t)))).

(** [SELECT vehicle_release_id FROM channel_targets WHERE channel = $1]. *)
Definition select_channel_all `{RowOrder} (channel : string) : act HubDb string (list Z) :=
  query (λ t, Ok (scan (ct_vehicle <$> filter (λ r, ct_channel r = channel)
    (t_channels t)))).

(** [SELECT EXISTS(... FROM vehicle_release_targets ...)]. *)
Definition served_exists (id : Z) (device architecture : string) : act HubDb string bool :=
  query (λ t, Ok (bool_decide (mkServedRow id device architecture ∈ t_served t))).

(** [channel_targets ct JOIN vehicle_releases v ON v.id = ct.vehicle_release_id]. *)
Definition join_channels (t : Tables) : list (ChannelRow * VehicleRow) :=
  c ← t_channels t;
  v ← filter (λ v, vr_id v = ct_vehicle c) (t_vehicles t);
  [(c, v)].

(** * Statements on histories *)

(** [WHERE ($n::text IS NULL OR column = $n)]. *)
Definition optional_filter (sel : option string) (column : string) : bool :=
  match sel with None => true | Some x => bool_decide (column = x) end.

(** [ORDER BY created_at DESC, id DESC]. *)
Definition newest_first (a b : time * Z) : bool :=
  bool_decide (b.1 < a.1 ∨ (a.1 = b.1 ∧ b.2 ≤ a.2))%Z.

Definition select_components (sel : option string) : act HubDb string (list ComponentRow) :=
  query (λ t, Ok (sort_by (λ a b, newest_first (cr_created_at a, cr_id a)
      (cr_created_at b, cr_id b))
    (filter (λ r, optional_filter sel (cr_entity_path r)) (t_components t)))).

Definition select_vehicles (sel : option string) : act HubDb string (list VehicleRow) :=
  query (λ t, Ok (sort_by (λ a b, newest_first (vr_created_at a, vr_id a)
      (vr_created_at b, vr_id b))
    (filter (λ r, optional_filter sel (vr_tag r)) (t_vehicles t)))).

(** [... WHERE release_id = $1 ORDER BY part_id]; the text order of the column's
    collation is taken to be bytewise. *)
Definition select_parts_sorted (id : Z) : act HubDb string (list PartTableRow) :=
  query (λ t, Ok (sort_on crp_part_id (filter (λ r, crp_release_id r = id) (t_parts t)))).

(** [... WHERE vehicle_release_id = $1 ORDER BY component_release_id]. *)
Definition select_members_sorted (id : Z) : act HubDb string (list Z) :=
  query (λ t, Ok (sort_by Z.leb
    (vrm_component <$> filter (λ r, vrm_vehicle r = id) (t_members t)))).

(** * Statements of the tree resolution, none of them ordered *)

Definition select_members `{RowOrder} (id : Z) : act HubDb string (list MemberRow) :=
  query (λ t, Ok (scan (filter (λ r, vrm_vehicle r = id) (t_members t)))).

Definition select_component (id : Z) : act HubDb string ComponentRow :=
  query (λ t, fetch_one (filter (λ r, cr_id r = id) (t_components t))).

Definition select_parts `{RowOrder} (id : Z) : act HubDb string (list PartTableRow) :=
  query (λ t, Ok (scan (filter (λ r, crp_release_id r = id) (t_parts t)))).

(** * Lemmas: what a statement that succeeded did *)

Definition add_component (r : ComponentRow) (t : Tables) : Tables :=
  mkTables (t_components t ++ [r]) (t_parts t) (t_vehicles t) (t_members t)
    (t_channels t) (t_served t).
Definition add_parts (l : list PartTableRow) (t : Tables) : Tables :=
  mkTables (t_components t) (t_parts t ++ l) (t_vehicles t) (t_members t)
    (t_channels t) (t_served t).
Definition add_vehicle (r : VehicleRow) (t : Tables) : Tables :=
  mkTables (t_components t) (t_parts t) (t_vehicles t ++ [r]) (t_members t)
    (t_channels t) (t_served t).
Definition add_members (l : list MemberRow) (t : Tables) : Tables :=
  mkTables (t_components t) (t_parts t) (t_vehicles t) (t_members t ++ l)
    (t_channels t) (t_served t).

Lemma add_parts_nil t : add_parts [] t = t.
Proof. unfold add_parts. rewrite app_nil_r. by destruct t. Qed.

Lemma add_parts_app l1 l2 t : add_parts l2 (add_parts l1 t) = add_parts (l1 ++ l2) t.
Proof. unfold add_parts. simpl. by rewrite app_assoc. Qed.

Lemma add_members_nil t : add_members [] t = t.
Proof. unfold add_members. rewrite app_nil_r. by destruct t. Qed.

Lemma add_members_app l1 l2 t : add_members l2 (add_members l1 t) = add_members (l1 ++ l2) t.
Proof. unfold add_members. simpl. by rewrite app_assoc. Qed.

(** The database but its tables and faults. *)
Definition same_meta (s s' : HubDb) : Prop :=
  db_component_seq s' = db_component_seq s ∧ db_vehicle_seq s' = db_vehicle_seq s ∧
  db_now s' = db_now s.

Lemma statement_Ok {A} (f : HubDb → HubDb * result string A) s s' a :
  statement f s = (s', Ok a) → ∃ fs, f (set_faults fs s) = (s', Ok a) ∧
    (no_faults (db_faults s) → no_faults fs).
Proof.
  unfold statement. intros Hs. pose proof (no_faults_next (db_faults s)) as Hq.
  destruct (next_fault _) as [[[|n]|] fs]; simplify_eq. exists fs. naive_solver.
Qed.

Lemma query_inv {A} (f : Tables → result string A) s s' r :
  query f s = (s', r) →
  db_tables s' = db_tables s ∧ same_meta s s' ∧
  (∀ a, r = Ok a → f (db_tables s) = Ok a) ∧
  (no_faults (db_faults s) → no_faults (db_faults s') ∧ r = f (db_tables s)).
Proof.
  unfold query, statement, same_meta. pose proof (no_faults_next (db_faults s)) as Hq.
  destruct (next_fault _) as [[[|n]|] fs]; intros; simplify_eq/=; naive_solver.
Qed.

Lemma query_Ok {A} (f : Tables → result string A) s s' a :
  query f s = (s', Ok a) →
  db_tables s' = db_tables s ∧ same_meta s s' ∧ f (db_tables s) = Ok a.
Proof. intros (Ht & Hm & Ha & _)%query_inv. auto. Qed.

Lemma insert_component_Ok path kind version identity s s' row :
  insert_component path kind version identity s = (s', Ok row) →
  row = mkComponentRow (db_component_seq s) path kind version (db_now s) (Some identity) ∧
  db_tables s' = add_component row (db_tables s) ∧
  ¬ Exists (λ r, cr_id r = db_component_seq s) (t_components (db_tables s)).
Proof.
  intros (fs & Hf & _)%statement_Ok. simpl in Hf. case_decide as Hd; simplify_eq/=.
  split_and!; [done|done|]. intros Hex. apply Hd. by eapply Exists_impl; [|exact Hex]; auto.
Qed.

Lemma insert_part_Ok row s s' u :
  insert_part row s = (s', Ok u) →
  db_tables s' = add_parts [row] (db_tables s) ∧ same_meta s s'.
Proof.
  intros (fs & Hf & _)%statement_Ok. simpl in Hf. by repeat case_decide; simplify_eq/=.
Qed.

Lemma insert_vehicle_Ok tag version identity config s s' row :
  insert_vehicle tag version identity config s = (s', Ok row) →
  row = mkVehicleRow (db_vehicle_seq s) tag version (db_now s) (Some identity) config ∧
  db_tables s' = add_vehicle row (db_tables s) ∧
  ¬ Exists (λ r, vr_id r = db_vehicle_seq s) (t_vehicles (db_tables s)).
Proof.
  intros (fs & Hf & _)%statement_Ok. simpl in Hf. case_decide as Hd; simplify_eq/=.
  split_and!; [done|done|]. intros Hex. apply Hd. by eapply Exists_impl; [|exact Hex]; auto.
Qed.

Lemma insert_member_Ok row s s' u :
  insert_member row s = (s', Ok u) →
  db_tables s' = add_members [row] (db_tables s) ∧ same_meta s s'.
Proof.
  intros (fs & Hf & _)%statement_Ok. simpl in Hf. by repeat case_decide; simplify_eq/=.
Qed.

Lemma fetch_one_Ok {A} (l : list A) a : fetch_one l = Ok a ↔ head l = Some a.
Proof. destruct l; naive_solver. Qed.

(** A statement that fails changed nothing or did what it does when it succeeds. *)
Lemma transaction_inv {A} (body : act HubDb string A) s s' r :
  transaction body s = (s', r) →
  (db_tables s' = db_tables s ∧ ∃ e, r = Err e) ∨
  (∃ s1 s2 a, db_tables s1 = db_tables s ∧ same_meta s s1 ∧ body s1 = (s2, Ok a) ∧
     db_tables s' = db_tables s2 ∧ ((∃ e, r = Err e) ∨ r = Ok a)).
Proof.
  unfold transaction. destruct (statement _ s) as [s1 r1] eqn:Hb.
  assert (db_tables s1 = db_tables s ∧ same_meta s s1) as [Ht Hm].
  { unfold statement in Hb. by destruct (next_fault _) as [[[|n]|] fs]; simplify_eq/=. }
  destruct r1 as [[]|e]; [|intros; simplify_eq; left; eauto].
  destruct (body s1) as [s2 [a|e]] eqn:Hbody; [|intros; simplify_eq/=; left; eauto].
  destruct (next_fault _) as [[[|n]|] fs]; intros; simplify_eq/=; [left; by eauto|right..];
    exists s1, s2, a; by eauto 10.
Qed.

(** The tables with new channel rows. *)
Definition set_channels (channels : list ChannelRow) (served : list ServedRow)
    (t : Tables) : Tables :=
  mkTables (t_components t) (t_parts t) (t_vehicles t) (t_members t) channels served.

Lemma insert_served_Ok row s s' u :
  insert_served row s = (s', Ok u) →
  same_meta s s' ∧
  ∃ served, db_tables s' = set_channels (t_channels (db_tables s)) served (db_tables s) ∧
    row ∈ served ∧ (∀ r, r ∈ served ↔ r = row ∨ r ∈ t_served (db_tables s)).
Proof.
  intros (fs & Hf & _)%statement_Ok. simpl in Hf. case_decide as Hin; [|case_decide]; simplify_eq/=.
  - split; [done|]. exists (t_served (db_tables s)). split_and!; [by destruct s as [[]]|done|].
    intros r. split; [by auto|]. by intros [->|?].
  - split; [done|]. eexists. split_and!; [done|set_solver|]. intros r. set_solver.
Qed.

(** The row a channel target points at after an upsert. *)
Lemma upsert_channel_Ok row s s' u :
  upsert_channel row s = (s', Ok u) →
  same_meta s s' ∧ Exists (λ r, vr_id r = ct_vehicle row) (t_vehicles (db_tables s)) ∧
  ∃ channels, db_tables s' = set_channels channels (t_served (db_tables s)) (db_tables s) ∧
    head (filter (λ r, ct_channel r = ct_channel row ∧ ct_device r = ct_device row ∧
      ct_architecture r = ct_architecture row) channels) = Some row ∧
    (∀ r, r ∈ channels → r = row ∨ r ∈ t_channels (db_tables s)) ∧
    (∀ r, r ∈ t_channels (db_tables s) → ¬ same_channel_key row r → r ∈ channels).
Proof.
  intros (fs & Hf & _)%statement_Ok. simpl in Hf. case_decide as Hv; [|done].
  injection Hf as <-. split; [done|]. split; [done|]. eexists. split; [done|]. simpl.
  generalize (t_channels (db_tables s)) as l. intros l. case_decide as Hex.
  - split_and!.
    + clear -Hex. induction l as [|x l IH]; [by inversion Hex|]. cbn [fmap list_fmap].
      rewrite list.filter_cons. destruct (decide (same_channel_key row x)) as [Hk|Hk].
      * by rewrite decide_True.
      * rewrite decide_False by (unfold same_channel_key in Hk; naive_solver).
        apply IH. by inversion Hex.
    + intros r (x & -> & Hx)%list_elem_of_fmap. case_decide; auto.
    + intros r Hr Hk. apply list_elem_of_fmap. exists r. by rewrite decide_False.
  - split_and!; [|set_solver|set_solver].
    rewrite list.filter_app, list.filter_cons, decide_True by done.
    assert (filter (λ r, ct_channel r = ct_channel row ∧ ct_device r = ct_device row ∧
      ct_architecture r = ct_architecture row) l = []) as ->; [|done].
    clear -Hex. induction l as [|x l IH]; [done|].
    rewrite Exists_cons in Hex. rewrite list.filter_cons, decide_False; [by apply IH; tauto|].
    unfold same_channel_key in Hex. naive_solver.
Qed.

(** Queries change no table. *)
Lemma preserves_query {A} (f : Tables → result string A) (P : Tables → Prop) :
  preserves (λ s, P (db_tables s)) (query f).
Proof.
  intros s Hs. destruct (query f s) as [s' r] eqn:Hq.
  apply query_inv in Hq as (Ht & _). simpl. by rewrite Ht.
Qed.

(** A statement preserves what its effect preserves. *)
Lemma preserves_statement {A} (f : HubDb → HubDb * result string A) (P : Tables → Prop) :
  (∀ s, P (db_tables s) → P (db_tables (f s).1)) →
  preserves (λ s, P (db_tables s)) (statement f).
Proof.
  intros Hf s Hs. unfold statement.
  destruct (next_fault _) as [[[|n]|] fs]; simpl; [done|by apply Hf..].
Qed.

Lemma preserves_transaction {A} (body : act HubDb string A) (P : Tables → Prop) :
  preserves (λ s, P (db_tables s)) body →
  preserves (λ s, P (db_tables s)) (transaction body).
Proof.
  intros Hb s Hs. destruct (transaction body s) as [s' r] eqn:Htx.
  apply transaction_inv in Htx as [(Ht & _)|(s1 & s2 & a & Ht1 & _ & Hbody & Ht & _)];
    simpl; rewrite Ht; [done|].
  rewrite <- Ht1 in Hs. specialize (Hb s1 Hs). by rewrite Hbody in Hb.
Qed.

#[export] Hint Resolve preserves_query preserves_statement preserves_transaction : preserve.
