(* ===== verification/Releases.v ===== *)
(** Release and channel storage of Tower 2
    (src/crates/software-tower/src/releases.rs): content identities, the creation
    of component and vehicle releases, channel targets and the resolution of a
    target to its desired tree. *)

From S2P Require Import Prelude Ext Wire Store Content HubDb.

(** * Request and response bodies *)

Record NewPart := mkNewPart {
  np_id : string;
  np_kind : string;
  np_content : ContentHash;
}.

Record NewComponentRelease := mkNewComponentRelease {
  nc_entity_path : string;
  nc_entity_kind : string;
  nc_version : string;
  nc_parts : list NewPart;
}.

Record NewVehicleRelease := mkNewVehicleRelease {
  nv_tag : string;
  nv_version : string;
  nv_members : list Z;
  nv_disabled_members : list Z;
  nv_config_snapshot : option json;
}.

Record SetChannelTarget := mkSetChannelTarget {
  sc_channel : string;
  sc_device : string;
  sc_architecture : string;
  sc_vehicle_release_id : Z;
}.

Record TargetSelector := mkTargetSelector {
  sel_channel : option string;
  sel_device : option string;
  sel_architecture : option string;
  sel_vehicle_release_id : option Z;
  sel_tree_hash : option string;
}.

Record ReleaseRef := mkReleaseRef {
  rr_id : Z;
  rr_version : string;
  rr_created_at : time;
  rr_reused : bool;
}.

Record VehicleRef := mkVehicleRef {
  vref_id : Z;
  vref_tag : string;
  vref_version : string;
  vref_created_at : time;
}.

Record ChannelTargetState := mkChannelTargetState {
  cts_channel : string;
  cts_device : option string;
  cts_architecture : option string;
  cts_vehicle : option VehicleRef;
  cts_target_release : option VehicleRef;
  cts_tree_hash : option string;
  cts_config_snapshot : option json;
}.

Record ChannelTargetRef := mkChannelTargetRef {
  ctr_channel : string;
  ctr_device : string;
  ctr_architecture : string;
  ctr_vehicle_release_id : Z;
  ctr_tree_hash : string;
}.

Record HistoryFilter := mkHistoryFilter {
  hf_entity_path : option string;
  hf_tag : option string;
}.

Record PartRow := mkPartRow {
  pr_id : string;
  pr_kind : string;
  pr_content_hash : string;
}.

Record ComponentReleaseRow := mkComponentReleaseRow {
  crr_id : Z;
  crr_entity_path : string;
  crr_entity_kind : string;
  crr_version : string;
  crr_identity_hash : option string;
  crr_created_at : time;
  crr_parts : list PartRow;
}.

Record VehicleReleaseRow := mkVehicleReleaseRow {
  vrr_id : Z;
  vrr_tag : string;
  vrr_version : string;
  vrr_identity_hash : option string;
  vrr_created_at : time;
  vrr_members : list Z;
}.

(** [ReleaseRef::from_row], for the rows of the two release tables. *)
Definition component_ref (r : ComponentRow) (reused : bool) : ReleaseRef :=
  mkReleaseRef (cr_id r) (cr_version r) (cr_created_at r) reused.
Definition vehicle_ref (r : VehicleRow) (reused : bool) : ReleaseRef :=
  mkReleaseRef (vr_id r) (vr_version r) (vr_created_at r) reused.

(** The [VehicleRef] of a row. *)
Definition target_ref (r : VehicleRow) : VehicleRef :=
  mkVehicleRef (vr_id r) (vr_tag r) (vr_version r) (vr_created_at r).

(** * Identities *)

(** Sorted, consecutive duplicates removed, as [sort_unstable] then [dedup]. *)
Fixpoint dedup (l : list Z) : list Z :=
  match l with
  | x :: (y :: _) as l' => if (x =? y)%Z then dedup l' else x :: dedup l'
  | _ => l
  end.

Definition sorted_dedup (l : list Z) : list Z := dedup (sort_by Z.leb l).

(** [iter().map(to_string).collect().join(",")]. *)
Definition join_ids (l : list Z) : string := join "," (pretty <$> l).

(** The text [vehicle_identity] hashes.  [binary_search] on the sorted members is
    membership. *)
Definition vehicle_identity_text (members disabled_members : list Z) : string :=
  let sorted := sorted_dedup members in
  let disabled := sorted_dedup (filter (λ d, d ∈ sorted) disabled_members) in
  join_ids sorted +:+
  match disabled with
  | [] => ""
  | _ => nl +:+ "disabled:" +:+ join_ids disabled
  end.

Section identities.
Context `{HexCodec, Sha256}.

(** [vehicle_identity]. *)
Definition vehicle_identity (members disabled_members : list Z) : string :=
  to_prefixed (hash_of (as_bytes (vehicle_identity_text members disabled_members))).

Definition part_identity_text (p : NewPart) : string :=
  np_id p +:+ nul +:+ np_kind p +:+ nul +:+ to_prefixed (np_content p) +:+ nl.

(** The text [component_identity] hashes. *)
Definition component_identity_text (entity_kind : string) (parts : list NewPart) : string :=
  entity_kind +:+ nl +:+ concat_str (part_identity_text <$> sort_on np_id parts).

(** [component_identity]. *)
Definition component_identity (entity_kind : string) (parts : list NewPart) : string :=
  to_prefixed (hash_of (as_bytes (component_identity_text entity_kind parts))).

(** The text [tree_hash] hashes. *)
Definition tree_hash_text (tree : Tree) : string :=
  concat_str ((λ '(path, entity),
    path +:+ nl +:+
    (if entity_disabled entity then "disabled" +:+ nl else "") +:+
    concat_str ((λ p, part_id p +:+ nul +:+ to_prefixed (part_content p) +:+ nl)
      <$> sort_on part_id (entity_parts entity))) <$> entries tree).

(** [tree_hash]. *)
Definition tree_hash (tree : Tree) : string :=
  to_prefixed (hash_of (as_bytes (tree_hash_text tree))).
End identities.

(** * Resolution *)

Section resolution.
Context `{HexCodec, Sha256, RowOrder}.

(** [parse_stored_hash]. *)
Definition parse_stored_hash (content_hash : string) (vehicle_release_id
    component_release_id : Z) (entity_path part_id : string) :
    result string ContentHash :=
  map_err (λ _,
    "vehicle release " +:+ pretty vehicle_release_id +:+ ", component release " +:+
    pretty component_release_id +:+ " (" +:+ entity_path +:+ "), part '" +:+ part_id +:+
    "': malformed content hash '" +:+ content_hash +:+ "'") (from_str content_hash).

(** The part of one row. *)
Definition resolve_part (vehicle_id rid : Z) (path : string) (p : PartTableRow) :
    result string Part :=
  content ← parse_stored_hash (crp_content_hash p) vehicle_id rid path (crp_part_id p);
  mret (mkPart (crp_part_kind p) (crp_part_id p) content).

(** One round of the member loop. *)
Definition resolve_member (vehicle_id : Z) (tree : Tree) (m : MemberRow) :
    act HubDb string Tree :=
  let rid := vrm_component m in
  row ← select_component rid;
  let path := cr_entity_path row in
  parts ← select_parts rid;
  parts ← fold_act (λ acc p, part ← lift (resolve_part vehicle_id rid path p);
                             mret (acc ++ [part])) parts [];
  mret (<[path := mkEntity (cr_entity_kind row) (Some (cr_version row)) None parts
                    (vrm_disabled m) None]> tree).

(** [resolve_members_to_tree]. *)
Definition resolve_members_to_tree (vehicle_id : Z) : act HubDb string Tree :=
  members ← select_members vehicle_id;
  fold_act (resolve_member vehicle_id) members ∅.

(** [channel_target_vehicle]. *)
Definition channel_target_vehicle (channel : string) (device architecture : option string) :
    act HubDb string (option Z) :=
  match device, architecture with
  | Some d, Some a => select_channel_exact channel d a
  | _, _ =>
      rows ← select_channel_all channel;
      mret (match rows with [v] => Some v | _ => None end)
  end.

(** [resolve_channel_target]. *)
Definition resolve_channel_target (channel : string) (device architecture : option string) :
    act HubDb string (option Tree) :=
  vehicle ← channel_target_vehicle channel device architecture;
  match vehicle with
  | None => mret None
  | Some vehicle_id => tree ← resolve_members_to_tree vehicle_id; mret (Some tree)
  end.

(** [db]: a database error is an internal error. *)
Definition db {A} (m : act HubDb string A) : act HubDb AppError A := λ s,
  let '(s', r) := m s in (s', map_err Internal r).

(** The first half of [resolve_target]: the tree of the release or channel. *)
Definition resolve_selected (selector : TargetSelector) : act HubDb AppError (option Tree) :=
  match sel_vehicle_release_id selector, sel_channel selector with
  | Some id, _ =>
      exists_ ← db (vehicle_exists id);
      if exists_ : bool
      then tree ← db (resolve_members_to_tree id); mret (Some tree)
      else mret None
  | None, Some channel =>
      db (resolve_channel_target channel (sel_device selector) (sel_architecture selector))
  | None, None => throw (BadRequest "channel or vehicle_release_id is required")
  end.

(** [resolve_target]. *)
Definition resolve_target (selector : TargetSelector) : act HubDb AppError (option Tree) :=
  tree ← resolve_selected selector;
  match sel_tree_hash selector, tree with
  | Some expected, Some t =>
      if bool_decide (tree_hash t ≠ expected)
      then throw (BadRequest "tree_hash does not match release")
      else mret tree
  | _, _ => mret tree
  end.

(** [release_matches_target]. *)
Definition release_matches_target (id : Z) (device architecture : string) :
    act HubDb string bool :=
  served_exists id device architecture.
End resolution.

(** * Handlers *)

Section handlers.
Context `{HexCodec, Sha256, RowOrder}.
Context {B I G : Type} `{ArtifactIndex I}.

Abbreviation App := (AppState B I HubDb G).

(** [let pool = s.pool()?] and the database calls on it. *)
Definition with_pool {A} (m : act HubDb AppError A) : act App AppError A := λ s,
  match pool s, app_pool s with
  | Ok d, _ =>
      let '(d', r) := m d in
      (mkAppState (app_blobs s) (app_index s) (Some d') (app_signer s), r)
  | Err e, _ => (s, Err e)
  end.

(** [create_component_release]. *)
Definition create_component_release_db (req : NewComponentRelease) :
    act HubDb AppError ReleaseRef :=
  let identity := component_identity (nc_entity_kind req) (nc_parts req) in
  found ← db (select_component_by_identity (nc_entity_path req) identity);
  match found with
  | Some row => mret (component_ref row true)
  | None =>
      row ← db (insert_component (nc_entity_path req) (nc_entity_kind req)
                  (nc_version req) identity);
      _ ← for_each (λ p, db (insert_part (mkPartTableRow (cr_id row) (np_id p)
                     (np_kind p) (to_prefixed (np_content p))))) (nc_parts req);
      mret (component_ref row false)
  end.

Definition create_component_release (req : NewComponentRelease) :
    act App AppError ReleaseRef :=
  with_pool (create_component_release_db req).

(** [create_vehicle_release]. *)
Definition create_vehicle_release_db (req : NewVehicleRelease) :
    act HubDb AppError ReleaseRef :=
  let identity := vehicle_identity (nv_members req) (nv_disabled_members req) in
  found ← db (select_vehicle_by_identity (nv_tag req) identity);
  match found with
  | Some row =>
      _ ← match nv_config_snapshot req with
          | Some _ => db (coalesce_config_snapshot (vr_id row) (nv_config_snapshot req))
          | None => mret ()
          end;
      mret (vehicle_ref row true)
  | None =>
      row ← db (insert_vehicle (nv_tag req) (nv_version req) identity
                  (nv_config_snapshot req));
      _ ← for_each (λ m, db (insert_member (mkMemberRow (vr_id row) m
                     (bool_decide (m ∈ nv_disabled_members req))))) (nv_members req);
      mret (vehicle_ref row false)
  end.

Definition create_vehicle_release (req : NewVehicleRelease) : act App AppError ReleaseRef :=
  with_pool (create_vehicle_release_db req).

(** [list_component_releases]. *)
Definition list_component_releases (f : HistoryFilter) :
    act App AppError (list ComponentReleaseRow) :=
  with_pool (
    rows ← db (select_components (hf_entity_path f));
    fold_act (λ out r,
      part_rows ← db (select_parts_sorted (cr_id r));
      mret (out ++ [mkComponentReleaseRow (cr_id r) (cr_entity_path r) (cr_entity_kind r)
        (cr_version r) (cr_identity_hash r) (cr_created_at r)
        ((λ p, mkPartRow (crp_part_id p) (crp_part_kind p) (crp_content_hash p))
           <$> part_rows)])) rows []).

(** [list_vehicle_releases]. *)
Definition list_vehicle_releases (f : HistoryFilter) :
    act App AppError (list VehicleReleaseRow) :=
  with_pool (
    rows ← db (select_vehicles (hf_tag f));
    fold_act (λ out r,
      members ← db (select_members_sorted (vr_id r));
      mret (out ++ [mkVehicleReleaseRow (vr_id r) (vr_tag r) (vr_version r)
        (vr_identity_hash r) (vr_created_at r) members])) rows []).

(** [set_channel_target]. *)
Definition set_channel_target_db (req : SetChannelTarget) :
    act HubDb AppError ChannelTargetRef :=
  tree ← db (resolve_members_to_tree (sc_vehicle_release_id req));
  let th := tree_hash tree in
  now ← gets db_now;
  _ ← db (transaction (
    _ ← insert_served (mkServedRow (sc_vehicle_release_id req) (sc_device req)
          (sc_architecture req));
    upsert_channel (mkChannelRow (sc_channel req) (sc_device req) (sc_architecture req)
      (sc_vehicle_release_id req) th now)));
  mret (mkChannelTargetRef (sc_channel req) (sc_device req) (sc_architecture req)
    (sc_vehicle_release_id req) th).

Definition set_channel_target (req : SetChannelTarget) : act App AppError ChannelTargetRef :=
  with_pool (set_channel_target_db req).

(** The state of a channel target as the two read handlers report it. *)
Definition channel_state (channel : string) (r : option (ChannelRow * VehicleRow)) :
    ChannelTargetState :=
  let target_release := (λ r, target_ref r.2) <$> r in
  mkChannelTargetState channel (ct_device ∘ fst <$> r) (ct_architecture ∘ fst <$> r)
    target_release target_release (ct_tree_hash ∘ fst <$> r)
    (r ≫= λ r, vr_config_snapshot r.2).

(** [ORDER BY ct.channel, ct.device, ct.architecture]. *)
Definition channel_key_leb (a b : ChannelRow) : bool :=
  match String.compare (ct_channel a) (ct_channel b) with
  | Lt => true
  | Gt => false
  | Eq =>
      match String.compare (ct_device a) (ct_device b) with
      | Lt => true
      | Gt => false
      | Eq => String.leb (ct_architecture a) (ct_architecture b)
      end
  end.

(** [list_channels]. *)
Definition list_channels : act App AppError (list ChannelTargetState) :=
  with_pool (
    rows ← db (query (λ t, Ok (sort_by (λ a b, channel_key_leb a.1 b.1)
                                 (join_channels t))));
    mret ((λ r, channel_state (ct_channel r.1) (Some r)) <$> rows)).

(** The row [get_channel_target] selects: the latest of those the given selectors
    match. *)
Definition select_channel_latest (channel : string) (device architecture : option string) :
    act HubDb string (option (ChannelRow * VehicleRow)) :=
  query (λ t, Ok (head (sort_by
    (λ a b, (ct_updated_at b.1 <=? ct_updated_at a.1)%Z)
    (scan (filter (λ r, ct_channel r.1 = channel ∧
       optional_filter device (ct_device r.1) ∧
       optional_filter architecture (ct_architecture r.1)) (join_channels t)))))).

(** [get_channel_target]. *)
Definition get_channel_target (sel : TargetSelector) : act App AppError ChannelTargetState :=
  with_pool (
    channel ← lift (ok_or (BadRequest "channel is required") (sel_channel sel));
    row ← db (select_channel_latest channel (sel_device sel) (sel_architecture sel));
    mret (channel_state channel row)).

(** [channel_target_tree]. *)
Definition channel_target_tree (sel : TargetSelector) : act App AppError Tree :=
  with_pool (
    tree ← resolve_target sel;
    lift (ok_or NotFound tree)).

(** A read of the index by a handler. *)
Definition with_index {A} (m : act I string A) : act App AppError A := λ s,
  let '(i, r) := m (app_index s) in (set_index i s, map_err Internal r).

(** [artifact_exists]. *)
Definition artifact_exists (inner : string) : act App AppError ArtifactRef :=
  inner ← lift (map_err (λ _, BadHash) (from_str inner));
  found ← with_index (index_get inner);
  match found with
  | Some e => mret (mkArtifactRef (entry_inner e) (entry_outer e) (entry_size e))
  | None => throw NotFound
  end.
End handlers.

(** * Lemmas: identities *)

Lemma dedup_cons2 x y l :
  dedup (x :: y :: l) = if (x =? y)%Z then dedup (y :: l) else x :: dedup (y :: l).
Proof. done. Qed.

Lemma elem_of_dedup l x : x ∈ dedup l ↔ x ∈ l.
Proof.
  induction l as [|y l IH]; [done|]. destruct l as [|z l]; [done|].
  rewrite dedup_cons2. destruct (Z.eqb_spec y z) as [->|Hne]; [|rewrite !elem_of_cons in *; tauto].
  rewrite IH, !elem_of_cons. tauto.
Qed.

Lemma dedup_sorted l : StronglySorted Z.le l → StronglySorted Z.lt (dedup l).
Proof.
  induction 1 as [|y l Hl IH Hy]; [constructor|]. destruct l as [|z l]; [repeat constructor|].
  rewrite dedup_cons2. destruct (Z.eqb_spec y z) as [->|Hne]; [done|].
  constructor; [done|]. rewrite list.Forall_forall. intros x Hx. rewrite elem_of_dedup in Hx.
  apply Forall_inv in Hy as Hyz. rewrite list.Forall_forall in Hy.
  inversion Hl as [|?? _ Hz]; subst. rewrite list.Forall_forall in Hz.
  apply elem_of_cons in Hx as [->|Hx]; [lia|]. specialize (Hz x Hx). lia.
Qed.

Lemma sorted_dedup_sorted l : StronglySorted Z.lt (sorted_dedup l).
Proof.
  apply dedup_sorted.
  assert (StronglySorted Z.leb (sort_by Z.leb l)) as Hs.
  { apply sort_by_StronglySorted; intros; rewrite !Z.leb_le in *; lia. }
  induction Hs as [|x l' Hs IH Hx]; constructor; [done|].
  eapply Forall_impl; [|exact Hx]. intros y. cbn. by rewrite Is_true_true, Z.leb_le.
Qed.

Lemma elem_of_sorted_dedup l x : x ∈ sorted_dedup l ↔ x ∈ l.
Proof. unfold sorted_dedup. by rewrite elem_of_dedup, sort_by_Permutation. Qed.

Lemma sorted_lt_NoDup l : StronglySorted Z.lt l → NoDup l.
Proof.
  induction 1 as [|x l Hl IH Hx]; constructor; [|done].
  intros Hin. rewrite list.Forall_forall in Hx. specialize (Hx x Hin). lia.
Qed.

(** The sorted list of distinct ids is determined by the set of ids. *)
Lemma sorted_dedup_eq l1 l2 :
  sorted_dedup l1 = sorted_dedup l2 ↔ ∀ x, x ∈ l1 ↔ x ∈ l2.
Proof.
  split.
  - intros Heq x. by rewrite <- (elem_of_sorted_dedup l1), Heq, elem_of_sorted_dedup.
  - intros Hx. apply (StronglySorted_unique_strong Z.lt); auto using sorted_dedup_sorted.
    + intros x1 x2 _ _ ??. lia.
    + apply NoDup_Permutation; auto using sorted_lt_NoDup, sorted_dedup_sorted.
      intros x. by rewrite !elem_of_sorted_dedup.
Qed.

Lemma join_ids_inj l1 l2 : join_ids l1 = join_ids l2 → l1 = l2.
Proof.
  assert (∀ l : list Z, Forall (λ s, avoids (Ascii.ascii_of_nat 44) s = true ∧ s ≠ "") (pretty <$> l)) as Hl.
  { intros l. apply Forall_fmap, Forall_true. intros z.
    split; [by apply pretty_Z_avoids|apply pretty_Z_nonempty]. }
  intros Heq. apply (inj (fmap pretty)). by apply (join_inj (Ascii.ascii_of_nat 44)).
Qed.

Lemma join_ids_avoids_nl l : avoids (Ascii.ascii_of_nat 10) (join_ids l) = true.
Proof.
  apply avoids_join; [done|]. apply Forall_fmap, Forall_true. intros z.
  by apply pretty_Z_avoids.
Qed.

(** The members a release disables. *)
Definition effective_disabled (members disabled : list Z) : list Z :=
  filter (λ d, d ∈ members) disabled.

Lemma effective_disabled_sorted members disabled :
  sorted_dedup (filter (λ d, d ∈ sorted_dedup members) disabled) =
  sorted_dedup (effective_disabled members disabled).
Proof.
  apply sorted_dedup_eq. intros x. unfold effective_disabled.
  by rewrite !list_elem_of_filter, elem_of_sorted_dedup.
Qed.

Lemma vehicle_identity_text_inj m1 d1 m2 d2 :
  vehicle_identity_text m1 d1 = vehicle_identity_text m2 d2 ↔
    (∀ x, x ∈ m1 ↔ x ∈ m2) ∧
    (∀ x, x ∈ effective_disabled m1 d1 ↔ x ∈ effective_disabled m2 d2).
Proof.
  rewrite <- !sorted_dedup_eq. unfold vehicle_identity_text. cbv zeta.
  rewrite !effective_disabled_sorted. split.
  2:{ intros [-> ->]. done. }
  pose proof (join_ids_avoids_nl (sorted_dedup m1)) as Ha1.
  pose proof (join_ids_avoids_nl (sorted_dedup m2)) as Ha2.
  assert (∀ j1 j2 rest, avoids (Ascii.ascii_of_nat 10) j1 = true →
    j1 = j2 +:+ nl +:+ rest → False) as Hno.
  { intros j1 j2 rest Hj ->. rewrite avoids_app in Hj. simpl in Hj.
    by rewrite andb_false_r in Hj. }
  destruct (sorted_dedup (effective_disabled m1 d1)) as [|x1 l1] eqn:He1,
    (sorted_dedup (effective_disabled m2 d2)) as [|x2 l2] eqn:He2; rewrite ?sapp_nil_r.
  - by intros ->%join_ids_inj.
  - intros Heq. by eapply Hno in Heq.
  - intros Heq. symmetry in Heq. by eapply Hno in Heq.
  - intros Heq. apply avoids_split in Heq as [Hm Hd]; [|done..].
    split; [by apply join_ids_inj|].
    assert (Some (join_ids (x1 :: l1)) = Some (join_ids (x2 :: l2))) as Hj.
    { rewrite <- !(strip_prefix_app "disabled:"). by f_equal. }
    simplify_eq. by apply join_ids_inj.
Qed.

(** A part text whose id and kind avoid the separators. *)
Definition separable (p : NewPart) : Prop :=
  avoids (Ascii.ascii_of_nat 0) (np_id p) = true ∧
  avoids (Ascii.ascii_of_nat 0) (np_kind p) = true.

#[export] Instance separable_dec p : Decision (separable p).
Proof. unfold separable. apply _. Defined.

Section identity_lemmas.
Context `{HexCodec, Sha256}.

Lemma to_prefixed_hash_inj a b :
  (hash_of (as_bytes a) = hash_of (as_bytes b) → as_bytes a = as_bytes b) →
  to_prefixed (hash_of (as_bytes a)) = to_prefixed (hash_of (as_bytes b)) ↔ a = b.
Proof.
  intros Hcol. split; [|by intros ->]. intros Heq%to_prefixed_inj. by apply as_bytes_inj, Hcol.
Qed.

Lemma part_texts_inj l1 l2 :
  Forall separable l1 → Forall separable l2 →
  concat_str (part_identity_text <$> l1) = concat_str (part_identity_text <$> l2) → l1 = l2.
Proof.
  intros Hs1. revert l2. induction Hs1 as [|p1 l1 [Hi1 Hk1] Hl1 IH]; intros l2 Hs2;
    destruct Hs2 as [|p2 l2 [Hi2 Hk2] Hl2]; cbn [concat_str fmap list_fmap foldr]; [done|..].
  - unfold part_identity_text. intros Heq. by destruct (np_id p2).
  - unfold part_identity_text. intros Heq. by destruct (np_id p1).
  - unfold part_identity_text. rewrite !sapp_assoc. intros Heq.
    apply avoids_split in Heq as [Hid Heq]; [|done..].
    apply avoids_split in Heq as [Hkind Heq]; [|done..].
    apply sapp_length_split in Heq as [Hc Heq]; [|by rewrite !to_prefixed_length].
    apply to_prefixed_inj in Hc. injection Heq as Heq. f_equal; [|by apply IH].
    destruct p1, p2; naive_solver.
Qed.

(** With distinct part ids, the order of the parts does not matter. *)
Lemma component_identity_text_perm kind l1 l2 :
  NoDup (np_id <$> l1) → l1 ≡ₚ l2 →
  component_identity_text kind l1 = component_identity_text kind l2.
Proof. intros Hnd Hp. unfold component_identity_text. by rewrite (sort_on_unique _ l1 l2). Qed.

Lemma component_identity_text_inj k1 k2 l1 l2 :
  avoids (Ascii.ascii_of_nat 10) k1 = true → avoids (Ascii.ascii_of_nat 10) k2 = true →
  Forall separable l1 → Forall separable l2 →
  component_identity_text k1 l1 = component_identity_text k2 l2 → k1 = k2 ∧ l1 ≡ₚ l2.
Proof.
  intros Hk1 Hk2 Hs1 Hs2 Heq. unfold component_identity_text in Heq.
  apply avoids_split in Heq as [-> Heq]; [|done..]. split; [done|].
  apply part_texts_inj in Heq.
  - by rewrite <- (sort_on_Permutation np_id l1), Heq, sort_on_Permutation.
  - by rewrite sort_on_Permutation.
  - by rewrite sort_on_Permutation.
Qed.

(** Trees that differ only in the order of parts, their kinds and the labels. *)
Definition same_content (e1 e2 : Entity) : Prop :=
  entity_disabled e1 = entity_disabled e2 ∧
  (λ p, (part_id p, part_content p)) <$> sort_on part_id (entity_parts e1) =
  (λ p, (part_id p, part_content p)) <$> sort_on part_id (entity_parts e2).

Definition same_tree (t1 t2 : Tree) : Prop :=
  dom t1 = dom t2 ∧
  ∀ path e1 e2, t1 !! path = Some e1 → t2 !! path = Some e2 → same_content e1 e2.

Lemma tree_hash_text_proper t1 t2 :
  same_tree t1 t2 → tree_hash_text t1 = tree_hash_text t2.
Proof.
  intros [Hd Hc]. unfold tree_hash_text. f_equal.
  pose proof (entries_Forall2 (λ _, same_content) t1 t2 Hd Hc) as Hall.
  induction Hall as [|[p1 e1] [p2 e2] l1 l2 [Hp [Hdis Hparts]] Hl IH]; [done|].
  simpl in Hp, Hdis, Hparts. subst p2. cbn [fmap list_fmap]. f_equal; [|done].
  rewrite Hdis. do 4 f_equal.
  pose (f := λ q : string * ContentHash, q.1 +:+ nul +:+ to_prefixed q.2 +:+ nl).
  change (f ∘ (λ p, (part_id p, part_content p)) <$> sort_on part_id (entity_parts e1) =
    f ∘ (λ p, (part_id p, part_content p)) <$> sort_on part_id (entity_parts e2)).
  by rewrite !list_fmap_compose, Hparts.
Qed.
End identity_lemmas.

(** * Lemmas: creating releases *)

Lemma db_Ok {A} (m : act HubDb string A) s s' a : db m s = (s', Ok a) ↔ m s = (s', Ok a).
Proof. unfold db. destruct (m s) as [s1 [b|e]]; naive_solver. Qed.

Section create_lemmas.
Context `{HexCodec, Sha256}.

(** The rows of a component release's parts. *)
Definition part_rows (id : Z) (parts : list NewPart) : list PartTableRow :=
  (λ p, mkPartTableRow id (np_id p) (np_kind p) (to_prefixed (np_content p))) <$> parts.

Lemma insert_parts_Ok id parts s s' u :
  for_each (λ p, db (insert_part (mkPartTableRow id (np_id p) (np_kind p)
    (to_prefixed (np_content p))))) parts s = (s', Ok u) →
  db_tables s' = add_parts (part_rows id parts) (db_tables s) ∧ same_meta s s'.
Proof.
  revert s. induction parts as [|p parts IH]; intros s; cbn [for_each].
  - intros [= <- _]. by rewrite add_parts_nil.
  - intros (s1 & [] & Hp%db_Ok%insert_part_Ok & Hl)%bind_inv_Ok.
    destruct Hp as [Ht (Hm1 & Hm2 & Hm3)]. apply IH in Hl as [Hl (Hm4 & Hm5 & Hm6)].
    split; [by rewrite Hl, Ht, add_parts_app|]. repeat split; congruence.
Qed.

(** The rows of a vehicle release's members. *)
Definition member_rows (id : Z) (members disabled : list Z) : list MemberRow :=
  (λ m, mkMemberRow id m (bool_decide (m ∈ disabled))) <$> members.

Lemma insert_members_Ok id members disabled s s' u :
  for_each (λ m, db (insert_member (mkMemberRow id m (bool_decide (m ∈ disabled)))))
    members s = (s', Ok u) →
  db_tables s' = add_members (member_rows id members disabled) (db_tables s) ∧
  same_meta s s'.
Proof.
  revert s. induction members as [|p members IH]; intros s; cbn [for_each].
  - intros [= <- _]. by rewrite add_members_nil.
  - intros (s1 & [] & Hp%db_Ok%insert_member_Ok & Hl)%bind_inv_Ok.
    destruct Hp as [Ht (Hm1 & Hm2 & Hm3)]. apply IH in Hl as [Hl (Hm4 & Hm5 & Hm6)].
    split; [by rewrite Hl, Ht, add_members_app|]. repeat split; congruence.
Qed.

(** The component release with a given content, if there is one. *)
Definition component_of (t : Tables) (path identity : string) : option ComponentRow :=
  head (filter (λ r, cr_entity_path r = path ∧ cr_identity_hash r = Some identity)
    (t_components t)).

Lemma head_filter_snoc {A} (P : A → Prop) `{∀ x, Decision (P x)} (l : list A) x :
  head (filter P l) = None → P x → head (filter P (l ++ [x])) = Some x.
Proof.
  rewrite list.filter_app. destruct (filter P l) eqn:Hl; [|done]. intros _ HP.
  by rewrite list.filter_cons, decide_True.
Qed.

Lemma create_component_Ok req s s' ref :
  create_component_release_db req s = (s', Ok ref) →
  let identity := component_identity (nc_entity_kind req) (nc_parts req) in
  ∃ row, component_of (db_tables s') (nc_entity_path req) identity = Some row ∧
    ref = component_ref row (rr_reused ref) ∧
    match component_of (db_tables s) (nc_entity_path req) identity with
    | Some old => row = old ∧ rr_reused ref = true ∧ db_tables s' = db_tables s
    | None =>
        rr_reused ref = false ∧
        row = mkComponentRow (db_component_seq s) (nc_entity_path req)
          (nc_entity_kind req) (nc_version req) (db_now s) (Some identity) ∧
        db_tables s' = add_parts (part_rows (cr_id row) (nc_parts req))
          (add_component row (db_tables s))
    end.
Proof.
  unfold create_component_release_db. cbv zeta.
  set (identity := component_identity _ _).
  intros (s1 & found & Hsel%db_Ok & Hr)%bind_inv_Ok.
  apply query_Ok in Hsel as (Ht1 & (Hq1 & Hq2 & Hq3) & [= Hf]).
  change (component_of (db_tables s) (nc_entity_path req) identity = found) in Hf.
  rewrite Hf. destruct found as [old|].
  - injection Hr as <- <-. exists old. rewrite Ht1. by split_and!.
  - apply bind_inv_Ok in Hr as (s2 & row & Hins%db_Ok%insert_component_Ok & Hr).
    apply bind_inv_Ok in Hr as (s3 & u & Hparts%insert_parts_Ok & [= <- <-]).
    destruct Hins as (Hrow & Ht2 & _), Hparts as (Ht3 & _).
    rewrite Ht1 in Ht2. rewrite Hq1, Hq3 in Hrow. exists row. split_and!; try done.
    + rewrite Ht3, Ht2. unfold component_of. simpl. apply head_filter_snoc; [done|].
      by rewrite Hrow.
    + by rewrite Ht3, Ht2.
Qed.

(** The vehicle release with a given content, if there is one. *)
Definition vehicle_of (t : Tables) (tag identity : string) : option VehicleRow :=
  head (filter (λ r, vr_tag r = tag ∧ vr_identity_hash r = Some identity) (t_vehicles t)).

Definition set_snapshot (id : Z) (config : option json) (r : VehicleRow) : VehicleRow :=
  if decide (vr_id r = id)
  then mkVehicleRow (vr_id r) (vr_tag r) (vr_version r) (vr_created_at r)
         (vr_identity_hash r)
         (match vr_config_snapshot r with Some c => Some c | None => config end)
  else r.

Lemma set_snapshot_ref id config r b : vehicle_ref (set_snapshot id config r) b = vehicle_ref r b.
Proof. unfold set_snapshot. by case_decide. Qed.

Lemma head_filter_fmap {A} (P : A → Prop) `{∀ x, Decision (P x)} (f : A → A) l :
  (∀ x, P (f x) ↔ P x) → head (filter P (f <$> l)) = f <$> head (filter P l).
Proof.
  intros HP. induction l as [|x l IH]; [done|]. cbn [fmap list_fmap].
  rewrite !list.filter_cons. destruct (decide (P x)), (decide (P (f x))); try done; naive_solver.
Qed.

Lemma vehicle_of_set_snapshot t tag identity id config :
  head (filter (λ r, vr_tag r = tag ∧ vr_identity_hash r = Some identity)
    (set_snapshot id config <$> t_vehicles t)) =
  set_snapshot id config <$> vehicle_of t tag identity.
Proof. apply head_filter_fmap. intros r. unfold set_snapshot. by case_decide. Qed.

Lemma create_vehicle_Ok req s s' ref :
  create_vehicle_release_db req s = (s', Ok ref) →
  let identity := vehicle_identity (nv_members req) (nv_disabled_members req) in
  ∃ row, vehicle_of (db_tables s') (nv_tag req) identity = Some row ∧
    ref = vehicle_ref row (rr_reused ref) ∧
    t_components (db_tables s') = t_components (db_tables s) ∧
    t_parts (db_tables s') = t_parts (db_tables s) ∧
    match vehicle_of (db_tables s) (nv_tag req) identity with
    | Some old =>
        rr_reused ref = true ∧ vehicle_ref row true = vehicle_ref old true ∧
        vr_config_snapshot row =
          match vr_config_snapshot old with Some c => Some c | None => nv_config_snapshot req end ∧
        t_members (db_tables s') = t_members (db_tables s)
    | None =>
        rr_reused ref = false ∧
        row = mkVehicleRow (db_vehicle_seq s) (nv_tag req) (nv_version req) (db_now s)
          (Some identity) (nv_config_snapshot req) ∧
        db_tables s' = add_members (member_rows (vr_id row) (nv_members req)
          (nv_disabled_members req)) (add_vehicle row (db_tables s))
    end.
Proof.
  unfold create_vehicle_release_db. cbv zeta. set (identity := vehicle_identity _ _).
  intros (s1 & found & Hsel%db_Ok & Hr)%bind_inv_Ok.
  apply query_Ok in Hsel as (Ht1 & (Hq1 & Hq2 & Hq3) & [= Hf]).
  change (vehicle_of (db_tables s) (nv_tag req) identity = found) in Hf.
  rewrite Hf. destruct found as [old|].
  - apply bind_inv_Ok in Hr as (s2 & u & Hup & [= <- <-]).
    destruct (nv_config_snapshot req) as [c|] eqn:Hc.
    + apply db_Ok, statement_Ok in Hup as (fs & [= <-] & _). simpl. rewrite Ht1.
      exists (set_snapshot (vr_id old) (Some c) old). split_and!; try done.
      * unfold vehicle_of. simpl. etrans; [apply vehicle_of_set_snapshot|]. by rewrite Hf.
      * by rewrite set_snapshot_ref.
      * by rewrite set_snapshot_ref.
      * unfold set_snapshot. by rewrite decide_True.
    + injection Hup as <- _. exists old. rewrite Ht1. split_and!; try done.
      by destruct (vr_config_snapshot old).
  - apply bind_inv_Ok in Hr as (s2 & row & Hins%db_Ok%insert_vehicle_Ok & Hr).
    apply bind_inv_Ok in Hr as (s3 & u & Hm%insert_members_Ok & [= <- <-]).
    destruct Hins as (Hrow & Ht2 & _), Hm as (Ht3 & _).
    rewrite Ht1 in Ht2. rewrite Hq2, Hq3 in Hrow. exists row.
    rewrite Ht3, Ht2. split_and!; try done.
    unfold vehicle_of. simpl. apply head_filter_snoc; [done|]. by rewrite Hrow.
Qed.
End create_lemmas.

(** * Lemmas: resolving a target *)

Section resolve_lemmas.
Context `{HexCodec, Sha256}.

(** The part a row of [component_release_parts] stands for. *)
Definition part_of_row (r : PartTableRow) : option Part :=
  c ← ok (from_str (crp_content_hash r)); Some (mkPart (crp_part_kind r) (crp_part_id r) c).

Definition rows_of (t : Tables) (id : Z) : list PartTableRow :=
  filter (λ r, crp_release_id r = id) (t_parts t).

Definition component_row (t : Tables) (id : Z) : option ComponentRow :=
  head (filter (λ r, cr_id r = id) (t_components t)).

(** The members of a vehicle release. *)
Definition members_of (t : Tables) (v : Z) : list MemberRow :=
  filter (λ r, vrm_vehicle r = v) (t_members t).

(** The entity a member resolves to, up to the order of its parts. *)
Definition resolves_to (t : Tables) (m : MemberRow) (path : string) (e : Entity) : Prop :=
  ∃ row, component_row t (vrm_component m) = Some row ∧ path = cr_entity_path row ∧
    entity_kind e = cr_entity_kind row ∧ entity_version e = Some (cr_version row) ∧
    entity_disabled e = vrm_disabled m ∧ entity_admin_disabled e = None ∧
    entity_parts e ≡ₚ omap part_of_row (rows_of t (vrm_component m)).

(** What the constraints of the schema and the handlers' inserts guarantee. *)
Definition tables_ok (t : Tables) : Prop :=
  (∀ m, m ∈ t_members t → is_Some (component_row t (vrm_component m))) ∧
  (∀ r, r ∈ t_parts t → is_Some (part_of_row r)) ∧
  (∀ id, NoDup (crp_part_id <$> rows_of t id)).

(** No two members of the vehicle release are releases of one entity. *)
Definition distinct_paths (t : Tables) (v : Z) : Prop :=
  NoDup ((λ m, cr_entity_path <$> component_row t (vrm_component m)) <$> members_of t v).

#[export] Instance distinct_paths_dec t v : Decision (distinct_paths t v).
Proof. unfold distinct_paths. apply _. Defined.

(** The state of a run that only reads. *)
Definition reading (t : Tables) (quiet : Prop) (s : HubDb) : Prop :=
  db_tables s = t ∧ (quiet → no_faults (db_faults s)).

Lemma query_triple {A} (f : Tables → result string A) t q (R : string → HubDb → Prop) :
  (∀ e s, reading t q s → ¬ q → R e s) →
  (∀ e, f t = Err e → ∀ s, reading t q s → R e s) →
  triple (reading t q) (query f) (λ a s, reading t q s ∧ f t = Ok a) R.
Proof.
  intros HR1 HR2 s [<- Hq]. destruct (query f s) as [s' r] eqn:Hr.
  unfold query, statement in Hr. pose proof (no_faults_next (db_faults s)) as Hn.
  destruct (next_fault _) as [[[|n]|] fs]; simplify_eq/=.
  1,2: apply HR1; [split; [done|]; intros Hq'; by destruct (Hn (Hq Hq'))|];
    intros Hq'; by destruct (Hn (Hq Hq')).
  assert (reading (db_tables s) q (set_faults fs s)) as Hread.
  { split; [done|]. intros Hq'. by destruct (Hn (Hq Hq')). }
  destruct (f (db_tables s)) as [a|e] eqn:Hf; [done|]. by apply (HR2 e).
Qed.

Lemma resolve_parts_triple v rid path t q rows :
  triple (reading t q)
    (fold_act (λ acc p, part ← lift (resolve_part v rid path p); mret (acc ++ [part])) rows [])
    (λ parts s, reading t q s ∧ parts = omap part_of_row rows)
    (λ _ s, reading t q s ∧ ∃ r, r ∈ rows ∧ part_of_row r = None).
Proof.
  eapply triple_conseq; [apply (triple_fold _ (λ dn parts s, reading t q s ∧
    parts = omap part_of_row dn) (λ _ s, reading t q s ∧ ∃ r, r ∈ rows ∧ part_of_row r = None))
    |..]; [|by intros s Hs|done|done].
  intros dn r rest acc Hrows s [Hs ->]. unfold lift, mbind, act_bind, resolve_part,
    parse_stored_hash, part_of_row.
  destruct (from_str (crp_content_hash r)) as [c|e] eqn:Hc; simpl.
  - split; [done|]. rewrite omap_app. simpl. by rewrite Hc.
  - split; [done|]. exists r. rewrite <- Hrows, Hc. split; [set_solver|done].
Qed.

Context `{RowOrder}.

Lemma resolve_member_triple v tree m t q :
  tables_ok t → m ∈ t_members t →
  triple (reading t q) (resolve_member v tree m)
    (λ tree' s, reading t q s ∧ ∃ path e, tree' = <[path := e]> tree ∧ resolves_to t m path e)
    (λ _ s, reading t q s ∧ ¬ q).
Proof.
  intros (Hfk & Hhash & _) Hm. unfold resolve_member.
  eapply triple_bind; [apply query_triple; [done|]|intros row; apply triple_pure; intros Hrow].
  { intros e He. destruct (Hfk m Hm) as [row Hrow]. apply fetch_one_Ok in Hrow. congruence. }
  apply fetch_one_Ok in Hrow.
  eapply triple_bind; [apply query_triple; [done|done]|intros rows; apply triple_pure].
  intros [= Hrows]. eapply triple_bind.
  - eapply triple_conseq; [apply resolve_parts_triple|done|done|].
    intros e s [Hs (r & Hr & Hnone)]. exfalso. rewrite <- Hrows, scan_Permutation in Hr.
    apply list_elem_of_filter in Hr as [_ Hr]. apply Hhash in Hr. rewrite Hnone in Hr.
    by destruct Hr.
  - intros parts. apply triple_ret_if. intros s [Hs ->]. split; [done|].
    eexists _, _. split; [done|]. exists row. split_and!; try done.
    simpl. by rewrite <- Hrows, scan_Permutation.
Qed.

(** The tree holds exactly the entities of the members processed. *)
Definition tree_of_members (t : Tables) (ms : list MemberRow) (tree : Tree) : Prop :=
  (∀ path e, tree !! path = Some e → ∃ m, m ∈ ms ∧ resolves_to t m path e) ∧
  (∀ m path row, m ∈ ms → component_row t (vrm_component m) = Some row →
     path = cr_entity_path row → is_Some (tree !! path)).

Lemma tree_of_members_insert t ms m tree path e :
  tree_of_members t ms tree → resolves_to t m path e →
  tree_of_members t (ms ++ [m]) (<[path := e]> tree).
Proof.
  intros [Hin Hall] Hr. split.
  - intros p e'. destruct (decide (p = path)) as [->|Hne].
    + rewrite lookup_insert_eq. intros [= <-]. exists m. split; [set_solver|done].
    + rewrite lookup_insert_ne by done. intros (m' & Hm & Hr')%Hin. exists m'.
      split; [set_solver|done].
  - intros m' p row Hm Hrow ->. destruct (decide (cr_entity_path row = path)) as [->|Hne].
    + rewrite lookup_insert_eq. eauto.
    + rewrite lookup_insert_ne by done. apply elem_of_app in Hm as [Hm|Hm]; [by eauto|].
      apply list_elem_of_singleton in Hm as ->. destruct Hr as (row' & Hrow' & -> & _).
      congruence.
Qed.

Lemma resolve_members_triple v t q :
  tables_ok t →
  triple (reading t q) (resolve_members_to_tree v)
    (λ tree s, reading t q s ∧ tree_of_members t (members_of t v) tree)
    (λ _ s, reading t q s ∧ ¬ q).
Proof.
  intros Hok. unfold resolve_members_to_tree.
  eapply triple_bind; [by apply query_triple|intros ms; apply triple_pure; intros [= Hms]].
  fold (members_of t v) in Hms.
  assert (ms ≡ₚ members_of t v) as Hperm by by rewrite <- Hms, scan_Permutation.
  eapply triple_conseq; [apply (triple_fold _ (λ dn tree s, reading t q s ∧
    tree_of_members t dn tree) (λ _ s, reading t q s ∧ ¬ q))|..]; [| | |done].
  - intros dn m rest tree Hsplit s [Hs Htree].
    assert (m ∈ t_members t) as Hm.
    { assert (m ∈ members_of t v) as Hin by (rewrite <- Hperm, <- Hsplit; set_solver).
      by apply list_elem_of_filter in Hin as [_ Hin]. }
    pose proof (resolve_member_triple v tree m t q Hok Hm s Hs) as Hr.
    destruct (resolve_member v tree m s) as [s' [tree'|e]]; [|done].
    destruct Hr as (Hs' & path & e & -> & Hres). split; [done|].
    by apply tree_of_members_insert.
  - intros s Hs. split; [done|]. split; [intros path e; by rewrite lookup_empty|].
    intros m path row Hm. by apply elem_of_nil in Hm.
  - intros tree s [Hs [Hin Hall]]. split; [done|]. split.
    + intros path e Hp. destruct (Hin path e Hp) as (m & Hm & Hr). exists m.
      by rewrite <- Hperm.
    + intros m path row Hm. apply Hall. by rewrite Hperm.
Qed.
End resolve_lemmas.

Section tree_lemmas.
Context `{HexCodec, Sha256}.

Lemma component_row_NoDup t v m1 m2 path e1 e2 :
  distinct_paths t v → m1 ∈ members_of t v → m2 ∈ members_of t v →
  resolves_to t m1 path e1 → resolves_to t m2 path e2 → m1 = m2.
Proof.
  intros Hnd H1 H2 (row1 & Hr1 & -> & _) (row2 & Hr2 & Hp & _).
  apply list_elem_of_lookup in H1 as [i Hi], H2 as [j Hj].
  assert (i = j) as ->; [|congruence].
  eapply (NoDup_lookup _ _ _ (Some (cr_entity_path row1))); [exact Hnd|..].
  - by rewrite list_lookup_fmap, Hi; simpl; rewrite Hr1.
  - by rewrite list_lookup_fmap, Hj; simpl; rewrite Hr2, Hp.
Qed.

Lemma part_rows_ids (rows : list PartTableRow) :
  (λ p, part_id p) <$> omap part_of_row rows =
  omap (λ r, part_id <$> part_of_row r) rows.
Proof. induction rows as [|r rows IH]; [done|]. simpl. destruct (part_of_row r); csimpl; congruence. Qed.

Lemma resolved_parts_NoDup t id :
  tables_ok t → NoDup (part_id <$> omap part_of_row (rows_of t id)).
Proof.
  intros (_ & Hhash & Hnd). specialize (Hnd id). rewrite part_rows_ids.
  assert (omap (λ r, part_id <$> part_of_row r) (rows_of t id) = crp_part_id <$> rows_of t id)
    as ->; [|done].
  assert (∀ r, r ∈ rows_of t id → is_Some (part_of_row r)) as Hall.
  { intros r Hr. apply list_elem_of_filter in Hr as [_ Hr]. by apply Hhash. }
  clear Hnd. induction (rows_of t id) as [|r rows IH]; [done|].
  destruct (Hall r) as [p Hp]; [set_solver|]. cbn. rewrite Hp. cbn.
  assert (part_id p = crp_part_id r) as ->.
  { unfold part_of_row in Hp. apply bind_Some in Hp as (c & _ & [= <-]). done. }
  f_equal. apply IH. set_solver.
Qed.

(** Two resolutions of one release hold the same content, whatever row order the
    database chose each time. *)
Lemma tree_of_members_unique t v tree1 tree2 :
  tables_ok t → distinct_paths t v →
  tree_of_members t (members_of t v) tree1 →
  tree_of_members t (members_of t v) tree2 → same_tree tree1 tree2.
Proof.
  intros Hok Hnd [Hin1 Hall1] [Hin2 Hall2]. split.
  - apply set_eq. intros path. rewrite !elem_of_dom. split.
    + intros [e He]. destruct (Hin1 path e He) as (m & Hm & row & Hrow & Hp & _). eauto.
    + intros [e He]. destruct (Hin2 path e He) as (m & Hm & row & Hrow & Hp & _). eauto.
  - intros path e1 e2 He1 He2. destruct (Hin1 path e1 He1) as (m1 & Hm1 & Hr1).
    destruct (Hin2 path e2 He2) as (m2 & Hm2 & Hr2).
    assert (m1 = m2) as <- by by eapply component_row_NoDup.
    destruct Hr1 as (row1 & _ & _ & _ & _ & Hd1 & _ & Hp1).
    destruct Hr2 as (row2 & _ & _ & _ & _ & Hd2 & _ & Hp2).
    split; [by rewrite Hd1, Hd2|]. f_equal. apply sort_on_unique.
    + rewrite Hp1. by apply resolved_parts_NoDup.
    + by rewrite Hp1, Hp2.
Qed.
End tree_lemmas.

(** * Properties: identities *)

Section identity_properties.
Context `{HexCodec, Sha256}.

(** The identity of a vehicle release is a function of the set of members
    and of the set of members it disables, and, unless SHA-256 collides on the two
    texts, determines both: order, repetitions and disabled ids that are not
    members do not count, and disabling a member changes it. *)
Lemma vehicle_identity_exact (m1 d1 m2 d2 : list Z)
    (Hcol : let text m d := as_bytes (vehicle_identity_text m d) in
            hash_of (text m1 d1) = hash_of (text m2 d2) → text m1 d1 = text m2 d2) :
  vehicle_identity m1 d1 = vehicle_identity m2 d2 ↔
    (∀ x, x ∈ m1 ↔ x ∈ m2) ∧
    (∀ x, x ∈ effective_disabled m1 d1 ↔ x ∈ effective_disabled m2 d2).
Proof.
  unfold vehicle_identity. rewrite to_prefixed_hash_inj by done.
  apply vehicle_identity_text_inj.
Qed.

(** The identity of a component release does not depend on the order of
    its parts, and, unless SHA-256 collides on the two texts, releases whose kinds
    and part ids avoid the separators and that share an identity have the same
    kind and the same parts. *)
Lemma component_identity_exact (k1 k2 : string) (l1 l2 : list NewPart)
    (Hnd : NoDup (np_id <$> l1))
    (Hk1 : avoids (Ascii.ascii_of_nat 10) k1 = true)
    (Hk2 : avoids (Ascii.ascii_of_nat 10) k2 = true)
    (Hl1 : Forall separable l1) (Hl2 : Forall separable l2)
    (Hcol : let text k l := as_bytes (component_identity_text k l) in
            hash_of (text k1 l1) = hash_of (text k2 l2) → text k1 l1 = text k2 l2) :
  component_identity k1 l1 = component_identity k2 l2 ↔ k1 = k2 ∧ l1 ≡ₚ l2.
Proof.
  unfold component_identity. rewrite to_prefixed_hash_inj by done. split.
  - by apply component_identity_text_inj.
  - intros [-> Hp]. by apply component_identity_text_perm.
Qed.

(** Without those conditions the identity is ambiguous: a release with one
    part and a release with no part, whose kind spells out that part, share their
    identity, whatever the hash. *)
Lemma component_identity_ambiguous (kind : string) (p : NewPart) :
  component_identity kind [p] =
    component_identity (kind +:+ nl +:+ np_id p +:+ nul +:+ np_kind p +:+ nul +:+
      to_prefixed (np_content p)) [].
Proof.
  unfold component_identity. do 3 f_equal. unfold component_identity_text,
    part_identity_text, sort_on. cbn [sort_by foldr insert_by fmap list_fmap concat_str].
  by rewrite !sapp_nil_r, !sapp_assoc.
Qed.

(** A disabled component without parts, and two enabled ones of which the second
    is called "disabled". *)
Definition ambiguous_disabled : Tree := {[ "a" := example_entity [] true None ]}.
Definition ambiguous_enabled : Tree :=
  {[ "a" := example_entity [] false None; "disabled" := example_entity [] false None ]}.

(** Disabling a component does not always change the tree hash: two trees
    with different sets of disabled components share it, whatever the hash. *)
Lemma tree_hash_ambiguous :
  tree_hash ambiguous_disabled = tree_hash ambiguous_enabled ∧
  (entity_disabled <$> ambiguous_disabled !! "a") = Some true ∧
  (entity_disabled <$> ambiguous_enabled !! "a") = Some false.
Proof. done. Qed.
End identity_properties.

Lemma no_collision_eq (a b : list byte) : a = b → hash_of a = hash_of b → a = b.
Proof. done. Qed.

Lemma vehicle_identity_exact_witness :
  vehicle_identity [3; 1; 3]%Z [9; 1]%Z = vehicle_identity [1; 3]%Z [1]%Z ∧
  ∀ x, x ∈ effective_disabled [3; 1; 3]%Z [9; 1]%Z ↔ x ∈ effective_disabled [1; 3]%Z [1]%Z.
Proof.
  assert (vehicle_identity [3; 1; 3]%Z [9; 1]%Z = vehicle_identity [1; 3]%Z [1]%Z) as Heq
    by by vm_compute.
  split; [done|].
  apply (vehicle_identity_exact [3; 1; 3]%Z [9; 1]%Z [1; 3]%Z [1]%Z); [|done].
  apply no_collision_eq. by vm_compute.
Defined.

Lemma component_identity_exact_witness :
  let l := [mkNewPart "kernel" "file" hash_a; mkNewPart "dtb" "file" hash_b] in
  component_identity "vm" l = component_identity "vm" (reverse l) ∧ l ≡ₚ reverse l.
Proof.
  intros l. assert (l ≡ₚ reverse l) as Hp by (symmetry; apply reverse_Permutation).
  split; [|done].
  apply (component_identity_exact "vm" "vm" l (reverse l)); [by_compute|done|done|by_compute|
    by_compute| |done].
  apply no_collision_eq. by vm_compute.
Defined.

(** * Properties: creating releases *)

Section create_properties.
Context `{HexCodec, Sha256} {B I G : Type}.
Implicit Types s : AppState B I HubDb G.

Lemma with_pool_Ok {A} (m : act HubDb AppError A) s s' a :
  with_pool m s = (s', Ok a) → ∃ d d', app_pool s = Some d ∧ m d = (d', Ok a) ∧
    app_pool s' = Some d'.
Proof.
  unfold with_pool, pool. destruct (app_pool s) as [d|]; [|done]. simpl.
  destruct (m d) as [d' r] eqn:Hm. intros [= <- ->]. by exists d, d'.
Qed.

(** Creating a component release is idempotent on its content: a second
    request for the same entity with the same kind and the same parts, in any
    order and under any version, returns the first release, marked as reused, and
    changes no table; a fresh content cuts one release and exactly its parts. *)
Lemma create_component_release_idempotent (req1 req2 : NewComponentRelease)
    s s1 s2 ref1 ref2 d d1 d2
    (Hpath : nc_entity_path req2 = nc_entity_path req1)
    (Hkind : nc_entity_kind req2 = nc_entity_kind req1)
    (Hnd : NoDup (np_id <$> nc_parts req1)) (Hparts : nc_parts req1 ≡ₚ nc_parts req2)
    (Hd : app_pool s = Some d) (Hd1 : app_pool s1 = Some d1) (Hd2 : app_pool s2 = Some d2)
    (Hc1 : create_component_release req1 s = (s1, Ok ref1))
    (Hc2 : create_component_release req2 s1 = (s2, Ok ref2)) :
  ref2 = mkReleaseRef (rr_id ref1) (rr_version ref1) (rr_created_at ref1) true ∧
  db_tables d2 = db_tables d1 ∧
  (rr_reused ref1 = false → ∃ row, cr_id row = rr_id ref1 ∧
     cr_version row = nc_version req1 ∧
     db_tables d1 = add_parts (part_rows (rr_id ref1) (nc_parts req1))
       (add_component row (db_tables d))) ∧
  (rr_reused ref1 = true → db_tables d1 = db_tables d).
Proof.
  apply with_pool_Ok in Hc1 as (a & b & Ha & Hc1 & Hb), Hc2 as (a' & b' & Ha' & Hc2 & Hb').
  simplify_eq.
  apply create_component_Ok in Hc1 as (row & Hrow & Href & Hcase).
  apply create_component_Ok in Hc2 as (row2 & Hrow2 & Href2 & Hcase2).
  assert (component_identity (nc_entity_kind req2) (nc_parts req2) =
    component_identity (nc_entity_kind req1) (nc_parts req1)) as Hid.
  { unfold component_identity. rewrite Hkind.
    by rewrite (component_identity_text_perm _ (nc_parts req1) (nc_parts req2)). }
  rewrite Hid, Hpath, Hrow in Hcase2. destruct Hcase2 as (-> & Hre & Ht).
  assert (rr_id ref1 = cr_id row) as Hrid by by rewrite Href.
  split_and!; [by rewrite Href2, Hre, Href|done|..];
    destruct (component_of (db_tables d) _ _) as [old|];
    destruct Hcase as (Hc1 & Hc2 & Hc3); intros Hreused; try congruence.
  exists row. rewrite Hrid. split_and!; [done|by rewrite Hc2|done].
Qed.

(** Creating a vehicle release is idempotent on its content: a second
    request for the same tag with the same members and the same members disabled
    returns the first release, marked as reused, with no member added or removed,
    and a configuration snapshot, once recorded, is never replaced. *)
Lemma create_vehicle_release_idempotent (req1 req2 : NewVehicleRelease)
    s s1 s2 ref1 ref2 d1 d2
    (Htag : nv_tag req2 = nv_tag req1)
    (Hm : ∀ x, x ∈ nv_members req2 ↔ x ∈ nv_members req1)
    (Hdis : ∀ x, x ∈ effective_disabled (nv_members req2) (nv_disabled_members req2) ↔
                 x ∈ effective_disabled (nv_members req1) (nv_disabled_members req1))
    (Hd1 : app_pool s1 = Some d1) (Hd2 : app_pool s2 = Some d2)
    (Hc1 : create_vehicle_release req1 s = (s1, Ok ref1))
    (Hc2 : create_vehicle_release req2 s1 = (s2, Ok ref2)) :
  ref2 = mkReleaseRef (rr_id ref1) (rr_version ref1) (rr_created_at ref1) true ∧
  t_members (db_tables d2) = t_members (db_tables d1) ∧
  ∃ row1 row2, vr_id row1 = rr_id ref1 ∧ vr_id row2 = rr_id ref1 ∧
    row1 ∈ t_vehicles (db_tables d1) ∧ row2 ∈ t_vehicles (db_tables d2) ∧
    ∀ c, vr_config_snapshot row1 = Some c → vr_config_snapshot row2 = Some c.
Proof.
  apply with_pool_Ok in Hc1 as (a & b & Ha & Hc1 & Hb), Hc2 as (a' & b' & Ha' & Hc2 & Hb').
  simplify_eq.
  apply create_vehicle_Ok in Hc1 as (row & Hrow & Href & _ & _ & Hcase).
  apply create_vehicle_Ok in Hc2 as (row2 & Hrow2 & Href2 & _ & _ & Hcase2).
  assert (vehicle_identity (nv_members req2) (nv_disabled_members req2) =
    vehicle_identity (nv_members req1) (nv_disabled_members req1)) as Hid.
  { unfold vehicle_identity. do 3 f_equal. by apply vehicle_identity_text_inj. }
  rewrite Hid, Htag, Hrow in Hcase2. destruct Hcase2 as (Hre & Heq & Hsnap & Hmem).
  assert (vr_id row2 = vr_id row) as Hids by (by injection Heq).
  rewrite Href2, Hre, Heq. split_and!; [by rewrite Href|done|].
  exists row, row2. rewrite Href. simpl. split_and!; try done.
  - unfold vehicle_of in Hrow. apply head_Some_elem_of in Hrow.
    by apply list_elem_of_filter in Hrow as [_ ?].
  - unfold vehicle_of in Hrow2. apply head_Some_elem_of in Hrow2.
    by apply list_elem_of_filter in Hrow2 as [_ ?].
  - intros c Hc. by rewrite Hsnap, Hc.
Qed.

(** The creation is not a transaction: when the statement that inserts the
    first part fails, the release stays without its parts, and the retry of the
    same request reports that empty release as the reused content. *)
Lemma create_component_release_partial (req : NewComponentRelease) s d p ps
    (Hparts : nc_parts req = p :: ps) (Hd : app_pool s = Some d)
    (Hfaults : db_faults d = [None; None; Some 0])
    (Hnew : component_of (db_tables d) (nc_entity_path req)
              (component_identity (nc_entity_kind req) (nc_parts req)) = None)
    (Hid : ¬ Exists (λ r, cr_id r = db_component_seq d) (t_components (db_tables d)))
    (Hrows : rows_of (db_tables d) (db_component_seq d) = []) :
  ∃ s1 e s2 ref d2,
    create_component_release req s = (s1, Err e) ∧
    create_component_release req s1 = (s2, Ok ref) ∧
    rr_reused ref = true ∧ app_pool s2 = Some d2 ∧
    rows_of (db_tables d2) (rr_id ref) = [].
Proof.
  destruct d as [t cseq vseq now fs], s as [b i pl g]. simpl in *. subst pl fs.
  set (identity := component_identity (nc_entity_kind req) (nc_parts req)) in *.
  set (row := mkComponentRow cseq (nc_entity_path req) (nc_entity_kind req)
    (nc_version req) now (Some identity)).
  set (t1 := add_component row t).
  assert (¬ Exists (λ r, cr_id r = cseq ∨ (cr_entity_path r = nc_entity_path req ∧
    cr_identity_hash r = Some identity)) (t_components t)) as Hno.
  { rewrite list.Exists_exists. intros (r & Hr & [Hc|Hc]).
    - apply Hid. rewrite list.Exists_exists. eauto.
    - unfold component_of in Hnew.
      assert (r ∈ filter (λ r, cr_entity_path r = nc_entity_path req ∧
        cr_identity_hash r = Some identity) (t_components t)) as Hin
        by by apply list_elem_of_filter.
      destruct (filter _ _); [by apply elem_of_nil in Hin|done]. }
  assert (create_component_release req (mkAppState b i (Some (mkHubDb t cseq vseq now
    [None; None; Some 0])) g) = (mkAppState b i (Some (mkHubDb t1 (cseq + 1) vseq now [])) g,
    Err (Internal "connection lost"))) as H1.
  { unfold create_component_release, with_pool, create_component_release_db, pool. simpl.
    fold identity. unfold component_of in Hnew. unfold_act.
    unfold db, select_component_by_identity, query, statement. simpl. rewrite Hnew. simpl.
    unfold insert_component, statement. simpl. rewrite decide_False by done. simpl.
    rewrite Hparts. simpl. unfold_act. unfold db. simpl. done. }
  assert (component_of t1 (nc_entity_path req) identity = Some row) as Hsel
    by by apply head_filter_snoc.
  eexists _, _, _, (component_ref row true), _. split; [exact H1|]. split.
  { unfold create_component_release, with_pool, create_component_release_db, pool. simpl.
    fold identity. unfold_act. unfold db, select_component_by_identity, query, statement.
    unfold component_of in Hsel. subst t1. simpl in Hsel |- *. rewrite Hsel. simpl. done. }
  split_and!; [done|done|exact Hrows].
Qed.
End create_properties.

(** A release database with no rows. *)
Definition empty_tables : Tables := mkTables [] [] [] [] [] [].
Definition example_db (fs : faults) : HubDb := mkHubDb empty_tables 1 1 1000 fs.
Definition example_app (fs : faults) : AppState () () HubDb () :=
  mkAppState () () (Some (example_db fs)) ().
Definition example_request : NewComponentRelease :=
  mkNewComponentRelease "vm1" "vm" "1.0.0"
    [mkNewPart "kernel" "file" hash_a; mkNewPart "dtb" "file" hash_b].
Definition example_request' : NewComponentRelease :=
  mkNewComponentRelease "vm1" "vm" "1.0.1"
    [mkNewPart "dtb" "file" hash_b; mkNewPart "kernel" "file" hash_a].
Definition example_vehicle_request : NewVehicleRelease :=
  mkNewVehicleRelease "rig" "7" [1%Z] [] (Some "{}").

(** A successful run of a database handler, taken apart. *)
Lemma with_pool_run {B I G A} (m : act HubDb AppError A) (s : AppState B I HubDb G) :
  is_ok (with_pool m s).2 = true →
  ∃ d' a, with_pool m s = ((with_pool m s).1, Ok a) ∧
    app_pool (with_pool m s).1 = Some d'.
Proof.
  intros [a Ha]%is_ok_Ok.
  assert (with_pool m s = ((with_pool m s).1, Ok a)) as Hrun
    by (rewrite <- Ha; apply surjective_pairing).
  destruct (with_pool_Ok _ _ _ _ Hrun) as (d & d' & _ & _ & Hd'). by exists d', a.
Qed.

Lemma create_component_release_idempotent_witness :
  let s1 := (create_component_release example_request (example_app [])).1 in
  let s2 := (create_component_release example_request' s1).1 in
  (create_component_release example_request' s1).2 =
    Ok (mkReleaseRef 1 "1.0.0" 1000 true) ∧
  (db_tables <$> app_pool s2) = (db_tables <$> app_pool s1).
Proof.
  intros s1 s2. split; [by vm_compute|].
  destruct (with_pool_run (create_component_release_db example_request) (example_app []))
    as (d1 & ref1 & H1 & Hd1); [by vm_compute|].
  destruct (with_pool_run (create_component_release_db example_request') s1)
    as (d2 & ref2 & H2 & Hd2); [by vm_compute|].
  assert (NoDup (np_id <$> nc_parts example_request)) as Hnd by by_compute.
  assert (nc_parts example_request ≡ₚ nc_parts example_request') as Hp
    by apply Permutation_swap.
  destruct (create_component_release_idempotent example_request example_request'
    (example_app []) s1 s2 ref1 ref2 (example_db []) d1 d2 eq_refl eq_refl Hnd Hp
    eq_refl Hd1 Hd2 H1 H2) as (_ & Ht & _).
  unfold s2, s1, create_component_release in *. rewrite Hd1, Hd2. simpl. by rewrite Ht.
Defined.

Definition example_component_app : AppState () () HubDb () :=
  (create_component_release example_request (example_app [])).1.

Lemma create_vehicle_release_idempotent_witness :
  let s1 := (create_vehicle_release example_vehicle_request example_component_app).1 in
  let req := mkNewVehicleRelease "rig" "8" [1; 1]%Z [2%Z] (Some "[]") in
  let s2 := (create_vehicle_release req s1).1 in
  (create_vehicle_release req s1).2 = Ok (mkReleaseRef 1 "7" 1000 true) ∧
  ∃ d1 d2, app_pool s1 = Some d1 ∧ app_pool s2 = Some d2 ∧
    t_members (db_tables d2) = t_members (db_tables d1).
Proof.
  intros s1 req s2. split; [by vm_compute|].
  destruct (with_pool_run (create_vehicle_release_db example_vehicle_request)
    example_component_app) as (d1 & ref1 & H1 & Hd1); [by vm_compute|].
  destruct (with_pool_run (create_vehicle_release_db req) s1)
    as (d2 & ref2 & H2 & Hd2); [by vm_compute|].
  exists d1, d2. split_and!; [exact Hd1|exact Hd2|].
  apply (create_vehicle_release_idempotent example_vehicle_request req
    example_component_app s1 s2 ref1 ref2 d1 d2 eq_refl); [| |exact Hd1|exact Hd2|exact H1|exact H2].
  - intros x. unfold req, example_vehicle_request. simpl. rewrite !elem_of_cons, !elem_of_nil. lia.
  - intros x. unfold effective_disabled. rewrite !list_elem_of_filter. simpl.
    rewrite !elem_of_cons, !elem_of_nil. lia.
Defined.

Lemma create_component_release_partial_witness :
  ∃ s1 e s2 ref d2,
    create_component_release example_request (example_app [None; None; Some 0]) = (s1, Err e) ∧
    create_component_release example_request s1 = (s2, Ok ref) ∧
    rr_reused ref = true ∧ app_pool s2 = Some d2 ∧
    rows_of (db_tables d2) (rr_id ref) = [].
Proof.
  apply (create_component_release_partial example_request (example_app [None; None; Some 0])
    (example_db [None; None; Some 0]) (mkNewPart "kernel" "file" hash_a)
    [mkNewPart "dtb" "file" hash_b]); [done|done|done|done| |done].
  intros Hex. inversion Hex.
Defined.

(** * Lemmas: setting a channel target *)

Section set_lemmas.
Context `{HexCodec, Sha256, RowOrder}.

(** The row a channel request writes. *)
Definition target_row (req : SetChannelTarget) (th : string) (now : Z) : ChannelRow :=
  mkChannelRow (sc_channel req) (sc_device req) (sc_architecture req)
    (sc_vehicle_release_id req) th now.

(** The tables after a channel target has been set. *)
Definition channel_set (req : SetChannelTarget) (th : string) (t t' : Tables) : Prop :=
  ∃ channels served now, t' = set_channels channels served t ∧
    Exists (λ r, vr_id r = sc_vehicle_release_id req) (t_vehicles t) ∧
    mkServedRow (sc_vehicle_release_id req) (sc_device req) (sc_architecture req) ∈ served ∧
    (∀ r, r ∈ t_served t → r ∈ served) ∧
    head (filter (λ r, ct_channel r = sc_channel req ∧ ct_device r = sc_device req ∧
      ct_architecture r = sc_architecture req) channels) = Some (target_row req th now) ∧
    (∀ r, r ∈ t_channels t → ¬ same_channel_key (target_row req th now) r → r ∈ channels).

Lemma resolve_members_reads v d d' r :
  resolve_members_to_tree v d = (d', r) → db_tables d' = db_tables d.
Proof.
  intros Hr. assert (preserves (λ s, db_tables s = db_tables d) (resolve_members_to_tree v))
    as Hp.
  { unfold resolve_members_to_tree, select_members.
    apply preserves_bind; [apply (preserves_query _ (λ t, t = db_tables d))|].
    intros ms. apply preserves_fold. intros tree m _. unfold resolve_member.
    apply preserves_bind; [apply (preserves_query _ (λ t, t = db_tables d))|].
    intros row. apply preserves_bind; [apply (preserves_query _ (λ t, t = db_tables d))|].
    intros rows. apply preserves_bind; [|auto with preserve].
    apply preserves_fold. auto with preserve. }
  specialize (Hp d eq_refl). by rewrite Hr in Hp.
Qed.

Lemma set_channel_run req d d' r :
  set_channel_target_db req d = (d', r) →
  (db_tables d' = db_tables d ∧ ∃ e, r = Err e) ∨
  ∃ d0 tree, resolve_members_to_tree (sc_vehicle_release_id req) d = (d0, Ok tree) ∧
    channel_set req (tree_hash tree) (db_tables d) (db_tables d') ∧
    ((∃ e, r = Err e) ∨
     r = Ok (mkChannelTargetRef (sc_channel req) (sc_device req) (sc_architecture req)
       (sc_vehicle_release_id req) (tree_hash tree))).
Proof.
  unfold set_channel_target_db, db, gets. unfold mbind at 1, act_bind at 1. cbv zeta.
  destruct (resolve_members_to_tree _ d) as [d0 r0] eqn:Hres.
  pose proof (resolve_members_reads _ _ _ _ Hres) as Ht0.
  destruct r0 as [tree|e]; simpl; [|intros; simplify_eq; left; eauto].
  unfold mbind at 1 2, act_bind at 1 2.
  destruct (transaction _ d0) as [d1 r1] eqn:Htx.
  apply transaction_inv in Htx as [(Ht1 & e & ->)|(s1 & s2 & a & Hs1 & _ & Hbody & Ht1 & Hr1)].
  { simpl. intros; simplify_eq. left. split; [congruence|eauto]. }
  apply bind_inv_Ok in Hbody as (s3 & [] & Hserved%insert_served_Ok & Hup%upsert_channel_Ok).
  destruct Hserved as (_ & served & Hs3 & Hin & Hall).
  destruct Hup as (_ & Hv & channels & Hs2 & Hhead & _ & Hkeep).
  rewrite Hs3 in Hs2, Hv, Hkeep. rewrite Hs1, Ht0 in Hs2, Hv, Hkeep, Hall. simpl in *.
  assert (channel_set req (tree_hash tree) (db_tables d) (db_tables d1)) as Hset.
  { exists channels, served, (db_now d0). rewrite Ht1, Hs2. split_and!; try done.
    intros r' Hr'. apply Hall. auto. }
  destruct Hr1 as [[e ->]| ->]; simpl; intros [= <- <-]; right; exists d0, tree; split_and!; eauto.
Qed.
End set_lemmas.

(** The vehicle release a selector designates. *)
Definition selected_vehicle (t : Tables) (sel : TargetSelector) : option Z :=
  match sel_vehicle_release_id sel, sel_channel sel with
  | Some id, _ => if decide (Exists (λ r, vr_id r = id) (t_vehicles t)) then Some id else None
  | None, Some channel =>
      match sel_device sel, sel_architecture sel with
      | Some d, Some a =>
          ct_vehicle <$> head (filter (λ r, ct_channel r = channel ∧ ct_device r = d ∧
            ct_architecture r = a) (t_channels t))
      | _, _ =>
          match ct_vehicle <$> filter (λ r, ct_channel r = channel) (t_channels t) with
          | [v] => Some v
          | _ => None
          end
      end
  | None, None => None
  end.

Section select_lemmas.
Context `{HexCodec, Sha256, RowOrder}.

Lemma scan_singleton {A} (l : list A) :
  (match scan l with [v] => Some v | _ => None end) =
  (match l with [v] => Some v | _ => None end).
Proof.
  pose proof (scan_Permutation l) as Hp. destruct l as [|a [|b l]].
  - apply Permutation_nil_r in Hp. by rewrite Hp.
  - apply Permutation_singleton_r in Hp. by rewrite Hp.
  - apply Permutation_length in Hp. by destruct (scan (a :: b :: l)) as [|? [|? ?]].
Qed.

(** The release a channel selector designates. *)
Lemma channel_target_vehicle_triple channel device architecture hash t :
  triple (reading t True) (channel_target_vehicle channel device architecture)
    (λ o s, reading t True s ∧ o = selected_vehicle t
       (mkTargetSelector (Some channel) device architecture None hash))
    (λ _ _, False).
Proof.
  unfold channel_target_vehicle, selected_vehicle. simpl.
  assert (triple (reading t True)
    (rows ← select_channel_all channel;
     mret (match rows with [v] => Some v | _ => None end))
    (λ o s, reading t True s ∧ o =
       match ct_vehicle <$> filter (λ r, ct_channel r = channel) (t_channels t) with
       | [v] => Some v | _ => None end) (λ _ _, False)) as Hall.
  { eapply triple_bind; [apply query_triple; [by intros e s _ []|done]|].
    intros rows. apply triple_pure. intros [= <-]. apply triple_ret_if. intros s Hs.
    split; [done|]. by apply scan_singleton. }
  destruct device as [dv|], architecture as [ar|]; try exact Hall.
  eapply (triple_conseq _ _ _ _ _ _ (λ _ _, False));
    [apply (query_triple _ t True); [by intros e s _ []|done]|done| |done].
  intros o s [Hs [= <-]]. done.
Qed.

Lemma db_triple {A} (m : act HubDb string A) P Q (R : AppError → HubDb → Prop) :
  triple P m Q (λ e, R (Internal e)) → triple P (db m) Q R.
Proof.
  intros Hm s Hs. specialize (Hm s Hs). unfold db. by destruct (m s) as [s' [a|e]].
Qed.

Lemma resolve_selected_triple sel t :
  tables_ok t →
  triple (reading t True) (resolve_selected sel)
    (λ o s, (is_Some (sel_vehicle_release_id sel) ∨ is_Some (sel_channel sel)) ∧
       match selected_vehicle t sel with
       | None => o = None
       | Some v => ∃ tree, o = Some tree ∧ tree_of_members t (members_of t v) tree
       end)
    (λ e _, sel_vehicle_release_id sel = None ∧ sel_channel sel = None ∧
       e = BadRequest "channel or vehicle_release_id is required").
Proof.
  intros Hok.
  assert (∀ v (R : string → HubDb → Prop), triple (reading t True) (resolve_members_to_tree v)
    (λ tree s, tree_of_members t (members_of t v) tree) R) as Hres.
  { intros v R. eapply triple_conseq; [by apply (resolve_members_triple v t True)|done|..].
    - by intros tree s [_ ?].
    - by intros e s [_ []]. }
  unfold resolve_selected. destruct sel as [[ch|] dv ar [id|] th];
    cbn [sel_channel sel_device sel_architecture sel_vehicle_release_id].
  - eapply triple_bind; [apply db_triple, query_triple; [by intros e s _ []|done]|].
    intros b. apply triple_pure. intros [= <-]. unfold selected_vehicle. simpl.
    case_bool_decide; case_decide; try done.
    + eapply triple_bind; [apply db_triple, Hres|]. intros tree. apply triple_ret_if. eauto.
    + apply triple_ret_if. eauto.
  - apply db_triple. unfold resolve_channel_target.
    eapply triple_bind; [eapply triple_conseq;
      [apply (channel_target_vehicle_triple ch dv ar th t)|done|done|done]|].
    intros o. apply triple_pure. intros ->.
    destruct (selected_vehicle _ _) as [v|].
    + eapply triple_bind; [apply Hres|]. intros tree. apply triple_ret_if. eauto.
    + apply triple_ret_if. eauto.
  - eapply triple_bind; [apply db_triple, query_triple; [by intros e s _ []|done]|].
    intros b. apply triple_pure. intros [= <-]. unfold selected_vehicle. simpl.
    case_bool_decide; case_decide; try done.
    + eapply triple_bind; [apply db_triple, Hres|]. intros tree. apply triple_ret_if. eauto.
    + apply triple_ret_if. eauto.
  - by intros s Hs.
Qed.
End select_lemmas.

(** * Properties: channel targets *)

Section channel_properties.
Context `{HexCodec, Sha256}.

(** C24: resolving a vehicle release of a consistent database fails only when a
    statement fails, and yields a tree with exactly one entity per component of
    its members: the component's kind and version, the member's disabled flag, and
    exactly the stored parts; it never changes a table. *)
Theorem resolve_members_to_tree_spec `{RowOrder} (v : Z) (d d' : HubDb)
    (r : result string Tree)
    (Hok : tables_ok (db_tables d)) (Hr : resolve_members_to_tree v d = (d', r)) :
  db_tables d' = db_tables d ∧
  (no_faults (db_faults d) → ∃ tree, r = Ok tree) ∧
  (∀ tree, r = Ok tree →
     (∀ path e, tree !! path = Some e →
        ∃ m, m ∈ members_of (db_tables d) v ∧ resolves_to (db_tables d) m path e) ∧
     (∀ m row, m ∈ members_of (db_tables d) v →
        component_row (db_tables d) (vrm_component m) = Some row →
        is_Some (tree !! cr_entity_path row))).
Proof.
  assert (reading (db_tables d) (no_faults (db_faults d)) d) as Hread by done.
  pose proof (resolve_members_triple v _ _ Hok d Hread) as Ht. rewrite Hr in Ht.
  destruct r as [tree|e].
  - destruct Ht as [[Hd _] [Hin Hall]]. split_and!; [done|eauto|].
    intros tree' [= <-]. split; [done|]. intros m row Hm Hrow. by eapply Hall.
  - destruct Ht as [[Hd _] Hq]. split_and!; [done|by intros ?|done].
Qed.

(** C10: the tree hash binds a plan to its execution: once a channel is pointed at a
    vehicle release whose members are releases of distinct entities, a request
    pinned to the returned hash resolves to a tree with that hash, whatever order the
    database returns rows in then and now; any other pinned hash is refused.  Nothing
    in the schema or the handlers makes the entities of the members distinct;
    [shared_entity_unpins] shows what happens when they are not. *)
Theorem set_channel_target_pins (O1 O2 : RowOrder) (req : SetChannelTarget)
    (d d1 d2 : HubDb) (ref : ChannelTargetRef) (pinned : string)
    (r : result AppError (option Tree))
    (Hok : tables_ok (db_tables d))
    (Hpaths : distinct_paths (db_tables d) (sc_vehicle_release_id req))
    (Hset : @set_channel_target_db _ _ O1 req d = (d1, Ok ref))
    (Hq : no_faults (db_faults d1))
    (Hres : @resolve_target _ _ O2 (mkTargetSelector (Some (sc_channel req))
       (Some (sc_device req)) (Some (sc_architecture req)) None (Some pinned)) d1 = (d2, r)) :
  (pinned = ctr_tree_hash ref →
     ∃ tree, r = Ok (Some tree) ∧ tree_hash tree = ctr_tree_hash ref) ∧
  (pinned ≠ ctr_tree_hash ref → r = Err (BadRequest "tree_hash does not match release")).
Proof.
  apply set_channel_run in Hset as [(_ & e & ?)|(d0 & tree0 & Hres0 & Hset & [[e ?]|[= ->]])];
    [done..|]. simpl.
  assert (reading (db_tables d) False d) as Hread0 by done.
  pose proof (λ O : RowOrder, resolve_members_triple (sc_vehicle_release_id req) _ False Hok
    d Hread0) as Htree0. specialize (Htree0 O1). rewrite Hres0 in Htree0. destruct Htree0 as [_ Htree0].
  destruct Hset as (ch & sv & now & Ht1 & _ & _ & _ & Hhead & _).
  assert (tables_ok (db_tables d1)) as Hok1 by by rewrite Ht1.
  assert (reading (db_tables d1) True d1) as Hread1 by done.
  (* the exact lookup finds the row just written *)
  unfold resolve_target, resolve_selected in Hres. simpl in Hres.
  assert (triple (reading (db_tables d1) True)
    (@resolve_channel_target _ O2 (sc_channel req) (Some (sc_device req))
       (Some (sc_architecture req)))
    (λ o s, reading (db_tables d1) True s ∧ ∃ tree, o = Some tree ∧
       tree_of_members (db_tables d1) (members_of (db_tables d1) (sc_vehicle_release_id req)) tree)
    (λ _ _, False)) as Htriple.
  { unfold resolve_channel_target, channel_target_vehicle.
    eapply triple_bind; [apply query_triple; [by intros e s _ []|done]|].
    intros o. apply triple_pure. intros [= Ho]. rewrite Ht1 in Ho. simpl in Ho.
    rewrite Hhead in Ho. simpl in Ho. subst o.
    eapply triple_bind.
    - eapply triple_conseq; [by apply resolve_members_triple|done|done|]. naive_solver.
    - intros tree. apply triple_ret_if. intros s [Hs Htree]. split; [done|]. eauto. }
  specialize (Htriple d1 Hread1). unfold db in Hres. unfold mbind, act_bind in Hres.
  destruct (resolve_channel_target _ _ _ d1) as [d3 [o|e]]; [|done].
  destruct Htriple as (_ & tree & -> & Htree). simpl in Hres.
  assert (tree_hash tree = tree_hash tree0) as Hh.
  { unfold tree_hash. do 3 f_equal. apply tree_hash_text_proper.
    eapply tree_of_members_unique; [exact Hok|exact Hpaths| |exact Htree0].
    by rewrite Ht1 in Htree. }
  rewrite Hh in Hres. split.
  - intros ->. rewrite bool_decide_false in Hres by naive_solver.
    injection Hres as <- <-. eauto.
  - intros Hne. rewrite bool_decide_true in Hres by done. by injection Hres as <- <-.
Qed.

(** Setting a channel target is atomic: whichever statement fails, and
    even when the answer to the commit is lost, the tables are as before or hold
    both the served tuple and the channel pointing at the release; success means
    the latter, other targets keep theirs, and a release that does not exist is
    refused with nothing written. *)
Lemma set_channel_target_atomic `{RowOrder} (req : SetChannelTarget) (d d' : HubDb)
    (r : result AppError ChannelTargetRef)
    (Hset : set_channel_target_db req d = (d', r)) :
  ((db_tables d' = db_tables d ∧ ∃ e, r = Err e) ∨
   ∃ th, channel_set req th (db_tables d) (db_tables d') ∧
     ((∃ e, r = Err e) ∨ r = Ok (mkChannelTargetRef (sc_channel req) (sc_device req)
        (sc_architecture req) (sc_vehicle_release_id req) th))) ∧
  (¬ Exists (λ v, vr_id v = sc_vehicle_release_id req) (t_vehicles (db_tables d)) →
     db_tables d' = db_tables d ∧ ∃ e, r = Err e).
Proof.
  apply set_channel_run in Hset as [Hsame|(d0 & tree & _ & Hset & Hr)]; [by auto|].
  split; [right; eauto|]. intros Hno. by destruct Hset as (? & ? & ? & _ & Hv & _).
Qed.

(** Resolving a selector of a consistent database, no statement failing:
    without channel and release it is a client error; a release that does not
    exist, an unknown target and a channel that does not have exactly one target
    (when device and architecture are not both given) resolve to nothing; anything
    else resolves to the release's tree, refused exactly when a supplied tree hash
    differs from it. *)
Lemma resolve_target_outcomes `{RowOrder} (sel : TargetSelector) (d d' : HubDb)
    (r : result AppError (option Tree))
    (Hok : tables_ok (db_tables d)) (Hq : no_faults (db_faults d))
    (Hr : resolve_target sel d = (d', r)) :
  match sel_vehicle_release_id sel, sel_channel sel, selected_vehicle (db_tables d) sel with
  | None, None, _ => r = Err (BadRequest "channel or vehicle_release_id is required")
  | _, _, None => r = Ok None
  | _, _, Some v =>
      ∃ tree, tree_of_members (db_tables d) (members_of (db_tables d) v) tree ∧
        r = match sel_tree_hash sel with
            | Some expected =>
                if bool_decide (tree_hash tree = expected) then Ok (Some tree)
                else Err (BadRequest "tree_hash does not match release")
            | None => Ok (Some tree)
            end
  end.
Proof.
  pose proof (resolve_selected_triple sel (db_tables d) Hok d (conj eq_refl (λ _, Hq))) as Ht.
  unfold resolve_target, mbind, act_bind in Hr.
  destruct (resolve_selected sel d) as [d1 [o|e]]; simpl in Hr.
  - destruct Ht as [Hsome Ht].
    destruct (selected_vehicle (db_tables d) sel) as [v|].
    + destruct Ht as (tree & -> & Htree).
      assert (r = match sel_tree_hash sel with
        | Some expected => if bool_decide (tree_hash tree = expected) then Ok (Some tree)
            else Err (BadRequest "tree_hash does not match release")
        | None => Ok (Some tree) end) as Hrr.
      { destruct (sel_tree_hash sel) as [ex|]; [|by injection Hr as _ <-].
        destruct (decide (tree_hash tree = ex)) as [Heq|Hne].
        - rewrite bool_decide_true by done. rewrite bool_decide_false in Hr by naive_solver.
          by injection Hr as _ <-.
        - rewrite bool_decide_false by done. rewrite bool_decide_true in Hr by done.
          by injection Hr as _ <-. }
      destruct (sel_vehicle_release_id sel), (sel_channel sel); eauto.
      by destruct Hsome as [[? ?]|[? ?]].
    + subst o. assert (r = Ok None) as ->
        by (destruct (sel_tree_hash sel); by injection Hr as _ <-).
      destruct (sel_vehicle_release_id sel), (sel_channel sel); try done.
      by destruct Hsome as [[? ?]|[? ?]].
  - destruct Ht as (-> & -> & ->). by injection Hr as _ <-.
Qed.
End channel_properties.

(** * Properties: the consistency of the release database *)

Section invariant_properties.
Context `{HexCodec, Sha256}.

Lemma is_Some_head_app {A} (P : A → Prop) `{∀ x, Decision (P x)} (l l' : list A) :
  is_Some (head (filter P l)) → is_Some (head (filter P (l ++ l'))).
Proof. rewrite list.filter_app. destruct (filter P l); [by intros [? ?]|done]. Qed.

Lemma preserves_db {A} (P : Tables → Prop) (m : act HubDb string A) :
  preserves (λ s, P (db_tables s)) m → preserves (λ s, P (db_tables s)) (db m).
Proof. intros Hm s Hs. specialize (Hm s Hs). unfold db. by destruct (m s). Qed.

Lemma insert_component_ok path kind version identity :
  preserves (λ s, tables_ok (db_tables s)) (insert_component path kind version identity).
Proof.
  apply preserves_statement. intros s (Hm & Hp & Hnd). cbv zeta.
  case_decide; simpl; [done|]. split_and!; [|done|done].
  intros m Hin. apply is_Some_head_app. by apply Hm.
Qed.

Lemma insert_part_ok id p :
  preserves (λ s, tables_ok (db_tables s)) (insert_part (mkPartTableRow id (np_id p)
    (np_kind p) (to_prefixed (np_content p)))).
Proof.
  apply preserves_statement. intros s (Hm & Hp & Hnd). cbv zeta.
  case_decide as Hno; [done|]. case_decide as Hfk; simpl; [|done]. split_and!; [done|..].
  - intros r [Hr|Hr]%elem_of_app; [by apply Hp|]. apply list_elem_of_singleton in Hr as ->.
    unfold part_of_row. simpl. rewrite from_str_to_prefixed. eauto.
  - intros i. unfold rows_of. simpl. rewrite list.filter_app, fmap_app. apply list.NoDup_app.
    split_and!; [apply Hnd| |].
    + intros x Hx Hx2. rewrite list.filter_cons in Hx2. simpl in Hx2.
      case_decide as Hi; [|by apply elem_of_nil in Hx2]. subst i.
      apply list_elem_of_singleton in Hx2 as ->.
      apply list_elem_of_fmap in Hx as (r & Hid & [Hrel Hr]%list_elem_of_filter).
      apply Hno. apply list.Exists_exists. exists r. done.
    + rewrite list.filter_cons. case_decide; simpl; [apply NoDup_singleton|constructor].
Qed.

Lemma insert_member_ok row :
  preserves (λ s, tables_ok (db_tables s)) (insert_member row).
Proof.
  apply preserves_statement. intros s (Hm & Hp & Hnd). cbv zeta.
  case_decide as Hno; [done|]. case_decide as Hfk; simpl; [|done]. split_and!; [|done|done].
  intros m [Hin|Hin]%elem_of_app; [by apply Hm|]. apply list_elem_of_singleton in Hin as ->.
  destruct Hfk as [_ (r & Hr & Hid)%list.Exists_exists]. unfold component_row. simpl.
  assert (r ∈ filter (λ r, cr_id r = vrm_component row) (t_components (db_tables s))) as Hf
    by by apply list_elem_of_filter.
  destruct (filter _ _); [by apply elem_of_nil in Hf|]. eauto.
Qed.

(** Every handler that writes the release database keeps it consistent,
    whatever the requests and whichever statements fail: each member refers to a
    stored component release, each stored content hash can be read back, and no
    component release has two parts with one id. *)
Lemma handlers_preserve_tables_ok `{RowOrder} :
  (∀ req, preserves (λ d, tables_ok (db_tables d)) (create_component_release_db req)) ∧
  (∀ req, preserves (λ d, tables_ok (db_tables d)) (create_vehicle_release_db req)) ∧
  (∀ req, preserves (λ d, tables_ok (db_tables d)) (set_channel_target_db req)).
Proof.
  split_and!; intros req.
  - apply preserves_bind; [by apply preserves_db, (preserves_query _ tables_ok)|].
    intros [row|]; [apply preserves_ret|].
    apply preserves_bind; [apply preserves_db, insert_component_ok|]. intros row.
    apply preserves_bind; [|intros; apply preserves_ret].
    apply preserves_for_each. intros p _. apply preserves_db, insert_part_ok.
  - apply preserves_bind; [by apply preserves_db, (preserves_query _ tables_ok)|].
    intros [row|].
    + apply preserves_bind; [|intros; apply preserves_ret].
      destruct (nv_config_snapshot req); [|apply preserves_ret].
      by apply preserves_db, preserves_statement.
    + apply preserves_bind; [|intros row].
      * apply preserves_db, preserves_statement. intros s Hs. cbv zeta. by case_decide.
      * apply preserves_bind; [|intros; apply preserves_ret].
        apply preserves_for_each. intros m _. apply preserves_db, insert_member_ok.
  - intros d Hd. destruct (set_channel_target_db req d) as [d' r] eqn:Hset. simpl.
    apply set_channel_run in Hset as [(Ht & _)|(d0 & tree & _ & Hset & _)].
    + by rewrite Ht.
    + by destruct Hset as (ch & sv & now & -> & _).
Qed.
End invariant_properties.

(** * Evaluating on a concrete release database *)

#[export] Instance stored_order : RowOrder := {|
  scan A l := l; scan_Permutation A l := reflexivity l |}.
Definition reversed_order : RowOrder := {|
  scan A l := reverse l; scan_Permutation A l := reverse_Permutation l |}.

(** Two components, the second disabled, in one vehicle release. *)
Definition example_tables : Tables := mkTables
  [mkComponentRow 1 "vm1" "vm" "1.0.0" 1000 (Some "c1");
   mkComponentRow 2 "vm2" "vm" "1.0.0" 1000 (Some "c2")]
  [mkPartTableRow 1 "kernel" "file" (to_prefixed hash_a);
   mkPartTableRow 1 "dtb" "file" (to_prefixed hash_b)]
  [mkVehicleRow 1 "rig" "7" 1000 (Some "v1") None]
  [mkMemberRow 1 1 false; mkMemberRow 1 2 true] [] [].

Definition example_release_db : HubDb := mkHubDb example_tables 3 2 1000 [].

Definition example_target : SetChannelTarget := mkSetChannelTarget "bleeding" "rig" "arm64" 1.

Lemma example_tables_ok : tables_ok example_tables.
Proof.
  split_and!.
  - intros m Hm. simpl in Hm. rewrite !elem_of_cons, elem_of_nil in Hm.
    destruct Hm as [->|[->|[]]]; by eexists.
  - intros r Hr. cbn [t_parts example_tables] in Hr. rewrite !elem_of_cons, elem_of_nil in Hr.
    destruct Hr as [->|[->|[]]]; unfold part_of_row; cbn [crp_content_hash];
      rewrite from_str_to_prefixed; by eexists.
  - intros id. unfold rows_of. simpl. rewrite !list.filter_cons. simpl.
    case_decide; simpl; [|constructor]. by_compute.
Qed.

Lemma resolve_members_to_tree_spec_witness :
  tables_ok (db_tables example_release_db) ∧
  ∃ tree e, (resolve_members_to_tree 1 example_release_db).2 = Ok tree ∧
    tree !! "vm2" = Some e ∧ entity_disabled e = true.
Proof.
  split; [apply example_tables_ok|].
  destruct (resolve_members_to_tree 1 example_release_db) as [d' r] eqn:Hr.
  destruct (resolve_members_to_tree_spec 1 example_release_db d' r example_tables_ok Hr)
    as (_ & Hok & Hspec).
  destruct Hok as [tree ->]; [constructor|]. destruct (Hspec tree eq_refl) as [Hin Hall].
  destruct (Hall (mkMemberRow 1 2 true) (mkComponentRow 2 "vm2" "vm" "1.0.0" 1000 (Some "c2")))
    as [e He]; [by_compute|done|].
  exists tree, e. split_and!; [done|done|]. simpl in He.
  destruct (Hin _ _ He) as (m & Hm & row & Hrow & Hp & _ & _ & -> & _).
  apply list_elem_of_filter in Hm as [_ Hm].
  cbn [db_tables example_release_db t_members example_tables] in Hm.
  rewrite !elem_of_cons, elem_of_nil in Hm.
  destruct Hm as [->|[->|[]]]; [|done]. vm_compute in Hrow. by simplify_eq.
Defined.

Lemma set_channel_target_pins_witness :
  ∃ d1 ref tree,
    @set_channel_target_db _ _ stored_order example_target example_release_db = (d1, Ok ref) ∧
    (@resolve_target _ _ reversed_order (mkTargetSelector (Some "bleeding") (Some "rig")
      (Some "arm64") None (Some (ctr_tree_hash ref))) d1).2 = Ok (Some tree) ∧
    tree_hash tree = ctr_tree_hash ref.
Proof.
  destruct (is_ok_Ok (@set_channel_target_db _ _ stored_order example_target
    example_release_db).2) as [ref Href]; [by vm_compute|].
  destruct (set_channel_target_db example_target example_release_db) as [d1 r] eqn:Hset.
  simpl in Href. subst r. exists d1, ref.
  assert (distinct_paths (db_tables example_release_db) (sc_vehicle_release_id example_target))
    as Hpaths by by_compute.
  assert (no_faults (db_faults d1)) as Hq.
  { assert (db_faults d1 = db_faults (set_channel_target_db example_target
      example_release_db).1) as -> by by rewrite Hset.
    by_compute. }
  destruct (@resolve_target _ _ reversed_order (mkTargetSelector (Some "bleeding") (Some "rig")
      (Some "arm64") None (Some (ctr_tree_hash ref))) d1) as [d2 r] eqn:Hres.
  destruct (set_channel_target_pins stored_order reversed_order example_target
    example_release_db d1 d2 ref (ctr_tree_hash ref) r example_tables_ok Hpaths Hset Hq Hres)
    as [Hp _].
  destruct (Hp eq_refl) as (tree & -> & Hh). exists tree. done.
Defined.

(** * Two members of one entity *)

(** Two releases of [vm1] with different parts, a vehicle release of both and a
    channel pointed at that. *)
Definition example_shared_request : NewComponentRelease :=
  mkNewComponentRelease "vm1" "vm" "2.0.0" [mkNewPart "kernel" "file" hash_b].

Definition share_entity : act (AppState () () HubDb ()) AppError
    (ReleaseRef * ReleaseRef * ReleaseRef * ChannelTargetRef) :=
  a ← create_component_release example_request;
  b ← create_component_release example_shared_request;
  v ← create_vehicle_release (mkNewVehicleRelease "rig" "7" [rr_id a; rr_id b] [] None);
  c ← set_channel_target (mkSetChannelTarget "bleeding" "rig" "arm64" (rr_id v));
  mret (a, b, v, c).

Definition shared_selector (h : string) : TargetSelector :=
  mkTargetSelector (Some "bleeding") (Some "rig") (Some "arm64") None (Some h).

Definition ask (O : RowOrder) (h : string) (s : AppState () () HubDb ()) :
    result AppError Tree :=
  (@channel_target_tree _ _ O _ _ _ (shared_selector h) s).2.

(** The hash is good as long as rows come back in the same order, and refused when
    they come back in the reverse one. *)
Definition share_unpinned (run : AppState () () HubDb () *
    result AppError (ReleaseRef * ReleaseRef * ReleaseRef * ChannelTargetRef)) : bool :=
  match run with
  | (s, Ok (a, b, v, c)) =>
      bool_decide (rr_id a ≠ rr_id b) && bool_decide (ctr_vehicle_release_id c = rr_id v) &&
      is_ok (ask stored_order (ctr_tree_hash c) s) &&
      match ask reversed_order (ctr_tree_hash c) s with
      | Err (BadRequest m) => bool_decide (m = "tree_hash does not match release")
      | _ => false
      end
  | _ => false
  end.

Lemma share_unpinned_inv run : share_unpinned run = true → ∃ s a b v c tree,
  run = (s, Ok (a, b, v, c)) ∧ rr_id a ≠ rr_id b ∧ ctr_vehicle_release_id c = rr_id v ∧
  ask stored_order (ctr_tree_hash c) s = Ok tree ∧
  ask reversed_order (ctr_tree_hash c) s = Err (BadRequest "tree_hash does not match release").
Proof.
  intros Hr. destruct run as [s [[[[a b] v] c]|]]; [|done].
  apply andb_true_iff in Hr as [[[Hab Hv]%andb_true_iff Ht]%andb_true_iff Hm].
  apply bool_decide_eq_true in Hab, Hv. apply is_ok_Ok in Ht as [tree Ht].
  exists s, a, b, v, c, tree. split_and!; try done.
  destruct (ask reversed_order _ _) as [|[|m| |]]; try done.
  apply bool_decide_eq_true in Hm. by subst m.
Qed.

(** C21: a vehicle release may have two members of one entity, of which the row the
    database returns last wins; the tree hash then pins nothing.  From the empty
    database and with no failure at all: two releases of one entity with different
    parts are cut, a vehicle release of both, and a channel is pointed at it, every
    request succeeding; the tree asked for with the hash the channel was answered is
    returned if the rows come back in the same order, and refused, although nothing
    has been written since, if they come back in another. *)
Theorem shared_entity_unpins : ∃ s a b v c tree,
  share_entity (example_app []) = (s, Ok (a, b, v, c)) ∧
  nc_entity_path example_request = nc_entity_path example_shared_request ∧
  rr_id a ≠ rr_id b ∧ ctr_vehicle_release_id c = rr_id v ∧
  (@channel_target_tree _ _ stored_order _ _ _ (shared_selector (ctr_tree_hash c)) s).2 =
    Ok tree ∧
  (@channel_target_tree _ _ reversed_order _ _ _ (shared_selector (ctr_tree_hash c)) s).2 =
    Err (BadRequest "tree_hash does not match release").
Proof.
  destruct (share_unpinned_inv (share_entity (example_app [])))
    as (s & a & b & v & c & tree & Hrun & Hab & Hv & Ht & Hm); [vm_compute; reflexivity|].
  exists s, a, b, v, c, tree. split; [exact Hrun|]. split; [reflexivity|].
  split; [exact Hab|]. split; [exact Hv|]. split; [exact Ht|exact Hm].
Qed.

Lemma set_channel_target_atomic_witness :
  (∃ e, (set_channel_target_db (mkSetChannelTarget "bleeding" "rig" "arm64" 9)
     example_release_db).2 = Err e) ∧
  db_tables (set_channel_target_db (mkSetChannelTarget "bleeding" "rig" "arm64" 9)
     example_release_db).1 = example_tables.
Proof.
  destruct (set_channel_target_db (mkSetChannelTarget "bleeding" "rig" "arm64" 9)
    example_release_db) as [d' r] eqn:Hset.
  destruct (set_channel_target_atomic _ _ _ _ Hset) as [_ Hno].
  destruct Hno as [Ht He]; [|by split].
  rewrite list.Exists_exists. intros (x & Hx & Hid). simpl in Hx.
  apply list_elem_of_singleton in Hx as ->. done.
Defined.

Lemma resolve_target_outcomes_witness :
  (resolve_target (mkTargetSelector None None None None None) example_release_db).2 =
    Err (BadRequest "channel or vehicle_release_id is required") ∧
  (resolve_target (mkTargetSelector None None None (Some 1%Z) (Some "x")) example_release_db).2 =
    Err (BadRequest "tree_hash does not match release").
Proof.
  split.
  - destruct (resolve_target _ example_release_db) as [d' r] eqn:Hr.
    apply (resolve_target_outcomes _ example_release_db d' r example_tables_ok
      (List.Forall_nil _) Hr).
  - by vm_compute.
Defined.
