(* ===== verification/Schema.v ===== *)
(** The integrity of Tower 2's release database
    (src/crates/software-tower/migrations): what its keys, unique indexes and
    foreign keys guarantee between any two statements, and what each statement of
    the handlers does to it, whether it answers, fails or loses its answer. *)

From S2P Require Import Prelude Ext Wire Store Content HubDb Releases.

(** * Integrity *)

Section integrity_def.
Context `{HexCodec}.

(** The tables with the next values of the two sequences. *)
Record integrity (t : Tables) (cseq vseq : Z) : Prop := {
  int_tables : tables_ok t;
  int_component_ids : NoDup (cr_id <$> t_components t);
  int_component_seq : ∀ r, r ∈ t_components t → (cr_id r < cseq)%Z;
  int_component_identity : ∀ r1 r2 i, r1 ∈ t_components t → r2 ∈ t_components t →
    cr_entity_path r1 = cr_entity_path r2 → cr_identity_hash r1 = Some i →
    cr_identity_hash r2 = Some i → r1 = r2;
  int_vehicle_ids : NoDup (vr_id <$> t_vehicles t);
  int_vehicle_seq : ∀ r, r ∈ t_vehicles t → (vr_id r < vseq)%Z;
  int_vehicle_identity : ∀ r1 r2 i, r1 ∈ t_vehicles t → r2 ∈ t_vehicles t →
    vr_tag r1 = vr_tag r2 → vr_identity_hash r1 = Some i →
    vr_identity_hash r2 = Some i → r1 = r2;
  int_parts : ∀ p, p ∈ t_parts t → Exists (λ r, cr_id r = crp_release_id p) (t_components t);
  int_members : ∀ m, m ∈ t_members t → Exists (λ r, vr_id r = vrm_vehicle m) (t_vehicles t);
  int_channels : ∀ c, c ∈ t_channels t → Exists (λ r, vr_id r = ct_vehicle c) (t_vehicles t);
  int_served : ∀ x, x ∈ t_served t → Exists (λ r, vr_id r = served_vehicle x) (t_vehicles t);
}.

Definition db_ok (s : HubDb) : Prop :=
  integrity (db_tables s) (db_component_seq s) (db_vehicle_seq s).
End integrity_def.

(** * What a statement did *)

(** Two databases that differ in the faults ahead and the time only. *)
Definition same_db (s s' : HubDb) : Prop :=
  db_tables s' = db_tables s ∧ db_component_seq s' = db_component_seq s ∧
  db_vehicle_seq s' = db_vehicle_seq s.

Lemma same_db_refl s : same_db s s.
Proof. by split_and!. Qed.

Lemma db_ok_same `{HexCodec} s s' : same_db s s' → db_ok s → db_ok s'.
Proof. unfold db_ok. by intros (-> & -> & ->). Qed.

(** The answer is the expected one, or lost. *)
Definition answers {A} (expected r : result string A) : Prop :=
  r = expected ∨ ∃ e, r = Err e.

(** The statement did nothing or took effect, and its answer is that of its effect
    or lost. *)
Lemma statement_cases {A} (f : HubDb → HubDb * result string A) s s' r :
  statement f s = (s', r) → ∃ fs,
    (s' = set_faults fs s ∧ ∃ e, r = Err e) ∨
    (s' = (f (set_faults fs s)).1 ∧ answers (f (set_faults fs s)).2 r).
Proof.
  unfold statement. destruct (next_fault _) as [[[|n]|] fs]; intros Hs; exists fs;
    simplify_eq; [left; by eauto|right; split; [done|right; by eauto]|right].
  rewrite Hs. split; [done|by left].
Qed.

Lemma query_same {A} (f : Tables → result string A) s s' r :
  query f s = (s', r) →
  same_db s s' ∧ answers (f (db_tables s)) r.
Proof.
  intros (fs & [[-> He]|[-> Hr]])%statement_cases; (split; [done|]); [by right|].
  exact Hr.
Qed.

(** A statement on a row: refused or lost with the tables as they were, or applied. *)
Definition refused {A} (s s' : HubDb) (r : result string A) : Prop :=
  same_db s s' ∧ ∃ e, r = Err e.

Lemma insert_component_cases path kind version identity s s' r :
  insert_component path kind version identity s = (s', r) →
  (db_tables s' = db_tables s ∧ db_vehicle_seq s' = db_vehicle_seq s ∧
   (db_component_seq s' = db_component_seq s ∨ db_component_seq s' = db_component_seq s + 1)%Z ∧
   ∃ e, r = Err e) ∨
  let row := mkComponentRow (db_component_seq s) path kind version (db_now s) (Some identity) in
  db_tables s' = add_component row (db_tables s) ∧
  db_component_seq s' = (db_component_seq s + 1)%Z ∧ db_vehicle_seq s' = db_vehicle_seq s ∧
  (∀ x, x ∈ t_components (db_tables s) → cr_entity_path x = path →
     cr_identity_hash x ≠ Some identity) ∧
  answers (Ok row) r.
Proof.
  intros (fs & [[-> He]|[-> Hr]])%statement_cases; [left; by split_and!; auto|].
  cbn zeta in *. simpl in *. case_decide as Hd; simpl in *.
  - left. split_and!; auto. destruct Hr as [->|]; eauto.
  - right. split_and!; try done. intros x Hx Hp Hi. apply Hd. apply list.Exists_exists.
    exists x. split; [done|]. by right.
Qed.

Lemma insert_part_cases row s s' r :
  insert_part row s = (s', r) →
  refused s s' r ∨
  db_tables s' = add_parts [row] (db_tables s) ∧
  db_component_seq s' = db_component_seq s ∧ db_vehicle_seq s' = db_vehicle_seq s ∧
  (∀ x, x ∈ t_parts (db_tables s) → crp_release_id x = crp_release_id row →
     crp_part_id x ≠ crp_part_id row) ∧
  Exists (λ x, cr_id x = crp_release_id row) (t_components (db_tables s)) ∧
  answers (Ok ()) r.
Proof.
  intros (fs & [[-> He]|[-> Hr]])%statement_cases; [left; by split|].
  cbn zeta in *. simpl in *.
  case_decide as Hd; [|case_decide as Hf]; simpl in *.
  - left. split; [by split_and!|]. destruct Hr as [->|]; eauto.
  - right. split_and!; try done. intros x Hx Hp Hi. apply Hd, list.Exists_exists. eauto.
  - left. split; [by split_and!|]. destruct Hr as [->|]; eauto.
Qed.

Lemma insert_vehicle_cases tag version identity config s s' r :
  insert_vehicle tag version identity config s = (s', r) →
  (db_tables s' = db_tables s ∧ db_component_seq s' = db_component_seq s ∧
   (db_vehicle_seq s' = db_vehicle_seq s ∨ db_vehicle_seq s' = db_vehicle_seq s + 1)%Z ∧
   ∃ e, r = Err e) ∨
  let row := mkVehicleRow (db_vehicle_seq s) tag version (db_now s) (Some identity) config in
  db_tables s' = add_vehicle row (db_tables s) ∧
  db_component_seq s' = db_component_seq s ∧ db_vehicle_seq s' = (db_vehicle_seq s + 1)%Z ∧
  (∀ x, x ∈ t_vehicles (db_tables s) → vr_tag x = tag → vr_identity_hash x ≠ Some identity) ∧
  answers (Ok row) r.
Proof.
  intros (fs & [[-> He]|[-> Hr]])%statement_cases; [left; by split_and!; auto|].
  cbn zeta in *. simpl in *. case_decide as Hd; simpl in *.
  - left. split_and!; auto. destruct Hr as [->|]; eauto.
  - right. split_and!; try done. intros x Hx Hp Hi. apply Hd. apply list.Exists_exists.
    exists x. split; [done|]. by right.
Qed.

Lemma insert_member_cases row s s' r :
  insert_member row s = (s', r) →
  refused s s' r ∨
  db_tables s' = add_members [row] (db_tables s) ∧
  db_component_seq s' = db_component_seq s ∧ db_vehicle_seq s' = db_vehicle_seq s ∧
  Exists (λ x, vr_id x = vrm_vehicle row) (t_vehicles (db_tables s)) ∧
  Exists (λ x, cr_id x = vrm_component row) (t_components (db_tables s)) ∧
  answers (Ok ()) r.
Proof.
  intros (fs & [[-> He]|[-> Hr]])%statement_cases; [left; by split|].
  cbn zeta in *. simpl in *.
  case_decide as Hd; [|case_decide as Hf]; simpl in *.
  - left. split; [by split_and!|]. destruct Hr as [->|]; eauto.
  - right. by destruct Hf; split_and!.
  - left. split; [by split_and!|]. destruct Hr as [->|]; eauto.
Qed.

(** The vehicles after the update of a snapshot. *)
Definition with_snapshot (id : Z) (config : option json) (t : Tables) : Tables :=
  mkTables (t_components t) (t_parts t) (set_snapshot id config <$> t_vehicles t)
    (t_members t) (t_channels t) (t_served t).

Lemma coalesce_cases id config s s' r :
  coalesce_config_snapshot id config s = (s', r) →
  refused s s' r ∨
  db_tables s' = with_snapshot id config (db_tables s) ∧
  db_component_seq s' = db_component_seq s ∧ db_vehicle_seq s' = db_vehicle_seq s ∧
  answers (Ok ()) r.
Proof.
  intros (fs & [[-> He]|[-> Hr]])%statement_cases; [left; by split|]. right. by split_and!.
Qed.

(** The two sequences; statements on channels draw from neither. *)
Definition seqs (s : HubDb) : Z * Z := (db_component_seq s, db_vehicle_seq s).

Lemma preserves_seqs_statement {A} c (f : HubDb → HubDb * result string A) :
  (∀ s, seqs (f s).1 = seqs s) → preserves (λ s, seqs s = c) (statement f).
Proof.
  intros Hf s <-. destruct (statement f s) as [s' r] eqn:Hs. simpl.
  apply statement_cases in Hs as (fs & [[-> _]|[-> _]]); [done|]. by rewrite Hf.
Qed.

Lemma preserves_seqs_transaction {A} c (body : act HubDb string A) :
  preserves (λ s, seqs s = c) body → preserves (λ s, seqs s = c) (transaction body).
Proof.
  intros Hb s Hs. unfold transaction.
  pose proof (preserves_seqs_statement c (λ s, (s, Ok ())) (λ s, eq_refl) s Hs) as Hs1.
  destruct (statement _ s) as [s1 [u|e]]; [|done]. simpl in Hs1.
  specialize (Hb s1 Hs1). destruct (body s1) as [s2 [a|e]]; [|done].
  by destruct (next_fault _) as [[[|n]|] fs].
Qed.

(** * Lemmas: integrity is preserved *)

Section integrity.
Context `{HexCodec, Sha256}.

Lemma component_row_elem t id row :
  component_row t id = Some row → row ∈ t_components t ∧ cr_id row = id.
Proof. intros Hh%head_Some_elem_of. by apply list_elem_of_filter in Hh as [? ?]. Qed.

Lemma Exists_filter_head {A} (P : A → Prop) `{∀ x, Decision (P x)} (l : list A) :
  Exists P l ↔ is_Some (head (filter P l)).
Proof.
  rewrite list.Exists_exists. split.
  - intros (x & Hx & HP). assert (x ∈ filter P l) as Hin by by apply list_elem_of_filter.
    destruct (filter P l); [by apply elem_of_nil in Hin|by eexists].
  - intros [x Hx%head_Some_elem_of]. apply list_elem_of_filter in Hx as [? ?]. eauto.
Qed.

(** A key is found at its row: ids are unique. *)
Lemma component_row_lookup t cseq vseq row :
  integrity t cseq vseq → row ∈ t_components t → component_row t (cr_id row) = Some row.
Proof.
  intros Hi Hrow. destruct (component_row t (cr_id row)) as [row'|] eqn:Hr.
  - apply component_row_elem in Hr as [Hin Hid]. f_equal.
    pose proof (int_component_ids _ _ _ Hi) as Hnd.
    apply list_elem_of_lookup in Hrow as [i Hr1], Hin as [j Hr2].
    assert (i = j) as ->; [|congruence].
    eapply (NoDup_lookup _ _ _ (cr_id row) Hnd); rewrite list_lookup_fmap;
      [by rewrite Hr1|by rewrite Hr2; simpl; rewrite Hid].
  - assert (is_Some (component_row t (cr_id row))) as [? ?]; [|congruence].
    apply Exists_filter_head, list.Exists_exists. eauto.
Qed.

(** A sequence may skip values. *)
Lemma integrity_seq t c v c' v' :
  integrity t c v → (c ≤ c')%Z → (v ≤ v')%Z → integrity t c' v'.
Proof.
  intros [] Hc Hv. split; try done.
  - intros r Hr. specialize (int_component_seq0 r Hr). lia.
  - intros r Hr. specialize (int_vehicle_seq0 r Hr). lia.
Qed.

Lemma Exists_snoc {A} (P : A → Prop) l x : Exists P l → Exists P (l ++ [x]).
Proof. intros Hl. apply Exists_app. by left. Qed.
Hint Resolve Exists_snoc : core.

Lemma NoDup_snoc_key {A} (key : A → Z) l x (bound : Z) :
  NoDup (key <$> l) → (∀ y, y ∈ l → (key y < bound)%Z) → key x = bound →
  NoDup (key <$> l ++ [x]).
Proof.
  intros Hnd Hlt Hx. rewrite fmap_app. apply list.NoDup_app. split_and!; [done| |apply NoDup_singleton].
  intros k (y & -> & Hy)%list_elem_of_fmap. simpl.
  rewrite list_elem_of_singleton. apply Hlt in Hy. lia.
Qed.

Lemma integrity_add_component t c v row i :
  integrity t c v → cr_id row = c → cr_identity_hash row = Some i →
  (∀ x, x ∈ t_components t → cr_entity_path x = cr_entity_path row →
     cr_identity_hash x ≠ Some i) →
  tables_ok (add_component row t) → integrity (add_component row t) (c + 1) v.
Proof.
  intros [] Hid Hi Hno Hok. split; try done; simpl; try done; try by auto.
  - by apply (NoDup_snoc_key _ _ _ c).
  - intros r [Hr|Hr%list_elem_of_singleton]%elem_of_app; [|subst; lia].
    specialize (int_component_seq0 r Hr). lia.
  - intros r1 r2 i' [H1|H1]%elem_of_app [H2|H2]%elem_of_app; [by eauto| | |];
      repeat match goal with
        | H : _ ∈ [_] |- _ => apply list_elem_of_singleton in H as -> end; [..|done];
      intros Hp He1 He2; exfalso; [eapply (Hno r1)|eapply (Hno r2)]; eauto; congruence.
Qed.

Lemma integrity_add_vehicle t c v row i :
  integrity t c v → vr_id row = v → vr_identity_hash row = Some i →
  (∀ x, x ∈ t_vehicles t → vr_tag x = vr_tag row → vr_identity_hash x ≠ Some i) →
  integrity (add_vehicle row t) c (v + 1).
Proof.
  intros [] Hid Hi Hno. split; try done; simpl; try done; try by auto.
  - by apply (NoDup_snoc_key _ _ _ v).
  - intros r [Hr|Hr%list_elem_of_singleton]%elem_of_app; [|subst; lia].
    specialize (int_vehicle_seq0 r Hr). lia.
  - intros r1 r2 i' [H1|H1]%elem_of_app [H2|H2]%elem_of_app; [by eauto| | |];
      repeat match goal with
        | H : _ ∈ [_] |- _ => apply list_elem_of_singleton in H as -> end; [..|done];
      intros Hp He1 He2; exfalso; [eapply (Hno r1)|eapply (Hno r2)]; eauto; congruence.
Qed.

Lemma integrity_add_part t c v row :
  integrity t c v → Exists (λ x, cr_id x = crp_release_id row) (t_components t) →
  tables_ok (add_parts [row] t) → integrity (add_parts [row] t) c v.
Proof.
  intros [] Hfk Hok. split; try done; simpl; try done.
  intros p [Hp|Hp%list_elem_of_singleton]%elem_of_app; [by auto|by subst].
Qed.

Lemma integrity_add_member t c v row :
  integrity t c v → Exists (λ x, vr_id x = vrm_vehicle row) (t_vehicles t) →
  tables_ok (add_members [row] t) → integrity (add_members [row] t) c v.
Proof.
  intros [] Hfk Hok. split; try done; simpl; try done.
  intros m [Hm|Hm%list_elem_of_singleton]%elem_of_app; [by auto|by subst].
Qed.

Lemma set_snapshot_keys id config r :
  vr_id (set_snapshot id config r) = vr_id r ∧ vr_tag (set_snapshot id config r) = vr_tag r ∧
  vr_identity_hash (set_snapshot id config r) = vr_identity_hash r.
Proof. unfold set_snapshot. by case_decide. Qed.

Lemma Exists_set_snapshot id config (k : Z) l :
  Exists (λ r, vr_id r = k) l → Exists (λ r, vr_id r = k) (set_snapshot id config <$> l).
Proof.
  rewrite !list.Exists_exists. intros (x & Hx & Hk). exists (set_snapshot id config x).
  split; [by apply list_elem_of_fmap_2|]. by rewrite (proj1 (set_snapshot_keys id config x)).
Qed.
Hint Resolve Exists_set_snapshot : core.

Lemma integrity_snapshot t c v id config :
  integrity t c v → integrity (with_snapshot id config t) c v.
Proof.
  intros []. split; try done; simpl; try done; try by auto.
  - assert (vr_id <$> (set_snapshot id config <$> t_vehicles t) = vr_id <$> t_vehicles t)
      as ->; [|done].
    rewrite <- list_fmap_compose. apply list_fmap_ext. intros i r _. apply set_snapshot_keys.
  - intros r (x & -> & Hx)%list_elem_of_fmap.
    rewrite (proj1 (set_snapshot_keys id config x)). by apply int_vehicle_seq0.
  - intros r1 r2 i (x1 & -> & Hx1)%list_elem_of_fmap (x2 & -> & Hx2)%list_elem_of_fmap.
    destruct (set_snapshot_keys id config x1) as (_ & -> & ->).
    destruct (set_snapshot_keys id config x2) as (_ & -> & ->).
    intros Ht Hi1 Hi2. by rewrite (int_vehicle_identity0 x1 x2 i Hx1 Hx2 Ht Hi1 Hi2).
Qed.

Lemma integrity_set_channels t c v channels served :
  integrity t c v →
  (∀ r, r ∈ channels → Exists (λ x, vr_id x = ct_vehicle r) (t_vehicles t)) →
  (∀ r, r ∈ served → Exists (λ x, vr_id x = served_vehicle r) (t_vehicles t)) →
  integrity (set_channels channels served t) c v.
Proof. intros [] Hc Hs. by split. Qed.
End integrity.
