(* ===== verification/ReleaseTasks.v ===== *)
(** The release handlers of Tower 2 (src/crates/software-tower/src/releases.rs) as
    futures that the runtime interleaves: every statement is an await point on a
    shared database, a transaction takes effect at its commit.  Run alone they are
    the handlers of [Releases]. *)

From S2P Require Import Prelude Ext Async Wire Store Content HubDb Releases.

(** * The handlers, one await per statement *)

(** [.await.map_err(db)?]: a future on the database whose errors are internal. *)
Definition db_task {A} (m : task HubDb string A) : task HubDb AppError A :=
  fut_map (map_err Internal) m.

(** [fetch_optional(pool).await.map_err(db)?] and the like. *)
Definition stmt {A} (m : act HubDb string A) : task HubDb AppError A := db_task (call m).

Definition for_each_task {S E A} (f : A → task S E ()) (l : list A) : task S E () :=
  fold_task (λ _ x, f x) l ().

Section tasks.
Context `{HexCodec, Sha256, RowOrder}.

Definition create_component_release_task (req : NewComponentRelease) :
    task HubDb AppError ReleaseRef :=
  let identity := component_identity (nc_entity_kind req) (nc_parts req) in
  found ← stmt (select_component_by_identity (nc_entity_path req) identity);
  match found with
  | Some row => mret (component_ref row true)
  | None =>
      row ← stmt (insert_component (nc_entity_path req) (nc_entity_kind req)
                    (nc_version req) identity);
      _ ← for_each_task (λ p, stmt (insert_part (mkPartTableRow (cr_id row) (np_id p)
            (np_kind p) (to_prefixed (np_content p))))) (nc_parts req);
      mret (component_ref row false)
  end.

Definition create_vehicle_release_task (req : NewVehicleRelease) :
    task HubDb AppError ReleaseRef :=
  let identity := vehicle_identity (nv_members req) (nv_disabled_members req) in
  found ← stmt (select_vehicle_by_identity (nv_tag req) identity);
  match found with
  | Some row =>
      _ ← match nv_config_snapshot req with
          | Some _ => stmt (coalesce_config_snapshot (vr_id row) (nv_config_snapshot req))
          | None => mret ()
          end;
      mret (vehicle_ref row true)
  | None =>
      row ← stmt (insert_vehicle (nv_tag req) (nv_version req) identity
                    (nv_config_snapshot req));
      _ ← for_each_task (λ m, stmt (insert_member (mkMemberRow (vr_id row) m
            (bool_decide (m ∈ nv_disabled_members req))))) (nv_members req);
      mret (vehicle_ref row false)
  end.

(** One round of the member loop of [resolve_members_to_tree]. *)
Definition resolve_member_task (vehicle_id : Z) (tree : Tree) (m : MemberRow) :
    task HubDb string Tree :=
  let rid := vrm_component m in
  row ← call (select_component rid);
  let path := cr_entity_path row in
  parts ← call (select_parts rid);
  parts ← fold_task (λ acc p, part ← now (resolve_part vehicle_id rid path p);
                              mret (acc ++ [part])) parts [];
  mret (<[path := mkEntity (cr_entity_kind row) (Some (cr_version row)) None parts
                    (vrm_disabled m) None]> tree).

Definition resolve_members_to_tree_task (vehicle_id : Z) : task HubDb string Tree :=
  members ← call (select_members vehicle_id);
  fold_task (resolve_member_task vehicle_id) members ∅.

Definition resolve_channel_target_task (channel : string)
    (device architecture : option string) : task HubDb string (option Tree) :=
  vehicle ← call (channel_target_vehicle channel device architecture);
  match vehicle with
  | None => mret None
  | Some vehicle_id => tree ← resolve_members_to_tree_task vehicle_id; mret (Some tree)
  end.

Definition resolve_selected_task (selector : TargetSelector) :
    task HubDb AppError (option Tree) :=
  match sel_vehicle_release_id selector, sel_channel selector with
  | Some id, _ =>
      exists_ ← stmt (vehicle_exists id);
      if exists_ : bool
      then tree ← db_task (resolve_members_to_tree_task id); mret (Some tree)
      else mret None
  | None, Some channel =>
      db_task (resolve_channel_target_task channel (sel_device selector)
                 (sel_architecture selector))
  | None, None => now (Err (BadRequest "channel or vehicle_release_id is required"))
  end.

Definition resolve_target_task (selector : TargetSelector) :
    task HubDb AppError (option Tree) :=
  tree ← resolve_selected_task selector;
  match sel_tree_hash selector, tree with
  | Some expected, Some t =>
      if bool_decide (tree_hash t ≠ expected)
      then now (Err (BadRequest "tree_hash does not match release"))
      else mret tree
  | _, _ => mret tree
  end.

(** The transaction of [set_channel_target]: nothing of it is visible to others
    before its commit, and dropped before it, it leaves nothing. *)
Definition point_channel (req : SetChannelTarget) (th : string) : act HubDb string () :=
  now ← gets db_now;
  transaction (
    _ ← insert_served (mkServedRow (sc_vehicle_release_id req) (sc_device req)
          (sc_architecture req));
    upsert_channel (mkChannelRow (sc_channel req) (sc_device req) (sc_architecture req)
      (sc_vehicle_release_id req) th now)).

Definition set_channel_target_task (req : SetChannelTarget) :
    task HubDb AppError ChannelTargetRef :=
  tree ← db_task (resolve_members_to_tree_task (sc_vehicle_release_id req));
  let th := tree_hash tree in
  _ ← stmt (point_channel req th);
  mret (mkChannelTargetRef (sc_channel req) (sc_device req) (sc_architecture req)
    (sc_vehicle_release_id req) th).

(** [channel_target_tree]. *)
Definition channel_target_tree_task (sel : TargetSelector) : task HubDb AppError Tree :=
  tree ← resolve_target_task sel;
  now (ok_or NotFound tree).

(** * Requests *)

(** The requests on releases that may be under way at once, and their answers. *)
Inductive Request :=
  | CutComponent (req : NewComponentRelease)
  | CutVehicle (req : NewVehicleRelease)
  | PointChannel (req : SetChannelTarget)
  | ReadTree (sel : TargetSelector).

Inductive Answer :=
  | AnsRelease (ref : ReleaseRef)
  | AnsTarget (ref : ChannelTargetRef)
  | AnsTree (tree : Tree).

Definition request_task (q : Request) : fut HubDb (result AppError Answer) :=
  match q with
  | CutComponent req => ref ← create_component_release_task req; mret (AnsRelease ref)
  | CutVehicle req => ref ← create_vehicle_release_task req; mret (AnsRelease ref)
  | PointChannel req => ref ← set_channel_target_task req; mret (AnsTarget ref)
  | ReadTree sel => tree ← channel_target_tree_task sel; mret (AnsTree tree)
  end.

(** The sequential handlers of [Releases]. *)
Definition request_act (q : Request) : act HubDb AppError Answer :=
  match q with
  | CutComponent req => ref ← create_component_release_db req; mret (AnsRelease ref)
  | CutVehicle req => ref ← create_vehicle_release_db req; mret (AnsRelease ref)
  | PointChannel req => ref ← set_channel_target_db req; mret (AnsTarget ref)
  | ReadTree sel =>
      tree ← (tree ← resolve_target sel; lift (ok_or NotFound tree));
      mret (AnsTree tree)
  end.
End tasks.

(** * Lemmas: run alone *)

Section sequential.
Context `{HexCodec, Sha256, RowOrder}.

Lemma run_db_task {A} (m : task HubDb string A) (m' : act HubDb string A) s :
  run m s = m' s → run (db_task m) s = db m' s.
Proof. intros Hm. unfold db_task, db. by rewrite run_fut_map, Hm. Qed.

Lemma run_stmt {A} (m : act HubDb string A) s : run (stmt m) s = db m s.
Proof. apply run_db_task, run_call. Qed.

Lemma run_for_each {S E A} (f : A → task S E ()) f' l s :
  (∀ a s, run (f a) s = f' a s) → run (for_each_task f l) s = for_each f' l s.
Proof.
  intros Hf. unfold for_each_task. revert s. induction l as [|x l IH]; intros s; [done|].
  cbn [fold_task for_each]. apply run_bind; [by auto|]. intros [] s'. apply IH.
Qed.
End sequential.

Create HintDb sequential.
#[export] Hint Resolve run_stmt run_call : sequential.

(** Both sides step together. *)
Ltac run_alone := repeat first
  [ done | progress intros | by auto with sequential
  | apply run_bind | apply run_for_each | apply run_fold | apply run_db_task | case_match ].

Section sequential_handlers.
Context `{HexCodec, Sha256, RowOrder}.

Lemma run_resolve_members v s :
  run (resolve_members_to_tree_task v) s = resolve_members_to_tree v s.
Proof. unfold resolve_members_to_tree_task, resolve_members_to_tree. run_alone. Qed.
Hint Resolve run_resolve_members : sequential.

Lemma run_resolve_target sel s : run (resolve_target_task sel) s = resolve_target sel s.
Proof.
  unfold resolve_target_task, resolve_target, resolve_selected_task, resolve_selected.
  run_alone.
Qed.
Hint Resolve run_resolve_target : sequential.

(** A request served with no other under way is the handler of [Releases], on every
    branch and under every failing statement. *)
Lemma request_task_sequential (q : Request) s : run (request_task q) s = request_act q s.
Proof.
  destruct q as [req|req|req|sel]; apply run_bind; try (by intros; done); clear s; intros s.
  - unfold create_component_release_task, create_component_release_db. run_alone.
  - unfold create_vehicle_release_task, create_vehicle_release_db. run_alone.
  - unfold set_channel_target_task, set_channel_target_db. apply run_bind; [run_alone|].
    intros tree s'. transitivity ((_ ← db (point_channel req (tree_hash tree));
      mret (mkChannelTargetRef (sc_channel req) (sc_device req) (sc_architecture req)
        (sc_vehicle_release_id req) (tree_hash tree))) s'); [by run_alone|].
    done.
  - unfold channel_target_tree_task. run_alone.
Qed.
End sequential_handlers.
