(* ===== verification/ReleaseRace.v ===== *)
(** Concurrent requests on the releases of Tower 2: what each request promises to
    the others at every statement, and what every interleaving, failure and
    cancellation of any number of them keeps true of the database. *)

From S2P Require Import Prelude Ext Async Wire Store Content HubDb Releases Schema ReleaseTasks.
From stdpp Require Import relations.

(** * What a request owns *)

(** The release whose parts or members a request is inserting. *)
Inductive Owned :=
  | OwnComponent (id : Z)
  | OwnVehicle (id : Z).

#[export] Instance Owned_eq_dec : EqDecision Owned.
Proof. solve_decision. Defined.

(** The rows below a release. *)
Definition contents (t : Tables) (w : Owned) : list PartTableRow * list MemberRow :=
  match w with
  | OwnComponent id => (rows_of t id, [])
  | OwnVehicle id => ([], members_of t id)
  end.

(** Its id was drawn from the sequence. *)
Definition drawn (s : HubDb) (w : Owned) : Prop :=
  match w with
  | OwnComponent id => (id < db_component_seq s)%Z
  | OwnVehicle id => (id < db_vehicle_seq s)%Z
  end.

(** The row of a vehicle release later on: only its snapshot may have been set. *)
Definition renewed (r r' : VehicleRow) : Prop :=
  vr_id r' = vr_id r ∧ vr_tag r' = vr_tag r ∧ vr_version r' = vr_version r ∧
  vr_created_at r' = vr_created_at r ∧ vr_identity_hash r' = vr_identity_hash r ∧
  ∀ c, vr_config_snapshot r = Some c → vr_config_snapshot r' = Some c.

(** What no statement of any request undoes. *)
Definition db_grows (s s' : HubDb) : Prop :=
  (∀ r, r ∈ t_components (db_tables s) → r ∈ t_components (db_tables s')) ∧
  (∀ r, r ∈ t_vehicles (db_tables s) →
     ∃ r', r' ∈ t_vehicles (db_tables s') ∧ renewed r r') ∧
  (∀ x, x ∈ t_served (db_tables s) → x ∈ t_served (db_tables s')) ∧
  (db_component_seq s ≤ db_component_seq s')%Z ∧ (db_vehicle_seq s ≤ db_vehicle_seq s')%Z.

Lemma renewed_refl r : renewed r r.
Proof. by split_and!. Qed.

Lemma renewed_trans r1 r2 r3 : renewed r1 r2 → renewed r2 r3 → renewed r1 r3.
Proof.
  intros (? & ? & ? & ? & ? & Hs1) (? & ? & ? & ? & ? & Hs2). split_and!; [congruence..|auto].
Qed.

Lemma renewed_snapshot id config r : renewed r (set_snapshot id config r).
Proof.
  unfold set_snapshot. case_decide; [|apply renewed_refl]. split_and!; try done.
  simpl. by intros c ->.
Qed.

Lemma db_grows_refl s : db_grows s s.
Proof. split_and!; try done. intros r Hr. exists r. split; [done|apply renewed_refl]. Qed.

Lemma db_grows_trans s1 s2 s3 : db_grows s1 s2 → db_grows s2 s3 → db_grows s1 s3.
Proof.
  intros (Hc & Hv & Hs & ? & ?) (Hc' & Hv' & Hs' & ? & ?). split_and!; [auto| |auto|lia|lia].
  intros r (r' & (r'' & ? & ?)%Hv' & ?)%Hv. exists r''. split; [done|by eapply renewed_trans].
Qed.

Lemma db_grows_same s s' : same_db s s' → db_grows s s'.
Proof.
  intros (Ht & Hc & Hv). unfold db_grows. rewrite Ht, Hc, Hv. apply db_grows_refl.
Qed.

Lemma drawn_grows s s' w : db_grows s s' → drawn s w → drawn s' w.
Proof. intros (_ & _ & _ & ? & ?). destruct w; simpl; lia. Qed.

Section rely.
Context `{HexCodec, Sha256}.
Implicit Types (o : option Owned) (s : HubDb).

(** The state the pool started in. *)
Context (start : HubDb).

(** Others leave alone what this request owns and what was there before any. *)
Definition db_frame o s s' : Prop :=
  db_grows s s' ∧ db_grows start s' ∧ db_ok s' ∧
  (∀ w, o = Some w → contents (db_tables s') w = contents (db_tables s) w) ∧
  (∀ w, drawn start w → contents (db_tables s') w = contents (db_tables start) w).

(** A statement keeps the integrity of the database, comes to own at most one
    release, a new one, and inserts below no other. *)
Definition db_promise o s o' s' : Prop :=
  db_grows s s' ∧ (db_ok s → db_ok s') ∧
  (o' = o ∨ o = None ∧ ∃ w, o' = Some w ∧ ¬ drawn s w ∧ drawn s' w) ∧
  ∀ w, o' ≠ Some w → contents (db_tables s') w = contents (db_tables s) w.

(** No release is owned twice, and none that was there before. *)
Definition db_owned (os : list (option Owned)) s : Prop :=
  db_ok s ∧ db_grows start s ∧
  (∀ i j w, os !! i = Some (Some w) → os !! j = Some (Some w) → i = j) ∧
  (∀ w, Some w ∈ os → drawn s w ∧ ¬ drawn start w) ∧
  (∀ w, drawn start w → contents (db_tables s) w = contents (db_tables start) w).

Lemma db_frame_trans o s1 s2 s3 : db_frame o s1 s2 → db_frame o s2 s3 → db_frame o s1 s3.
Proof.
  intros (Hg & _ & _ & Ho & _) (Hg' & Hgs & Hok & Ho' & Hst).
  split_and!; [by eapply db_grows_trans|done..| |done].
  intros w Hw. by rewrite Ho', Ho.
Qed.

Lemma db_promise_same o s s' : same_db s s' → db_promise o s o s'.
Proof.
  intros Hs. split_and!; [by apply db_grows_same|by apply db_ok_same|by left|].
  by destruct Hs as (-> & _).
Qed.

Lemma db_promise_refl o s s' : db_frame o s s' → db_promise o s' o s'.
Proof. intros _. by apply db_promise_same. Qed.

Lemma db_frame_refl os s i o : db_owned os s → os !! i = Some o → db_frame o s s.
Proof. intros (Hok & Hg & _ & _ & Hst) _. split_and!; auto using db_grows_refl. Qed.

Lemma db_owned_step os s i o o' s' :
  db_owned os s → os !! i = Some o → db_promise o s o' s' →
  db_owned (<[i := o']> os) s' ∧ ∀ j oj, j ≠ i → os !! j = Some oj → db_frame oj s s'.
Proof.
  intros (Hok & Hg & Hd & Hin & Hst) Hi (Hg' & Hok' & Ho & Hc).
  assert (∀ j w, os !! j = Some (Some w) → drawn s w ∧ ¬ drawn start w) as Hin'
    by (intros j w Hj; by eapply Hin, list_elem_of_lookup_2).
  assert (db_grows start s') as Hgs by by eapply db_grows_trans.
  assert (∀ w, o' = Some w → drawn s' w ∧ ¬ drawn start w) as Hnew.
  { intros w ->. destruct Ho as [<-|(_ & w' & [= <-] & Hn & Hd')].
    - destruct (Hin' i w Hi). split; [by eapply (drawn_grows s)|done].
    - split; [done|]. intros Hs. by apply Hn, (drawn_grows start). }
  assert (∀ w, drawn start w → contents (db_tables s') w = contents (db_tables start) w) as Hst'.
  { intros w Hw. rewrite Hc; [by apply Hst|]. intros Heq. by apply (Hnew w). }
  assert (∀ j w, <[i := o']> os !! j = Some (Some w) →
    j = i ∧ o' = Some w ∨ j ≠ i ∧ os !! j = Some (Some w)) as Hat.
  { intros j w Hj. destruct (decide (j = i)) as [->|Hne].
    - rewrite list_lookup_insert_eq in Hj by by eapply lookup_lt_Some. left. by simplify_eq.
    - rewrite list_lookup_insert_ne in Hj by done. auto. }
  (* what another request owns is not what this one does *)
  assert (∀ j w, j ≠ i → os !! j = Some (Some w) → o' ≠ Some w) as Hne.
  { intros j w Hji Hj ->. destruct Ho as [<-|(_ & w' & [= <-] & Hn & _)].
    - by apply Hji, (Hd j i w).
    - by apply Hn, (Hin' j w Hj). }
  split.
  - split_and!; [by auto|done| | |done].
    + intros j1 j2 w [[-> Ho1]|[Hn1 Hj1]]%Hat [[-> Ho2]|[Hn2 Hj2]]%Hat;
        [done|by destruct (Hne j2 w)|by destruct (Hne j1 w)|by eapply Hd].
    + intros w [j Hj]%list_elem_of_lookup. apply Hat in Hj as [[-> Hw]|[_ Hj]]; [by auto|].
      destruct (Hin' j w Hj). split; [by apply (drawn_grows s)|done].
  - intros j oj Hji Hj. split_and!; [done..|by auto| |done].
    intros w ->. apply Hc. by eapply Hne.
Qed.

(** ** The statements that write *)

Lemma db_promise_component path kind version identity o s s' r :
  insert_component path kind version identity s = (s', r) →
  (∃ e, r = Err e) ∧ db_promise o s o s' ∨
  ∃ row, r = Ok row ∧ row ∈ t_components (db_tables s') ∧ cr_entity_path row = path ∧
    cr_entity_kind row = kind ∧ cr_version row = version ∧
    cr_identity_hash row = Some identity ∧
    (db_ok s → rows_of (db_tables s') (cr_id row) = []) ∧
    (o = None → db_promise o s (Some (OwnComponent (cr_id row))) s').
Proof.
  intros Hs. pose proof (insert_component_ok path kind version identity s) as Hok.
  rewrite Hs in Hok. simpl in Hok.
  apply insert_component_cases in Hs as [(Ht & Hv & Hc & He)|(Ht & Hc & Hv & Hno & Hr)].
  - left. split; [done|]. unfold db_promise, db_grows, db_ok. rewrite Ht, Hv.
    destruct (db_grows_refl s) as (? & ? & ? & _ & _). split_and!; try done; [lia| |by left].
    intros Hdb. eapply integrity_seq; [done|lia|lia].
  - set (row := mkComponentRow _ _ _ _ _ _) in *.
    assert (∀ o', o' = o ∨ o = None ∧ o' = Some (OwnComponent (cr_id row)) →
      db_promise o s o' s') as Hp.
    { intros o' Ho'. split_and!.
      - unfold db_grows. rewrite Ht, Hc, Hv. destruct (db_grows_refl s) as (? & ? & ? & _ & _).
        split_and!; simpl; try done; [set_solver|lia].
      - intros Hdb. unfold db_ok. rewrite Ht, Hc, Hv.
        apply integrity_add_component with identity; try done.
        rewrite <- Ht. by apply int_tables, Hok in Hdb.
      - destruct Ho' as [->|[-> ->]]; [by left|right]. split; [done|]. eexists.
        split; [done|]. simpl. rewrite Hc. lia.
      - intros w _. rewrite Ht. by destruct w. }
    destruct Hr as [->|[e ->]]; [right; exists row|left; by eauto].
    split_and!; try done; [rewrite Ht; simpl; set_solver| |intros ->; apply Hp; by right].
    intros Hdb. rewrite Ht. change (rows_of (add_component row (db_tables s)) (cr_id row))
      with (rows_of (db_tables s) (cr_id row)).
    apply filter_none. intros p Hp' Hid. apply (int_parts _ _ _ Hdb) in Hp'.
    apply list.Exists_exists in Hp' as (x & Hx & Hxid).
    apply (int_component_seq _ _ _ Hdb) in Hx. simpl in Hid. lia.
Qed.

Lemma db_promise_part id p s s' r :
  insert_part (mkPartTableRow id (np_id p) (np_kind p) (to_prefixed (np_content p))) s = (s', r) →
  db_promise (Some (OwnComponent id)) s (Some (OwnComponent id)) s' ∧
  (∀ u, r = Ok u → rows_of (db_tables s') id = rows_of (db_tables s) id ++ part_rows id [p]).
Proof.
  intros Hs. pose proof (insert_part_ok id p s) as Hok. rewrite Hs in Hok. simpl in Hok.
  apply insert_part_cases in Hs as [[Hsame [e ->]]|(Ht & Hc & Hv & Hno & Hfk & Hr)].
  { split; [by apply db_promise_same|done]. }
  split.
  - split_and!.
    + unfold db_grows. rewrite Ht, Hc, Hv. apply db_grows_refl.
    + intros Hdb. unfold db_ok. rewrite Ht, Hc, Hv. apply integrity_add_part; [done..|].
      rewrite <- Ht. by apply int_tables, Hok in Hdb.
    + by left.
    + intros [i|i] Hi; rewrite Ht; simpl; [|done]. f_equal. unfold rows_of. simpl.
      rewrite list.filter_app, list.filter_cons. simpl. rewrite decide_False by congruence.
      apply app_nil_r.
  - intros u _. rewrite Ht. unfold rows_of. simpl. rewrite list.filter_app, list.filter_cons.
    simpl. by rewrite decide_True.
Qed.

Lemma db_promise_vehicle tag version identity config o s s' r :
  insert_vehicle tag version identity config s = (s', r) →
  (∃ e, r = Err e) ∧ db_promise o s o s' ∨
  ∃ row, r = Ok row ∧ row ∈ t_vehicles (db_tables s') ∧ vr_tag row = tag ∧
    vr_version row = version ∧ vr_identity_hash row = Some identity ∧
    vr_config_snapshot row = config ∧
    (db_ok s → members_of (db_tables s') (vr_id row) = []) ∧
    (o = None → db_promise o s (Some (OwnVehicle (vr_id row))) s').
Proof.
  intros Hs. apply insert_vehicle_cases in Hs as [(Ht & Hc & Hv & He)|(Ht & Hc & Hv & Hno & Hr)].
  - left. split; [done|]. unfold db_promise, db_grows, db_ok. rewrite Ht, Hc.
    destruct (db_grows_refl s) as (? & ? & ? & _ & _). split_and!; try done; [lia| |by left].
    intros Hdb. eapply integrity_seq; [done|lia|lia].
  - set (row := mkVehicleRow _ _ _ _ _ _) in *.
    assert (∀ o', o' = o ∨ o = None ∧ o' = Some (OwnVehicle (vr_id row)) →
      db_promise o s o' s') as Hp.
    { intros o' Ho'. split_and!.
      - unfold db_grows. rewrite Ht, Hc, Hv. split_and!; simpl; try done; [|lia].
        intros x Hx. exists x. split; [set_solver|apply renewed_refl].
      - intros Hdb. unfold db_ok. rewrite Ht, Hc, Hv. by apply integrity_add_vehicle with identity.
      - destruct Ho' as [->|[-> ->]]; [by left|right]. split; [done|]. eexists.
        split; [done|]. simpl. rewrite Hv. lia.
      - intros w _. rewrite Ht. by destruct w. }
    destruct Hr as [->|[e ->]]; [right; exists row|left; by eauto].
    split_and!; try done; [rewrite Ht; simpl; set_solver| |intros ->; apply Hp; by right].
    intros Hdb. rewrite Ht. change (members_of (add_vehicle row (db_tables s)) (vr_id row))
      with (members_of (db_tables s) (vr_id row)).
    apply filter_none. intros m Hm Hid. apply (int_members _ _ _ Hdb) in Hm.
    apply list.Exists_exists in Hm as (x & Hx & Hxid).
    apply (int_vehicle_seq _ _ _ Hdb) in Hx. simpl in Hid. lia.
Qed.

Lemma db_promise_member id m b s s' r :
  insert_member (mkMemberRow id m b) s = (s', r) →
  db_promise (Some (OwnVehicle id)) s (Some (OwnVehicle id)) s' ∧
  (∀ u, r = Ok u →
     members_of (db_tables s') id = members_of (db_tables s) id ++ [mkMemberRow id m b]).
Proof.
  intros Hs. pose proof (insert_member_ok (mkMemberRow id m b) s) as Hok.
  rewrite Hs in Hok. simpl in Hok.
  apply insert_member_cases in Hs as [[Hsame [e ->]]|(Ht & Hc & Hv & Hfv & Hfc & Hr)].
  { split; [by apply db_promise_same|done]. }
  split.
  - split_and!.
    + unfold db_grows. rewrite Ht, Hc, Hv. apply db_grows_refl.
    + intros Hdb. unfold db_ok. rewrite Ht, Hc, Hv. apply integrity_add_member; [done..|].
      rewrite <- Ht. by apply int_tables, Hok in Hdb.
    + by left.
    + intros [i|i] Hi; rewrite Ht; simpl; [done|]. f_equal. unfold members_of. simpl.
      rewrite list.filter_app, list.filter_cons. simpl. rewrite decide_False by congruence.
      apply app_nil_r.
  - intros u _. rewrite Ht. unfold members_of. simpl. rewrite list.filter_app, list.filter_cons.
    simpl. by rewrite decide_True.
Qed.

Lemma db_promise_snapshot id config o s s' r :
  coalesce_config_snapshot id config s = (s', r) →
  db_promise o s o s' ∧
  (∀ u row, r = Ok u → row ∈ t_vehicles (db_tables s) → vr_id row = id →
     is_Some config → ∃ row', row' ∈ t_vehicles (db_tables s') ∧ renewed row row' ∧
       is_Some (vr_config_snapshot row')).
Proof.
  intros [[Hsame [e ->]]|(Ht & Hc & Hv & Hr)]%coalesce_cases.
  { split; [by apply db_promise_same|done]. }
  split.
  - split_and!.
    + unfold db_grows. rewrite Ht, Hc, Hv. split_and!; simpl; try done.
      intros x Hx. exists (set_snapshot id config x).
      split; [by apply list_elem_of_fmap_2|apply renewed_snapshot].
    + intros Hdb. unfold db_ok. rewrite Ht, Hc, Hv. by apply integrity_snapshot.
    + by left.
    + intros w _. rewrite Ht. by destruct w.
  - intros u row _ Hin Hid [c ->]. exists (set_snapshot id (Some c) row). rewrite Ht.
    split_and!; [by apply list_elem_of_fmap_2|apply renewed_snapshot|].
    unfold set_snapshot. rewrite decide_True by done. simpl. by destruct (vr_config_snapshot row).
Qed.

Lemma point_channel_seqs req th c : preserves (λ s, seqs s = c) (point_channel req th).
Proof.
  apply preserves_bind; [apply preserves_gets|intros now].
  apply preserves_seqs_transaction, preserves_bind; [|intros u];
    apply preserves_seqs_statement; intros s; cbv zeta; by repeat case_decide.
Qed.

Lemma db_promise_point req th o s s' r :
  point_channel req th s = (s', r) →
  db_promise o s o s' ∧
  (∀ u, r = Ok u →
     mkServedRow (sc_vehicle_release_id req) (sc_device req) (sc_architecture req)
       ∈ t_served (db_tables s') ∧
     Exists (λ v, vr_id v = sc_vehicle_release_id req) (t_vehicles (db_tables s'))).
Proof.
  intros Hp. pose proof (point_channel_seqs req th (seqs s) s eq_refl) as Hseq.
  rewrite Hp in Hseq. injection Hseq as Hc Hv. simpl in Hc, Hv.
  unfold point_channel, gets in Hp. unfold mbind at 1, act_bind at 1 in Hp. cbv zeta in Hp.
  apply transaction_inv in Hp as [[Ht [e ->]]|(s1 & s2 & a & Hs1 & _ & Hbody & Ht & Hr)].
  { split; [by apply db_promise_same|done]. }
  apply bind_inv_Ok in Hbody as (s3 & [] & Hserved%insert_served_Ok & Hup%upsert_channel_Ok).
  destruct Hserved as (_ & served & Hs3 & Hin & Hall).
  destruct Hup as (_ & Hex & channels & Hs2 & _ & Hch & _).
  rewrite Hs3 in Hs2, Hex, Hch. rewrite Hs1 in Hs2, Hex, Hch, Hall. simpl in *.
  rewrite Hs2 in Ht. unfold set_channels in Ht. simpl in Ht.
  split; [|intros u _; rewrite Ht; done]. split_and!.
  - unfold db_grows. rewrite Ht, Hc, Hv. destruct (db_grows_refl s) as (? & ? & ? & _ & _).
    split_and!; simpl; try done. intros x Hx. apply Hall. by right.
  - intros Hdb. unfold db_ok. rewrite Ht, Hc, Hv. apply integrity_set_channels; [done|..].
    + intros x [-> |Hx]%Hch; [done|by apply (int_channels _ _ _ Hdb)].
    + intros x [-> |Hx]%Hall; [done|by apply (int_served _ _ _ Hdb)].
  - by left.
  - intros w _. rewrite Ht. by destruct w.
Qed.

(** ** Requests, statement by statement *)

Abbreviation safe_req := (safe db_frame db_promise).

Lemma db_frame_promise_refl o s s' : db_frame o s s' → db_promise o s' o s'.
Proof. intros _. by apply db_promise_same. Qed.

Lemma safe_db_task {A} (m : task HubDb string A) Q o s :
  safe_req (λ o r s, Q o (map_err Internal r) s) o m s → safe_req Q o (db_task m) s.
Proof. intros Hm. apply safe_fut_bind. exact Hm. Qed.

Lemma safe_stmt {A} (m : act HubDb string A) Q o s :
  (∀ s1 s2 r, db_frame o s s1 → m s1 = (s2, r) →
     ∃ o', db_promise o s1 o' s2 ∧ Q o' (map_err Internal r) s2) →
  safe_req Q o (stmt m) s.
Proof.
  intros Hm. apply safe_db_task, safe_call; [apply db_frame_promise_refl|done].
Qed.

(** A statement that only reads. *)
Lemma safe_query {A} (f : Tables → result string A) Q o s :
  (∀ s1 s2 r, db_frame o s s1 → same_db s1 s2 → answers (f (db_tables s1)) r → Q o r s2) →
  safe_req Q o (call (query f)) s.
Proof.
  intros HQ. apply safe_call; [apply db_frame_promise_refl|]. intros s1 s2 r Hf Hq.
  apply query_same in Hq as [Hs Hr]. exists o. split; [by apply db_promise_same|by eapply HQ].
Qed.

(** What holds of a release of the start holds of it after a read. *)
Lemma db_frame_same o s s1 s2 :
  db_frame o s s1 → same_db s1 s2 → db_frame o s s2.
Proof.
  intros (Hg & Hgs & Hok & Ho & Hst) Hs. pose proof Hs as (Ht & _).
  split_and!; [by eapply db_grows_trans, db_grows_same|by eapply db_grows_trans, db_grows_same|
    by eapply db_ok_same|by rewrite Ht..].
Qed.

(** *** Reading a tree *)

(** A release of the start resolves as it did then. *)
Definition resolved (v : Z) (tree : Tree) : Prop :=
  drawn start (OwnVehicle v) →
  tree_of_members (db_tables start) (members_of (db_tables start) v) tree.

Lemma component_row_stable o s s' id row :
  db_ok start → db_frame o s s' →
  component_row (db_tables start) id = Some row → component_row (db_tables s') id = Some row.
Proof.
  intros Hok (_ & (Hc & _) & Hok' & _) [Hin <-]%component_row_elem.
  eapply component_row_lookup; [exact Hok'|by apply Hc].
Qed.

Lemma resolve_parts_safe `{RowOrder} v rid path rows Q o s :
  (∀ r, (∀ parts, r = Ok parts → parts = omap part_of_row rows) → Q o r s) →
  safe_req Q o (fold_task (λ acc p, part ← now (resolve_part v rid path p);
    mret (acc ++ [part])) rows []) s.
Proof.
  intros HQ. eapply safe_mono; [|apply (safe_fold db_frame db_promise _
    (λ dn parts o' s', o' = o ∧ s' = s ∧ parts = omap part_of_row dn)
    (λ o' _ s', o' = o ∧ s' = s))]; [| |done].
  - intros o' [parts|e] s'; [intros (-> & -> & ->)|intros (-> & ->)]; apply HQ; naive_solver.
  - intros dn r rest acc o' s' _ (-> & -> & ->). unfold resolve_part, parse_stored_hash.
    destruct (from_str (crp_content_hash r)) as [c|e] eqn:Hc; simpl; [|done].
    split_and!; [done..|]. rewrite omap_app. simpl. unfold part_of_row. by rewrite Hc.
Qed.

Lemma resolve_member_safe `{RowOrder} v tree m Q o s :
  db_ok start →
  (∀ r s', db_frame o s s' →
     (∀ tree' row, r = Ok tree' → component_row (db_tables start) (vrm_component m) = Some row →
        ∃ e, tree' = <[cr_entity_path row := e]> tree ∧
          resolves_to (db_tables start) m (cr_entity_path row) e) →
     Q o r s') →
  safe_req Q o (resolve_member_task v tree m) s.
Proof.
  intros Hok HQ. apply safe_bind, safe_query. intros s1 s2 r1 Hf Hs Hr.
  pose proof (db_frame_same _ _ _ _ Hf Hs) as Hf2.
  destruct r1 as [row1|e]; [|by apply HQ; [done|intros]].
  apply safe_bind, safe_query. intros s3 s4 r2 Hf' Hs' Hr'.
  pose proof (db_frame_trans _ _ _ _ Hf2 (db_frame_same _ _ _ _ Hf' Hs')) as Hf4.
  destruct r2 as [rows|e]; [|by apply HQ; [done|intros]].
  apply safe_bind, resolve_parts_safe. intros [parts|e] Hparts; [|by apply HQ; [done|intros]].
  apply HQ; [done|]. intros tree' row [= <-] Hrow.
  assert (row1 = row) as ->.
  { pose proof (component_row_stable _ _ _ _ _ Hok Hf Hrow) as Hrow1. unfold component_row in Hrow1.
    destruct Hr as [Heq|[? ?]]; [|done]. symmetry in Heq. apply fetch_one_Ok in Heq. congruence. }
  eexists. split; [done|]. exists row. split_and!; try done. simpl.
  rewrite (Hparts parts eq_refl). destruct Hr' as [[= ->]|[? ?]]; [|done].
  rewrite scan_Permutation. destruct Hf' as (_ & _ & _ & _ & Hst).
  apply component_row_elem in Hrow as [Hin Hid].
  assert (drawn start (OwnComponent (vrm_component m))) as Hd
    by (simpl; rewrite <- Hid; by apply (int_component_seq _ _ _ Hok)).
  specialize (Hst _ Hd). by injection Hst as <-.
Qed.

Lemma resolve_members_safe `{RowOrder} v Q o s :
  db_ok start →
  (∀ r s', db_frame o s s' → (∀ tree, r = Ok tree → resolved v tree) → Q o r s') →
  safe_req Q o (resolve_members_to_tree_task v) s.
Proof.
  intros Hok HQ. apply safe_bind, safe_query. intros s1 s2 r1 Hf Hs Hr.
  pose proof (db_frame_same _ _ _ _ Hf Hs) as Hf2.
  destruct r1 as [ms|e]; [|by apply HQ; [done|intros]].
  assert (drawn start (OwnVehicle v) → ms ≡ₚ members_of (db_tables start) v) as Hms.
  { intros Hd. destruct Hr as [[= ->]|[? ?]]; [|done]. rewrite scan_Permutation.
    destruct Hf as (_ & _ & _ & _ & Hst). specialize (Hst _ Hd). by injection Hst as <-. }
  eapply safe_mono; [|apply (safe_fold db_frame db_promise _
    (λ dn tree o' s', o' = o ∧ db_frame o s s' ∧ (drawn start (OwnVehicle v) →
       tree_of_members (db_tables start) dn tree))
    (λ o' _ s', o' = o ∧ db_frame o s s'))].
  - intros o' [tree|e] s'; simpl; [intros (-> & Hf' & Ht)|intros (-> & Hf')];
      apply HQ; try done. intros tree' [= <-] Hd. destruct (Ht Hd) as [Hin Hall]. split.
    + intros path e Hp. destruct (Hin path e Hp) as (m & Hm & Hres). exists m.
      by rewrite <- (Hms Hd).
    + intros m path row Hm. apply Hall. by rewrite (Hms Hd).
  - intros dn m rest tree o' s' Hsplit (-> & Hf' & Htree). apply resolve_member_safe; [done|].
    intros r s'' Hf'' Hr'. pose proof (db_frame_trans _ _ _ _ Hf' Hf'') as Hf3.
    destruct r as [tree'|e]; [|done]. split_and!; [done..|]. intros Hd.
    assert (m ∈ members_of (db_tables start) v) as Hm by (rewrite <- (Hms Hd), <- Hsplit; set_solver).
    apply list_elem_of_filter in Hm as [_ Hm].
    destruct (int_tables _ _ _ Hok) as [Hfk _]. destruct (Hfk m Hm) as [row Hrow].
    destruct (Hr' tree' row eq_refl Hrow) as (e & -> & Hres).
    apply tree_of_members_insert; [by apply Htree|done].
  - split_and!; [done..|]. intros _. split; [intros path e; by rewrite lookup_empty|].
    intros m path row Hm. by apply elem_of_nil in Hm.
Qed.

(** *** What an answer says *)

(** The release named is stored with the identity of the request; one that was not
    reused has the parts of the request, all of them and no others. *)
Definition component_cut (req : NewComponentRelease) (ref : ReleaseRef) s : Prop :=
  ∃ row, row ∈ t_components (db_tables s) ∧ cr_entity_path row = nc_entity_path req ∧
    cr_identity_hash row = Some (component_identity (nc_entity_kind req) (nc_parts req)) ∧
    ref = component_ref row (rr_reused ref) ∧
    (rr_reused ref = false →
     cr_entity_kind row = nc_entity_kind req ∧ cr_version row = nc_version req ∧
     rows_of (db_tables s) (rr_id ref) = part_rows (rr_id ref) (nc_parts req)).

Definition vehicle_cut (req : NewVehicleRelease) (ref : ReleaseRef) s : Prop :=
  ∃ row, row ∈ t_vehicles (db_tables s) ∧ vr_tag row = nv_tag req ∧
    vr_identity_hash row =
      Some (vehicle_identity (nv_members req) (nv_disabled_members req)) ∧
    ref = vehicle_ref row (rr_reused ref) ∧
    (is_Some (nv_config_snapshot req) → is_Some (vr_config_snapshot row)) ∧
    (rr_reused ref = false →
     vr_version row = nv_version req ∧
     members_of (db_tables s) (rr_id ref) =
       member_rows (rr_id ref) (nv_members req) (nv_disabled_members req)).

(** The tuple is recorded as served by a stored release, and the hash is that of the
    release as it was at the start, if it was there. *)
Definition channel_pointed (req : SetChannelTarget) (ref : ChannelTargetRef) s : Prop :=
  mkServedRow (sc_vehicle_release_id req) (sc_device req) (sc_architecture req)
    ∈ t_served (db_tables s) ∧
  ∃ tree, resolved (sc_vehicle_release_id req) tree ∧
    ref = mkChannelTargetRef (sc_channel req) (sc_device req) (sc_architecture req)
      (sc_vehicle_release_id req) (tree_hash tree).

(** The tree of a release asked for by its id is the one it had at the start. *)
Definition tree_read (sel : TargetSelector) (tree : Tree) : Prop :=
  (∀ v, sel_vehicle_release_id sel = Some v → resolved v tree) ∧
  ∀ h, sel_tree_hash sel = Some h → tree_hash tree = h.

Definition answers_for (q : Request) (a : Answer) s : Prop :=
  match q, a with
  | CutComponent req, AnsRelease ref => component_cut req ref s
  | CutVehicle req, AnsRelease ref => vehicle_cut req ref s
  | PointChannel req, AnsTarget ref => channel_pointed req ref s
  | ReadTree sel, AnsTree tree => tree_read sel tree
  | _, _ => False
  end.

(** The release an answer says it cut. *)
Definition fresh_of (q : Request) (a : Answer) : option Owned :=
  match q, a with
  | CutComponent _, AnsRelease ref =>
      if rr_reused ref then None else Some (OwnComponent (rr_id ref))
  | CutVehicle _, AnsRelease ref =>
      if rr_reused ref then None else Some (OwnVehicle (rr_id ref))
  | _, _ => None
  end.

(** A request owns the release it answers it cut. *)
Definition answered (q : Request) o (r : result AppError Answer) s : Prop :=
  match r with
  | Err _ => True
  | Ok a => answers_for q a s ∧ ∀ w, fresh_of q a = Some w → o = Some w
  end.

Lemma component_cut_stable req ref o s s' :
  component_cut req ref s → db_frame o s s' →
  (rr_reused ref = false → o = Some (OwnComponent (rr_id ref))) → component_cut req ref s'.
Proof.
  intros (row & Hin & Hp & Hi & Href & Hnew) ((Hc & _) & _ & _ & Ho & _) Hown.
  exists row. split_and!; [by apply Hc|done..|]. intros Hre.
  destruct (Hnew Hre) as (? & ? & Hrows). split_and!; [done..|].
  specialize (Ho _ (Hown Hre)). injection Ho as Ho. by rewrite Ho.
Qed.

Lemma vehicle_cut_stable req ref o s s' :
  vehicle_cut req ref s → db_frame o s s' →
  (rr_reused ref = false → o = Some (OwnVehicle (rr_id ref))) → vehicle_cut req ref s'.
Proof.
  intros (row & Hin & Ht & Hi & Href & Hcfg & Hnew) ((_ & Hv & _) & _ & _ & Ho & _) Hown.
  destruct (Hv row Hin) as (row' & Hin' & Hid & Htag & Hver & Hcr & Hih & Hsnap).
  exists row'. split_and!; [done|congruence|congruence|..].
  - rewrite Href. unfold vehicle_ref. by rewrite Hid, Hver, Hcr.
  - intros Hs. destruct (Hcfg Hs) as [c Hc]. exists c. by apply Hsnap.
  - intros Hre. destruct (Hnew Hre) as (? & Hm). split; [congruence|].
    specialize (Ho _ (Hown Hre)). injection Ho as Ho. by rewrite Ho.
Qed.

Lemma answered_stable q : stable db_frame (answered q).
Proof.
  intros o [a|e] s s'; [|done]. intros [Ha Hf] Hfr. split; [|done].
  destruct q as [req|req|req|sel], a as [ref|ref|tree]; simpl in *; try done.
  - eapply component_cut_stable; [done|done|]. intros Hre. apply Hf. by rewrite Hre.
  - eapply vehicle_cut_stable; [done|done|]. intros Hre. apply Hf. by rewrite Hre.
  - destruct Ha as (Hs & tree & Ht & Href). destruct Hfr as ((_ & _ & Hserved & _) & _).
    split; [by apply Hserved|]. by exists tree.
Qed.

(** *** The requests keep their promises *)

(** What is promised of the answer of the two creating handlers. *)
Definition cut_component (req : NewComponentRelease) o (r : result AppError ReleaseRef) s :=
  match r with
  | Ok ref => component_cut req ref s ∧
      (rr_reused ref = false → o = Some (OwnComponent (rr_id ref)))
  | Err _ => True
  end.

Definition cut_vehicle (req : NewVehicleRelease) o (r : result AppError ReleaseRef) s :=
  match r with
  | Ok ref => vehicle_cut req ref s ∧
      (rr_reused ref = false → o = Some (OwnVehicle (rr_id ref)))
  | Err _ => True
  end.

(** The loop that inserts the parts of an owned release. *)
Lemma insert_parts_safe id parts Q s :
  rows_of (db_tables s) id = [] →
  (∀ r s', db_grows s s' →
     (∀ u, r = Ok u → rows_of (db_tables s') id = part_rows id parts) →
     Q (Some (OwnComponent id)) r s') →
  safe_req Q (Some (OwnComponent id)) (for_each_task (λ p, stmt (insert_part
    (mkPartTableRow id (np_id p) (np_kind p) (to_prefixed (np_content p))))) parts) s.
Proof.
  intros Hnil HQ. eapply safe_mono; [|apply (safe_fold db_frame db_promise _
    (λ dn _ o s', o = Some (OwnComponent id) ∧ db_grows s s' ∧
       rows_of (db_tables s') id = part_rows id dn)
    (λ o _ s', o = Some (OwnComponent id) ∧ db_grows s s'))].
  - intros o [[]|e] s'; [intros (-> & Hg & Hr)|intros (-> & Hg)]; by apply HQ.
  - intros dn p rest [] o s' _ (-> & Hg & Hrows). apply safe_stmt.
    intros s1 s2 r Hf [Hprom Hrows']%db_promise_part.
    exists (Some (OwnComponent id)). split; [done|].
    assert (db_grows s s2) as Hg2 by (eapply db_grows_trans; [exact Hg|];
      eapply db_grows_trans; [apply Hf|apply Hprom]).
    destruct r as [[]|e]; [|done]. split_and!; [done..|]. rewrite (Hrows' ()) by done.
    destruct Hf as (_ & _ & _ & Ho & _). specialize (Ho _ eq_refl). injection Ho as ->.
    rewrite Hrows. unfold part_rows. by rewrite fmap_app.
  - by split_and!; auto using db_grows_refl.
Qed.

Lemma insert_members_safe id members disabled Q s :
  members_of (db_tables s) id = [] →
  (∀ r s', db_grows s s' →
     (∀ u, r = Ok u → members_of (db_tables s') id = member_rows id members disabled) →
     Q (Some (OwnVehicle id)) r s') →
  safe_req Q (Some (OwnVehicle id)) (for_each_task (λ m, stmt (insert_member
    (mkMemberRow id m (bool_decide (m ∈ disabled))))) members) s.
Proof.
  intros Hnil HQ. eapply safe_mono; [|apply (safe_fold db_frame db_promise _
    (λ dn _ o s', o = Some (OwnVehicle id) ∧ db_grows s s' ∧
       members_of (db_tables s') id = member_rows id dn disabled)
    (λ o _ s', o = Some (OwnVehicle id) ∧ db_grows s s'))].
  - intros o [[]|e] s'; [intros (-> & Hg & Hr)|intros (-> & Hg)]; by apply HQ.
  - intros dn m rest [] o s' _ (-> & Hg & Hrows). apply safe_stmt.
    intros s1 s2 r Hf [Hprom Hrows']%db_promise_member.
    exists (Some (OwnVehicle id)). split; [done|].
    assert (db_grows s s2) as Hg2 by (eapply db_grows_trans; [exact Hg|];
      eapply db_grows_trans; [apply Hf|apply Hprom]).
    destruct r as [[]|e]; [|done]. split_and!; [done..|]. rewrite (Hrows' ()) by done.
    destruct Hf as (_ & _ & _ & Ho & _). specialize (Ho _ eq_refl). injection Ho as ->.
    rewrite Hrows. unfold member_rows. by rewrite fmap_app.
  - by split_and!; auto using db_grows_refl.
Qed.

Lemma create_component_safe req s :
  safe_req (cut_component req) None (create_component_release_task req) s.
Proof.
  apply safe_bind, safe_db_task, safe_query. intros s1 s2 r Hf Hs Hr.
  destruct r as [[row|]|e]; [| |done].
  { destruct Hr as [Hr|[? ?]]; [|done]. injection Hr as Hr. symmetry in Hr.
    apply head_Some_elem_of, list_elem_of_filter in Hr as [[Hp Hi] Hin].
    split; [|done]. exists row. destruct Hs as (-> & _). by split_and!. }
  apply safe_bind, safe_stmt. intros s3 s4 r' Hf' Hins.
  assert (db_ok s3) as Hok by by destruct Hf' as (_ & _ & Hok & _).
  apply (db_promise_component _ _ _ _ None) in Hins as [[[e ->] Hp]|
    (row & -> & Hin & Hpath & Hkind & Hver & Hi & Hnil & Hp)]; [by exists None|].
  exists (Some (OwnComponent (cr_id row))). split; [by apply Hp|].
  apply safe_bind, insert_parts_safe; [by apply Hnil|].
  intros [[]|e] s' (Hc & _) Hrows; [|done]. split; [|done].
  exists row. split_and!; [by apply Hc|done..|]. intros _. split_and!; [done..|].
  by apply (Hrows ()).
Qed.

(** A reused vehicle release keeps its snapshot, or gets the one of the request. *)
Lemma reuse_vehicle_safe req row s :
  row ∈ t_vehicles (db_tables s) → vr_tag row = nv_tag req →
  vr_identity_hash row =
    Some (vehicle_identity (nv_members req) (nv_disabled_members req)) →
  safe_req (cut_vehicle req) None
    (_ ← match nv_config_snapshot req with
         | Some _ => stmt (coalesce_config_snapshot (vr_id row) (nv_config_snapshot req))
         | None => mret ()
         end;
     mret (vehicle_ref row true)) s.
Proof.
  intros Hin Ht Hi. destruct (nv_config_snapshot req) as [c|] eqn:Hcfg.
  - apply safe_bind, safe_stmt. intros s1 s2 r ((_ & Hv & _) & _) Hup.
    apply (db_promise_snapshot _ _ None) in Hup as [Hp Hsnap]. exists None. split; [done|].
    destruct r as [[]|e]; [|done]. split; [|done].
    destruct (Hv row Hin) as (row1 & Hin1 & Hren).
    destruct (Hsnap () row1) as (row' & Hin' & Hren' & Hsome);
      [done|done|by destruct Hren|by eexists|].
    pose proof (renewed_trans _ _ _ Hren Hren') as (Hid & Htag & Hver & Hcr & Hih & _).
    exists row'. unfold vehicle_ref. simpl. rewrite Hid, Htag, Hver, Hcr, Hih.
    by split_and!.
  - split; [|done]. exists row. rewrite Hcfg. by split_and!.
Qed.

Lemma create_vehicle_safe req s :
  safe_req (cut_vehicle req) None (create_vehicle_release_task req) s.
Proof.
  apply safe_bind, safe_db_task, safe_query. intros s1 s2 r Hf Hs Hr.
  destruct r as [[row|]|e]; [| |done].
  { destruct Hr as [Hr|[? ?]]; [|done]. injection Hr as Hr. symmetry in Hr.
    apply head_Some_elem_of, list_elem_of_filter in Hr as [[Ht Hi] Hin].
    destruct Hs as (Hts & _). rewrite <- Hts in Hin. by apply reuse_vehicle_safe. }
  apply safe_bind, safe_stmt. intros s3 s4 r' Hf' Hins.
  assert (db_ok s3) as Hok by by destruct Hf' as (_ & _ & Hok & _).
  apply (db_promise_vehicle _ _ _ _ None) in Hins as [[[e ->] Hp]|
    (row & -> & Hin & Htag & Hver & Hi & Hcfg & Hnil & Hp)]; [by exists None|].
  exists (Some (OwnVehicle (vr_id row))). split; [by apply Hp|].
  apply safe_bind, insert_members_safe; [by apply Hnil|].
  intros [[]|e] s' (_ & Hv & _) Hrows; [|done]. split; [|done].
  destruct (Hv row Hin) as (row' & Hin' & Hid & Htag' & Hver' & Hcr & Hih & Hsnap).
  exists row'. unfold vehicle_ref. simpl. rewrite Hid, Htag', Hver', Hcr, Hih.
  split_and!; try done.
  - rewrite <- Hcfg. intros [c Hc]. exists c. by apply Hsnap.
  - intros _. split; [done|by apply (Hrows ())].
Qed.

Lemma set_channel_safe `{RowOrder} req s :
  db_ok start →
  safe_req (λ o r s, match r with Ok ref => channel_pointed req ref s | Err _ => True end)
    None (set_channel_target_task req) s.
Proof.
  intros Hok. apply safe_bind, safe_db_task, resolve_members_safe; [done|].
  intros [tree|e] s1 Hf Hres; [|done]. apply safe_bind, safe_stmt.
  intros s2 s3 r _ Hp. apply (db_promise_point _ _ None) in Hp as [Hp Hpt]. exists None.
  split; [done|]. destruct r as [[]|e]; [|done].
  split; [by apply (Hpt ())|]. exists tree. split; [by apply Hres|done].
Qed.

Lemma resolve_selected_safe `{RowOrder} sel s :
  db_ok start →
  safe_req (λ o r s, ∀ tree v, r = Ok (Some tree) → sel_vehicle_release_id sel = Some v →
    resolved v tree) None (resolve_selected_task sel) s.
Proof.
  intros Hok. unfold resolve_selected_task.
  destruct (sel_vehicle_release_id sel) as [id|]; [|destruct (sel_channel sel) as [ch|]; [|done]].
  - apply safe_bind, safe_db_task, safe_query. intros s1 s2 r _ _ _.
    destruct r as [[|]|e]; [|done..].
    apply safe_bind, safe_db_task, resolve_members_safe; [done|].
    intros [tree|e] s3 _ Hres; [|done]. intros tree' v [= <-] [= <-]. by apply Hres.
  - apply safe_db_task, safe_bind. apply safe_call; [apply db_frame_promise_refl|].
    intros s1 s2 r _ Hq. exists None.
    assert (same_db s1 s2) as Hs.
    { unfold channel_target_vehicle in Hq. destruct (sel_device sel), (sel_architecture sel);
        [by apply query_same in Hq as [? _]|..]; unfold mbind, act_bind in Hq;
        destruct (select_channel_all ch s1) as [s1' [l|e]] eqn:Hsel;
        apply query_same in Hsel as [? _]; by injection Hq as <- _. }
    split; [by apply db_promise_same|]. destruct r as [[v|]|e]; [|done..].
    apply safe_bind, resolve_members_safe; [done|]. by intros [tree|e] s3 _ _.
Qed.

Lemma resolve_target_safe `{RowOrder} sel s :
  db_ok start →
  safe_req (λ o r s, ∀ tree, r = Ok (Some tree) → tree_read sel tree) None
    (resolve_target_task sel) s.
Proof.
  intros Hok. apply safe_bind. eapply safe_mono; [|by apply resolve_selected_safe].
  intros o [[tree|]|e] s' Hres; [| |done].
  - destruct (sel_tree_hash sel) as [h|] eqn:Hh.
    + destruct (decide (tree_hash tree = h)) as [Heq|Hne].
      * rewrite bool_decide_false by naive_solver. intros tree' [= <-].
        split; [intros v; by apply Hres|]. rewrite Hh. by intros ? [= <-].
      * by rewrite bool_decide_true.
    + intros tree' [= <-]. split; [intros v; by apply Hres|]. by rewrite Hh.
  - by destruct (sel_tree_hash sel).
Qed.

Lemma request_safe `{RowOrder} q s :
  db_ok start → safe_req (answered q) None (request_task q) s.
Proof.
  intros Hok. destruct q as [req|req|req|sel]; apply safe_bind.
  - eapply safe_mono; [|apply create_component_safe]. intros o [ref|e] s'; [|done].
    intros [Hc Ho]. split; [done|]. intros w Hw. simpl in Hw.
    destruct (rr_reused ref); [done|]. injection Hw as <-. by apply Ho.
  - eapply safe_mono; [|apply create_vehicle_safe]. intros o [ref|e] s'; [|done].
    intros [Hc Ho]. split; [done|]. intros w Hw. simpl in Hw.
    destruct (rr_reused ref); [done|]. injection Hw as <-. by apply Ho.
  - eapply safe_mono; [|by apply set_channel_safe]. by intros o [ref|e] s'.
  - apply safe_bind. eapply safe_mono; [|by apply resolve_target_safe].
    intros o [[tree|]|e] s' Hr; [|done..]. split; [by apply Hr|done].
Qed.
End rely.

(** * Properties *)

Section properties.
Context `{HexCodec, Sha256, RowOrder}.
Implicit Types (s : HubDb) (requests : list Request).

(** The requests being served, each at its start. *)
Definition serve_requests requests : list (thread HubDb (result AppError Answer)) :=
  (λ q, Running (request_task q)) <$> requests.

Lemma requests_safe requests s0 ts s :
  db_ok s0 → rtc pool_step (serve_requests requests, s0) (ts, s) →
  ∃ os, db_owned s0 os s ∧ safe_pool (db_frame s0) db_promise (answered s0 <$> requests) os (ts, s).
Proof.
  intros Hok Hsteps.
  apply (safe_pool_steps (db_frame s0) db_promise (db_frame_trans s0) (db_frame_promise_refl s0)
    (db_owned s0) (db_owned_step s0) (db_frame_refl s0) (answered s0 <$> requests)
    _ _ (replicate (length requests) None)) in Hsteps; [done|..].
  - apply Forall_fmap, Forall_true. intros q. apply answered_stable.
  - split_and!; [done|apply db_grows_refl| | |done].
    + intros i j w Hi. apply list_elem_of_lookup_2 in Hi. by apply elem_of_replicate in Hi as [? _].
    + intros w Hw. by apply elem_of_replicate in Hw as [? _].
  - split; [unfold serve_requests; cbn [fst]; by rewrite length_replicate, length_fmap|].
    split; [unfold serve_requests; cbn [fst]; by rewrite !length_fmap|].
    intros i Q o t HQ Ho Ht. cbn [fst snd] in *. apply lookup_replicate in Ho as [-> _].
    unfold serve_requests in Ht. rewrite list_lookup_fmap in HQ. rewrite list_lookup_fmap in Ht.
    destruct (requests !! i) as [q|]; simplify_eq/=. by apply request_safe.
Qed.

(** C2: whatever requests are served at once, however their statements
    interleave, fail, lose their answer or are cancelled: the tables keep every key,
    unique index and foreign key; no release, member, part or served tuple is lost
    and none changes below a release that was there before; and every request that
    succeeded answers for itself: the release it names is stored with the content it
    asked for, all of it when it says it cut it, the tuple it pointed a channel at
    is recorded, and the tree it read is the tree of that release. *)
Theorem requests_interleave requests s0 ts s
    (Hok : db_ok s0) (Hsteps : rtc pool_step (serve_requests requests, s0) (ts, s)) :
  db_ok s ∧ db_grows s0 s ∧
  (∀ w, drawn s0 w → contents (db_tables s) w = contents (db_tables s0) w) ∧
  ∀ i q a, requests !! i = Some q → ts !! i = Some (Running (Ready (Ok a))) →
    answers_for s0 q a s.
Proof.
  destruct (requests_safe requests s0 ts s Hok Hsteps)
    as (os & (Hok' & Hg & _ & _ & Hst) & Hlo & HlQ & Hsafe).
  split_and!; [done..|]. intros i q a Hq Ht.
  destruct (lookup_lt_is_Some_2 os i) as [o Ho]; [rewrite Hlo; by eapply lookup_lt_Some|].
  destruct (Hsafe i (answered s0 q) o (Running (Ready (Ok a)))) as [Ha _]; [|done..].
  by rewrite list_lookup_fmap, Hq.
Qed.

(** C19: of all the requests under way, at most one answers that it cut a given release,
    and requests for the same content of the same entity answer the same release. *)
Theorem one_release_per_content requests s0 ts s
    (Hok : db_ok s0) (Hsteps : rtc pool_step (serve_requests requests, s0) (ts, s))
    i j q1 q2 a1 a2 (Hq1 : requests !! i = Some q1) (Hq2 : requests !! j = Some q2)
    (Ha1 : ts !! i = Some (Running (Ready (Ok a1))))
    (Ha2 : ts !! j = Some (Running (Ready (Ok a2)))) :
  (∀ w, fresh_of q1 a1 = Some w → fresh_of q2 a2 = Some w → i = j) ∧
  (∀ req1 req2 ref1 ref2, q1 = CutComponent req1 → q2 = CutComponent req2 →
     a1 = AnsRelease ref1 → a2 = AnsRelease ref2 →
     nc_entity_path req1 = nc_entity_path req2 → nc_entity_kind req1 = nc_entity_kind req2 →
     NoDup (np_id <$> nc_parts req1) → nc_parts req1 ≡ₚ nc_parts req2 →
     rr_id ref1 = rr_id ref2 ∧ rr_version ref1 = rr_version ref2).
Proof.
  destruct (requests_safe requests s0 ts s Hok Hsteps)
    as (os & (Hok' & Hg & Hd & _) & Hlo & HlQ & Hsafe).
  assert (∀ i q a, requests !! i = Some q → ts !! i = Some (Running (Ready (Ok a))) →
    ∃ o, os !! i = Some o ∧ answered s0 q o (Ok a) s) as Hans.
  { intros k q a Hq Ht.
    destruct (lookup_lt_is_Some_2 os k) as [o Ho]; [rewrite Hlo; by eapply lookup_lt_Some|].
    exists o. split; [done|]. apply (Hsafe k _ o _ ltac:(by rewrite list_lookup_fmap, Hq) Ho Ht). }
  destruct (Hans i q1 a1 Hq1 Ha1) as (o1 & Ho1 & Hc1 & Hf1).
  destruct (Hans j q2 a2 Hq2 Ha2) as (o2 & Ho2 & Hc2 & Hf2). split.
  - intros w Hw1%Hf1 Hw2%Hf2. subst. by apply (Hd i j w).
  - intros req1 req2 ref1 ref2 -> -> -> -> Hpath Hkind Hnd Hparts.
    destruct Hc1 as (row1 & Hin1 & Hp1 & Hi1 & Href1 & _).
    destruct Hc2 as (row2 & Hin2 & Hp2 & Hi2 & Href2 & _).
    assert (row1 = row2) as <-.
    { eapply (int_component_identity _ _ _ Hok'); [done|done|congruence|exact Hi1|].
      rewrite Hi2. f_equal. unfold component_identity. rewrite Hkind.
      by rewrite (component_identity_text_perm _ (nc_parts req1) (nc_parts req2)). }
    by rewrite Href1, Href2.
Qed.

(** What a release of the start resolves to does not change. *)
Lemma tree_of_members_later s0 s v tree :
  db_ok s0 → db_ok s → db_grows s0 s →
  (∀ w, drawn s0 w → contents (db_tables s) w = contents (db_tables s0) w) →
  drawn s0 (OwnVehicle v) →
  tree_of_members (db_tables s) (members_of (db_tables s) v) tree →
  tree_of_members (db_tables s0) (members_of (db_tables s0) v) tree.
Proof.
  intros Hok Hok' (Hc & _) Hst Hd [Hin Hall].
  assert (members_of (db_tables s) v = members_of (db_tables s0) v) as Hms
    by (specialize (Hst _ Hd); by injection Hst).
  rewrite Hms in Hin, Hall.
  assert (∀ m, m ∈ members_of (db_tables s0) v → ∃ row,
    component_row (db_tables s0) (vrm_component m) = Some row ∧
    component_row (db_tables s) (vrm_component m) = Some row ∧
    rows_of (db_tables s) (vrm_component m) = rows_of (db_tables s0) (vrm_component m)) as Hrow.
  { intros m [_ Hm]%list_elem_of_filter. destruct (int_tables _ _ _ Hok) as [Hfk _].
    destruct (Hfk m Hm) as [row Hr]. exists row. split; [done|].
    apply component_row_elem in Hr as [Hr <-].
    split; [by eapply component_row_lookup; [exact Hok'|apply Hc]|].
    assert (drawn s0 (OwnComponent (cr_id row))) as Hdc
      by by apply (int_component_seq _ _ _ Hok).
    specialize (Hst _ Hdc). by injection Hst. }
  split.
  - intros path e Hp. destruct (Hin path e Hp) as (m & Hm & row & Hr & Hres).
    exists m. split; [done|]. destruct (Hrow m Hm) as (row' & Hr0 & Hr1 & Hrows).
    exists row. rewrite <- Hrows. split; [congruence|done].
  - intros m path row Hm Hr Hpath. destruct (Hrow m Hm) as (row' & Hr0 & Hr1 & _).
    eapply Hall; [done| |done]. congruence.
Qed.
End properties.

(** C11: the hash a request answers when it points a channel at a vehicle release
    that was there before and whose members are releases of distinct entities keeps
    pinning it: whatever else is served meanwhile, creations and other targets
    included, and in whatever order rows come back, the release asked for with that
    hash resolves to a tree with that hash, and with any other hash is refused.  That
    the entities are distinct is up to those who cut the release: no constraint and
    no handler sees to it (see [Releases.shared_entity_unpins]). *)
Theorem pin_survives_interleaving `{HexCodec, Sha256} (O1 O2 : RowOrder)
    (requests : list Request) (s0 s s' : HubDb) ts i req ref h
    (r : result AppError (option Tree))
    (Hok : db_ok s0) (Hsteps : rtc pool_step (@serve_requests _ _ O1 requests, s0) (ts, s))
    (Hq : requests !! i = Some (PointChannel req))
    (Ha : ts !! i = Some (Running (Ready (Ok (AnsTarget ref)))))
    (Hold : (sc_vehicle_release_id req < db_vehicle_seq s0)%Z)
    (Hpaths : distinct_paths (db_tables s0) (sc_vehicle_release_id req))
    (Hquiet : no_faults (db_faults s))
    (Hres : @resolve_target _ _ O2 (mkTargetSelector None None None
       (Some (sc_vehicle_release_id req)) (Some h)) s = (s', r)) :
  (h = ctr_tree_hash ref → ∃ tree, r = Ok (Some tree) ∧ tree_hash tree = h) ∧
  (h ≠ ctr_tree_hash ref → r = Err (BadRequest "tree_hash does not match release")).
Proof.
  destruct (requests_safe requests s0 ts s Hok Hsteps)
    as (os & (Hok' & Hg & _ & _ & Hst) & Hlo & HlQ & Hsafe).
  destruct (lookup_lt_is_Some_2 os i) as [o Ho]; [rewrite Hlo; by eapply lookup_lt_Some|].
  assert (channel_pointed s0 req ref s) as (Hserved & tree0 & Htree0 & Href).
  { destruct (Hsafe i (answered s0 (PointChannel req)) o
      (Running (Ready (Ok (AnsTarget ref))))) as [Hans _]; [|done..].
    by rewrite list_lookup_fmap, Hq. }
  apply (int_served _ _ _ Hok') in Hserved. simpl in Hserved.
  apply (resolve_target_outcomes _ s s' r (int_tables _ _ _ Hok') Hquiet) in Hres.
  simpl in Hres. unfold selected_vehicle in Hres. simpl in Hres.
  rewrite decide_True in Hres by done.
  destruct Hres as (tree & Htree & ->).
  assert (tree_hash tree = ctr_tree_hash ref) as Hh.
  { rewrite Href. simpl. unfold tree_hash. do 3 f_equal. apply tree_hash_text_proper.
    eapply tree_of_members_unique; [exact (int_tables _ _ _ Hok)|exact Hpaths| |by apply Htree0].
    by eapply tree_of_members_later. }
  rewrite Hh. split.
  - intros ->. rewrite bool_decide_true by done. by exists tree.
  - intros Hne. by rewrite bool_decide_false.
Qed.

(** * A creation overtaken by its own retry *)

(** Two requests for the same content, a vehicle release of what the second one
    answers, and a channel pointed at it. *)
Definition overtaken : list Request :=
  [CutComponent example_request; CutComponent example_request';
   CutVehicle example_vehicle_request; PointChannel example_target].

(** The first request has inserted the release but none of its parts when the
    second one finds it; vehicle and channel follow; then the first one goes on. *)
Definition overtaking : list (nat * nat) :=
  replicate 2 (0, 0) ++ [(1, 0)] ++ replicate 3 (2, 0) ++ replicate 4 (3, 0) ++
  replicate 2 (0, 0).

Abbreviation overtaken_run := (run_schedule overtaking (serve_requests overtaken, example_db [])).

(** A release asked for by its id and the hash of its tree. *)
Definition read_back (s : HubDb) (v : Z) (h : string) : result AppError (option Tree) :=
  (resolve_target (mkTargetSelector None None None (Some v) (Some h)) s).2.

Definition refused_pin (r : result AppError (option Tree)) : bool :=
  match r with
  | Err (BadRequest m) => bool_decide (m = "tree_hash does not match release")
  | _ => false
  end.

(** All four were answered, the second one the release of the first one, and the
    hash of the last one is refused. *)
Definition unpinned (run : option (list (thread HubDb (result AppError Answer)) * HubDb)) :
    bool :=
  match run with
  | Some ([Running (Ready (Ok (AnsRelease a))); Running (Ready (Ok (AnsRelease b)));
           Running (Ready (Ok (AnsRelease v))); Running (Ready (Ok (AnsTarget c)))], s) =>
      bool_decide (rr_id a = rr_id b) && rr_reused b &&
      bool_decide (ctr_vehicle_release_id c = rr_id v) &&
      refused_pin (read_back s (rr_id v) (ctr_tree_hash c))
  | _ => false
  end.

Lemma unpinned_inv run : unpinned run = true → ∃ s a b v c,
  run = Some ([Running (Ready (Ok (AnsRelease a))); Running (Ready (Ok (AnsRelease b)));
    Running (Ready (Ok (AnsRelease v))); Running (Ready (Ok (AnsTarget c)))], s) ∧
  rr_id a = rr_id b ∧ rr_reused b = true ∧ ctr_vehicle_release_id c = rr_id v ∧
  read_back s (rr_id v) (ctr_tree_hash c) = Err (BadRequest "tree_hash does not match release").
Proof.
  intros Hr. destruct run as [[ts s]|]; [|done].
  destruct ts as [|[[[[a|?|?]|]|]| |] [|[[[[b|?|?]|]|]| |] [|[[[[v|?|?]|]|]| |]
    [|[[[[?|c|?]|]|]| |] [|]]]]]; try done.
  apply andb_true_iff in Hr as [[[Hab Hre]%andb_true_iff Hv]%andb_true_iff Hm].
  apply bool_decide_eq_true in Hab, Hv. exists s, a, b, v, c. split_and!; try done.
  destruct (read_back _ _ _) as [|[|m| |]]; try done. apply bool_decide_eq_true in Hm. by subst m.
Qed.

(** C20: the creation of a release is not atomic, and a pin may be taken of a
    release that is half there: with no failure at all and every request answered
    with success, a retry of a creation answers the release before its parts are
    inserted, a vehicle release is cut from it and a channel pointed at that, and
    the hash the channel was answered is then refused for that very release. *)
Theorem overtaken_creation_unpins : ∃ s a b v c,
  rtc pool_step (serve_requests overtaken, example_db [])
    ([Running (Ready (Ok (AnsRelease a))); Running (Ready (Ok (AnsRelease b)));
      Running (Ready (Ok (AnsRelease v))); Running (Ready (Ok (AnsTarget c)))], s) ∧
  rr_id a = rr_id b ∧ rr_reused b = true ∧ ctr_vehicle_release_id c = rr_id v ∧
  read_back s (rr_id v) (ctr_tree_hash c) = Err (BadRequest "tree_hash does not match release").
Proof.
  destruct (unpinned_inv overtaken_run) as (s & a & b & v & c & Hrun & Hrest);
    [vm_compute; reflexivity|].
  exists s, a, b, v, c. split; [|exact Hrest]. exact (run_schedule_steps _ _ _ Hrun).
Qed.

Lemma example_db_ok : db_ok (example_db []).
Proof.
  split; simpl; try (by constructor); try (by intros ? ?%not_elem_of_nil).
  - split_and!; [by intros ? ?%not_elem_of_nil..|]. intros id. constructor.
  - by intros ? ? ? ?%not_elem_of_nil.
  - by intros ? ? ? ?%not_elem_of_nil.
Qed.

Lemma example_release_db_ok : db_ok example_release_db.
Proof.
  split; [apply example_tables_ok|..]; simpl; try by_compute.
  all: repeat match goal with
    | |- ∀ _, _ => intros ?
    | H : _ ∈ [] |- _ => by apply not_elem_of_nil in H
    | H : _ ∈ _ :: _ |- _ => apply elem_of_cons in H as [->|H]
    end; try done; by_compute.
Qed.

Lemma requests_interleave_witness : ∃ s a b v c,
  db_ok (example_db []) ∧
  rtc pool_step (serve_requests overtaken, example_db [])
    ([Running (Ready (Ok (AnsRelease a))); Running (Ready (Ok (AnsRelease b)));
      Running (Ready (Ok (AnsRelease v))); Running (Ready (Ok (AnsTarget c)))], s) ∧
  db_ok s ∧ component_cut example_request a s ∧ vehicle_cut example_vehicle_request v s.
Proof.
  destruct (unpinned_inv overtaken_run) as (s & a & b & v & c & Hrun & _);
    [vm_compute; reflexivity|].
  apply run_schedule_steps in Hrun. exists s, a, b, v, c.
  split; [exact example_db_ok|]. split; [exact Hrun|].
  destruct (requests_interleave overtaken (example_db []) _ s example_db_ok Hrun)
    as (Hok & _ & _ & Hans).
  split; [exact Hok|]. split.
  - exact (Hans 0 _ (AnsRelease a) eq_refl eq_refl).
  - exact (Hans 2 _ (AnsRelease v) eq_refl eq_refl).
Defined.

Lemma one_release_per_content_witness : ∃ s a b v c,
  db_ok (example_db []) ∧
  rtc pool_step (serve_requests overtaken, example_db [])
    ([Running (Ready (Ok (AnsRelease a))); Running (Ready (Ok (AnsRelease b)));
      Running (Ready (Ok (AnsRelease v))); Running (Ready (Ok (AnsTarget c)))], s) ∧
  rr_id a = rr_id b.
Proof.
  destruct (unpinned_inv overtaken_run) as (s & a & b & v & c & Hrun & _);
    [vm_compute; reflexivity|].
  apply run_schedule_steps in Hrun. exists s, a, b, v, c.
  split; [exact example_db_ok|]. split; [exact Hrun|].
  destruct (one_release_per_content overtaken (example_db []) _ s example_db_ok Hrun
    0 1 _ _ _ _ eq_refl eq_refl eq_refl eq_refl) as [_ Hsame].
  apply (Hsame example_request example_request' a b); try reflexivity; [by_compute|].
  apply Permutation_swap.
Defined.

(** A channel pointed at an old release while a new component is cut. *)
Definition meanwhile : list Request := [PointChannel example_target; CutComponent example_request].

Abbreviation meanwhile_run := (run_schedule (replicate 3 (0, 0) ++ replicate 4 (1, 0) ++
  replicate 3 (0, 0)) (serve_requests meanwhile, example_release_db)).

Lemma meanwhile_inv (run : option (list (thread HubDb (result AppError Answer)) * HubDb)) :
  match run with
  | Some ([Running (Ready (Ok (AnsTarget c))); Running (Ready (Ok _))], s) =>
      bool_decide (db_faults s = [])
  | _ => false
  end = true → ∃ s c a,
  run = Some ([Running (Ready (Ok (AnsTarget c))); Running (Ready (Ok a))], s) ∧
  db_faults s = [].
Proof.
  intros Hr. destruct run as [[ts s]|]; [|done].
  destruct ts as [|[[[[a|c|?]|]|]| |] [|[[[b|]|]| |] [|]]]; try done.
  exists s, c, b. by apply bool_decide_eq_true in Hr.
Qed.

Lemma pin_survives_interleaving_witness : ∃ s c a tree,
  rtc pool_step (@serve_requests _ _ stored_order meanwhile, example_release_db)
    ([Running (Ready (Ok (AnsTarget c))); Running (Ready (Ok a))], s) ∧
  read_back s 1 (ctr_tree_hash c) = Ok (Some tree) ∧ tree_hash tree = ctr_tree_hash c.
Proof.
  destruct (meanwhile_inv meanwhile_run) as (s & c & a & Hrun & Hq); [vm_compute; reflexivity|].
  apply run_schedule_steps in Hrun. exists s, c, a.
  destruct (resolve_target (mkTargetSelector None None None (Some 1%Z)
    (Some (ctr_tree_hash c))) s) as [s' r] eqn:Hres.
  destruct (pin_survives_interleaving stored_order stored_order meanwhile example_release_db s s'
    _ 0 example_target c (ctr_tree_hash c) r example_release_db_ok Hrun eq_refl eq_refl)
    as [Hpin _]; [reflexivity|by_compute|by rewrite Hq; constructor|exact Hres|].
  destruct (Hpin eq_refl) as (tree & -> & Hh). exists tree.
  split; [exact Hrun|]. split; [by unfold read_back; rewrite Hres|exact Hh].
Defined.
