(* ===== verification/Signer.v ===== *)
(** The software signer of Tower 2 (src/crates/software-tower/src/signer.rs),
    over an interface of the SUIT toolkit it calls (sumo-offboard, sumo-codec,
    sumo-onboard): per-device envelopes, disable manifests, campaigns, and the
    envelope endpoint. *)

From S2P Require Import Prelude Ext Wire Json Store Content.

(** * The SUIT toolkit *)

(** [image_builder::ComponentSpec]. *)
Record ComponentSpec := mkComponentSpec {
  spec_id : list (list byte);
  spec_digest : list byte;
  spec_size : Z;
  spec_uri : string;
  spec_encryption_info : option (list byte);
}.

(** COSE keys, the key re-wrap, the three builders and the decoder.  A built
    envelope decodes to what it was built from. *)
Class Suit := {
  CoseKey : Type;
  (** [CoseKey::from_cose_key_bytes], [to_cose_key_bytes], [public_key_bytes] *)
  cose_parse : list byte → option CoseKey;
  cose_bytes : CoseKey → list byte;
  cose_public : CoseKey → list byte;
  (** [encryptor::rewrap_cek_ecdh] for a recipient key and kid, and the
      recipient's unwrapping with its private key *)
  rewrap_cek_ecdh : array CEK_LEN → array NONCE_LEN → CoseKey → list byte → option (list byte);
  unwrap_cek : CoseKey → list byte → option (array CEK_LEN * array NONCE_LEN);
  (** [MultiComponentBuilder], [ImageManifestBuilder::build_disable],
      [CampaignBuilder]: key, signing time, sequence number *)
  build_multi : CoseKey → Z → Z → list ComponentSpec → option (list byte);
  build_disable : CoseKey → Z → Z → list (list byte) → option (list byte);
  build_integrated : CoseKey → Z → Z → list (string * list byte) → option (list byte);
  (** [decode_envelope] and the views of a [Manifest] *)
  Envelope : Type;
  decode_envelope : list byte → option Envelope;
  integrated_payloads : Envelope → gmap string (list byte);
  component_count : Envelope → nat;
  component_id : Envelope → nat → option (list (list byte));
  manifest_uri : Envelope → nat → option string;
  image_digest : Envelope → nat → option (list byte);
  disable_target : Envelope → option (list (list byte));
  has_firmware : Envelope → bool;
}.

(** The documented behaviour of the toolkit. *)
Class SuitSpec `{Suit} := {
  cose_parse_bytes k : cose_parse (cose_bytes k) = Some k;
  unwrap_rewrap sk pk cek iv kid info :
    cose_parse (cose_public sk) = Some pk →
    rewrap_cek_ecdh cek iv pk kid = Some info → unwrap_cek sk info = Some (cek, iv);
  decode_multi key now seq specs b : build_multi key now seq specs = Some b →
    ∃ e, decode_envelope b = Some e ∧ component_count e = length specs ∧
      disable_target e = None ∧
      ∀ i spec, specs !! i = Some spec →
        component_id e i = Some (spec_id spec) ∧ manifest_uri e i = Some (spec_uri spec) ∧
        image_digest e i = Some (spec_digest spec);
  decode_disable key now seq id b : build_disable key now seq id = Some b →
    ∃ e, decode_envelope b = Some e ∧ disable_target e = Some id ∧ has_firmware e = false;
  (** a campaign keys each integrated image by [#name] and refuses to be empty *)
  decode_integrated key now seq images b : build_integrated key now seq images = Some b →
    ∃ e, decode_envelope b = Some e ∧
      integrated_payloads e = collect_map ((λ i, ("#" +:+ i.1, i.2)) <$> images);
  build_integrated_nil key now seq : build_integrated key now seq [] = None;
}.

Section signer.
Context `{HexCodec, Suit}.

(** [Signer]: the signing key. *)
Record Signer := mkSigner { signer_key : CoseKey }.

(** [Signer::generate], given the outcome of [keygen::generate_signing_key]. *)
Definition signer_generate (generated : option CoseKey) : option Signer :=
  key ← generated; Some (mkSigner key).

Definition signer_from_cbor (bytes : list byte) : option Signer :=
  key ← cose_parse bytes; Some (mkSigner key).

Definition signer_to_cbor (s : Signer) : list byte := cose_bytes (signer_key s).

Definition public_key_cbor (s : Signer) : list byte := cose_public (signer_key s).

(** [EnvelopePart]. *)
Record EnvelopePart := mkEnvelopePart {
  ep_id : string;
  ep_inner : list byte;
  ep_size : Z;
  ep_cek : array CEK_LEN;
  ep_iv : array NONCE_LEN;
  ep_outer : option ContentHash;
}.

(** The payload uri: the blob's address, or the integrated [#id]. *)
Definition part_uri (p : EnvelopePart) : string :=
  match ep_outer p with
  | Some outer => to_prefixed outer
  | None => "#" +:+ ep_id p
  end.

(** The component specification of one part. *)
Definition part_spec (recipient : CoseKey) (kid : list byte) (component : string)
    (p : EnvelopePart) : option ComponentSpec :=
  enc_info ← rewrap_cek_ecdh (ep_cek p) (ep_iv p) recipient kid;
  Some (mkComponentSpec [as_bytes component; as_bytes (ep_id p)] (ep_inner p) (ep_size p)
    (part_uri p) (Some enc_info)).

(** [Signer::build_envelope]; [now] is the wall clock in seconds. *)
Definition build_envelope (s : Signer) (now : Z) (device_pubkey device_kid : list byte)
    (component : string) (parts : list EnvelopePart) (seq : Z) : option (list byte) :=
  recipient ← cose_parse device_pubkey;
  specs ← mapM (part_spec recipient device_kid component) parts;
  build_multi (signer_key s) now seq specs.

(** [Signer::build_campaign]. *)
Definition build_campaign (s : Signer) (now : Z) (components : list (string * list byte))
    (seq : Z) : option (list byte) :=
  build_integrated (signer_key s) now seq components.

(** [Signer::build_disable_envelope]. *)
Definition build_disable_envelope (s : Signer) (now : Z) (component : string) (seq : Z) :
    option (list byte) :=
  build_disable (signer_key s) now seq [as_bytes component].

(** ** The handlers *)

Record NewEnvelopePart := mkNewEnvelopePart {
  nep_id : string;
  nep_content : ContentHash;
}.

Record NewEnvelope := mkNewEnvelope {
  ne_device_pubkey : string;
  ne_device_id : string;
  ne_component : string;
  ne_parts : list NewEnvelopePart;
  ne_seq : Z;
}.

Definition default_seq : Z := 1.

(** Reading the request body. *)
Definition new_envelope_part_of_value (v : Value) : option NewEnvelopePart :=
  l ← fields ["id"; "content"] v;
  id ← required l "id" d_str;
  content ← required l "content" hash_of_value;
  Some (mkNewEnvelopePart id content).

Definition new_envelope_of_value (v : Value) : option NewEnvelope :=
  l ← fields ["device_pubkey"; "device_id"; "component"; "parts"; "seq"] v;
  pubkey ← required l "device_pubkey" d_str;
  id ← required l "device_id" d_str;
  component ← required l "component" d_str;
  parts ← required l "parts" (d_vec new_envelope_part_of_value);
  seq ← defaulted l "seq" d_u64 default_seq;
  Some (mkNewEnvelope pubkey id component parts seq).

Context {B I P : Type} `{ArtifactIndex I}.
Abbreviation App := (AppState B I P Signer).

(** [GET /admin/signer/pubkey]. *)
Definition signer_pubkey (s : App) : list byte := public_key_cbor (app_signer s).

(** The index read of the handlers, [s.index.get(..).await?]. *)
Definition get_entry (content : ContentHash) : act App AppError ArtifactEntry := λ s,
  let '(i, r) := index_get content (app_index s) in
  (set_index i s,
   match r with
   | Err e => Err (Internal e)
   | Ok None => Err NotFound
   | Ok (Some e) => Ok e
   end).

(** The device key of a request: hex of a COSE_Key. *)
Definition request_pubkey (device_pubkey : string) : result AppError (list byte) :=
  bytes ← ok_or (BadRequest "device_pubkey must be hex") (hex_decode (trim device_pubkey));
  _ ← ok_or (BadRequest "device_pubkey is not a valid COSE_Key") (cose_parse bytes);
  mret bytes.

(** [create_envelope]. *)
Definition create_envelope (now : Z) (req : NewEnvelope) : act App AppError (list byte) :=
  device_pubkey ← lift (request_pubkey (ne_device_pubkey req));
  parts ← fold_act (λ parts p,
    entry ← get_entry (nep_content p);
    mret (parts ++ [mkEnvelopePart (nep_id p) (slice (hash_bytes (nep_content p)))
      (entry_size entry) (entry_cek entry) (entry_nonce entry) None])) (ne_parts req) [];
  signer ← gets app_signer;
  lift (ok_or (Internal "envelope build failed")
    (build_envelope signer now device_pubkey (as_bytes (ne_device_id req))
       (ne_component req) parts (ne_seq req))).
End signer.

(** * A concrete toolkit: envelopes are framed texts *)

(** A block of bytes that can be followed by anything. *)
Fixpoint frame (b : list byte) : list byte :=
  match b with [] => [x00] | x :: b' => x01 :: x :: frame b' end.

Fixpoint unframe (l : list byte) : option (list byte * list byte) :=
  match l with
  | x00 :: rest => Some ([], rest)
  | x01 :: x :: rest => '(b, r) ← unframe rest; Some (x :: b, r)
  | _ => None
  end.

Definition frames (l : list (list byte)) : list byte := concat (frame <$> l).

Fixpoint unframes (fuel : nat) (l : list byte) : option (list (list byte)) :=
  match fuel, l with
  | _, [] => Some []
  | O, _ => None
  | S fuel, _ => '(b, r) ← unframe l; bs ← unframes fuel r; Some (b :: bs)
  end.

Definition parse_frames (l : list byte) : option (list (list byte)) :=
  unframes (length l) l.

Definition toy_spec (s : ComponentSpec) : list byte :=
  frames [frames (spec_id s); as_bytes (spec_uri s); spec_digest s].

Definition toy_field (i k : nat) (e : byte * list (list byte)) : option (list byte) :=
  spec ← e.2 !! i; l ← parse_frames spec; l !! k.

Definition toy_pair (b : list byte) : option (string * list byte) :=
  match parse_frames b with
  | Some [k; v] => Some (String.string_of_list_byte k, v)
  | _ => None
  end.

#[export] Instance toy_suit : Suit := {|
  CoseKey := list byte;
  cose_parse b := match b with xa1 :: k => Some k | _ => None end;
  cose_bytes k := xa1 :: k;
  cose_public k := xa1 :: k;
  rewrap_cek_ecdh cek iv _ _ := Some (slice cek ++ slice iv);
  unwrap_cek _ info :=
    cek ← try_into CEK_LEN (take CEK_LEN info);
    iv ← try_into NONCE_LEN (drop CEK_LEN info); Some (cek, iv);
  build_multi _ _ _ specs := Some (x01 :: frames (toy_spec <$> specs));
  build_disable _ _ _ id := Some (x02 :: frames id);
  build_integrated _ _ _ images :=
    match images with
    | [] => None
    | _ => Some (x03 :: frames ((λ i, frames [as_bytes ("#" +:+ i.1); i.2]) <$> images))
    end;
  Envelope := byte * list (list byte);
  decode_envelope b :=
    match b with
    | [] => None
    | tag :: l => bs ← parse_frames l; Some (tag, bs)
    end;
  integrated_payloads e := collect_map (omap toy_pair e.2);
  component_count e := length e.2;
  component_id e i := b ← toy_field i 0 e; parse_frames b;
  manifest_uri e i := String.string_of_list_byte <$> toy_field i 1 e;
  image_digest e i := toy_field i 2 e;
  disable_target e := if bool_decide (e.1 = x02) then Some e.2 else None;
  has_firmware e := bool_decide (e.1 = x01);
|}.

Lemma unframe_frame b rest : unframe (frame b ++ rest) = Some (b, rest).
Proof. induction b as [|x b IH]; simpl; [done|]. by rewrite IH. Qed.

Lemma unframes_frames l n : length l ≤ n → unframes n (frames l) = Some l.
Proof.
  revert n. unfold frames. induction l as [|b l IH]; intros n Hn; [by destruct n|].
  destruct n as [|n]; simpl in Hn; [lia|]. rewrite fmap_cons. cbn [concat].
  destruct (frame b ++ concat (frame <$> l)) as [|x r] eqn:Hx.
  { by destruct b. }
  cbn [unframes]. rewrite <- Hx, unframe_frame. simpl. rewrite IH by lia. done.
Qed.

Lemma length_frames l : length l ≤ length (frames l).
Proof.
  unfold frames. induction l as [|b l IH]; [done|].
  rewrite fmap_cons. cbn [concat length]. rewrite length_app.
  assert (1 ≤ length (frame b)) by (destruct b; simpl; lia). lia.
Qed.

Lemma parse_frames_frames l : parse_frames (frames l) = Some l.
Proof. apply unframes_frames, length_frames. Qed.

Lemma toy_pairs (images : list (string * list byte)) :
  omap toy_pair ((λ i, frames [as_bytes ("#" +:+ i.1); i.2]) <$> images) =
  (λ i, ("#" +:+ i.1, i.2)) <$> images.
Proof.
  induction images as [|[k v] l IH]; [done|].
  rewrite !fmap_cons. cbn [omap list_omap]. unfold toy_pair at 1. cbn [fst snd].
  rewrite parse_frames_frames. unfold as_bytes. rewrite String.string_of_list_byte_of_string.
  f_equal. exact IH.
Qed.

Lemma toy_field_spec specs i spec k tag : specs !! i = Some spec →
  toy_field i k (tag, toy_spec <$> specs) =
  [frames (spec_id spec); as_bytes (spec_uri spec); spec_digest spec] !! k.
Proof.
  intros Hi. unfold toy_field. cbn [snd]. rewrite list_lookup_fmap, Hi.
  unfold toy_spec. cbn [fmap option_fmap option_map mbind option_bind].
  by rewrite parse_frames_frames.
Qed.

#[export] Instance toy_suit_spec : SuitSpec.
Proof.
  constructor.
  - done.
  - intros sk pk cek iv kid info _ [= <-]. cbn -[CEK_LEN NONCE_LEN].
    assert (CEK_LEN = length (slice cek)) as Hl by (by rewrite length_slice).
    rewrite take_app_length', drop_app_length' by done.
    by rewrite !try_into_slice.
  - intros key now seq specs b [= <-]. cbn -[parse_frames].
    rewrite parse_frames_frames. eexists. split; [done|]. cbn -[parse_frames]. rewrite length_fmap.
    split_and!; [done..|]. intros i spec Hi.
    rewrite !(toy_field_spec specs i spec) by done. cbn -[parse_frames frames].
    rewrite parse_frames_frames. unfold as_bytes.
    by rewrite String.string_of_list_byte_of_string.
  - intros key now seq id b [= <-]. cbn. rewrite parse_frames_frames. by eexists.
  - intros key now seq images b Hb.
    assert (b = x03 :: frames ((λ i, frames [as_bytes ("#" +:+ i.1); i.2]) <$> images)) as ->
      by (destruct images; [done|]; by injection Hb).
    cbn [decode_envelope toy_suit]. rewrite parse_frames_frames. eexists. split; [done|].
    cbn [integrated_payloads toy_suit snd]. by rewrite toy_pairs.
  - done.
Qed.
