(* ===== verification/L1.v ===== *)
(** The signed L1 campaign of Tower 2 (src/crates/software-tower/src/releases.rs,
    [channel_target_l1]): vehicle state in, per-device signed plan out. *)

From S2P Require Import Prelude Ext Wire Json Store Content HubDb Releases Signer.

Record L1Request := mkL1Request {
  l1_channel : option string;
  l1_vehicle_release_id : option Z;
  l1_tree_hash : option string;
  l1_device : string;
  l1_architecture : string;
  l1_device_pubkey : string;
  l1_device_id : string;
  l1_current_state : option Value;
  l1_seq : Z;
}.

Definition default_l1_seq : Z := 1.

(** Reading the request body. *)
Definition l1_request_of_value (v : Value) : option L1Request :=
  l ← fields ["channel"; "vehicle_release_id"; "tree_hash"; "device"; "architecture";
              "device_pubkey"; "device_id"; "current_state"; "seq"] v;
  channel ← defaulted l "channel" (d_option d_str) None;
  id ← defaulted l "vehicle_release_id" (d_option d_i64) None;
  hash ← defaulted l "tree_hash" (d_option d_str) None;
  device ← required l "device" d_str;
  architecture ← required l "architecture" d_str;
  pubkey ← required l "device_pubkey" d_str;
  device_id ← required l "device_id" d_str;
  state ← defaulted l "current_state" (d_option Some) None;
  seq ← defaulted l "seq" d_u64 default_l1_seq;
  Some (mkL1Request channel id hash device architecture pubkey device_id state seq).

(** [204 No Content], or the campaign. *)
Inductive L1Response :=
  | NoContent
  | Campaign (l1 : list byte).

(** [entity_agreed]. *)
Definition entity_agreed (reported : Tree) (path : string) (resolved : Entity) : bool :=
  match reported !! path with
  | None => false
  | Some rep =>
      forallb (λ p, existsb (λ rp, bool_decide (part_content rp = part_content p))
        (entity_parts rep)) (entity_parts resolved)
  end.

(** [target_label], for the log lines. *)
Definition target_label (channel : option string) (vehicle_release_id : option Z) : string :=
  match vehicle_release_id with
  | Some id => "vehicle release " +:+ pretty id
  | None => default "unspecified target" channel
  end.

(** Where [partition_l1_components] puts a component. *)
Inductive L1Class := Included | DisabledNow | Skipped | Omitted.

#[export] Instance L1Class_eq_dec : EqDecision L1Class.
Proof. solve_decision. Defined.

(** The body of its loop. *)
Definition l1_class (reported : option Tree) (path : string) (entity : Entity) : L1Class :=
  let observed_admin := rep ← reported; e ← rep !! path; entity_admin_disabled e in
  if entity_disabled entity then
    if bool_decide (observed_admin = Some false) then DisabledNow else Skipped
  else
    match entity_parts entity with
    | [] => Omitted
    | _ =>
        match reported with
        | Some rep =>
            if bool_decide (observed_admin ≠ Some true) && entity_agreed rep path entity
            then Skipped else Included
        | None => Included
        end
    end.

(** [partition_l1_components]: included, disabled, skipped. *)
Definition partition_l1_components (tree : Tree) (reported : option Tree) :
    list (string * Entity) * list (string * Entity) * list string :=
  foldl (λ '(included, disabled, skipped) '(path, entity),
    match l1_class reported path entity with
    | Included => (included ++ [(path, entity)], disabled, skipped)
    | DisabledNow => (included, disabled ++ [(path, entity)], skipped)
    | Skipped => (included, disabled, skipped ++ [path])
    | Omitted => (included, disabled, skipped)
    end) ([], [], []) (entries tree).

Section l1.
Context `{HexCodec, Sha256, RowOrder, Suit}.
Context {B I : Type} `{ArtifactIndex I}.
Abbreviation App := (AppState B I HubDb Signer).

(** The lenient parse of the vehicle's report. *)
Definition reported_state (current_state : option Value) : option Tree :=
  value ← current_state; tree_of_value value.

(** The envelope of one component, a disable manifest or a flash image. *)
Definition build_l2 (now : Z) (req : L1Request) (device_pubkey : list byte)
    (path : string) (entity : Entity) : act App AppError (list byte) :=
  signer ← gets app_signer;
  if entity_disabled entity then
    lift (ok_or (Internal ("L2 disable build failed for " +:+ path))
      (build_disable_envelope signer now path (l1_seq req)))
  else
    parts ← fold_act (λ parts p,
      entry ← get_entry (part_content p);
      mret (parts ++ [mkEnvelopePart (part_id p) (slice (hash_bytes (part_content p)))
        (entry_size entry) (entry_cek entry) (entry_nonce entry)
        (Some (entry_outer entry))])) (entity_parts entity) [];
    lift (ok_or (Internal ("L2 build failed for " +:+ path))
      (build_envelope signer now device_pubkey (as_bytes (l1_device_id req)) path parts
         (l1_seq req))).

(** The resolution of the request's target, guarded for a pinned release. *)
Definition l1_target (req : L1Request) : act HubDb AppError Tree :=
  _ ← match l1_vehicle_release_id req with
      | Some id =>
          matches ← db (release_matches_target id (l1_device req) (l1_architecture req));
          if matches : bool then mret () else throw NotFound
      | None => mret ()
      end;
  tree ← resolve_target (mkTargetSelector (l1_channel req) (Some (l1_device req))
    (Some (l1_architecture req)) (l1_vehicle_release_id req) (l1_tree_hash req));
  lift (ok_or NotFound tree).

(** [channel_target_l1]. *)
Definition channel_target_l1 (now : Z) (req : L1Request) : act App AppError L1Response :=
  device_pubkey ← lift (request_pubkey (l1_device_pubkey req));
  let reported := reported_state (l1_current_state req) in
  tree ← with_pool (l1_target req);
  let '(included, disabled, skipped) := partition_l1_components tree reported in
  l2s ← fold_act (λ l2s e,
    l2 ← build_l2 now req device_pubkey e.1 e.2;
    mret (l2s ++ [(e.1, l2)])) (included ++ disabled) [];
  match l2s with
  | [] =>
      match skipped with
      | [] => throw NotFound
      | _ => mret NoContent
      end
  | _ =>
      signer ← gets app_signer;
      l1 ← lift (ok_or (Internal "L1 build failed")
             (build_campaign signer now l2s (l1_seq req)));
      mret (Campaign l1)
  end.
End l1.

(** * Properties *)

(** What the vehicle reports of a component. *)
Definition reports (reported : option Tree) (path : string) (e : Entity) : Prop :=
  (rep ← reported; rep !! path) = Some e.

(** It already carries every part of [entity], by content. *)
Definition carries (e entity : Entity) : Prop :=
  ∀ p, p ∈ entity_parts entity →
    ∃ rp, rp ∈ entity_parts e ∧ part_content rp = part_content p.

(** It reports the component as enabled. *)
Definition reports_enabled (reported : option Tree) (path : string) : Prop :=
  ∃ e, reports reported path e ∧ entity_admin_disabled e = Some false.

(** The component needs nothing: carried, and not reported as disabled. *)
Definition up_to_date (reported : option Tree) (path : string) (entity : Entity) : Prop :=
  ∃ e, reports reported path e ∧ entity_admin_disabled e ≠ Some true ∧ carries e entity.

Lemma entity_agreed_true rep path entity :
  entity_agreed rep path entity = true ↔ ∃ e, rep !! path = Some e ∧ carries e entity.
Proof.
  unfold entity_agreed, carries. destruct (rep !! path) as [e|]; [|naive_solver].
  rewrite forallb_forall. setoid_rewrite existsb_exists.
  setoid_rewrite bool_decide_eq_true. setoid_rewrite <- list_elem_of_In. naive_solver.
Qed.

Lemma entity_agreed_false rep path entity :
  entity_agreed rep path entity = false ↔ ¬ ∃ e, rep !! path = Some e ∧ carries e entity.
Proof. rewrite <- entity_agreed_true. by destruct (entity_agreed rep path entity). Qed.

(** The class of a component, by what is desired and reported. *)
Lemma l1_class_spec reported path entity :
  match l1_class reported path entity with
  | DisabledNow => entity_disabled entity = true ∧ reports_enabled reported path
  | Included => entity_disabled entity = false ∧ entity_parts entity ≠ [] ∧
      ¬ up_to_date reported path entity
  | Skipped =>
      (entity_disabled entity = true ∧ ¬ reports_enabled reported path) ∨
      (entity_disabled entity = false ∧ entity_parts entity ≠ [] ∧
       up_to_date reported path entity)
  | Omitted => entity_disabled entity = false ∧ entity_parts entity = []
  end.
Proof.
  unfold l1_class, reports_enabled, up_to_date, reports.
  destruct (entity_disabled entity).
  - case_bool_decide as Ha; destruct reported as [rep|]; simpl in *; try done.
    + destruct (rep !! path) as [e|]; simpl in *; naive_solver.
    + left. split; [done|]. intros (e & He & Hf). apply Ha. by rewrite He.
    + left. split; [done|]. intros (e & He & Hf). done.
  - destruct (entity_parts entity) as [|p l] eqn:Hp; [done|].
    destruct reported as [rep|]; simpl; [|split_and!; [done..|]; naive_solver].
    destruct (rep !! path) as [e|] eqn:He; simpl.
    + case_bool_decide as Ha; simpl.
      * destruct (entity_agreed rep path entity) eqn:Hag.
        -- apply entity_agreed_true in Hag as (e' & ? & Hc). simplify_eq.
           right. split_and!; [done..|]. naive_solver.
        -- apply entity_agreed_false in Hag. split_and!; [done..|].
           intros (e' & [= <-] & _ & Hc). apply Hag. eauto.
      * split_and!; [done..|]. intros (e' & [= <-] & Hne & _). done.
    + destruct (entity_agreed rep path entity) eqn:Hag.
      * apply entity_agreed_true in Hag as (e' & ? & _). congruence.
      * rewrite ?andb_false_r. split_and!; [done..|]. by intros (e' & ? & _).
Qed.

Lemma partition_l1_filter tree reported :
  partition_l1_components tree reported =
  (filter (λ e, l1_class reported e.1 e.2 = Included) (entries tree),
   filter (λ e, l1_class reported e.1 e.2 = DisabledNow) (entries tree),
   (filter (λ e, l1_class reported e.1 e.2 = Skipped) (entries tree)).*1).
Proof.
  unfold partition_l1_components. generalize (entries tree) as l.
  induction l as [|[path e] l IH] using rev_ind; [done|].
  rewrite foldl_app, IH. cbn [foldl]. rewrite !list.filter_app, !list.filter_cons, !filter_nil.
  cbn [fst snd].
  destruct (l1_class reported path e); repeat case_decide; try done;
    by rewrite ?app_nil_r, ?fmap_app.
Qed.

(** The partition of a target for its campaign: a component is flashed exactly
    when it is enabled, has parts and is not reported as up to date; it gets a
    disable manifest exactly when it is disabled in the release and reported as
    enabled; it is skipped exactly when it is up to date, or disabled in the release
    and not reported as enabled. *)
Lemma partition_l1_components_spec (tree : Tree) (reported : option Tree) :
  let '(included, disabled, skipped) := partition_l1_components tree reported in
  (∀ path entity, (path, entity) ∈ included ↔ tree !! path = Some entity ∧
     entity_disabled entity = false ∧ entity_parts entity ≠ [] ∧
     ¬ up_to_date reported path entity) ∧
  (∀ path entity, (path, entity) ∈ disabled ↔ tree !! path = Some entity ∧
     entity_disabled entity = true ∧ reports_enabled reported path) ∧
  (∀ path, path ∈ skipped ↔ ∃ entity, tree !! path = Some entity ∧
     ((entity_disabled entity = true ∧ ¬ reports_enabled reported path) ∨
      (entity_disabled entity = false ∧ entity_parts entity ≠ [] ∧
       up_to_date reported path entity))).
Proof.
  rewrite partition_l1_filter.
  assert (∀ path entity c, l1_class reported path entity = c ↔
    match c with
    | DisabledNow => entity_disabled entity = true ∧ reports_enabled reported path
    | Included => entity_disabled entity = false ∧ entity_parts entity ≠ [] ∧
        ¬ up_to_date reported path entity
    | Skipped =>
        (entity_disabled entity = true ∧ ¬ reports_enabled reported path) ∨
        (entity_disabled entity = false ∧ entity_parts entity ≠ [] ∧
         up_to_date reported path entity)
    | Omitted => entity_disabled entity = false ∧ entity_parts entity = []
    end) as Hc.
  { intros path entity c. pose proof (l1_class_spec reported path entity) as Hs.
    split; [by intros <-|]. destruct c, (l1_class reported path entity); intuition congruence. }
  split_and!.
  - intros path entity. rewrite list_elem_of_filter, elem_of_entries. cbn. rewrite Hc. tauto.
  - intros path entity. rewrite list_elem_of_filter, elem_of_entries. cbn. rewrite Hc. tauto.
  - intros path. rewrite list_elem_of_fmap. split.
    + intros ([path' e] & -> & He). apply list_elem_of_filter in He as [Hcl He].
      apply elem_of_entries in He. apply Hc in Hcl. eauto.
    + intros (e & He & Hcl). exists (path, e). split; [done|].
      apply list_elem_of_filter. rewrite elem_of_entries. by rewrite Hc.
Qed.
