(* ===== verification/Client.v ===== *)
(** The typed HTTP clients of the towers (src/crates/client/src/lib.rs): the
    requests they build, and how a response becomes a value, [None] or an error.
    The transport is an interface over a world [W]. *)

From S2P Require Import Prelude Ext Wire Json.

(** * The transport *)

Inductive Method := GET | POST.

Inductive Body :=
  | NoBody
  | BytesBody (b : list byte)
  | JsonBody (v : Value).

(** A request; the query pairs are kept before url-encoding. *)
Record Request := mkRequest {
  rq_method : Method;
  rq_url : string;
  rq_query : list (string * string);
  rq_bearer : option string;
  rq_body : Body;
}.

(** A response; [None] is a body that could not be read to its end. *)
Record Response := mkResponse {
  rs_status : Z;
  rs_body : option (list byte);
}.

(** How TLS certificates are checked: an added root, or the insecure toggle. *)
Record Trust := mkTrust {
  trust_insecure : bool;
  trust_ca : option (list byte);
}.

Definition default_trust : Trust := mkTrust false None.

(** reqwest and serde_json: whether a client can be built, sending a request
    ([None] is a transport error), parsing a JSON text. *)
Class Http (W : Type) := {
  client_builds : Trust → bool;
  send : Trust → Request → W → W * option Response;
  json_parse : list byte → option Value;
}.

Definition get (url : string) : Request := mkRequest GET url [] None NoBody.
Definition post (url : string) (body : Body) : Request := mkRequest POST url [] None body.

(** * Errors *)

(** [reqwest::Error], by the step that failed. *)
Inductive HttpError :=
  | TransportError
  | StatusError (status : Z)
  | BodyError
  | DecodeError.

#[export] Instance HttpError_eq_dec : EqDecision HttpError.
Proof. solve_decision. Defined.

Inductive ClientError := HttpErr (e : HttpError).

#[export] Instance ClientError_eq_dec : EqDecision ClientError.
Proof. solve_decision. Defined.

(** * Request bodies *)

Section bodies.
Context `{HexCodec}.

Record MintKeystoreReq := mkMintKeystoreReq { mk_sw_authority_pubkey : string }.

Definition value_of_mint_keystore (r : MintKeystoreReq) : Value :=
  VObj [("sw_authority_pubkey", VStr (mk_sw_authority_pubkey r))].

Record EnvelopePartReq := mkEnvelopePartReq {
  epr_id : string;
  epr_content : ContentHash;
}.

Record EnvelopeReq := mkEnvelopeReq {
  er_device_pubkey : string;
  er_device_id : string;
  er_component : string;
  er_parts : list EnvelopePartReq;
  er_seq : Z;
}.

Definition value_of_envelope_part_req (p : EnvelopePartReq) : Value :=
  VObj [("id", VStr (epr_id p)); ("content", value_of_hash (epr_content p))].

Definition value_of_envelope_req (r : EnvelopeReq) : Value :=
  VObj [("device_pubkey", VStr (er_device_pubkey r)); ("device_id", VStr (er_device_id r));
        ("component", VStr (er_component r));
        ("parts", VArr (value_of_envelope_part_req <$> er_parts r));
        ("seq", VInt (er_seq r))].

Record L1Req := mkL1Req {
  l1r_channel : option string;
  l1r_vehicle_release_id : option Z;
  l1r_tree_hash : option string;
  l1r_device : string;
  l1r_architecture : string;
  l1r_device_pubkey : string;
  l1r_device_id : string;
  l1r_current_state : option Value;
  l1r_seq : Z;
}.

Definition value_of_l1_req (r : L1Req) : Value :=
  VObj (skip_none "channel" VStr (l1r_channel r)
    ++ skip_none "vehicle_release_id" VInt (l1r_vehicle_release_id r)
    ++ skip_none "tree_hash" VStr (l1r_tree_hash r)
    ++ [("device", VStr (l1r_device r)); ("architecture", VStr (l1r_architecture r));
        ("device_pubkey", VStr (l1r_device_pubkey r)); ("device_id", VStr (l1r_device_id r))]
    ++ skip_none "current_state" id (l1r_current_state r)
    ++ [("seq", VInt (l1r_seq r))]).

Record MintReq := mkMintReq {
  mr_device_id : string;
  mr_components : list string;
  mr_boot_id : option string;
  mr_ttl_secs : option Z;
}.

Definition value_of_mint_req (r : MintReq) : Value :=
  VObj ([("device_id", VStr (mr_device_id r)); ("components", VArr (VStr <$> mr_components r))]
    ++ skip_none "boot_id" VStr (mr_boot_id r) ++ skip_none "ttl_secs" VInt (mr_ttl_secs r)).

(** * Response types of the client itself *)

Record Version := mkVersion { version_service : string; version_version : string }.

Definition version_of_value (v : Value) : option Version :=
  l ← fields ["service"; "version"] v;
  service ← required l "service" d_str;
  version ← required l "version" d_str;
  Some (mkVersion service version).

Record MintedToken := mkMintedToken { minted_token : string; minted_expires_at : string }.

Definition minted_token_of_value (v : Value) : option MintedToken :=
  l ← fields ["token"; "expires_at"] v;
  token ← required l "token" d_str;
  expires ← required l "expires_at" d_str;
  Some (mkMintedToken token expires).
End bodies.

(** * Reading a response *)

Definition NOT_FOUND : Z := 404.

Definition is_success (status : Z) : bool := (200 <=? status)%Z && (status <? 300)%Z.

Section client.
Context {W : Type} `{Http W, HexCodec}.

Definition error_for_status (r : Response) : result HttpError Response :=
  if (400 <=? rs_status r)%Z && (rs_status r <? 600)%Z then Err (StatusError (rs_status r))
  else Ok r.

Definition resp_bytes (r : Response) : result HttpError (list byte) :=
  ok_or BodyError (rs_body r).

Definition resp_text (r : Response) : result HttpError string :=
  b ← resp_bytes r; mret (from_utf8_lossy b).

Definition resp_json {A} (d : Value → option A) (r : Response) : result HttpError A :=
  b ← resp_bytes r; ok_or DecodeError (v ← json_parse b; d v).

(** [.send().await?] on a request, under a trust. *)
Definition send_with (t : Trust) (rq : Request) : act W HttpError Response := λ w,
  let '(w', r) := send t rq w in (w', ok_or TransportError r).

(** [?] in the clients: a [reqwest::Error] becomes a [ClientError]. *)
Definition client_call {A} : act W HttpError A → act W ClientError A :=
  act_map_err HttpErr.

(** [send()?.error_for_status()?] and a reader. *)
Definition fetch {A} (rq : Request) (read : Response → result HttpError A) :
    act W ClientError A :=
  client_call (
    resp ← send_with default_trust rq;
    resp ← lift (error_for_status resp);
    lift (read resp)).

(** The same, where [404] is [None]. *)
Definition fetch_option {A} (rq : Request) (read : Response → result HttpError A) :
    act W ClientError (option A) :=
  client_call (
    resp ← send_with default_trust rq;
    if (rs_status resp =? NOT_FOUND)%Z then mret None
    else
      resp ← lift (error_for_status resp);
      a ← lift (read resp); mret (Some a)).

(** * [TowerClient] *)

Record TowerClient := mkTowerClient { base : string }.

Definition tower_new (base_url : string) : TowerClient :=
  mkTowerClient (trim_end_matches slash base_url).

Definition healthy (c : TowerClient) : act W ClientError bool :=
  body ← fetch (get (base c +:+ "/healthz")) resp_text;
  mret (bool_decide (trim body = "ok")).

Definition version (c : TowerClient) : act W ClientError Version :=
  fetch (get (base c +:+ "/version")) (resp_json version_of_value).

(** * [SoftwareClient] *)

Definition publish_artifact (c : TowerClient) (plaintext : list byte) :
    act W ClientError ArtifactRef :=
  fetch (post (base c +:+ "/admin/artifacts") (BytesBody plaintext))
    (resp_json artifact_ref_of_value).

Definition client_get_blob (c : TowerClient) (outer : ContentHash) :
    act W ClientError (option (list byte)) :=
  fetch_option (get (base c +:+ "/blobs/" +:+ to_prefixed outer)) resp_bytes.

Definition client_artifact_exists (c : TowerClient) (inner : ContentHash) :
    act W ClientError (option ArtifactRef) :=
  fetch_option (get (base c +:+ "/admin/artifacts/" +:+ to_prefixed inner))
    (resp_json artifact_ref_of_value).

Definition client_channel_target_tree (c : TowerClient) (channel : string)
    (device architecture : option string) : act W ClientError (option Tree) :=
  let q := [("channel", channel)]
    ++ match device with Some d => [("device", d)] | None => [] end
    ++ match architecture with Some a => [("architecture", a)] | None => [] end in
  fetch_option (mkRequest GET (base c +:+ "/channel-targets/tree") q None NoBody)
    (resp_json tree_of_value).

Definition channel_tree (c : TowerClient) (name : string) : act W ClientError (option Tree) :=
  client_channel_target_tree c name None None.

Definition vehicle_release_tree (c : TowerClient) (vehicle_release_id : Z)
    (tree_hash : option string) : act W ClientError (option Tree) :=
  let q := [("vehicle_release_id", pretty vehicle_release_id)]
    ++ match tree_hash with Some h => [("tree_hash", h)] | None => [] end in
  fetch_option (mkRequest GET (base c +:+ "/channel-targets/tree") q None NoBody)
    (resp_json tree_of_value).

Definition client_build_envelope (c : TowerClient) (device_pubkey device_id component : string)
    (parts : list (string * ContentHash)) (seq : Z) : act W ClientError (list byte) :=
  let body := mkEnvelopeReq device_pubkey device_id component
    ((λ '(id, content), mkEnvelopePartReq id content) <$> parts) seq in
  fetch (post (base c +:+ "/admin/envelope") (JsonBody (value_of_envelope_req body)))
    resp_bytes.

Definition l1_post (c : TowerClient) (body : L1Req) : act W ClientError (list byte) :=
  fetch (post (base c +:+ "/channel-targets/l1") (JsonBody (value_of_l1_req body)))
    resp_bytes.

Definition client_channel_target_l1 (c : TowerClient)
    (channel device architecture device_pubkey device_id : string)
    (current_state : option Value) (seq : Z) : act W ClientError (list byte) :=
  l1_post c (mkL1Req (Some channel) None None device architecture device_pubkey device_id
    current_state seq).

Definition vehicle_release_l1 (c : TowerClient) (vehicle_release_id : Z)
    (tree_hash : option string) (device architecture device_pubkey device_id : string)
    (current_state : option Value) (seq : Z) : act W ClientError (list byte) :=
  l1_post c (mkL1Req None (Some vehicle_release_id) tree_hash device architecture
    device_pubkey device_id current_state seq).

Definition client_signer_pubkey (c : TowerClient) : act W ClientError (list byte) :=
  fetch (get (base c +:+ "/admin/signer/pubkey")) resp_bytes.

(** * [IdentityClient] *)

Definition client_register_device (c : TowerClient) (req : RegisterDevice) :
    act W ClientError Device :=
  fetch (post (base c +:+ "/admin/devices") (JsonBody (value_of_register req)))
    (resp_json device_of_value).

Definition client_list_devices (c : TowerClient) : act W ClientError (list Device) :=
  fetch (get (base c +:+ "/devices")) (resp_json (d_vec device_of_value)).

Definition client_get_device (c : TowerClient) (id : string) :
    act W ClientError (option Device) :=
  fetch_option (get (base c +:+ "/devices/" +:+ id)) (resp_json device_of_value).

Definition client_enroll (c : TowerClient) (id key_id : string) (csr_der : list byte) :
    act W ClientError EnrollResponse :=
  fetch (post (base c +:+ "/admin/devices/" +:+ id +:+ "/enroll?key_id=" +:+ key_id)
    (BytesBody csr_der)) (resp_json enroll_of_value).

Definition client_mint_keystore (c : TowerClient) (id sw_authority_pubkey : string) :
    act W ClientError (list byte) :=
  fetch (post (base c +:+ "/admin/devices/" +:+ id +:+ "/keystore")
    (JsonBody (value_of_mint_keystore (mkMintKeystoreReq sw_authority_pubkey)))) resp_bytes.

Definition client_ca_cert (c : TowerClient) : act W ClientError string :=
  fetch (get (base c +:+ "/admin/ca/cert")) resp_text.

Definition client_trust_bundle (c : TowerClient) : act W ClientError TrustBundle :=
  fetch (get (base c +:+ "/admin/ca/trust-bundle")) (resp_json trust_bundle_of_value).

(** * [MinterClient] *)

Record MinterClient := mkMinterClient {
  minter_base : string;
  operator_token : string;
}.

Definition minter_new (base_url token : string) : MinterClient :=
  mkMinterClient (trim_end_matches slash base_url) token.

Definition mint (c : MinterClient) (device_id : string) (components : list string)
    (boot_id : option string) (ttl_secs : option Z) : act W ClientError MintedToken :=
  fetch (mkRequest POST (minter_base c +:+ "/mint") [] (Some (operator_token c))
    (JsonBody (value_of_mint_req (mkMintReq device_id components boot_id ttl_secs))))
    (resp_json minted_token_of_value).
End client.

(** * A concrete transport *)

(** A server that answers by url and keeps no state; the JSON texts it sends are
    the one-byte numbers of a list of documents. *)
Definition Scripted : Type := list (string * Response).

Definition scripted_http (docs : list Value) : Http Scripted := {|
  client_builds := λ _, true;
  send := λ _ rq w, (w, assoc (rq_url rq) w);
  json_parse := λ b,
    match b with
    | [k] => docs !! N.to_nat (Byte.to_N k)
    | _ => None
    end;
|}.
