(* ===== verification/Web.v ===== *)
(** HTTP servers as the towers build them with axum: routes, extractors, responses,
    an error as a response, and a server in the same process as the typed client
    (src/crates/client/src/lib.rs) that talks to it.  [Router] and [IdentityRouter]
    give the two towers' routes and handlers. *)

From S2P Require Import Prelude Ext Wire Json Client.

(** * Reading integers and queries *)

(** [i64::from_str]. *)
Definition digit_value (c : Ascii.ascii) : option Z :=
  let n := Z.of_nat (Ascii.nat_of_ascii c) in
  if (48 <=? n)%Z && (n <=? 57)%Z then Some (n - 48)%Z else None.

Fixpoint digits_value (acc : Z) (s : string) : option Z :=
  match s with
  | "" => Some acc
  | String c s' => d ← digit_value c; digits_value (acc * 10 + d) s'
  end.

Definition unsigned_value (s : string) : option Z :=
  match s with "" => None | _ => digits_value 0 s end.

Definition parse_i64 (s : string) : option Z :=
  z ← match strip_prefix "-" s, strip_prefix "+" s with
      | Some digits, _ => Z.opp <$> unsigned_value digits
      | None, Some digits => unsigned_value digits
      | None, None => unsigned_value s
      end;
  if bool_decide (i64_ok z) then Some z else None.

(** A query field of type [Option<_>]: absent, given once, or a duplicate, which
    is refused. *)
Definition query_field {A} (parse : string → option A) (q : list (string * string))
    (name : string) : option (option A) :=
  match filter (λ p, p.1 = name) q with
  | [] => Some None
  | [(_, v)] => Some <$> parse v
  | _ => None
  end.

(** * Routes *)

Inductive Verb := Get | Post | Put.

#[export] Instance Verb_eq_dec : EqDecision Verb.
Proof. solve_decision. Defined.

Definition verb_of (m : Method) : Verb :=
  match m with GET => Get | POST => Post end.

(** A path's segments: what its slashes separate. *)
Fixpoint split_on (c : Ascii.ascii) (s : string) : list string :=
  match s with
  | "" => [""]
  | String d s' =>
      if Ascii.eqb d c then "" :: split_on c s'
      else match split_on c s' with
           | w :: ws => String d w :: ws
           | [] => [String d ""]
           end
  end.

(** The segments of a path pattern, [None] for a capture, and the methods it
    serves. *)
Definition Routes (H : Type) : Type := list (list (option string) * list (Verb * H)).

(** What a path captures; a capture is a segment that is not empty. *)
Fixpoint match_path (pattern : list (option string)) (segments : list string) :
    option (list string) :=
  match pattern, segments with
  | [], [] => Some []
  | Some p :: pattern', s :: segments' =>
      if String.eqb p s then match_path pattern' segments' else None
  | None :: pattern', s :: segments' =>
      if String.eqb s "" then None else cons s <$> match_path pattern' segments'
  | _, _ => None
  end.

(** The handler and its captures: no pattern is [404], no method [405]. *)
Definition route_segments {H} (table : Routes H) (verb : Verb) (segments : list string) :
    result Z (H * list string) :=
  match head (omap (λ r, (λ c, (r.2, c)) <$> match_path r.1 segments) table) with
  | Some (methods, captures) =>
      match head (filter (λ m, m.1 = verb) methods) with
      | Some (_, h) => Ok (h, captures)
      | None => Err 405%Z
      end
  | None => Err 404%Z
  end.

Definition route {H} (table : Routes H) (verb : Verb) (path : string) :
    result Z (H * list string) :=
  match split_on slash path with
  | "" :: segments => route_segments table verb segments
  | _ => Err 404%Z
  end.

(** * Bodies and responses *)

(** axum and serde_json: the text of a document and back, and the text a refused
    extraction answers with; Postgres: a timestamp as text, a [jsonb] column. *)
Class WebStack := {
  json_text : Value → list byte;
  json_read : list byte → option Value;
  json_read_text v : json_read (json_text v) = Some v;
  rejection : Z → list byte;
  timestamp_text : Z → string;
  jsonb_text : Value → string;
  jsonb_value : string → Value;
}.

(** The error type of a tower's handlers, as a response. *)
Class AppErrors (E : Type) := {
  error_response : E → Z * string;
  error_status e : (400 ≤ (error_response e).1 < 600)%Z;
}.

Definition value_of_version (v : Version) : Value :=
  VObj [("service", VStr (version_service v)); ("version", VStr (version_version v))].

Section server.
Context `{WebStack}.

(** [Json<_>]: a body without the JSON content type is [415], one that is not the
    expected struct [422]. *)
Definition json_body {A} (d : Value → option A) (b : Body) : result Z A :=
  match b with
  | JsonBody v => ok_or 422%Z (d v)
  | _ => Err 415%Z
  end.

Definition body_bytes (b : Body) : list byte :=
  match b with
  | NoBody => []
  | BytesBody b => b
  | JsonBody v => json_text v
  end.

Definition respond_ok (status : Z) (body : list byte) : Response :=
  mkResponse status (Some body).

(** [AppError::into_response]. *)
Definition respond_error {E} `{!AppErrors E} (e : E) : Response :=
  let '(status, text) := error_response e in respond_ok status (as_bytes text).

Definition respond {S E A} `{!AppErrors E} (ok : A → Response) (m : act S E A) (s : S) :
    S * Response :=
  let '(s', r) := m s in
  (s', match r with Ok a => ok a | Err e => respond_error e end).

(** [Json(value)]. *)
Definition respond_json {S E A} `{!AppErrors E} (f : A → Value) (m : act S E A) :
    S → S * Response :=
  respond (λ a, respond_ok 200 (json_text (f a))) m.

Definition refuse {S} (status : Z) (s : S) : S * Response :=
  (s, respond_ok status (rejection status)).

(** A handler behind an extractor that may refuse the request. *)
Definition extracting {S A} (x : result Z A) (h : A → S → S * Response) :
    S → S * Response :=
  match x with Ok a => h a | Err status => refuse status end.

Definition query_of {A} (x : option A) : result Z A := ok_or 400%Z x.

(** * A server and a client in one process *)

(** What a server does with a request: method, path, query and body. *)
Definition Server (S : Type) : Type :=
  Verb → string → list (string * string) → Body → S → S * Response.

(** The characters [?] and [&]. *)
Definition question : Ascii.ascii := Ascii.ascii_of_nat 63.
Definition ampersand : Ascii.ascii := Ascii.ascii_of_nat 38.

(** The pairs of a query as text; keys and values as sent (no escape is undone). *)
Definition query_pairs (q : string) : list (string * string) :=
  (λ kv, default (kv, "") (split_once "=" kv)) <$>
    filter (λ kv, kv ≠ "") (split_on ampersand q).

(** The path and the query of a target. *)
Definition split_query (target : string) : string * list (string * string) :=
  match split_once "?" target with
  | Some (path, q) => (path, query_pairs q)
  | None => (target, [])
  end.

(** A server at [url]: a request sent to another address fails. *)
Definition loopback {S} (url : string) (server : Server S) : Http S := {|
  client_builds := λ _, true;
  send := λ _ rq s,
    match strip_prefix url (rq_url rq) with
    | Some target =>
        let '(path, q) := split_query target in
        let '(s', r) := server (verb_of (rq_method rq)) path (q ++ rq_query rq) (rq_body rq) s in
        (s', Some r)
    | None => (s, None)
    end;
  json_parse := json_read;
|}.
End server.

(** * Lemmas: integers and paths *)

Lemma digit_value_pretty (x : N) : (x < 10)%N → digit_value (pretty_N_char x) = Some (Z.of_N x).
Proof. intros Hx. destruct x as [|p]; [done|]. by do 4 (destruct p as [p|p|]; try done). Qed.

Lemma digits_value_pretty_go x s :
  digits_value 0 (pretty_N_go x s) = digits_value (Z.of_N x) s.
Proof.
  revert s. induction (N.lt_wf_0 x) as [x _ IH]; intros s.
  assert (x = 0 ∨ 0 < x)%N as [->|Hx] by lia; [by rewrite pretty_N_go_0|].
  rewrite pretty_N_go_step by done. rewrite IH by by apply N.div_lt.
  cbn [digits_value]. rewrite digit_value_pretty by (apply N.mod_lt; lia). simpl.
  f_equal. rewrite N2Z.inj_div, N2Z.inj_mod. pose proof (Z.div_mod (Z.of_N x) 10). lia.
Qed.

Lemma unsigned_value_pretty (p : positive) : unsigned_value (pretty p) = Some (Zpos p).
Proof.
  unfold pretty, pretty_positive, pretty, pretty_N. rewrite decide_False by done.
  unfold unsigned_value. pose proof (digits_value_pretty_go (Npos p) "") as Hd.
  destruct (pretty_N_go (Npos p) "") eqn:Hp; [|exact Hd].
  rewrite pretty_N_go_step in Hp by lia.
  by apply pretty_N_go_nonempty in Hp.
Qed.

Lemma strip_prefix_avoids c s : avoids c s = true → strip_prefix (String c "") s = None.
Proof.
  intros Ha. destruct (strip_prefix _ s) as [r|] eqn:Hs; [|done].
  apply strip_prefix_Some in Hs as ->. rewrite sapp_cons in Ha. cbn in Ha.
  by rewrite Ascii.eqb_refl in Ha.
Qed.

(** A printed id is read back. *)
Lemma parse_i64_pretty z : i64_ok z → parse_i64 (pretty z) = Some z.
Proof.
  intros Hz. unfold parse_i64.
  assert (∀ p : positive, avoids (Ascii.ascii_of_nat 45) (pretty p) = true ∧
    avoids (Ascii.ascii_of_nat 43) (pretty p) = true) as Hav.
  { intros p. unfold pretty, pretty_positive, pretty, pretty_N.
    rewrite decide_False by done. by split; apply pretty_N_go_avoids. }
  destruct z as [|p|p].
  - reflexivity.
  - change (pretty (Zpos p)) with (pretty p). destruct (Hav p) as [Hm Hp].
    assert (strip_prefix "-" (pretty p) = None) as -> by exact (strip_prefix_avoids _ _ Hm).
    assert (strip_prefix "+" (pretty p) = None) as -> by exact (strip_prefix_avoids _ _ Hp).
    rewrite unsigned_value_pretty. simpl. by rewrite bool_decide_true.
  - change (pretty (Zneg p)) with ("-" +:+ pretty p). rewrite strip_prefix_app.
    rewrite unsigned_value_pretty. simpl. by rewrite bool_decide_true.
Qed.

Lemma split_on_avoids c s : avoids c s = true → split_on c s = [s].
Proof.
  induction s as [|d s IH]; [done|]. cbn. intros [Hd Hs]%andb_true_iff.
  apply negb_true_iff in Hd. by rewrite Hd, IH.
Qed.

Lemma split_on_word c w s :
  avoids c w = true → split_on c (w +:+ String c s) = w :: split_on c s.
Proof.
  induction w as [|d w IH].
  - intros _. rewrite sapp_nil_l. simpl. by rewrite Ascii.eqb_refl.
  - cbn [avoids]. intros [Hd Hs]%andb_true_iff. apply negb_true_iff in Hd.
    rewrite sapp_cons. cbn [split_on]. by rewrite Hd, IH.
Qed.

Lemma length_split_on c s : 1 ≤ length (split_on c s).
Proof. induction s as [|d s IH]; cbn; [lia|]. repeat case_match; simpl; lia. Qed.

Lemma split_on_app c s t : split_on c (s +:+ String c t) = split_on c s ++ split_on c t.
Proof.
  induction s as [|d s IH]; [simpl; by rewrite Ascii.eqb_refl|].
  rewrite sapp_cons. cbn [split_on]. rewrite IH. destruct (Ascii.eqb d c); [done|].
  pose proof (length_split_on c s). by destruct (split_on c s) as [|w ws]; [simpl in *; lia|].
Qed.

Lemma split_on_contains c s : avoids c s = false → 2 ≤ length (split_on c s).
Proof.
  induction s as [|d s IH]; [done|]. cbn [avoids split_on]. pose proof (length_split_on c s).
  destruct (Ascii.eqb d c); simpl; [lia|]. intros Hs%IH. destruct (split_on c s); simpl in *; lia.
Qed.

(** The characters a URL carries as they are, other than its delimiters; a segment
    of them is sent and captured unchanged. *)
Definition plain_char (c : Ascii.ascii) : bool :=
  let n := Ascii.nat_of_ascii c in
  (Nat.leb 48 n && Nat.leb n 57) || (Nat.leb 65 n && Nat.leb n 90) ||
  (Nat.leb 97 n && Nat.leb n 122) || Nat.eqb n 45 || Nat.eqb n 95.

Definition plain_segment (s : string) : bool := negb (String.eqb s "") && all_chars plain_char s.

Lemma plain_segment_avoids c s : plain_char c = false → plain_segment s = true → avoids c s = true.
Proof. intros Hc [_ Hs]%andb_true_iff. by eapply all_chars_avoids. Qed.

Lemma plain_segment_nonempty s : plain_segment s = true → String.eqb s "" = false.
Proof. by intros [Hs%negb_true_iff _]%andb_true_iff. Qed.

Lemma split_once_avoids c s : avoids c s = true → split_once (String c "") s = None.
Proof.
  induction s as [|d s IH]; [done|]. intros Ha. pose proof (strip_prefix_avoids _ _ Ha) as Hp.
  cbn [avoids] in Ha. apply andb_true_iff in Ha as [_ Ha].
  cbn [split_once]. rewrite Hp. by rewrite IH.
Qed.

Lemma split_once_word c w s :
  avoids c w = true → split_once (String c "") (w +:+ String c s) = Some (w, s).
Proof.
  induction w as [|d w IH].
  - intros _. rewrite sapp_nil_l. simpl. by rewrite Ascii.eqb_refl.
  - cbn [avoids]. intros [Hd Hs]%andb_true_iff. apply negb_true_iff in Hd.
    rewrite sapp_cons. cbn [split_once]. cbn [strip_prefix].
    rewrite Ascii.eqb_sym, Hd. by rewrite IH.
Qed.

Lemma split_query_plain path : avoids question path = true →
  split_query path = (path, []).
Proof.
  intros Ha. unfold split_query.
  by rewrite (split_once_avoids question path Ha : split_once "?" path = None).
Qed.

(** The segments of a joined path. *)
Lemma split_on_join c l : Forall (λ w, avoids c w = true) l → l ≠ [] →
  split_on c (join (String c "") l) = l.
Proof.
  intros Hl. induction Hl as [|w l Hw Hl IH]; [done|]. intros _.
  destruct l as [|w' l]; [by apply split_on_avoids|].
  change (join (String c "") (w :: w' :: l)) with (w +:+ String c (join (String c "") (w' :: l))).
  rewrite split_on_word by done. by rewrite IH.
Qed.

(** No pattern of the right length: no route. *)
Lemma match_path_length p l c : match_path p l = Some c → length p = length l.
Proof.
  revert l c. induction p as [|o p IH]; intros [|w l] c; simpl; [done|done|by destruct o|].
  destruct o as [q|]; case_match; try done; [by intros Hm; rewrite (IH _ _ Hm)|].
  intros (c' & Hm & ->)%fmap_Some. by rewrite (IH _ _ Hm).
Qed.

Lemma route_length {H} (table : Routes H) verb l :
  Forall (λ r, length r.1 ≠ length l) table → route_segments table verb l = Err 404%Z.
Proof.
  intros Hl. unfold route_segments.
  assert (omap (λ r, (λ c, (r.2, c)) <$> match_path r.1 l) table = []) as ->; [|done].
  induction Hl as [|r table Hr _ IH]; [done|]. simpl.
  destruct r as [p methods]. simpl in *.
  destruct (match_path p l) as [c|] eqn:Hm; [|exact IH]. by apply match_path_length in Hm.
Qed.

Lemma route_join {H} (table : Routes H) verb l :
  Forall (λ w, avoids slash w = true) l → l ≠ [] →
  route table verb ("/" +:+ join "/" l) = route_segments table verb l.
Proof.
  intros Hl Hn. unfold route.
  assert (split_on slash ("/" +:+ join "/" l) = "" :: l) as ->; [|done].
  transitivity ("" :: split_on slash (join "/" l)); [exact (split_on_word slash "" _ eq_refl)|].
  f_equal. by apply (split_on_join slash).
Qed.

(** * Lemmas: what a client makes of a response *)

Section over.
Context `{WebStack, HexCodec} {S E : Type} `{!AppErrors E}.
Context (url : string) (server : Server S).
#[local] Hint Extern 0 (Http _) => exact (loopback url server) : typeclass_instances.
Implicit Types s : S.

(** What a client makes of a handler's outcome: its value, or the status of its
    error. *)
Definition client_result {A} (r : result E A) : result ClientError A :=
  map_err (λ err, HttpErr (StatusError (error_response err).1)) r.

(** The same for the calls where an absent thing, a [404], is [None]. *)
Definition client_option {A} (r : result E A) : result ClientError (option A) :=
  match r with
  | Ok a => Ok (Some a)
  | Err err => if ((error_response err).1 =? NOT_FOUND)%Z then Ok None else client_result (Err err)
  end.

Definition outcome {A C} (f : result E A → C) (m : act S E A) s : S * C :=
  let '(s', r) := m s in (s', f r).

Lemma send_loopback t rq path q s :
  rq_url rq = url +:+ path → split_query path = q →
  send t rq s = let '(s', r) := server (verb_of (rq_method rq)) q.1 (q.2 ++ rq_query rq)
    (rq_body rq) s in (s', Some r).
Proof.
  intros Hu Hq. simpl. rewrite Hu, strip_prefix_app, Hq. by destruct q.
Qed.

Lemma status_of_error (err : E) : rs_status (respond_error err) = (error_response err).1.
Proof. unfold respond_error. by destruct (error_response err). Qed.

Lemma error_for_status_error (err : E) :
  error_for_status (respond_error err) = Err (StatusError (error_response err).1).
Proof.
  unfold error_for_status. rewrite status_of_error. pose proof (error_status err).
  replace ((400 <=? _)%Z) with true by lia. replace ((_ <? 600)%Z) with true by lia. done.
Qed.

(** A request answered by [respond]: the handler's value is read back, its error
    comes as its status. *)
Lemma fetch_served {A C} rq path q (m : act S E A) (ok_ : A → Response)
    (read : Response → result HttpError C) (g : A → C) s :
  rq_url rq = url +:+ path → split_query path = q →
  server (verb_of (rq_method rq)) q.1 (q.2 ++ rq_query rq) (rq_body rq) s = respond ok_ m s →
  (∀ a s', m s = (s', Ok a) →
     (200 ≤ rs_status (ok_ a) < 300)%Z ∧ read (ok_ a) = Ok (g a)) →
  fetch rq read s = outcome (λ r, client_result (a ← r; Ok (g a))) m s.
Proof.
  intros Hu Hq Hserve Hread. unfold fetch, client_call, act_map_err, send_with, outcome.
  unfold mbind, act_bind, lift. rewrite (send_loopback _ _ path q), Hserve by done.
  unfold respond.
  destruct (m s) as [s' [a|err]]; cbn -[error_for_status].
  - destruct (Hread a s' eq_refl) as [Hst Hr]. unfold error_for_status.
    replace ((400 <=? rs_status (ok_ a))%Z) with false by lia. simpl. by rewrite Hr.
  - by rewrite error_for_status_error.
Qed.

Lemma fetch_option_served {A C} rq path q (m : act S E A) (ok_ : A → Response)
    (read : Response → result HttpError C) (g : A → C) s :
  rq_url rq = url +:+ path → split_query path = q →
  server (verb_of (rq_method rq)) q.1 (q.2 ++ rq_query rq) (rq_body rq) s = respond ok_ m s →
  (∀ a s', m s = (s', Ok a) →
     (200 ≤ rs_status (ok_ a) < 300)%Z ∧ read (ok_ a) = Ok (g a)) →
  fetch_option rq read s = outcome (λ r, client_option (a ← r; Ok (g a))) m s.
Proof.
  intros Hu Hq Hserve Hread. unfold fetch_option, client_call, act_map_err, send_with, outcome.
  unfold mbind, act_bind, lift. rewrite (send_loopback _ _ path q), Hserve by done.
  unfold respond.
  destruct (m s) as [s' [a|err]]; cbn -[NOT_FOUND error_for_status].
  - destruct (Hread a s' eq_refl) as [Hst Hr]. unfold error_for_status, NOT_FOUND.
    replace ((rs_status (ok_ a) =? 404)%Z) with false by lia.
    replace ((400 <=? rs_status (ok_ a))%Z) with false by lia. simpl. by rewrite Hr.
  - rewrite status_of_error. destruct ((error_response err).1 =? NOT_FOUND)%Z; [done|].
    by rewrite error_for_status_error.
Qed.

(** The same, where the target has no query. *)
Lemma fetch_path {A C} rq path (m : act S E A) (ok_ : A → Response)
    (read : Response → result HttpError C) (g : A → C) s :
  rq_url rq = url +:+ path → avoids question path = true →
  server (verb_of (rq_method rq)) path (rq_query rq) (rq_body rq) s = respond ok_ m s →
  (∀ a s', m s = (s', Ok a) →
     (200 ≤ rs_status (ok_ a) < 300)%Z ∧ read (ok_ a) = Ok (g a)) →
  fetch rq read s = outcome (λ r, client_result (a ← r; Ok (g a))) m s.
Proof.
  intros Hu Ha. by apply (fetch_served rq path (path, [])); [|apply split_query_plain].
Qed.

Lemma fetch_option_path {A C} rq path (m : act S E A) (ok_ : A → Response)
    (read : Response → result HttpError C) (g : A → C) s :
  rq_url rq = url +:+ path → avoids question path = true →
  server (verb_of (rq_method rq)) path (rq_query rq) (rq_body rq) s = respond ok_ m s →
  (∀ a s', m s = (s', Ok a) →
     (200 ≤ rs_status (ok_ a) < 300)%Z ∧ read (ok_ a) = Ok (g a)) →
  fetch_option rq read s = outcome (λ r, client_option (a ← r; Ok (g a))) m s.
Proof.
  intros Hu Ha. by apply (fetch_option_served rq path (path, [])); [|apply split_query_plain].
Qed.

(** A request the router refuses. *)
Lemma fetch_refused {C} rq path q status (read : Response → result HttpError C) s :
  rq_url rq = url +:+ path → split_query path = q → (400 ≤ status < 600)%Z →
  server (verb_of (rq_method rq)) q.1 (q.2 ++ rq_query rq) (rq_body rq) s = refuse status s →
  fetch rq read s = (s, Err (HttpErr (StatusError status))).
Proof.
  intros Hu Hq Hst Hserve. unfold fetch, client_call, act_map_err, send_with.
  unfold mbind, act_bind, lift. rewrite (send_loopback _ _ path q), Hserve by done.
  unfold refuse, error_for_status. simpl.
  replace ((400 <=? status)%Z) with true by lia. by replace ((status <? 600)%Z) with true by lia.
Qed.

Lemma fetch_option_unrouted {C} rq path q (read : Response → result HttpError C) s :
  rq_url rq = url +:+ path → split_query path = q →
  server (verb_of (rq_method rq)) q.1 (q.2 ++ rq_query rq) (rq_body rq) s = refuse 404 s →
  fetch_option rq read s = (s, Ok None).
Proof.
  intros Hu Hq Hserve. unfold fetch_option, client_call, act_map_err, send_with.
  unfold mbind, act_bind, lift. by rewrite (send_loopback _ _ path q), Hserve by done.
Qed.

Lemma read_json {A} (f : A → Value) (d : Value → option A) a :
  d (f a) = Some a → resp_json d (respond_ok 200 (json_text (f a))) = Ok a.
Proof.
  intros Hd. unfold resp_json. simpl. rewrite json_read_text. simpl. by rewrite Hd.
Qed.
End over.

(** * A concrete web stack: documents by their code *)

(** A document as a tree of its leaves. *)
Fixpoint value_tree (v : Value) : gen_tree (bool + Z + string) :=
  match v with
  | VNull => GenNode 0 []
  | VBool b => GenLeaf (inl (inl b))
  | VInt z => GenLeaf (inl (inr z))
  | VFloat t => GenNode 1 [GenLeaf (inr t)]
  | VStr s => GenLeaf (inr s)
  | VArr l => GenNode 2 (value_tree <$> l)
  | VObj l => GenNode 3 ((λ p, GenNode 4 [GenLeaf (inr p.1); value_tree p.2]) <$> l)
  end.

Fixpoint tree_value (t : gen_tree (bool + Z + string)) : Value :=
  match t with
  | GenLeaf (inl (inl b)) => VBool b
  | GenLeaf (inl (inr z)) => VInt z
  | GenLeaf (inr s) => VStr s
  | GenNode 1 [GenLeaf (inr t)] => VFloat t
  | GenNode 2 l => VArr (tree_value <$> l)
  | GenNode 3 l => VObj ((λ t, match t with
      | GenNode 4 [GenLeaf (inr k); t'] => (k, tree_value t')
      | _ => ("", VNull)
      end) <$> l)
  | _ => VNull
  end.

Lemma tree_value_tree : ∀ v, tree_value (value_tree v) = v.
Proof.
  fix IH 1. intros [|b|z|t|s|l|l]; [reflexivity..| |].
  - cbn [value_tree tree_value]. f_equal. induction l as [|v l IHl]; [reflexivity|].
    rewrite !fmap_cons, IH, IHl. reflexivity.
  - cbn [value_tree tree_value]. f_equal. induction l as [|[k v] l IHl]; [reflexivity|].
    rewrite !fmap_cons. cbn [fst snd]. rewrite IH, IHl. reflexivity.
Qed.

(** A positive number by its bits. *)
Fixpoint bits_of (p : positive) : list byte :=
  match p with
  | xH => []
  | xO p' => x00 :: bits_of p'
  | xI p' => x01 :: bits_of p'
  end.

Fixpoint of_bits (b : list byte) : positive :=
  match b with
  | [] => xH
  | x00 :: b' => xO (of_bits b')
  | _ :: b' => xI (of_bits b')
  end.

Lemma of_bits_of p : of_bits (bits_of p) = p.
Proof. induction p as [p IH|p IH|]; simpl; by rewrite ?IH. Qed.

#[export] Instance toy_web : WebStack.
Proof.
  refine {|
    json_text v := bits_of (encode (value_tree v));
    json_read b := tree_value <$> decode (of_bits b);
    rejection _ := [];
    timestamp_text := pretty;
    jsonb_text _ := "{}";
    jsonb_value _ := VObj [];
  |}.
  intros v. rewrite of_bits_of, decode_encode. simpl. by rewrite tree_value_tree.
Defined.
