(* ===== verification/Exchange.v ===== *)
(** What a client posts is what its tower reads: the request bodies are declared
    twice, by src/crates/client/src/lib.rs for writing and by the towers
    (src/crates/software-tower/src/releases.rs, signer.rs and
    src/crates/identity-tower/src/devices.rs) for reading. *)

From S2P Require Import Prelude Ext Wire Json Store Content HubDb Releases Signer L1 Client.

Section exchange.
Context `{HexCodec}.

(** The hub's reading of the client's L1 request. *)
Definition l1_request_of (r : L1Req) : L1Request :=
  mkL1Request (l1r_channel r) (l1r_vehicle_release_id r) (l1r_tree_hash r) (l1r_device r)
    (l1r_architecture r) (l1r_device_pubkey r) (l1r_device_id r) (l1r_current_state r)
    (l1r_seq r).

(** And of the client's envelope request. *)
Definition new_envelope_of (r : EnvelopeReq) : NewEnvelope :=
  mkNewEnvelope (er_device_pubkey r) (er_device_id r) (er_component r)
    ((λ p, mkNewEnvelopePart (epr_id p) (epr_content p)) <$> er_parts r) (er_seq r).

(** The integers of a request fit the types the Rust structs give them, and a state
    that is sent is not [null]. *)
Definition l1_req_ok (r : L1Req) : Prop :=
  (∀ id, l1r_vehicle_release_id r = Some id → i64_ok id) ∧ u64_ok (l1r_seq r) ∧
  l1r_current_state r ≠ Some VNull.

Lemma d_u64_ok z : u64_ok z → d_u64 (VInt z) = Some z.
Proof. intros Hz. unfold d_u64. by rewrite bool_decide_eq_true_2. Qed.

Lemma d_i64_ok z : i64_ok z → d_i64 (VInt z) = Some z.
Proof. intros Hz. unfold d_i64. by rewrite bool_decide_eq_true_2. Qed.

Lemma d_option_value v : v ≠ VNull → d_option Some v = Some (Some v).
Proof. by destruct v. Qed.

Lemma l1_body_reads_back r : l1_req_ok r →
  l1_request_of_value (value_of_l1_req r) = Some (l1_request_of r).
Proof.
  intros (Hid & Hseq & Hst). apply d_u64_ok in Hseq.
  destruct r as [channel id hash device arch pubkey dev state sn].
  unfold l1_request_of_value, value_of_l1_req, l1_request_of. cbn [l1r_channel
    l1r_vehicle_release_id l1r_tree_hash l1r_device l1r_architecture l1r_device_pubkey
    l1r_device_id l1r_current_state l1r_seq] in *.
  assert (∀ z, id = Some z → d_i64 (VInt z) = Some z) as Hi by (intros z Hz; by apply d_i64_ok, Hid).
  assert (∀ v, state = Some v → d_option Some v = Some (Some v)) as Hv
    by (intros v Hv; apply d_option_value; congruence).
  clear Hid Hst.
  assert (∀ z, d_option d_i64 (VInt z) = Some <$> d_i64 (VInt z)) as Ho by done.
  destruct channel, id as [z|], hash, state as [v|];
    cbn -[d_u64 d_i64 d_option]; rewrite ?Ho, ?(Hi _ eq_refl), ?(Hv _ eq_refl);
    cbn -[d_u64]; by rewrite Hseq.
Qed.

Lemma envelope_body_reads_back r : u64_ok (er_seq r) →
  new_envelope_of_value (value_of_envelope_req r) = Some (new_envelope_of r).
Proof.
  intros Hseq%d_u64_ok. destruct r as [pubkey dev comp parts sn].
  assert (d_vec new_envelope_part_of_value (VArr (value_of_envelope_part_req <$> parts)) =
    Some ((λ p, mkNewEnvelopePart (epr_id p) (epr_content p)) <$> parts)) as Hp.
  { apply mapM_fmap_some. intros p.
    unfold new_envelope_part_of_value, value_of_envelope_part_req, required.
    cbn -[hash_of_value value_of_hash]. by rewrite hash_value_roundtrip. }
  unfold new_envelope_of_value, value_of_envelope_req, new_envelope_of, required, defaulted.
  cbn -[d_vec d_u64] in *. rewrite Hp. cbn -[d_u64]. by rewrite Hseq.
Qed.

(** The client and its towers agree on the bodies.  The hub reads the L1 request
    a client posts as the request that was meant, and its state as the observed tree
    the orchestrator serialized; it reads an envelope request back part by part; and
    Tower 1 reads a registration back. *)
Lemma requests_read_back (r : L1Req) (observed : Tree) (e : EnvelopeReq) (d : RegisterDevice)
    (Hst : l1r_current_state r = Some (value_of_tree observed))
    (Hid : ∀ id, l1r_vehicle_release_id r = Some id → i64_ok id)
    (Hseq : u64_ok (l1r_seq r)) (Heseq : u64_ok (er_seq e)) :
  l1_request_of_value (value_of_l1_req r) = Some (l1_request_of r) ∧
  reported_state (l1_current_state (l1_request_of r)) = Some observed ∧
  new_envelope_of_value (value_of_envelope_req e) = Some (new_envelope_of e) ∧
  register_of_value (value_of_register d) = Some d.
Proof.
  split_and!.
  - apply l1_body_reads_back. split_and!; [done..|by rewrite Hst].
  - simpl. rewrite Hst. apply tree_of_value_of_tree.
  - by apply envelope_body_reads_back.
  - apply register_value_roundtrip.
Qed.
End exchange.

Definition example_l1_body : L1Req :=
  mkL1Req (Some "stable") (Some 7%Z) None "rig" "arm64" "a1" "rig-7"
    (Some (value_of_tree ∅)) 1.
Definition example_envelope_body : EnvelopeReq := mkEnvelopeReq "a1" "rig-7" "vm1" [] 3.

Lemma requests_read_back_witness :
  l1_request_of_value (value_of_l1_req example_l1_body) =
    Some (l1_request_of example_l1_body) ∧
  new_envelope_of_value (value_of_envelope_req example_envelope_body) =
    Some (new_envelope_of example_envelope_body).
Proof.
  pose proof (requests_read_back (H := ref_hex) example_l1_body ∅ example_envelope_body
    (mkRegisterDevice "rig-7" None None)) as (Hl & _ & He & _).
  - reflexivity.
  - intros id [= <-]. by split.
  - by split.
  - by split.
  - split; [exact Hl|exact He].
Defined.
