(* ===== verification/Router.v ===== *)
(** The HTTP surface of Tower 2 (src/crates/software-tower/src/main.rs): its routes,
    what each handler reads from a request and writes into its response (the serde
    attributes of releases.rs and signer.rs), and the typed client of
    src/crates/client/src/lib.rs talking to it. *)

From S2P Require Import Prelude Ext Wire Json Store Content HubDb Releases Signer L1 Client.
From S2P Require Import Web Exchange.

(** * Queries *)

(** [Query<TargetSelector>]. *)
Definition selector_of_query (q : list (string * string)) : option TargetSelector :=
  channel ← query_field Some q "channel";
  device ← query_field Some q "device";
  architecture ← query_field Some q "architecture";
  id ← query_field parse_i64 q "vehicle_release_id";
  hash ← query_field Some q "tree_hash";
  Some (mkTargetSelector channel device architecture id hash).

(** [Query<HistoryFilter>]. *)
Definition history_of_query (q : list (string * string)) : option HistoryFilter :=
  path ← query_field Some q "entity_path";
  tag ← query_field Some q "tag";
  Some (mkHistoryFilter path tag).

(** * Routes *)

(** A handler of the router. *)
Inductive Handler :=
  | Healthz | GetVersion | Publish | ArtifactExists
  | CreateComponentRelease | ListComponentReleases
  | CreateVehicleRelease | ListVehicleReleases | ListChannels
  | SetTarget | GetTarget | TargetTree | TargetL1
  | SignerPubkey | CreateEnvelope | GetBlob.

Definition routes : Routes Handler :=
  [([Some "healthz"], [(Get, Healthz)]);
   ([Some "version"], [(Get, GetVersion)]);
   ([Some "admin"; Some "artifacts"], [(Post, Publish)]);
   ([Some "admin"; Some "artifacts"; None], [(Get, ArtifactExists)]);
   ([Some "admin"; Some "component-releases"],
      [(Post, CreateComponentRelease); (Get, ListComponentReleases)]);
   ([Some "admin"; Some "vehicle-releases"],
      [(Post, CreateVehicleRelease); (Get, ListVehicleReleases)]);
   ([Some "admin"; Some "channels"], [(Get, ListChannels)]);
   ([Some "admin"; Some "channel-targets"], [(Put, SetTarget); (Get, GetTarget)]);
   ([Some "channel-targets"; Some "tree"], [(Get, TargetTree)]);
   ([Some "channel-targets"; Some "l1"], [(Post, TargetL1)]);
   ([Some "admin"; Some "signer"; Some "pubkey"], [(Get, SignerPubkey)]);
   ([Some "admin"; Some "envelope"], [(Post, CreateEnvelope)]);
   ([Some "blobs"; None], [(Get, GetBlob)])].

(** * Bodies *)

Section codecs.
Context `{HexCodec, WebStack}.

Definition value_of_artifact_ref (r : ArtifactRef) : Value :=
  VObj [("inner", value_of_hash (ref_inner r)); ("outer", value_of_hash (ref_outer r));
        ("size", VInt (ref_size r))].

Definition new_part_of_value (v : Value) : option NewPart :=
  l ← fields ["id"; "kind"; "content"] v;
  id ← required l "id" d_str;
  kind ← required l "kind" d_str;
  content ← required l "content" hash_of_value;
  Some (mkNewPart id kind content).

Definition new_component_of_value (v : Value) : option NewComponentRelease :=
  l ← fields ["entity_path"; "entity_kind"; "version"; "parts"] v;
  path ← required l "entity_path" d_str;
  kind ← required l "entity_kind" d_str;
  version ← required l "version" d_str;
  parts ← required l "parts" (d_vec new_part_of_value);
  Some (mkNewComponentRelease path kind version parts).

Definition new_vehicle_of_value (v : Value) : option NewVehicleRelease :=
  l ← fields ["tag"; "version"; "members"; "disabled_members"; "config_snapshot"] v;
  tag ← required l "tag" d_str;
  version ← required l "version" d_str;
  members ← required l "members" (d_vec d_i64);
  disabled ← defaulted l "disabled_members" (d_vec d_i64) [];
  config ← defaulted l "config_snapshot" (d_option Some) None;
  Some (mkNewVehicleRelease tag version members disabled (jsonb_text <$> config)).

(** [#[serde(alias = "target_release_id")]]: either name, not both. *)
Definition set_target_of_value (v : Value) : option SetChannelTarget :=
  l ← fields ["channel"; "device"; "architecture"; "vehicle_release_id"] v;
  channel ← required l "channel" d_str;
  device ← required l "device" d_str;
  architecture ← required l "architecture" d_str;
  id ← match assoc "vehicle_release_id" l, assoc "target_release_id" l with
       | Some v, None | None, Some v => d_i64 v
       | _, _ => None
       end;
  Some (mkSetChannelTarget channel device architecture id).

Definition value_of_release_ref (r : ReleaseRef) : Value :=
  VObj [("id", VInt (rr_id r)); ("version", VStr (rr_version r));
        ("created_at", VStr (timestamp_text (rr_created_at r))); ("reused", VBool (rr_reused r))].

Definition value_of_vehicle_ref (r : VehicleRef) : Value :=
  VObj [("id", VInt (vref_id r)); ("tag", VStr (vref_tag r)); ("version", VStr (vref_version r));
        ("created_at", VStr (timestamp_text (vref_created_at r)))].

Definition value_of_target_state (t : ChannelTargetState) : Value :=
  VObj ([("channel", VStr (cts_channel t))]
    ++ skip_none "device" VStr (cts_device t)
    ++ skip_none "architecture" VStr (cts_architecture t)
    ++ [("vehicle", value_of_option value_of_vehicle_ref (cts_vehicle t))]
    ++ skip_none "target_release" value_of_vehicle_ref (cts_target_release t)
    ++ [("tree_hash", value_of_option VStr (cts_tree_hash t))]
    ++ skip_none "config_snapshot" jsonb_value (cts_config_snapshot t)).

Definition value_of_target_ref (t : ChannelTargetRef) : Value :=
  VObj [("channel", VStr (ctr_channel t)); ("device", VStr (ctr_device t));
        ("architecture", VStr (ctr_architecture t));
        ("vehicle_release_id", VInt (ctr_vehicle_release_id t));
        ("tree_hash", VStr (ctr_tree_hash t))].

Definition value_of_part_row (p : PartRow) : Value :=
  VObj [("id", VStr (pr_id p)); ("kind", VStr (pr_kind p));
        ("content_hash", VStr (pr_content_hash p))].

Definition value_of_component_row (r : ComponentReleaseRow) : Value :=
  VObj [("id", VInt (crr_id r)); ("entity_path", VStr (crr_entity_path r));
        ("entity_kind", VStr (crr_entity_kind r)); ("version", VStr (crr_version r));
        ("identity_hash", value_of_option VStr (crr_identity_hash r));
        ("created_at", VStr (timestamp_text (crr_created_at r)));
        ("parts", VArr (value_of_part_row <$> crr_parts r))].

Definition value_of_vehicle_row (r : VehicleReleaseRow) : Value :=
  VObj [("id", VInt (vrr_id r)); ("tag", VStr (vrr_tag r)); ("version", VStr (vrr_version r));
        ("identity_hash", value_of_option VStr (vrr_identity_hash r));
        ("created_at", VStr (timestamp_text (vrr_created_at r)));
        ("members", VArr (VInt <$> vrr_members r))].

End codecs.

(** * Serving a request *)

(** What a request finds around it: the random source, the clock, and how its body
    arrives in chunks. *)
Record Env := mkEnv {
  env_random : option (array CEK_LEN * array NONCE_LEN);
  env_now : Z;
  env_chunks : list byte → list (list byte);
}.

Definition HUB_VERSION : Version := mkVersion "sumo-hub" "0.0.0".

Section serve.
Context `{HexCodec, Sha256, StreamAead, Zstd, RowOrder, Suit, WebStack}.
Context {B I : Type} `{BlobStore B, ArtifactIndex I}.
Abbreviation App := (AppState B I HubDb Signer).

#[export] Instance hub_errors : AppErrors AppError.
Proof. refine {| error_response := into_response |}. by intros []. Defined.

Definition respond_l1 (r : L1Response) : Response :=
  match r with
  | NoContent => respond_ok 204 []
  | Campaign l1 => respond_ok 200 l1
  end.

(** The router's handlers, with their captures, query and body. *)
Definition handle (e : Env) (h : Handler) (captures : list string)
    (query : list (string * string)) (body : Body) : App → App * Response :=
  match h, captures with
  | Healthz, _ => λ s, (s, respond_ok 200 (as_bytes "ok"))
  | GetVersion, _ => λ s, (s, respond_ok 200 (json_text (value_of_version HUB_VERSION)))
  | Publish, _ =>
      respond_json value_of_artifact_ref
        (publish_stream (env_random e) (Ok <$> env_chunks e (body_bytes body)))
  | ArtifactExists, [inner] => respond_json value_of_artifact_ref (artifact_exists inner)
  | CreateComponentRelease, _ =>
      extracting (json_body new_component_of_value body) (λ req,
        respond_json value_of_release_ref (create_component_release req))
  | ListComponentReleases, _ =>
      extracting (query_of (history_of_query query)) (λ f,
        respond_json (λ l, VArr (value_of_component_row <$> l)) (list_component_releases f))
  | CreateVehicleRelease, _ =>
      extracting (json_body new_vehicle_of_value body) (λ req,
        respond_json value_of_release_ref (create_vehicle_release req))
  | ListVehicleReleases, _ =>
      extracting (query_of (history_of_query query)) (λ f,
        respond_json (λ l, VArr (value_of_vehicle_row <$> l)) (list_vehicle_releases f))
  | ListChannels, _ =>
      respond_json (λ l, VArr (value_of_target_state <$> l)) list_channels
  | SetTarget, _ =>
      extracting (json_body set_target_of_value body) (λ req,
        respond_json value_of_target_ref (set_channel_target req))
  | GetTarget, _ =>
      extracting (query_of (selector_of_query query)) (λ sel,
        respond_json value_of_target_state (get_channel_target sel))
  | TargetTree, _ =>
      extracting (query_of (selector_of_query query)) (λ sel,
        respond_json value_of_tree (channel_target_tree sel))
  | TargetL1, _ =>
      extracting (json_body l1_request_of_value body) (λ req,
        respond respond_l1 (channel_target_l1 (env_now e) req))
  | SignerPubkey, _ => λ s, (s, respond_ok 200 (signer_pubkey s))
  | CreateEnvelope, _ =>
      extracting (json_body new_envelope_of_value body) (λ req,
        respond (respond_ok 200) (create_envelope (env_now e) req))
  | GetBlob, [outer] =>
      respond (λ r, respond_ok 200 (blob_body r)) (get_blob outer)
  | _, _ => refuse 500
  end.

(** The router on a path. *)
Definition serve_request (e : Env) : Server App := λ verb path query body,
  extracting (route routes verb path) (λ '(h, captures), handle e h captures query body).

(** A hub at [url], for a client in the same process. *)
Definition hub_http (e : Env) (url : string) : Http App := loopback url (serve_request e).
End serve.

(** * The client over the hub *)

Section over_hub.
Context `{HexCodec, Sha256, StreamAead, Zstd, RowOrder, Suit, WebStack}.
Context {B I : Type} `{BlobStore B, ArtifactIndex I}.
Abbreviation App := (AppState B I HubDb Signer).
Context (e : Env) (url : string).
#[local] Hint Extern 0 (Http _) => exact (loopback url (serve_request e)) : typeclass_instances.

Implicit Types s : App.

Lemma artifact_ref_roundtrip r : u64_ok (ref_size r) →
  artifact_ref_of_value (value_of_artifact_ref r) = Some r.
Proof.
  intros Hs. destruct r as [inner outer size]. unfold artifact_ref_of_value, value_of_artifact_ref.
  cbn -[d_u64 hash_of_value value_of_hash]. rewrite !hash_value_roundtrip.
  cbn -[d_u64]. by rewrite d_u64_ok.
Qed.

(** A printed hash is one segment of a path. *)
Lemma hash_segment h : avoids slash (to_prefixed h) = true ∧
  avoids question (to_prefixed h) = true ∧ String.eqb (to_prefixed h) "" = false.
Proof. split; [|split]; [by apply to_prefixed_avoids..|done]. Qed.

Lemma route_blob h : route routes Get ("/blobs/" +:+ to_prefixed h) = Ok (GetBlob, [to_prefixed h]).
Proof.
  destruct (hash_segment h) as (Ha & _ & Hn).
  transitivity (route_segments routes Get ["blobs"; to_prefixed h]).
  - apply (route_join routes Get ["blobs"; to_prefixed h]); auto.
  - unfold route_segments. cbn -[to_prefixed]. by rewrite Hn.
Qed.

Lemma route_artifact h :
  route routes Get ("/admin/artifacts/" +:+ to_prefixed h) = Ok (ArtifactExists, [to_prefixed h]).
Proof.
  destruct (hash_segment h) as (Ha & _ & Hn).
  transitivity (route_segments routes Get ["admin"; "artifacts"; to_prefixed h]).
  - apply (route_join routes Get ["admin"; "artifacts"; to_prefixed h]); auto.
  - unfold route_segments. cbn -[to_prefixed]. by rewrite Hn.
Qed.

(** The selector the hub reads from the client's query. *)
Lemma target_query channel device architecture :
  selector_of_query ([("channel", channel)]
    ++ match device with Some d => [("device", d)] | None => [] end
    ++ match architecture with Some a => [("architecture", a)] | None => [] end) =
  Some (mkTargetSelector (Some channel) device architecture None None).
Proof. by destruct device, architecture. Qed.

Lemma release_query id hash : i64_ok id →
  selector_of_query ([("vehicle_release_id", pretty id)]
    ++ match hash with Some h => [("tree_hash", h)] | None => [] end) =
  Some (mkTargetSelector None None None (Some id) hash).
Proof.
  intros Hid. apply parse_i64_pretty in Hid. revert Hid. generalize (pretty id). intros t Ht.
  set (q := [("vehicle_release_id", t)] ++ _).
  assert (query_field parse_i64 q "vehicle_release_id" = Some (Some id)) as Hq.
  { destruct hash; change (Some <$> parse_i64 t = Some (Some id)); by rewrite Ht. }
  unfold selector_of_query. rewrite Hq. by destruct hash.
Qed.

Context (c : TowerClient) (Hc : base c = url).

Lemma publish_over_hub b s :
  (∀ s' ref, publish_stream (env_random e) (Ok <$> env_chunks e b) s = (s', Ok ref) →
     u64_ok (ref_size ref)) →
  publish_artifact c b s =
  outcome client_result (publish_stream (env_random e) (Ok <$> env_chunks e b)) s.
Proof.
  intros Hsize. unfold publish_artifact.
  rewrite (fetch_path url (serve_request e) _
    "/admin/artifacts"
    (publish_stream (env_random e) (Ok <$> env_chunks e b))
    (λ r, respond_ok 200 (json_text (value_of_artifact_ref r))) _ id).
  - unfold outcome. by destruct (publish_stream _ _ s) as [s' []].
  - simpl. by rewrite Hc.
  - done.
  - done.
  - intros ref s' Hr. split; [simpl; lia|]. apply read_json, artifact_ref_roundtrip.
    by eapply Hsize.
Qed.

Lemma get_blob_over_hub outer s :
  client_get_blob c outer s =
  outcome client_option (r ← get_blob (to_prefixed outer); mret (blob_body r)) s.
Proof.
  unfold client_get_blob.
  rewrite (fetch_option_path url (serve_request e) _
    ("/blobs/" +:+ to_prefixed outer)
    (get_blob (to_prefixed outer)) (λ r, respond_ok 200 (blob_body r)) _ blob_body).
  - unfold outcome, mbind, act_bind. by destruct (get_blob _ s) as [s' []].
  - simpl. by rewrite Hc.
  - apply hash_segment.
  - unfold serve_request. cbn [rq_method get verb_of]. by rewrite route_blob.
  - intros r s' _. split; [simpl; lia|done].
Qed.

Lemma artifact_exists_over_hub inner s :
  (∀ s' ref, artifact_exists (to_prefixed inner) s = (s', Ok ref) → u64_ok (ref_size ref)) →
  client_artifact_exists c inner s =
  outcome client_option (artifact_exists (to_prefixed inner)) s.
Proof.
  intros Hsize. unfold client_artifact_exists.
  rewrite (fetch_option_path url (serve_request e) _
    ("/admin/artifacts/" +:+ to_prefixed inner)
    (artifact_exists (to_prefixed inner))
    (λ r, respond_ok 200 (json_text (value_of_artifact_ref r))) _ id).
  - unfold outcome. by destruct (artifact_exists _ s) as [s' []].
  - simpl. by rewrite Hc.
  - apply hash_segment.
  - unfold serve_request. cbn [rq_method get verb_of]. by rewrite route_artifact.
  - intros r s' Hr. split; [simpl; lia|]. apply read_json, artifact_ref_roundtrip.
    by eapply Hsize.
Qed.

(** A tree asked for with a query the hub reads as [sel]. *)
Lemma tree_over_hub q sel s :
  selector_of_query q = Some sel →
  fetch_option (mkRequest GET (base c +:+ "/channel-targets/tree") q None NoBody)
    (resp_json tree_of_value) s =
  outcome client_option (channel_target_tree sel) s.
Proof.
  intros Hq. rewrite (fetch_option_path url (serve_request e) _
    "/channel-targets/tree" (channel_target_tree sel)
    (λ t, respond_ok 200 (json_text (value_of_tree t))) _ id).
  - unfold outcome. by destruct (channel_target_tree sel s) as [s' []].
  - simpl. by rewrite Hc.
  - done.
  - change (extracting (query_of (selector_of_query q)) (λ sel,
      respond_json value_of_tree (channel_target_tree sel)) s =
      respond (λ t, respond_ok 200 (json_text (value_of_tree t))) (channel_target_tree sel) s).
    by rewrite Hq.
  - intros t s' _. split; [simpl; lia|]. apply read_json, tree_of_value_of_tree.
Qed.

(** The bytes of an L1 answer: none for "nothing to do". *)
Definition l1_bytes (r : L1Response) : list byte :=
  match r with NoContent => [] | Campaign l1 => l1 end.

Lemma l1_over_hub r s : l1_req_ok r →
  l1_post c r s =
  outcome client_result (a ← channel_target_l1 (env_now e) (l1_request_of r); mret (l1_bytes a)) s.
Proof.
  intros Hr. unfold l1_post.
  rewrite (fetch_path url (serve_request e) _
    "/channel-targets/l1" (channel_target_l1 (env_now e) (l1_request_of r))
    respond_l1 _ l1_bytes).
  - unfold outcome, mbind, act_bind. by destruct (channel_target_l1 _ _ s) as [s' []].
  - simpl. by rewrite Hc.
  - done.
  - change (extracting (json_body l1_request_of_value (JsonBody (value_of_l1_req r))) (λ req,
      respond respond_l1 (channel_target_l1 (env_now e) req)) s =
      respond respond_l1 (channel_target_l1 (env_now e) (l1_request_of r)) s).
    unfold json_body. by rewrite l1_body_reads_back.
  - intros [|l1] s' _; (split; [simpl; lia|done]).
Qed.

Lemma envelope_over_hub r s : u64_ok (er_seq r) →
  client_build_envelope c (er_device_pubkey r) (er_device_id r) (er_component r)
    ((λ p, (epr_id p, epr_content p)) <$> er_parts r) (er_seq r) s =
  outcome client_result (create_envelope (env_now e) (new_envelope_of r)) s.
Proof.
  intros Hr. unfold client_build_envelope.
  assert ((λ '(id, content), mkEnvelopePartReq id content) <$>
    ((λ p, (epr_id p, epr_content p)) <$> er_parts r) = er_parts r) as ->.
  { rewrite <- list_fmap_compose. rewrite <- (list_fmap_id (er_parts r)) at 2.
    apply list_fmap_ext. by intros _ [] _. }
  rewrite (fetch_path url (serve_request e) _
    "/admin/envelope" (create_envelope (env_now e) (new_envelope_of r))
    (respond_ok 200) _ id).
  - unfold outcome. by destruct (create_envelope _ _ s) as [s' []].
  - simpl. by rewrite Hc.
  - done.
  - destruct r as [pubkey dev comp parts sn]. set (r := mkEnvelopeReq _ _ _ _ _).
    change (extracting (json_body new_envelope_of_value (JsonBody (value_of_envelope_req r)))
      (λ req, respond (respond_ok 200) (create_envelope (env_now e) req)) s =
      respond (respond_ok 200) (create_envelope (env_now e) (new_envelope_of r)) s).
    unfold json_body. by rewrite envelope_body_reads_back.
  - intros b s' _. split; [simpl; lia|done].
Qed.

Lemma pubkey_over_hub s : client_signer_pubkey c s = (s, Ok (signer_pubkey s)).
Proof.
  unfold client_signer_pubkey.
  rewrite (fetch_path url (serve_request e) _
    "/admin/signer/pubkey" (gets signer_pubkey) (respond_ok 200) _ id).
  - done.
  - simpl. by rewrite Hc.
  - done.
  - done.
  - intros b s' _. split; [simpl; lia|done].
Qed.

Lemma version_over_hub s : version c s = (s, Ok HUB_VERSION).
Proof.
  unfold version. rewrite (fetch_path url (serve_request e) _
    "/version" (mret HUB_VERSION)
    (λ v, respond_ok 200 (json_text (value_of_version v))) _ id).
  - done.
  - simpl. by rewrite Hc.
  - done.
  - done.
  - intros v s' [= <- <-]. split; [simpl; lia|]. by apply read_json.
Qed.

Lemma healthy_over_hub s : healthy c s = (s, Ok true).
Proof.
  unfold healthy, mbind, act_bind. rewrite (fetch_path url (serve_request e) _
    "/healthz" (mret ())
    (λ _, respond_ok 200 (as_bytes "ok")) _ (λ _, "ok")).
  - done.
  - simpl. by rewrite Hc.
  - done.
  - done.
  - intros [] s' _. split; [simpl; lia|]. by vm_compute.
Qed.
End over_hub.

(** * Properties *)

Section router_properties.
Context `{HexCodec, Sha256, StreamAead, Zstd, RowOrder, Suit, WebStack}.
Context {B I : Type} `{BlobStore B, ArtifactIndex I, !BlobStoreSpec B, !ArtifactIndexSpec I}.
Abbreviation App := (AppState B I HubDb Signer).
Implicit Types s : App.

(** The sizes of a consistent hub are what they are read back as. *)
Lemma published_size random body s s' ref :
  hub_ok s → publish_stream random body s = (s', Ok ref) → u64_ok (ref_size ref).
Proof.
  intros (Hi & Hb & He) Hp.
  destruct (publish_stream_run random body s s' (Ok ref) Hi Hp) as (_ & [[_ [e ?]]|Ho] & _);
    [done|].
  destruct Ho as (chunks & ct & cek & nonce & _ & _ & _ & _ & _ & _ & _ & Hold & Hnew).
  destruct (index_at (app_index s) (hash_of (concat chunks))) as [old|] eqn:Hat.
  - destruct (Hold old eq_refl) as [_ Href]. rewrite (Href ref eq_refl). simpl.
    destruct (He _ _ Hat) as (_ & _ & _ & plain & _ & _ & _ & ->). apply as_u64_ok.
  - destruct (Hnew eq_refl) as [Href _]. destruct (Href ref eq_refl) as [-> _]. apply as_u64_ok.
Qed.

Lemma existing_entry inner s s' ref :
  hub_ok s → artifact_exists (to_prefixed inner) s = (s', Ok ref) →
  ∃ e, index_at (app_index s) inner = Some e ∧ app_blobs s' = app_blobs s ∧
    ref = mkArtifactRef (entry_inner e) (entry_outer e) (entry_size e).
Proof.
  intros (Hi & _). unfold artifact_exists, with_index. rewrite from_str_to_prefixed.
  unfold_act. simpl. destruct (index_get inner (app_index s)) as [i r] eqn:Hg.
  destruct (index_get_spec _ _ _ _ Hi Hg) as (_ & _ & Ho).
  destruct r as [[e|]|err]; intros [= <- <-]. exists e.
  split; [by rewrite <- (Ho _ eq_refl)|done].
Qed.

Lemma existing_not_found inner s s' err :
  index_ok (app_index s) → artifact_exists (to_prefixed inner) s = (s', Err err) →
  err ≠ NotFound ∨ index_at (app_index s) inner = None.
Proof.
  intros Hi. unfold artifact_exists, with_index. rewrite from_str_to_prefixed.
  unfold_act. simpl. destruct (index_get inner (app_index s)) as [i r] eqn:Hg.
  destruct (index_get_spec _ _ _ _ Hi Hg) as (_ & _ & Ho).
  destruct r as [[e|]|err']; intros [= <- <-]; [right; by rewrite <- (Ho _ eq_refl)|by left].
Qed.

Lemma existing_size inner s s' ref :
  hub_ok s → artifact_exists (to_prefixed inner) s = (s', Ok ref) → u64_ok (ref_size ref).
Proof.
  intros Hok Ha. destruct (existing_entry _ _ _ _ Hok Ha) as (e & Hat & _ & ->).
  destruct Hok as (_ & _ & He). destruct (He _ _ Hat) as (_ & _ & _ & plain & _ & _ & _ & Hsz).
  simpl. rewrite Hsz. apply as_u64_ok.
Qed.

(** C4: the typed client over the hub's router is the hub's handlers: every call of
    the software client reaches the handler it is meant for with the arguments it
    was given (ids through the query, requests through their JSON bodies), returns
    the handler's value unchanged, [None] where it answers that the thing is absent,
    and otherwise the status of its error. *)
Theorem software_client_over_hub (env : Env) (c : TowerClient) s (Hok : hub_ok s)
    (b : list byte) (h : ContentHash) (channel : string) (device architecture : option string)
    (id : Z) (hash : option string) (l1 : L1Req) (er : EnvelopeReq)
    (Hid : i64_ok id) (Hl1 : l1_req_ok l1) (Her : u64_ok (er_seq er)) :
  let _ : Http App := hub_http env (base c) in
  publish_artifact c b s =
    outcome client_result (publish_stream (env_random env) (Ok <$> env_chunks env b)) s ∧
  client_get_blob c h s =
    outcome client_option (r ← get_blob (to_prefixed h); mret (blob_body r)) s ∧
  client_artifact_exists c h s = outcome client_option (artifact_exists (to_prefixed h)) s ∧
  client_channel_target_tree c channel device architecture s =
    outcome client_option (channel_target_tree
      (mkTargetSelector (Some channel) device architecture None None)) s ∧
  vehicle_release_tree c id hash s =
    outcome client_option (channel_target_tree
      (mkTargetSelector None None None (Some id) hash)) s ∧
  l1_post c l1 s =
    outcome client_result (a ← channel_target_l1 (env_now env) (l1_request_of l1);
                           mret (l1_bytes a)) s ∧
  client_build_envelope c (er_device_pubkey er) (er_device_id er) (er_component er)
      ((λ p, (epr_id p, epr_content p)) <$> er_parts er) (er_seq er) s =
    outcome client_result (create_envelope (env_now env) (new_envelope_of er)) s ∧
  client_signer_pubkey c s = (s, Ok (signer_pubkey s)) ∧
  healthy c s = (s, Ok true).
Proof.
  intros Hhttp.
  split; [apply publish_over_hub; [done|]; intros; by eapply published_size|].
  split; [by apply get_blob_over_hub|].
  split; [apply artifact_exists_over_hub; [done|]; intros; by eapply existing_size|].
  split; [by apply tree_over_hub, target_query|].
  split; [by apply tree_over_hub, release_query|].
  split; [by apply l1_over_hub|].
  split; [by apply envelope_over_hub|].
  split; [by apply pubkey_over_hub|by apply healthy_over_hub].
Qed.

(** C5: publish, then fetch: when a client publishes bytes whose artifact and blob
    are new to a consistent hub, the reference it gets carries their hash and
    length; asking for the artifact next gives that reference, and fetching its
    blob gives a ciphertext that decrypts and decompresses to exactly those bytes,
    under the key the hub has indexed for them. *)
Theorem publish_then_fetch (env env' env2 : Env) (c : TowerClient) s s1 s2 s3
    (b : list byte) ref r r'
    (Hok : hub_ok s) (Hchunks : concat (env_chunks env b) = b)
    (Hnew : index_at (app_index s) (hash_of b) = None)
    (Hp : publish_artifact (H := hub_http env (base c)) c b s = (s1, Ok ref))
    (Hfresh : blob_at (app_blobs s) (ref_outer ref) = None)
    (Hg : client_get_blob (H := hub_http env' (base c)) c (ref_outer ref) s1 = (s2, Ok r))
    (He : client_artifact_exists (H := hub_http env2 (base c)) c (ref_inner ref) s1 = (s3, Ok r')) :
  ref_inner ref = hash_of b ∧ ref_size ref = as_u64 (Z.of_nat (length b)) ∧ r' = Some ref ∧
  ∃ ct e, r = Some ct ∧ index_at (app_index s1) (hash_of b) = Some e ∧
    entry_outer e = ref_outer ref ∧ opens (entry_cek e) (entry_nonce e) ct b.
Proof.
  unfold hub_http in *.
  rewrite (publish_over_hub env (base c)) in Hp; [|done|by intros; eapply published_size].
  unfold outcome in Hp.
  destruct (publish_stream _ _ s) as [s1' [ref'|err]] eqn:Hps; [|done]. injection Hp as -> ->.
  pose proof (publish_preserves_hub_ok _ _ _ _ _ Hok Hps) as Hok1. pose proof Hok as (Hi & _).
  destruct (publish_stored _ _ _ _ _ Hi Hps) as (chunks & e & Hc & Hat & -> & Hcase).
  apply (inj (fmap Ok)) in Hc. subst chunks. rewrite Hchunks, Hnew in *.
  destruct Hcase as (Hin & Hsz & _ & ct & Hct & Hop & Hb). specialize (Hb Hfresh).
  simpl in *. split; [done|]. split; [done|]. split.
  - rewrite Hin in He.
    rewrite (artifact_exists_over_hub env2 (base c)) in He; [|done|by intros; eapply existing_size].
    unfold outcome in He. destruct (artifact_exists _ s1) as [s3' r0] eqn:Hex.
    destruct r0 as [ref'|err].
    + destruct (existing_entry _ _ _ _ Hok1 Hex) as (e' & Hat' & _ & ->).
      injection He as _ <-. by replace e' with e by congruence.
    + destruct Hok1 as (Hi1 & _).
      destruct (existing_not_found _ _ _ _ Hi1 Hex) as [Hn|Hn]; [by destruct err|congruence].
  - exists ct, e. split; [|done].
    rewrite (get_blob_over_hub env' (base c)) in Hg by done.
    unfold outcome, mbind, act_bind in Hg.
    destruct (get_blob _ s1) as [s2' [resp|err]] eqn:Hgb.
    + destruct (get_blob_spec _ _ _ _ Hok1 Hgb) as (_ & _ & Hresp & _).
      destruct (Hresp resp eq_refl) as (h & Hh & Hat2 & _). rewrite from_str_to_prefixed in Hh.
      injection Hg as _ <-. simplify_eq/=. congruence.
    + destruct (get_blob_spec _ _ _ _ Hok1 Hgb) as (_ & _ & _ & Hnf & _).
      destruct err; try done. destruct (Hnf eq_refl) as (h & Hh & Hnone).
      by rewrite from_str_to_prefixed in Hh; simplify_eq/=.
Qed.
End router_properties.

(** * Witnesses *)

(** An empty hub and its client. *)
Definition example_tower : TowerClient := tower_new "http://hub:8081/".

Definition example_env : Env := mkEnv example_random 0 (λ b, [b]).

Definition served_hub : AppState Fs PgIndex HubDb Signer :=
  mkAppState (mkFs ∅ 7 0 []) (mkPgIndex ∅ []) None (mkSigner ([x05] : CoseKey (Suit := toy_suit))).

#[local] Instance example_hub_http : Http (AppState Fs PgIndex HubDb Signer) :=
  hub_http example_env (base example_tower).

Lemma served_hub_ok : hub_ok served_hub.
Proof. exact example_hub_ok. Qed.

Lemma software_client_over_hub_witness :
  hub_ok served_hub ∧ l1_req_ok example_l1_body ∧
  client_channel_target_tree example_tower "stable" (Some "rig") None served_hub =
    (served_hub, Err (HttpErr (StatusError 500))).
Proof.
  assert (l1_req_ok example_l1_body) as Hl1
    by (split_and!; [by intros id [= <-]|done|done]).
  split; [exact served_hub_ok|]. split; [exact Hl1|].
  destruct (software_client_over_hub example_env example_tower served_hub served_hub_ok
    [x01; x02] (hash_of [x01]) "stable" (Some "rig") None 7%Z None example_l1_body
    example_envelope_body) as (_ & _ & _ & Ht & _).
  - by split.
  - exact Hl1.
  - by split.
  - etrans; [exact Ht|reflexivity].
Defined.

Abbreviation http_publish := (publish_artifact (H := hub_http example_env (base example_tower))
  example_tower [x01; x02] served_hub).
Abbreviation http_blob ref s :=
  (client_get_blob (H := hub_http example_env (base example_tower)) example_tower
     (ref_outer ref) s).
Abbreviation http_artifact ref s :=
  (client_artifact_exists (H := hub_http example_env (base example_tower)) example_tower
     (ref_inner ref) s).

Lemma example_round :
  match http_publish with
  | (s1, Ok ref) =>
      match http_blob ref s1, http_artifact ref s1 with
      | (_, Ok _), (_, Ok _) => True
      | _, _ => False
      end
  | _ => False
  end.
Proof. vm_compute. exact I. Qed.

Lemma served_hub_empty h :
  index_at (app_index served_hub) h = None ∧ blob_at (app_blobs served_hub) h = None.
Proof. split; reflexivity. Qed.

Lemma publish_then_fetch_witness : ∃ s1 ref s2 ct s3,
  http_publish = (s1, Ok ref) ∧ http_blob ref s1 = (s2, Ok (Some ct)) ∧
  http_artifact ref s1 = (s3, Ok (Some ref)) ∧ ref_inner ref = hash_of [x01; x02] ∧
  ref_size ref = 2%Z.
Proof.
  pose proof example_round as Hr.
  destruct http_publish as [s1 [ref|]] eqn:Hp; [|destruct Hr].
  destruct (http_blob ref s1) as [s2 [r|]] eqn:Hg; [|destruct Hr].
  destruct (http_artifact ref s1) as [s3 [r'|]] eqn:He; [|destruct Hr].
  destruct (publish_then_fetch example_env example_env example_env example_tower served_hub
    s1 s2 s3 [x01; x02] ref r r' served_hub_ok eq_refl (proj1 (served_hub_empty _)) Hp
    (proj2 (served_hub_empty _)) Hg He) as (Hin & Hsz & -> & ct & e & -> & _).
  exists s1, ref, s2, ct, s3. split; [reflexivity|]. split; [exact Hg|]. split; [exact He|].
  split; [exact Hin|exact Hsz].
Defined.
