(* ===== verification/Rig.v ===== *)
(** Observing a rig (src/crates/orchestrator/src/lib.rs): its node update state
    over HTTP, its components, inventories and capabilities over SOVD, as a
    vehicle tree.  The SOVD client is an interface over the world. *)

From S2P Require Import Prelude Ext Wire Json Client.

(** * Errors *)

(** [SovdClientError]: an answer of the server, or anything else. *)
Inductive SovdClientError :=
  | ServerError (status : Z)
  | SovdOther (text : string).

(** [EngineError]: the variant this crate builds, or one of the engine's own; and a
    panic inside the engine (its validator has one, on a trust anchor that is no
    COSE_Key), which unwinds through the crate like an error nothing catches. *)
Inductive EngineError :=
  | EngineInternal (text : string)
  | EngineOther (text : string)
  | EnginePanicked (text : string).

(** The orchestrator's [Error]; [ManifestParse] is its [Manifest] variant. *)
Inductive Error :=
  | Sovd_ (e : SovdClientError)
  | Client_ (e : ClientError)
  | Engine_ (e : EngineError)
  | PayloadMissing (outer : string)
  | ChannelNotFound (channel : string)
  | OnlyMatchedNothing (only : string)
  | DeviceNotFound (id : string)
  | DeviceNoPubkey (id : string)
  | ManifestParse (component : string)
  | NodeState (text : string)
  | DecodeL1
  | BadL2 (component reason : string)
  | L1NeedsSelector (channel : string).

(** * SOVD *)

Record Component := mkComponent {
  comp_id : string;
  component_type : option string;
}.

(** The SOVD client crate. *)
Class SovdApi (W : Type) := {
  SovdClient : Type;
  new_verifying : string → Trust → result SovdClientError SovdClient;
  list_components : SovdClient → act W SovdClientError (list Component);
  (** the extensions of a component's [/status] *)
  read_status : SovdClient → string → act W SovdClientError (list (string * Value));
  read_data : SovdClient → string → string → act W SovdClientError Value;
}.

Definition INSTALLED_MANIFEST : string := "x-ota-installed-manifest".
Definition UPDATE_MODE : string := "x-ota-update-mode".

(** * The node's update state *)

Record NodeUpdateState := mkNodeUpdateState {
  node_phase : string;
  node_components : list string;
  node_boot_id : option string;
}.

Definition node_update_state_of_value (v : Value) : option NodeUpdateState :=
  l ← fields ["phase"; "components"; "node_boot_id"] v;
  phase ← required l "phase" d_str;
  components ← defaulted l "components" (d_vec d_str) [];
  boot ← defaulted l "node_boot_id" (d_option d_str) None;
  Some (mkNodeUpdateState phase components boot).

Definition is_unresolved (s : NodeUpdateState) : bool :=
  bool_decide (node_phase s = "RebootPending" ∨ node_phase s = "Trial").

(** * The installed manifest *)

Record InstalledFile := mkInstalledFile { file_path : string; file_sha256 : string }.

Record Identity := mkIdentity { identity_name : string; identity_version : string }.

Record InstalledManifest := mkInstalledManifest {
  im_identity : Identity;
  im_files : list InstalledFile;
}.

Definition installed_file_of_value (v : Value) : option InstalledFile :=
  l ← fields ["path"; "sha256"] v;
  path ← required l "path" d_str;
  sha ← required l "sha256" d_str;
  Some (mkInstalledFile path sha).

Definition identity_of_value (v : Value) : option Identity :=
  l ← fields ["name"; "version"] v;
  name ← defaulted l "name" d_str "";
  version ← defaulted l "version" d_str "";
  Some (mkIdentity name version).

Definition installed_manifest_of_value (v : Value) : option InstalledManifest :=
  l ← fields ["identity"; "files"] v;
  identity ← defaulted l "identity" identity_of_value (mkIdentity "" "");
  files ← defaulted l "files" (d_vec installed_file_of_value) [];
  Some (mkInstalledManifest identity files).

(** [parse_admin_disabled]. *)
Definition parse_admin_disabled (value : option Value) : result Error (option bool) :=
  match value with
  | None => Ok None
  | Some value =>
      match d_str value with
      | Some s =>
          if bool_decide (s = "enabled") then Ok (Some false)
          else if bool_decide (s = "disabled") then Ok (Some true)
          else Err (NodeState ("unknown x-runtime.admin_state '" +:+ s +:+ "'"))
      | None => Err (NodeState "x-runtime.admin_state must be a string")
      end
  end.

(** [installed_files_to_parts]: a file whose hash does not parse is dropped. *)
Definition installed_files_to_parts `{HexCodec} (files : list InstalledFile) : list Part :=
  omap (λ f,
    match from_str (file_sha256 f) with
    | Ok content => Some (mkPart "file" (file_path f) content)
    | Err _ => None
    end) files.

Section rig.
Context {W : Type} `{Http W, SovdApi W, HexCodec}.

(** A call whose error becomes [NodeState]. *)
Definition node_call {A} : act W HttpError A → act W Error A :=
  act_map_err (λ _, NodeState "http").

(** [node_update_state]. *)
Definition node_update_state (rig_url : string) (trust : Trust) : act W Error NodeUpdateState :=
  if client_builds trust then
    let base := trim_end_matches slash rig_url in
    resp ← node_call (send_with trust (get (base +:+ "/vehicle/v1/data/x-update-state")));
    resp ← (if (rs_status resp =? NOT_FOUND)%Z then
              node_call (send_with trust (get (base +:+ "/vehicle/v1/data/x-ota-update-state")))
            else mret resp);
    if (rs_status resp =? NOT_FOUND)%Z then mret (mkNodeUpdateState "Idle" [] None)
    else node_call (
      resp ← lift (error_for_status resp);
      lift (resp_json node_update_state_of_value resp))
  else throw (NodeState "http").

(** The urls [connect_sovd] tries. *)
Definition scheme_candidates (sovd_url : string) : list string :=
  let base := trim_end_matches slash sovd_url in
  match split_once "://" base with
  | Some (scheme, rest) =>
      if bool_decide (scheme = "https") then [base; "http://" +:+ rest]
      else if bool_decide (scheme = "http") then [base; "https://" +:+ rest]
      else [base]
  | None => [base]
  end.

(** [connect_sovd]'s loop over the candidates. *)
Fixpoint probe (trust : Trust) (urls : list string) (last_err : option SovdClientError) :
    act W Error (SovdClient * list Component) :=
  match urls with
  | [] => throw (match last_err with
                 | Some e => Sovd_ e
                 | None => NodeState "no reachable SOVD scheme"
                 end)
  | url :: urls =>
      client ← lift (map_err Sovd_ (new_verifying url trust));
      answer ← attempt (list_components client);
      match answer with
      | Ok components => mret (client, components)
      | Err (ServerError status) => throw (Sovd_ (ServerError status))
      | Err e => probe trust urls (Some e)
      end
  end.

Definition connect_sovd (sovd_url : string) (trust : Trust) :
    act W Error (SovdClient * list Component) :=
  probe trust (scheme_candidates sovd_url) None.

(** A SOVD read whose [404] and [501] mean "not served". *)
Definition read_optional (client : SovdClient) (component name : string) :
    act W Error (option Value) :=
  answer ← attempt (read_data client component name);
  match answer with
  | Ok v => mret (Some v)
  | Err (ServerError status) =>
      if (status =? 404)%Z || (status =? 501)%Z then mret None
      else throw (Sovd_ (ServerError status))
  | Err e => throw (Sovd_ e)
  end.

Definition read_update_mode (client : SovdClient) (component : string) :
    act W Error (option UpdateMode) :=
  v ← read_optional client component UPDATE_MODE;
  mret (v ← v; update_mode_of_value v).

Definition read_installed (client : SovdClient) (component : string) :
    act W Error (option InstalledManifest) :=
  v ← read_optional client component INSTALLED_MANIFEST;
  match v with
  | None => mret None
  | Some v =>
      m ← lift (ok_or (ManifestParse component) (installed_manifest_of_value v));
      mret (Some m)
  end.

Definition read_admin_disabled (client : SovdClient) (component : string) :
    act W Error (option bool) :=
  extensions ← act_map_err Sovd_ (read_status client component);
  lift (parse_admin_disabled (v ← assoc "x-runtime" extensions; get_field "admin_state" v)).

(** The body of [read_rig_state]'s loop. *)
Definition read_entity (client : SovdClient) (c : Component) : act W Error Entity :=
  manifest ← read_installed client (comp_id c);
  mode ← read_update_mode client (comp_id c);
  admin ← read_admin_disabled client (comp_id c);
  let kind := default "" (component_type c) in
  mret (match manifest with
        | Some m =>
            let label := identity_name (im_identity m) +:+ " " +:+
                         identity_version (im_identity m) in
            mkEntity kind (Some (trim label)) mode (installed_files_to_parts (im_files m))
              false admin
        | None => mkEntity kind None mode [] false admin
        end).

(** [read_rig_state]. *)
Definition read_rig_state (sovd_url : string) (trust : Trust) : act W Error Tree :=
  '(client, components) ← connect_sovd sovd_url trust;
  fold_act (λ tree c,
    entity ← read_entity client c;
    mret (<[comp_id c := entity]> tree)) components ∅.
End rig.
