(* ===== verification/Plan.v ===== *)
(** The read-only half of an update (src/crates/orchestrator/src/lib.rs): the
    apply plan of a rig against a target resolved by Tower 2, and the flash bundle
    that would be uploaded. *)

From S2P Require Import Prelude Ext Wire Json Client Rig.

(** * Targets *)

Record ChannelTarget := mkChannelTarget {
  tgt_channel : string;
  tgt_device : option string;
  tgt_architecture : option string;
  tgt_vehicle_release_id : option Z;
  tgt_tree_hash : option string;
}.

(** [ChannelTarget::channel] and [ChannelTarget::pinned]. *)
Definition target_of_channel (channel : string) : ChannelTarget :=
  mkChannelTarget channel None None None None.

Definition pinned (vehicle_release_id : Z) (tree_hash : option string)
    (device architecture : string) : ChannelTarget :=
  mkChannelTarget ("vehicle-release:" +:+ pretty vehicle_release_id) (Some device)
    (Some architecture) (Some vehicle_release_id) tree_hash.

(** [ChannelTarget::label]. *)
Definition label (t : ChannelTarget) : string :=
  match tgt_vehicle_release_id t with
  | Some id => "vehicle release " +:+ pretty id
  | None =>
      match tgt_device t, tgt_architecture t with
      | None, None => tgt_channel t
      | dev, arch =>
          tgt_channel t +:+ " (device=" +:+ default "*" dev +:+ ", architecture="
            +:+ default "*" arch +:+ ")"
      end
  end.

(** * The plan *)

Record BlobRef := mkBlobRef {
  blob_outer : ContentHash;
  blob_size : Z;
}.

Record ShipPart := mkShipPart {
  ship_part : string;
  ship_kind : string;
  ship_content : ContentHash;
  ship_blob : option BlobRef;
}.

Record ComponentApply := mkComponentApply {
  ca_entity : string;
  ca_version : option string;
  ca_ship : list ShipPart;
  ca_reuse : nat;
  ca_supports_rollback : option bool;
}.

Record ApplyPlan := mkApplyPlan {
  ap_channel : string;
  ap_components : list ComponentApply;
  ap_assessment : ConvergenceAssessment;
}.

(** Sums of [u64] blob sizes, in a release build. *)
Definition sum_u64 (l : list Z) : Z := foldl (λ a b, as_u64 (a + b)) 0%Z l.

Definition component_ship_bytes (c : ComponentApply) : Z :=
  sum_u64 (omap (λ s, blob_size <$> ship_blob s) (ca_ship c)).

Definition plan_ship_bytes (p : ApplyPlan) : Z :=
  sum_u64 (omap (λ s, blob_size <$> ship_blob s) (mjoin (ca_ship <$> ap_components p))).

Definition missing (p : ApplyPlan) : list (string * string) :=
  mjoin ((λ c, (λ s, (ca_entity c, ship_part s)) <$>
    filter (λ s, ship_blob s = None) (ca_ship c)) <$> ap_components p).

Definition plan_is_noop (p : ApplyPlan) : bool :=
  forallb (λ c, match ca_ship c with [] => true | _ => false end) (ap_components p).

(** * Building it *)

Section plan.
Context {W : Type} `{Http W, SovdApi W, HexCodec}.

(** A client call in the orchestrator. *)
Definition tower {A} : act W ClientError A → act W Error A := act_map_err Client_.

(** The target's desired tree, from Tower 2. *)
Definition desired_tree (hub : TowerClient) (target : ChannelTarget) : act W Error Tree :=
  tree ← tower (
    match tgt_vehicle_release_id target with
    | Some id => vehicle_release_tree hub id (tgt_tree_hash target)
    | None => client_channel_target_tree hub (tgt_channel target) (tgt_device target)
                (tgt_architecture target)
    end);
  lift (ok_or (ChannelNotFound (label target)) tree).

(** Whether the allowlist lets a component through. *)
Definition allowed (only : option (list string)) (id : string) : bool :=
  match only with
  | Some allow => existsb (String.eqb id) allow
  | None => true
  end.

(** One planned part: a reuse is counted, a ship is resolved against the index. *)
Definition apply_part (hub : TowerClient) (acc : list ShipPart * nat) (p : PlannedPart) :
    act W Error (list ShipPart * nat) :=
  let '(ship, reuse) := acc in
  match pp_plan p with
  | Reuse => mret (ship, S reuse)
  | Ship =>
      found ← tower (client_artifact_exists hub (pp_content p));
      mret (ship ++ [mkShipPart (pp_part p) (pp_kind p) (pp_content p)
              ((λ a, mkBlobRef (ref_outer a) (ref_size a)) <$> found)], reuse)
  end.

(** The body of [apply_plan]'s loop over the desired entities. *)
Definition apply_entity (hub : TowerClient) (observed : Tree) (plan : FlashPlan)
    (only : option (list string)) (components : list ComponentApply)
    (e : string * Entity) : act W Error (list ComponentApply) :=
  let '(path, entity) := e in
  if allowed only path then
    '(ship, reuse) ← fold_act (apply_part hub)
      (filter (λ p, pp_entity p = path) plan) ([], 0);
    if bool_decide (ship ≠ []) || Nat.ltb 0 reuse then
      mret (components ++ [mkComponentApply path (entity_version entity) ship reuse
        (e ← observed !! path; m ← entity_update_mode e; Some (supports_rollback m))])
    else mret components
  else mret components.

(** [apply_plan]. *)
Definition apply_plan (rig_url hub_url : string) (target : ChannelTarget)
    (only : option (list string)) (trust : Trust) : act W Error ApplyPlan :=
  observed ← read_rig_state rig_url trust;
  let hub := tower_new hub_url in
  desired ← desired_tree hub target;
  components ← fold_act (apply_entity hub observed (flash_plan observed desired) only)
    (entries desired) [];
  mret (mkApplyPlan (tgt_channel target) components (assess_tree observed desired)).

(** * The flash bundle *)

Record PayloadRef := mkPayloadRef {
  payload_ref_uri : string;
  payload_ref_outer : ContentHash;
  payload_ref_size : Z;
}.

Record ComponentFlash := mkComponentFlash {
  cf_entity : string;
  cf_envelope_bytes : nat;
  cf_payloads : list PayloadRef;
}.

Record FlashBundle := mkFlashBundle {
  fb_channel : string;
  fb_device : string;
  fb_components : list ComponentFlash;
}.

(** [device_pubkey]. *)
Definition roster_pubkey (ca_url device : string) : act W Error string :=
  found ← tower (client_get_device (tower_new ca_url) device);
  dev ← lift (ok_or (DeviceNotFound device) found);
  lift (ok_or (DeviceNoPubkey device) (device_pubkey dev)).

(** The bundle of one component. *)
Definition bundle_component (hub : TowerClient) (pubkey device : string)
    (components : list ComponentFlash) (c : ComponentApply) :
    act W Error (list ComponentFlash) :=
  match ca_ship c with
  | [] => mret components
  | ship =>
      envelope ← tower (client_build_envelope hub pubkey device (ca_entity c)
        ((λ s, (ship_part s, ship_content s)) <$> ship) 1);
      mret (components ++ [mkComponentFlash (ca_entity c) (length envelope)
        (omap (λ s, (λ b, mkPayloadRef ("#" +:+ ship_part s) (blob_outer b) (blob_size b))
                      <$> ship_blob s) ship)])
  end.

(** [flash_bundle]. *)
Definition flash_bundle (rig_url hub_url ca_url : string) (target : ChannelTarget)
    (device : string) (only : option (list string)) (trust : Trust) :
    act W Error FlashBundle :=
  plan ← apply_plan rig_url hub_url target only trust;
  pubkey ← roster_pubkey ca_url device;
  components ← fold_act (bundle_component (tower_new hub_url) pubkey device)
    (ap_components plan) [];
  mret (mkFlashBundle (tgt_channel target) device components).
End plan.

(** * Properties *)

(** The decisions of the flash plan for one component are those of its entity. *)
Lemma flash_plan_filter observed desired path entity :
  desired !! path = Some entity →
  filter (λ p, pp_entity p = path) (flash_plan observed desired) =
  plan_entity observed path entity.
Proof.
  rewrite <- elem_of_entries. unfold flash_plan. pose proof (NoDup_entries_keys desired) as Hnd.
  revert Hnd. generalize (entries desired). intros l.
  assert (∀ k e, Forall (λ p, pp_entity p = k) (plan_entity observed k e)) as Hown.
  { intros k e. apply list.Forall_forall. intros p Hp. unfold plan_entity in Hp.
    by apply list_elem_of_fmap in Hp as (x & -> & _). }
  assert (∀ k e, k ≠ path → filter (λ p, pp_entity p = path) (plan_entity observed k e) = [])
    as Hother.
  { intros k e Hne. apply filter_none. intros p Hp.
    pose proof (proj1 (list.Forall_forall _ _) (Hown k e) p Hp) as Hk. simpl in Hk.
    congruence. }
  assert (∀ l : list (string * Entity), path ∉ l.*1 →
    filter (λ p, pp_entity p = path) (mjoin ((λ e, plan_entity observed e.1 e.2) <$> l)) = [])
    as Hnone.
  { clear l. intros l Hn. induction l as [|[k e] l IH]; [done|]. rewrite fmap_cons. simpl.
    rewrite fmap_cons in Hn. rewrite list.filter_app, Hother, IH by set_solver. done. }
  induction l as [|[k e] l IH]; intros Hnd Hin; [by apply elem_of_nil in Hin|].
  rewrite fmap_cons in *. apply list.NoDup_cons in Hnd as [Hk Hnd]. simpl in *.
  rewrite list.filter_app. apply elem_of_cons in Hin as [[= <- <-]|Hin].
  - rewrite Hnone by done. rewrite app_nil_r.
    apply filter_all, Hown.
  - rewrite Hother; [by apply IH|]. intros ->. apply Hk, list_elem_of_fmap. by exists (path, entity).
Qed.

Section plan_spec.
Context {W : Type} `{Http W, SovdApi W, HexCodec}.

(** A part to ship, with the hub's answer on its digest. *)
Definition shipped_as (hub : TowerClient) (p : PlannedPart) (s : ShipPart) : Prop :=
  ship_part s = pp_part p ∧ ship_kind s = pp_kind p ∧ ship_content s = pp_content p ∧
  ∃ (w w' : W) found, client_artifact_exists hub (pp_content p) w = (w', Ok found) ∧
    ship_blob s = (λ a, mkBlobRef (ref_outer a) (ref_size a)) <$> found.

(** The plan of one component: its own decisions, split. *)
Definition component_planned (hub : TowerClient) (observed : Tree) (e : string * Entity)
    (c : ComponentApply) : Prop :=
  ca_entity c = e.1 ∧ ca_version c = entity_version e.2 ∧
  ca_supports_rollback c =
    (o ← observed !! e.1; m ← entity_update_mode o; Some (supports_rollback m)) ∧
  Forall2 (shipped_as hub) (ships (plan_entity observed e.1 e.2)) (ca_ship c) ∧
  ca_reuse c = length (reused (plan_entity observed e.1 e.2)).

(** What becomes a component of the plan. *)
Definition planned_entity (only : option (list string)) (e : string * Entity) : Prop :=
  allowed only e.1 = true ∧ entity_parts e.2 ≠ [].

#[export] Instance planned_entity_dec only e : Decision (planned_entity only e) := _.

Lemma apply_parts_spec hub (ps : list PlannedPart) (w w' : W) ship reuse :
  fold_act (apply_part hub) ps ([], 0) w = (w', Ok (ship, reuse)) →
  Forall2 (shipped_as hub) (ships ps) ship ∧ reuse = length (reused ps).
Proof.
  intros Hf. apply (fold_inv_Ok _ (λ done acc, Forall2 (shipped_as hub) (ships done) acc.1 ∧
    acc.2 = length (reused done))) in Hf; [done|by split; [constructor|]|].
  intros dn p rest [sh re] acc' w1 w2 _ [Hs Hr] Hp. unfold ships, reused in *. simpl in *.
  rewrite !list.filter_app, !list.filter_cons, !filter_nil.
  destruct (pp_plan p) eqn:Hpl; repeat case_decide; try done.
  - apply bind_inv_Ok in Hp as (w3 & found & Hfound & Hp). injection Hp as _ <-. simpl.
    rewrite app_nil_r. split; [|done]. apply Forall2_app; [done|]. constructor; [|constructor].
    split_and!; [done..|]. exists w1, w3, found. split; [|done].
    unfold tower, act_map_err in Hfound.
    by destruct (client_artifact_exists _ _ _) as [w4 [a|e]]; simplify_eq/=.
  - injection Hp as _ <-. simpl. rewrite app_nil_r, length_app. simpl. split; [done|lia].
Qed.

Lemma plan_entity_split observed path e :
  length (ships (plan_entity observed path e)) + length (reused (plan_entity observed path e)) =
  length (entity_parts e).
Proof.
  rewrite <- (length_fmap (λ p, p)), list_fmap_id.
  transitivity (length (plan_entity observed path e)); [|unfold plan_entity; by rewrite length_fmap].
  generalize (plan_entity observed path e). intros l. unfold ships, reused.
  induction l as [|p l IH]; [done|]. rewrite !list.filter_cons.
  destruct (pp_plan p); repeat case_decide; try done; simpl; lia.
Qed.

(** C32: the apply plan of a rig.  It is the flash plan of the observed tree against
    the target's, component by component in path order: a component of the target
    appears exactly when the allowlist lets it through and it has parts; the parts
    it ships are those its own bank does not already hold, each with what the hub
    answered for its digest; the others are counted as reused; and the assessment
    is that of the same two trees. *)
Theorem apply_plan_spec (rig_url hub_url : string) (target : ChannelTarget)
    (only : option (list string)) (trust : Trust) (w w' : W) (plan : ApplyPlan)
    (Hrun : apply_plan rig_url hub_url target only trust w = (w', Ok plan)) :
  ∃ w1 w2 observed desired, read_rig_state rig_url trust w = (w1, Ok observed) ∧
    desired_tree (tower_new hub_url) target w1 = (w2, Ok desired) ∧
    ap_channel plan = tgt_channel target ∧ ap_assessment plan = assess_tree observed desired ∧
    Forall2 (component_planned (tower_new hub_url) observed)
      (filter (planned_entity only) (entries desired)) (ap_components plan).
Proof.
  apply bind_inv_Ok in Hrun as (w1 & observed & Hobs & Hrun).
  apply bind_inv_Ok in Hrun as (w2 & desired & Hdes & Hrun).
  apply bind_inv_Ok in Hrun as (w3 & comps & Hf & Hrun). injection Hrun as _ <-.
  exists w1, w2, observed, desired. split_and!; [done..|]. simpl.
  apply (fold_inv_Ok _ (λ done acc, Forall2 (component_planned (tower_new hub_url) observed)
    (filter (planned_entity only) done) acc)) in Hf; [done|constructor|].
  intros dn [path e] rest acc acc' wa wb Hl Hacc He.
  rewrite list.filter_app, list.filter_cons, filter_nil.
  assert (desired !! path = Some e) as Hlook
    by (apply elem_of_entries; rewrite <- Hl; set_solver).
  unfold apply_entity in He. rewrite (flash_plan_filter observed desired path e Hlook) in He.
  destruct (allowed only path) eqn:Ha.
  2:{ injection He as _ <-. rewrite decide_False by (intros [Hc _]; simpl in Hc; congruence).
      by rewrite app_nil_r. }
  apply bind_inv_Ok in He as (wc & [ship reuse] & Hparts & He).
  apply apply_parts_spec in Hparts as [Hship Hreuse].
  pose proof (plan_entity_split observed path e) as Hlen.
  pose proof (Forall2_length Hship) as Hsl.
  destruct (bool_decide (ship ≠ []) || Nat.ltb 0 reuse) eqn:Hany; injection He as _ <-.
  - rewrite decide_True.
    + apply Forall2_app; [done|]. constructor; [|constructor]. by split_and!.
    + split; [done|]. simpl. intros Hnil. rewrite Hnil in Hlen. simpl in Hlen.
      destruct ship; [|simpl in *; lia]. simpl in Hany. apply Nat.ltb_lt in Hany. lia.
  - apply orb_false_iff in Hany as [Hsh%bool_decide_eq_false Hre%Nat.ltb_ge].
    apply dec_stable in Hsh. subst ship. simpl in Hsl.
    rewrite decide_False; [by rewrite app_nil_r|]. intros [_ Hne]. simpl in Hne. apply Hne.
    apply nil_length_inv. lia.
Qed.
End plan_spec.

(** * A concrete hub and rig *)

#[local] Existing Instance ref_hex.

Definition example_plan_docs : list Value := [
  value_of_tree example_release;
  VObj [("inner", value_of_hash hash_b); ("outer", value_of_hash hash_c); ("size", VInt 7)]].

#[local] Instance example_plan_http : Http Scripted := scripted_http example_plan_docs.

(** A rig whose first component has the kernel of the release. *)
#[local] Instance example_plan_sovd : SovdApi Scripted := {|
  SovdClient := unit;
  new_verifying := λ _ _, Ok tt;
  list_components := λ _, mret [mkComponent "vm1" (Some "vm")];
  read_status := λ _ _, mret [];
  read_data := λ _ _ name,
    if String.eqb name INSTALLED_MANIFEST then
      mret (VObj [("files", VArr [VObj [("path", VStr "kernel");
                                        ("sha256", VStr (to_prefixed hash_a))]])])
    else throw (ServerError 404);
|}.

Definition example_plan_hub : Scripted := [
  ("http://hub/channel-targets/tree", mkResponse 200 (Some [x00]));
  ("http://hub/admin/artifacts/" +:+ to_prefixed hash_b, mkResponse 200 (Some [x01]))].

Definition example_plan : ApplyPlan := mkApplyPlan "stable"
  [mkComponentApply "vm1" None
     [mkShipPart "dtb" "file" hash_b (Some (mkBlobRef hash_c 7))] 1 None]
  (mkAssessment Actionable ["vm1"] []).

Definition example_plan_run := apply_plan "http://rig" "http://hub" (target_of_channel "stable")
  None default_trust example_plan_hub.

#[export] Instance ConvergenceAssessment_eq_dec : EqDecision ConvergenceAssessment.
Proof. solve_decision. Defined.
#[export] Instance BlobRef_eq_dec : EqDecision BlobRef.
Proof. solve_decision. Defined.
#[export] Instance ShipPart_eq_dec : EqDecision ShipPart.
Proof. solve_decision. Defined.
#[export] Instance ComponentApply_eq_dec : EqDecision ComponentApply.
Proof. solve_decision. Defined.
#[export] Instance ApplyPlan_eq_dec : EqDecision ApplyPlan.
Proof. solve_decision. Defined.

Lemma apply_plan_spec_witness :
  example_plan_run.2 = Ok example_plan ∧
  ∃ observed desired, ap_assessment example_plan = assess_tree observed desired ∧
    Forall2 (component_planned (tower_new "http://hub") observed)
      (filter (planned_entity None) (entries desired)) (ap_components example_plan).
Proof.
  assert (example_plan_run.2 = Ok example_plan) as Hok.
  { assert (match example_plan_run.2 with
            | Ok p => bool_decide (p = example_plan)
            | Err _ => false
            end = true) as Hp by (vm_compute; reflexivity).
    destruct example_plan_run.2 as [p|]; [|discriminate].
    by apply bool_decide_eq_true in Hp as ->. }
  split; [exact Hok|].
  assert (example_plan_run = (example_plan_run.1, Ok example_plan)) as Hrun
    by (rewrite <- Hok; apply surjective_pairing).
  destruct (apply_plan_spec _ _ _ _ _ _ _ _ Hrun)
    as (w1 & w2 & observed & desired & _ & _ & _ & Ha & Hc).
  exact (ex_intro _ observed (ex_intro _ desired (conj Ha Hc))).
Defined.
