(* ===== verification/Fanout.v ===== *)
(** The plan source of a push (src/crates/orchestrator/src/lib.rs): fanning a
    signed L1 campaign out into its components, deciding for each what crosses the
    wire, and building the engine's jobs. *)

From S2P Require Import Prelude Ext Wire Json Store Content Signer Client Rig Plan.

(** * The decoded campaign *)

Record L1Part := mkL1Part {
  l1p_part : string;
  l1p_outer : ContentHash;
  l1p_inner : option ContentHash;
}.

Record L1Component := mkL1Component {
  l1c_component : string;
  l1c_envelope : list byte;
  l1c_parts : list L1Part;
}.

(** * The engine's jobs (sumo_sovd_flash_engine) *)

Record Payload := mkPayload {
  payload_uri : string;
  payload_bytes : list byte;
}.

Record FlashJob := mkFlashJob {
  job_component_id : string;
  job_gateway_id : option string;
  job_envelope : list byte;
  job_payloads : list Payload;
}.

Section fanout.
Context `{HexCodec, Suit}.

(** The expected plaintext digest; one that is not 32 bytes counts as absent. *)
Definition declared_digest (manifest : Envelope) (i : nat) : option ContentHash :=
  d ← image_digest manifest i;
  bytes ← try_into 32 d;
  Some (from_bytes bytes).

(** The part at SUIT component index [i]. *)
Definition fanout_part (component : string) (manifest : Envelope) (i : nat) :
    result Error L1Part :=
  part ← ok_or (BadL2 component ("component " +:+ pretty i +:+ " has no part-id segment"))
    (segs ← component_id manifest i; seg ← segs !! 1; Some (from_utf8_lossy seg));
  uri ← ok_or (BadL2 component ("part '" +:+ part +:+ "' has no payload uri"))
    (manifest_uri manifest i);
  outer ← map_err (λ _, BadL2 component ("part '" +:+ part +:+ "' uri '" +:+ uri +:+
    "' is not a content address")) (from_str uri);
  mret (mkL1Part part outer (declared_digest manifest i)).

(** How many parts an L2 fans out: none for a disable manifest. *)
Definition fanout_part_count (manifest : Envelope) : nat :=
  if bool_decide (is_Some (disable_target manifest)) && negb (has_firmware manifest)
  then 0 else component_count manifest.

(** A fallible map: the first error stops it. *)
Fixpoint try_map {E A B} (f : A → result E B) (l : list A) : result E (list B) :=
  match l with
  | [] => Ok []
  | x :: l => y ← f x; ys ← try_map f l; mret (y :: ys)
  end.

(** One integrated L2 of the campaign. *)
Definition fanout_l2 (entry : string * list byte) : result Error L1Component :=
  let '(key, l2) := entry in
  let component := default key (strip_prefix "#" key) in
  manifest ← ok_or (BadL2 component "L2 envelope did not decode") (decode_envelope l2);
  parts ← try_map (fanout_part component manifest) (seq 0 (fanout_part_count manifest));
  mret (mkL1Component component l2 parts).

(** [fanout_l1]. *)
Definition fanout_l1 (l1 : list byte) : result Error (list L1Component) :=
  campaign ← ok_or DecodeL1 (decode_envelope l1);
  try_map fanout_l2 (entries (integrated_payloads campaign)).

(** [component_unchanged]. *)
Definition component_unchanged (c : L1Component) (observed : Tree) : bool :=
  match observed !! l1c_component c with
  | None => false
  | Some entity =>
      match l1c_parts c with [] => false | _ => true end &&
      forallb (λ p,
        match l1p_inner p with
        | Some inner => existsb (λ op, bool_decide (part_content op = inner))
                          (entity_parts entity)
        | None => false
        end) (l1c_parts c)
  end.
End fanout.

Section jobs.
Context {W : Type} `{Http W, SovdApi W, HexCodec, Suit}.

(** [BlobSource::fetch_ciphertext]. *)
Definition fetch_ciphertext (hub : TowerClient) (outer : ContentHash) :
    act W Error (list byte) :=
  blob ← tower (client_get_blob hub outer);
  lift (ok_or (PayloadMissing (to_prefixed outer)) blob).

(** The payloads of one component, over a blob source. *)
Definition component_payloads (fetch : ContentHash → act W Error (list byte))
    (c : L1Component) (observed : Tree) : act W Error (list Payload) :=
  if component_unchanged c observed then mret []
  else
    fold_act (λ payloads p,
      bytes ← fetch (l1p_outer p);
      mret (payloads ++ [mkPayload ("#" +:+ l1p_part p) bytes])) (l1c_parts c) [].

(** [l1_jobs]. *)
Definition l1_jobs (fetch : ContentHash → act W Error (list byte))
    (components : list L1Component) (observed : Tree) (only : option (list string)) :
    act W Error (list FlashJob) :=
  fold_act (λ jobs c,
    if negb (allowed only (l1c_component c)) then mret jobs
    else if negb (bool_decide (is_Some (observed !! l1c_component c))) then mret jobs
    else
      payloads ← component_payloads fetch c observed;
      mret (jobs ++ [mkFlashJob (l1c_component c) None (l1c_envelope c) payloads]))
    components [].

(** [l1_selector]. *)
Definition l1_selector (target : ChannelTarget) : result Error (string * string) :=
  match tgt_device target, tgt_architecture target with
  | Some device, Some architecture => Ok (device, architecture)
  | _, _ => Err (L1NeedsSelector (tgt_channel target))
  end.

(** [l1_flash_plan]: the jobs, the trust anchor and the observed tree. *)
Definition l1_flash_plan (rig_url hub_url ca_url : string) (target : ChannelTarget)
    (device_name : string) (only : option (list string)) (trust : Trust) :
    act W Error (list FlashJob * list byte * Tree) :=
  observed ← read_rig_state rig_url trust;
  let current_state := value_of_tree observed in
  pubkey ← roster_pubkey ca_url device_name;
  '(device, architecture) ← lift (l1_selector target);
  let hub := tower_new hub_url in
  l1 ← tower (
    match tgt_vehicle_release_id target with
    | Some id => vehicle_release_l1 hub id (tgt_tree_hash target) device architecture
                   pubkey device_name (Some current_state) 1
    | None => client_channel_target_l1 hub (tgt_channel target) device architecture
                pubkey device_name (Some current_state) 1
    end);
  match l1 with
  | [] => mret ([], [], observed)
  | _ =>
      components ← lift (fanout_l1 l1);
      jobs ← l1_jobs (fetch_ciphertext hub) components observed only;
      trust_anchor ← tower (client_signer_pubkey hub);
      mret (jobs, trust_anchor, observed)
  end.
End jobs.

(** * Properties: the jobs of a campaign *)

Section jobs_spec.
Context {W : Type} `{HexCodec, Suit}.

(** The components that become jobs: let through by the allowlist, and advertised
    by the rig. *)
Definition wanted (observed : Tree) (only : option (list string)) (c : L1Component) : Prop :=
  allowed only (l1c_component c) = true ∧ is_Some (observed !! l1c_component c).

#[export] Instance wanted_dec observed only c : Decision (wanted observed only c) := _.

(** A payload carries the part's ciphertext under the part's name. *)
Definition payload_for (served : ContentHash → list byte → Prop) (p : L1Part)
    (pl : Payload) : Prop :=
  payload_uri pl = "#" +:+ l1p_part p ∧ served (l1p_outer p) (payload_bytes pl).

(** The job of a component: its envelope as signed, and no payloads exactly when
    the rig already holds every part. *)
Definition job_for (served : ContentHash → list byte → Prop) (observed : Tree)
    (c : L1Component) (j : FlashJob) : Prop :=
  job_component_id j = l1c_component c ∧ job_gateway_id j = None ∧
  job_envelope j = l1c_envelope c ∧
  if component_unchanged c observed then job_payloads j = []
  else Forall2 (payload_for served) (l1c_parts c) (job_payloads j).

Context (fetch : ContentHash → act W Error (list byte)).
Context (I : W → Prop) (served : ContentHash → list byte → Prop) (R : Error → W → Prop).

(** What is asked of a blob source: an answer it gives is the blob. *)
Definition blob_source : Prop :=
  ∀ h, triple I (fetch h) (λ b w, I w ∧ served h b) R.

Lemma component_payloads_triple c observed : blob_source →
  triple I (component_payloads fetch c observed)
    (λ pls w, I w ∧ if component_unchanged c observed then pls = []
              else Forall2 (payload_for served) (l1c_parts c) pls) R.
Proof.
  intros Hf. unfold component_payloads.
  destruct (component_unchanged c observed); [by apply triple_ret_if|].
  apply (triple_conseq _ _ (λ w, I w ∧ Forall2 (payload_for served) [] []) _
    (λ pls w, I w ∧ Forall2 (payload_for served) (l1c_parts c) pls) _ R);
    [|by intros w Hw|done|done].
  apply (triple_fold _ (λ done pls w, I w ∧ Forall2 (payload_for served) done pls)).
  intros dn p rest pls _.
  apply (triple_bind _ _ _
    (λ b w, (I w ∧ served (l1p_outer p) b) ∧ Forall2 (payload_for served) dn pls)).
  - intros w [Hw Hd]. specialize (Hf (l1p_outer p) w Hw). by destruct (fetch _ w) as [w' [b|e]].
  - intros b. apply triple_ret_if. intros w [[Hw Hb] Hd]. split; [done|].
    apply Forall2_app; [done|]. by constructor.
Qed.

(** Nothing is fetched for components the rig already holds. *)
Lemma l1_jobs_unchanged components observed only :
  (∀ c, c ∈ components → wanted observed only c → component_unchanged c observed = true) →
  ∀ w, (l1_jobs fetch components observed only w).1 = w.
Proof.
  unfold l1_jobs. match goal with |- context [fold_act ?f _ _] => set (body := f) end.
  generalize (@nil FlashJob) as jobs.
  induction components as [|c comps IH]; intros jobs Hun w; [done|]. cbn [fold_act].
  assert (∀ c', c' ∈ comps → wanted observed only c' → component_unchanged c' observed = true)
    as Hun' by (intros c' Hc'; apply Hun; set_solver).
  destruct (decide (wanted observed only c)) as [Hw|Hw].
  2:{ rewrite (bind_Ok _ _ w w jobs); [by apply IH|]. unfold body, wanted in *.
      destruct (allowed only (l1c_component c)); [|done]. by case_bool_decide; [tauto|]. }
  assert (component_payloads fetch c observed w = (w, Ok [])) as Hp
    by (unfold component_payloads; rewrite Hun; [done|set_solver|done]).
  destruct Hw as [Ha Ho].
  erewrite bind_Ok; [by apply IH|]. unfold body. rewrite Ha, bool_decide_eq_true_2 by done.
  cbn [negb]. by rewrite (bind_Ok _ _ _ _ _ Hp).
Qed.

(** The loop over the components. *)
Lemma l1_jobs_triple components observed only : blob_source →
  triple I (l1_jobs fetch components observed only)
    (λ jobs w, I w ∧ Forall2 (job_for served observed)
       (filter (wanted observed only) components) jobs) R.
Proof.
  intros Hf.
  apply (triple_conseq _ _ (λ w, I w ∧ Forall2 (job_for served observed)
      (filter (wanted observed only) []) []) _
    (λ jobs w, I w ∧ Forall2 (job_for served observed)
      (filter (wanted observed only) components) jobs) _ R);
    [|by intros w Hw; split; [|constructor]|done|done].
  apply (triple_fold _ (λ done jobs w, I w ∧ Forall2 (job_for served observed)
    (filter (wanted observed only) done) jobs)).
  intros dn c rest jobs _. rewrite list.filter_app, list.filter_cons, filter_nil.
  destruct (allowed only (l1c_component c)) eqn:Ha; simpl.
  2:{ rewrite decide_False by (unfold wanted; intuition congruence).
      rewrite app_nil_r. by apply triple_ret_if. }
  case_bool_decide as Ho; simpl.
  2:{ rewrite decide_False by (unfold wanted; intuition congruence).
      rewrite app_nil_r. by apply triple_ret_if. }
  rewrite decide_True by done.
  apply (triple_bind _ _ _
    (λ pls w, (I w ∧ if component_unchanged c observed then pls = []
               else Forall2 (payload_for served) (l1c_parts c) pls) ∧
              Forall2 (job_for served observed) (filter (wanted observed only) dn) jobs)).
  + intros w [Hw Hd]. pose proof (component_payloads_triple c observed Hf w Hw) as Hp.
    by destruct (component_payloads fetch c observed w) as [w' [b|e]].
  + intros pls. apply triple_ret_if. intros w [[Hw Hb] Hd]. split; [done|].
    apply Forall2_app; [done|]. constructor; [|constructor]. by split_and!.
Qed.

(** C28: the jobs of a fanned-out campaign.  A component becomes a job exactly when
    the allowlist lets it through and the rig advertises it, in the campaign's
    order; the job carries the signed envelope as it is; its payloads are empty
    when the rig holds every part by digest and otherwise one per part, the blob
    under the part's name.  When every job is of the first kind, no request is
    made. *)
Theorem l1_jobs_spec (components : list L1Component) (observed : Tree)
    (only : option (list string)) (Hf : blob_source) :
  triple I (l1_jobs fetch components observed only)
    (λ jobs w, I w ∧ Forall2 (job_for served observed)
       (filter (wanted observed only) components) jobs) R ∧
  ((∀ c, c ∈ components → wanted observed only c → component_unchanged c observed = true) →
   ∀ w, (l1_jobs fetch components observed only w).1 = w).
Proof.
  split.
  - by apply l1_jobs_triple.
  - apply l1_jobs_unchanged.
Qed.
End jobs_spec.

(** * A concrete hub *)

#[local] Instance example_fanout_http : Http Scripted := scripted_http [].
#[local] Existing Instance ref_hex.

(** A scripted hub is a blob source: what it serves at a blob's url. *)
Definition scripted_blob (hub : TowerClient) (w : Scripted) (h : ContentHash)
    (b : list byte) : Prop :=
  ∃ status, assoc (base hub +:+ "/blobs/" +:+ to_prefixed h) w =
    Some (mkResponse status (Some b)).

Lemma scripted_blob_source hub (w : Scripted) :
  blob_source (fetch_ciphertext hub) (λ w', w' = w) (scripted_blob hub w) (λ _ w', w' = w).
Proof.
  intros h w0 ->. unfold fetch_ciphertext, client_get_blob, fetch_option, tower, client_call,
    act_map_err, send_with. unfold_act. cbn -[to_prefixed Z.eqb].
  destruct (assoc _ w) as [[status body]|] eqn:Ha; [|done]. cbn -[to_prefixed Z.eqb].
  destruct (status =? NOT_FOUND)%Z; [done|]. cbn -[to_prefixed].
  unfold error_for_status. cbn -[to_prefixed]. destruct (_ && _); [done|].
  destruct body as [b|]; [|done]. cbn -[to_prefixed]. split; [done|]. by exists status.
Qed.

Definition example_jobs_hub : Scripted := [
  ("http://hub/blobs/" +:+ to_prefixed hash_c, mkResponse 200 (Some [x11; x22]))].

(** One component the rig holds, one it does not, and one it does not advertise. *)
Definition example_components : list L1Component := [
  mkL1Component "vm1" [x01] [mkL1Part "kernel" hash_b (Some hash_a)];
  mkL1Component "vm2" [x02] [mkL1Part "image" hash_c (Some hash_b)];
  mkL1Component "vm3" [x03] []].

Definition example_jobs_rig : Tree := list_to_map [
  ("vm1", example_entity [mkPart "file" "slot" hash_a] false None);
  ("vm2", example_entity [] false None)].

Definition example_jobs : list FlashJob := [
  mkFlashJob "vm1" None [x01] [];
  mkFlashJob "vm2" None [x02] [mkPayload "#image" [x11; x22]]].

Lemma l1_jobs_spec_witness :
  l1_jobs (fetch_ciphertext (tower_new "http://hub/")) example_components example_jobs_rig None
    example_jobs_hub = (example_jobs_hub, Ok example_jobs) ∧
  Forall2 (job_for (scripted_blob (tower_new "http://hub/") example_jobs_hub) example_jobs_rig)
    (filter (wanted example_jobs_rig None) example_components) example_jobs.
Proof.
  assert (l1_jobs (fetch_ciphertext (tower_new "http://hub/")) example_components
    example_jobs_rig None example_jobs_hub = (example_jobs_hub, Ok example_jobs)) as Hrun
    by (vm_compute; reflexivity).
  split; [exact Hrun|].
  destruct (l1_jobs_spec _ _ _ _ example_components example_jobs_rig None
    (scripted_blob_source (tower_new "http://hub/") example_jobs_hub)) as [Ht _].
  specialize (Ht example_jobs_hub eq_refl). rewrite Hrun in Ht. exact (proj2 Ht).
Defined.
