(* ===== verification/Relay.v ===== *)
(** From the hub's signed campaign to the orchestrator's jobs: what
    [channel_target_l1] of Tower 2 builds is what [fanout_l1] of the orchestrator
    reads, both sides decide alike which components a vehicle already holds, and a
    campaign that was carried out leaves nothing to send. *)

From S2P Require Import Prelude Ext Wire Json Store Content HubDb Releases Signer L1.
From S2P Require Import Client Rig Plan Fanout.

(** * Lemmas: the fan-out *)

Section fanout.
Context `{HexCodec, SuitSpec}.

Lemma try_map_Ok {E A B} (f : A → result E B) l ys :
  try_map f l = Ok ys ↔ Forall2 (λ x y, f x = Ok y) l ys.
Proof.
  revert ys. induction l as [|x l IH]; intros ys; simpl.
  - split; [intros [= <-]; constructor|]. by intros ->%Forall2_nil_inv_l.
  - split.
    + destruct (f x) as [y|] eqn:Hx; simpl; [|done].
      destruct (try_map f l) as [ys'|] eqn:Hl; simpl; [|done].
      intros [= <-]. constructor; [done|]. by apply IH.
    + intros (y & ys' & Hx & Hl & ->)%Forall2_cons_inv_l.
      rewrite Hx. simpl. apply IH in Hl. by rewrite Hl.
Qed.

Lemma try_map_total {E A B} (f : A → result E B) l :
  (∀ x, x ∈ l → ∃ y, f x = Ok y) → ∃ ys, try_map f l = Ok ys.
Proof.
  induction l as [|x l IH]; intros Hf; simpl; [by eexists|].
  destruct (Hf x) as [y ->]; [set_solver|]. simpl.
  destruct IH as [ys ->]; [set_solver|]. simpl. by eexists.
Qed.

(** A part of an L2, as fanned out. *)
Definition fanned (p : EnvelopePart) (lp : L1Part) : Prop :=
  l1p_part lp = ep_id p ∧ ep_outer p = Some (l1p_outer lp) ∧
  ∃ inner, l1p_inner lp = Some inner ∧ slice (hash_bytes inner) = ep_inner p.

(** A part whose payload lives in the blob store, under a UTF-8 name. *)
Definition shippable (p : EnvelopePart) : Prop :=
  is_Some (ep_outer p) ∧ utf8_ok (ep_id p) = true ∧ length (ep_inner p) = 32.

Lemma part_spec_Some pk kid component p spec : part_spec pk kid component p = Some spec →
  spec_id spec = [as_bytes component; as_bytes (ep_id p)] ∧ spec_digest spec = ep_inner p ∧
  spec_uri spec = part_uri p.
Proof. unfold part_spec. intros (info & _ & [= <-])%bind_Some. done. Qed.

(** One part of a built envelope. *)
Lemma fanout_part_built component e i p spec pk kid :
  part_spec pk kid component p = Some spec → shippable p →
  component_id e i = Some (spec_id spec) → manifest_uri e i = Some (spec_uri spec) →
  image_digest e i = Some (spec_digest spec) →
  ∃ lp, fanout_part component e i = Ok lp ∧ fanned p lp.
Proof.
  intros (Hid & Hdg & Huri)%part_spec_Some ([outer Ho] & Hu & Hl) Hc1 Hc2 Hc3.
  apply bool_decide_eq_true in Hu.
  destruct (try_into 32 (ep_inner p)) as [inner|] eqn:Hin.
  2:{ by apply try_into_None in Hin. }
  exists (mkL1Part (ep_id p) outer (Some (from_bytes inner))). split.
  - unfold fanout_part, declared_digest. rewrite Hc1, Hc2, Hc3, Hid, Hdg, Huri. simpl.
    rewrite Hu. simpl. unfold part_uri. rewrite Ho. rewrite from_str_to_prefixed. simpl.
    by rewrite Hin.
  - split_and!; [done|done|]. exists (from_bytes inner). split; [done|]. simpl.
    by apply try_into_Some.
Qed.

(** An envelope fans out to the parts it was built from, in order. *)
Lemma fanout_built_envelope sg now pk kid component parts sn b :
  build_envelope sg now pk kid component parts sn = Some b → Forall shippable parts →
  ∃ lps, fanout_l2 ("#" +:+ component, b) = Ok (mkL1Component component b lps) ∧
    Forall2 fanned parts lps.
Proof.
  unfold build_envelope. intros (rk & _ & Hb)%bind_Some Hs.
  apply bind_Some in Hb as (specs & Hspecs & Hb). apply mapM_Some in Hspecs.
  apply decode_multi in Hb as (e & He & Hn & Hd & Hview).
  assert (∀ i, i < length parts → ∃ lp, fanout_part component e i = Ok lp) as Htot.
  { intros i Hi. destruct (lookup_lt_is_Some_2 parts i Hi) as [p Hp].
    destruct (Forall2_lookup_l _ _ _ _ _ Hspecs Hp) as (spec & Hspec & Hps).
    destruct (Hview i spec Hspec) as (Hc1 & Hc2 & Hc3).
    rewrite list.Forall_forall in Hs.
    destruct (fanout_part_built component e i p spec rk kid) as (lp & Hlp & _); eauto.
    apply Hs. by eapply list_elem_of_lookup_2. }
  pose proof (Forall2_length Hspecs) as Hlen.
  destruct (try_map_total (fanout_part component e) (seq 0 (length parts))) as [lps Hlps].
  { intros i Hi%elem_of_seq. apply Htot. lia. }
  exists lps. split.
  - unfold fanout_l2. cbn [default]. rewrite strip_prefix_app. cbn.
    rewrite He. cbn. unfold fanout_part_count. rewrite Hd. cbn. rewrite Hn, <- Hlen.
    by rewrite Hlps.
  - apply try_map_Ok in Hlps. apply Forall2_same_length_lookup_2.
    + apply Forall2_length in Hlps. by rewrite length_seq in Hlps.
    + intros i p lp Hp Hlp.
      destruct (Forall2_lookup_r _ _ _ _ _ Hlps Hlp) as (j & Hj & Hf).
      apply lookup_seq in Hj as [-> Hj]. simpl in Hf.
      destruct (Forall2_lookup_l _ _ _ _ _ Hspecs Hp) as (spec & Hspec & Hps).
      destruct (Hview i spec Hspec) as (Hc1 & Hc2 & Hc3). rewrite list.Forall_forall in Hs.
      destruct (fanout_part_built component e i p spec rk kid) as (lp' & Hlp' & Hfan); eauto.
      { apply Hs. by eapply list_elem_of_lookup_2. }
      rewrite Hf in Hlp'. by simplify_eq.
Qed.

(** A disable manifest fans out without parts. *)
Lemma fanout_built_disable sg now component sn b :
  build_disable_envelope sg now component sn = Some b →
  fanout_l2 ("#" +:+ component, b) = Ok (mkL1Component component b []).
Proof.
  intros (e & He & Hd & Hf)%decode_disable. unfold fanout_l2.
  rewrite strip_prefix_app. cbn. rewrite He. cbn. unfold fanout_part_count.
  rewrite Hd, Hf. by rewrite bool_decide_true by eauto.
Qed.
End fanout.

(** * Lemmas: the hub's side *)

Section hub.
Context `{HexCodec, Sha256, RowOrder, SuitSpec} {B I : Type} `{ArtifactIndexSpec I}.
Abbreviation App := (AppState B I HubDb Signer).
Context (entry_at : ContentHash → option ArtifactEntry).

(** A hub whose index holds the entries of [entry_at]. *)
Definition hub_at (s : App) : Prop :=
  index_ok (app_index s) ∧ ∀ h, index_at (app_index s) h = entry_at h.

(** A fanned-out part carries the desired one: its name, its plaintext digest and
    the address of its ciphertext. *)
Definition carried (p : Part) (lp : L1Part) : Prop :=
  l1p_part lp = part_id p ∧ l1p_inner lp = Some (part_content p) ∧
  ∃ e, entry_at (part_content p) = Some e ∧ l1p_outer lp = entry_outer e.

(** A fanned-out component is the desired one: nothing to push for a disabled one,
    otherwise its parts in order. *)
Definition l2_of (path : string) (entity : Entity) (c : L1Component) : Prop :=
  l1c_component c = path ∧
  (if entity_disabled entity then l1c_parts c = []
   else Forall2 carried (entity_parts entity) (l1c_parts c)).

(** The part of an envelope built from the index. *)
Definition indexed (p : Part) (ep : EnvelopePart) : Prop :=
  ep_id ep = part_id p ∧ ep_inner ep = slice (hash_bytes (part_content p)) ∧
  ∃ e, entry_at (part_content p) = Some e ∧ ep_outer ep = Some (entry_outer e).

(** The names of the parts are UTF-8, as every [String] is. *)
Definition utf8_names (entity : Entity) : Prop :=
  Forall (λ p, utf8_ok (part_id p) = true) (entity_parts entity).

#[local] Abbreviation anything := (λ _ _, True).

Lemma get_entry_triple content :
  triple hub_at (get_entry content)
    (λ e s, hub_at s ∧ entry_at content = Some e) anything.
Proof.
  intros s [Hok Hat]. unfold get_entry.
  destruct (index_get content (app_index s)) as [i' r] eqn:Hg.
  destruct (index_get_spec content _ _ _ Hok Hg) as (Hok' & Hsame & Hr).
  destruct r as [[e|]|err]; try done. split.
  - split; [done|]. intros h. simpl. by rewrite Hsame.
  - rewrite <- Hat. symmetry. by apply Hr.
Qed.

Lemma indexed_fanned p ep lp : indexed p ep → fanned ep lp → carried p lp.
Proof.
  intros (Hid & Hin & e & He & Ho) (Hp & Hpo & inner & Hi & Hs). split_and!.
  - by rewrite Hp.
  - rewrite Hi. f_equal. rewrite Hin in Hs. apply slice_inj in Hs.
    by destruct inner, (part_content p); simpl in *; subst.
  - exists e. split; [done|]. congruence.
Qed.

Lemma indexed_shippable parts eps :
  Forall2 indexed parts eps → Forall (λ p, utf8_ok (part_id p) = true) parts →
  Forall shippable eps.
Proof.
  intros Hf Hu. induction Hf as [|p ep ps eps (Hid & Hin & e & He & Ho) _ IH]; [constructor|].
  inversion Hu; subst. constructor; [|by apply IH]. split_and!.
  - by exists (entry_outer e).
  - by rewrite Hid.
  - by rewrite Hin, length_slice.
Qed.

(** The envelope built for a component fans out to that component. *)
Lemma build_l2_triple now req key path entity : utf8_names entity →
  triple hub_at (build_l2 now req key path entity)
    (λ l2 s, hub_at s ∧ ∃ c, fanout_l2 ("#" +:+ path, l2) = Ok c ∧ l2_of path entity c)
    anything.
Proof.
  intros Hu. unfold build_l2. eapply triple_bind; [apply triple_gets|]. intros sg.
  destruct (entity_disabled entity) eqn:Hd.
  - apply triple_lift; [|done]. intros l2 Hl2 s [Hs _]. split; [done|].
    destruct (build_disable_envelope _ _ _ _) as [b|] eqn:Hb; [|done]. injection Hl2 as ->.
    eexists. split; [by eapply fanout_built_disable|]. split; [done|]. by rewrite Hd.
  - apply (triple_conseq _ _ (λ s, hub_at s) _
      (λ l2 s, hub_at s ∧ ∃ c, fanout_l2 ("#" +:+ path, l2) = Ok c ∧ l2_of path entity c)
      _ anything); [|by intros s [? _]|done|done].
    eapply (triple_bind _ _ _
      (λ eps s, hub_at s ∧ Forall2 indexed (entity_parts entity) eps)).
    + apply (triple_conseq _ _ (λ s, hub_at s ∧ Forall2 indexed [] []) _
        (λ eps s, hub_at s ∧ Forall2 indexed (entity_parts entity) eps) _ anything);
        [|intros s Hs; split; [done|by apply List.Forall2_nil]|done|done].
      apply (triple_fold _ (λ done eps s, hub_at s ∧ Forall2 indexed done eps)).
      intros dn p rest eps Hl. eapply (triple_bind _ _ _
        (λ e s, (hub_at s ∧ entry_at (part_content p) = Some e) ∧ Forall2 indexed dn eps)).
      * intros s [Hs Hf]. pose proof (get_entry_triple (part_content p) s Hs) as Ht.
        by destruct (get_entry _ s) as [s' [e|]].
      * intros e s [[Hs He] Hf]. split; [done|]. apply Forall2_app; [done|].
        constructor; [|constructor]. split_and!; [done..|]. by exists e.
    + intros eps. apply triple_lift; [|done]. intros l2 Hl2 s [Hs Hf]. split; [done|].
      destruct (build_envelope _ _ _ _ _ _ _) as [b|] eqn:Hb; [|done]. injection Hl2 as ->.
      destruct (fanout_built_envelope _ _ _ _ _ _ _ _ Hb) as (lps & Hl2 & Hfan).
      { by eapply indexed_shippable. }
      eexists. split; [done|]. split; [done|]. rewrite Hd. simpl.
      clear Hl2 Hb. revert lps Hfan. induction Hf; intros lps Hfan;
        inversion Hfan; subst; constructor; eauto using indexed_fanned.
Qed.

(** The L2s of a campaign, in the order they are built. *)
Definition l2_entry (e : string * Entity) (x : string * list byte) : Prop :=
  x.1 = e.1 ∧ ∃ c, fanout_l2 ("#" +:+ e.1, x.2) = Ok c ∧ l2_of e.1 e.2 c.

Lemma build_l2s_triple now req key es : (∀ e, e ∈ es → utf8_names e.2) →
  triple hub_at
    (fold_act (λ l2s e, l2 ← build_l2 now req key e.1 e.2; mret (l2s ++ [(e.1, l2)])) es [])
    (λ l2s s, hub_at s ∧ Forall2 l2_entry es l2s) anything.
Proof.
  intros Hu.
  apply (triple_conseq _ _ (λ s, hub_at s ∧ Forall2 l2_entry [] []) _
    (λ l2s s, hub_at s ∧ Forall2 l2_entry es l2s) _ anything);
    [|intros s Hs; split; [done|by apply List.Forall2_nil]|done|done].
  apply (triple_fold _ (λ done l2s s, hub_at s ∧ Forall2 l2_entry done l2s)).
  intros dn e rest l2s Hl. eapply (triple_bind _ _ _
    (λ l2 s, (hub_at s ∧ ∃ c, fanout_l2 ("#" +:+ e.1, l2) = Ok c ∧ l2_of e.1 e.2 c) ∧
             Forall2 l2_entry dn l2s)).
  - intros s [Hs Hf]. pose proof (build_l2_triple now req key e.1 e.2) as Ht.
    specialize (Ht ltac:(apply Hu; rewrite <- Hl; set_solver) s Hs).
    by destruct (build_l2 _ _ _ _ _ s) as [s' [l2|]].
  - intros l2 s [[Hs Hc] Hf]. split; [done|]. apply Forall2_app; [done|].
    constructor; [by split|constructor].
Qed.

#[local] Instance sharp_inj : Inj (=) (=) (String.append "#").
Proof. intros a b Hab. by apply (f_equal (strip_prefix "#")) in Hab; simplify_eq/=. Qed.

Lemma strip_names (l : list string) :
  (λ s, default s (strip_prefix "#" s)) <$> (String.append "#" <$> l) = l.
Proof.
  induction l as [|s l IH]; [done|]. rewrite !fmap_cons, IH. by rewrite strip_prefix_app.
Qed.

(** A campaign fans out to its L2s, each under its own path. *)
Lemma fanout_campaign sg now sn es l2s l1 :
  build_campaign sg now l2s sn = Some l1 → Forall2 l2_entry es l2s → NoDup es.*1 →
  ∃ comps, fanout_l1 l1 = Ok comps ∧ (l1c_component <$> comps) ≡ₚ es.*1 ∧
    ∀ c, c ∈ comps → ∃ e, e ∈ es ∧ l2_of e.1 e.2 c.
Proof.
  intros (e & He & Hint)%decode_integrated Hf Hnd. unfold fanout_l1. rewrite He. cbn.
  rewrite Hint. set (kvs := (λ i : string * list byte, ("#" +:+ i.1, i.2)) <$> l2s).
  assert (l2s.*1 = es.*1) as Hk.
  { clear -Hf. induction Hf as [|e x es l2s [Hx _] _ IH]; [done|].
    rewrite !fmap_cons. by rewrite Hx, IH. }
  assert (kvs.*1 = String.append "#" <$> es.*1) as Hkeys.
  { unfold kvs. rewrite <- Hk, <- !list_fmap_compose. done. }
  assert (NoDup kvs.*1) as Hndk by (rewrite Hkeys; by apply (NoDup_fmap_2 _)).
  pose proof (entries_collect_map kvs Hndk) as Hperm.
  assert (∀ kv, kv ∈ kvs → ∃ p, p ∈ es ∧ ∃ c, fanout_l2 kv = Ok c ∧ l2_of p.1 p.2 c) as Hkv.
  { intros kv Hkv. unfold kvs in Hkv. apply list_elem_of_fmap in Hkv as (x & -> & Hx).
    apply list_elem_of_lookup in Hx as [i Hi].
    destruct (Forall2_lookup_r _ _ _ _ _ Hf Hi) as (p & Hp & Hx1 & c & Hc & Hl).
    exists p. split; [by eapply list_elem_of_lookup_2|]. exists c. rewrite Hx1. done. }
  destruct (try_map_total fanout_l2 (entries (collect_map kvs))) as [comps Hcomps].
  { intros kv Hin. rewrite Hperm in Hin. destruct (Hkv kv Hin) as (_ & _ & c & Hc & _). eauto. }
  exists comps. split; [done|]. apply try_map_Ok in Hcomps.
  assert (∀ kv c, fanout_l2 kv = Ok c → kv ∈ kvs → kv.1 = "#" +:+ l1c_component c) as Hname.
  { intros kv c Hc Hin. unfold kvs in Hin. apply list_elem_of_fmap in Hin as (x & -> & _).
    unfold fanout_l2 in Hc. rewrite strip_prefix_app in Hc. cbn in Hc.
    destruct (decode_envelope x.2) as [m|]; [|done]. cbn in Hc.
    destruct (try_map _ _) as [ps|]; [|done]. cbn in Hc. by injection Hc as <-. }
  split.
  - assert ((String.append "#" <$> (l1c_component <$> comps)) ≡ₚ kvs.*1) as Hp.
    { rewrite <- Hperm. apply reflexive_eq.
      assert (∀ kv, kv ∈ entries (collect_map kvs) → kv ∈ kvs) as Hsub
        by (intros kv; by rewrite Hperm).
      clear -Hcomps Hname Hsub. induction Hcomps as [|kv c l comps Hc _ IH]; [done|].
      rewrite !fmap_cons. rewrite IH by set_solver. f_equal. symmetry.
      apply Hname; [done|]. set_solver. }
    rewrite Hkeys in Hp.
    apply (fmap_Permutation (λ s, default s (strip_prefix "#" s))) in Hp.
    by rewrite !strip_names in Hp.
  - intros c Hc. apply list_elem_of_lookup in Hc as [i Hi].
    destruct (Forall2_lookup_r _ _ _ _ _ Hcomps Hi) as (kv & Hkvi & Hfk).
    apply list_elem_of_lookup_2 in Hkvi. rewrite Hperm in Hkvi.
    destruct (Hkv kv Hkvi) as (p & Hp & c' & Hc' & Hl).
    rewrite Hfk in Hc'. injection Hc' as <-. by exists p.
Qed.

(** ** The endpoint *)

Lemma with_pool_keeps {A} (m : act HubDb AppError A) (s s' : App) r :
  with_pool m s = (s', r) → app_index s' = app_index s ∧ app_signer s' = app_signer s.
Proof.
  unfold with_pool, pool. destruct (app_pool s) as [d|]; simpl; [|by intros [= <- _]].
  destruct (m d) as [d' r']. by intros [= <- _].
Qed.

(** The paths of the components a campaign ships. *)
Definition shipped_paths (tree : Tree) (reported : option Tree) : list string :=
  let '(included, disabled, _) := partition_l1_components tree reported in
  (included ++ disabled).*1.

Lemma partition_elem tree reported e :
  let '(included, disabled, _) := partition_l1_components tree reported in
  e ∈ included ++ disabled → tree !! e.1 = Some e.2 ∧
    (l1_class reported e.1 e.2 = Included ∨ l1_class reported e.1 e.2 = DisabledNow).
Proof.
  rewrite partition_l1_filter. destruct e as [path e].
  rewrite elem_of_app, !list_elem_of_filter, !elem_of_entries. simpl. tauto.
Qed.

Lemma shipped_NoDup tree reported : NoDup (shipped_paths tree reported).
Proof.
  unfold shipped_paths. rewrite partition_l1_filter, fmap_app.
  assert (∀ (P : string * Entity → Prop) `{!∀ e, Decision (P e)}, NoDup (filter P (entries tree)).*1)
    as Hn.
  { intros P HP. eapply sublist_NoDup; [apply (NoDup_entries_keys tree)|].
    apply fmap_sublist, sublist_filter. }
  apply list.NoDup_app. split_and!; [apply Hn| |apply Hn].
  intros path Hi Hd. apply list_elem_of_fmap in Hi as ([p e] & -> & Hi), Hd as ([p' e'] & Hp & Hd).
  simpl in Hp. subst p'. apply list_elem_of_filter in Hi as [Hi1 Hi], Hd as [Hd1 Hd].
  apply elem_of_entries in Hi, Hd. simpl in *. congruence.
Qed.

(** Taking a successful run of the endpoint apart. *)
Lemma channel_target_l1_run now req (s s1 s' : App) tree key l1 :
  request_pubkey (l1_device_pubkey req) = Ok key →
  with_pool (l1_target req) s = (s1, Ok tree) →
  channel_target_l1 now req s = (s', Ok (Campaign l1)) →
  let '(included, disabled, _) :=
    partition_l1_components tree (reported_state (l1_current_state req)) in
  ∃ (s2 : App) l2s, fold_act (λ l2s e, l2 ← build_l2 now req key e.1 e.2; mret (l2s ++ [(e.1, l2)]))
      (included ++ disabled) [] s1 = (s2, Ok l2s) ∧
    build_campaign (app_signer s2) now l2s (l1_seq req) = Some l1.
Proof.
  intros Hk Ht Hrun. unfold channel_target_l1 in Hrun. rewrite Hk in Hrun.
  rewrite (bind_Ok (lift (Ok key)) _ s s key) in Hrun by done.
  rewrite (bind_Ok _ _ _ _ _ Ht) in Hrun.
  destruct (partition_l1_components _ _) as [[inc dis] sk].
  apply bind_inv_Ok in Hrun as (s2 & l2s & Hf & Hrun). exists s2, l2s. split; [done|].
  destruct l2s as [|x l2s]; [by destruct sk|].
  unfold gets, lift in Hrun. unfold_act.
  destruct (build_campaign _ _ _ _) as [b|] eqn:Hb; simpl in Hrun; [|done].
  by simplify_eq.
Qed.
(** With nothing to build, the endpoint answers at once. *)
Lemma channel_target_l1_idle now req (s s1 : App) tree key inc dis sk :
  request_pubkey (l1_device_pubkey req) = Ok key →
  with_pool (l1_target req) s = (s1, Ok tree) →
  partition_l1_components tree (reported_state (l1_current_state req)) = (inc, dis, sk) →
  inc ++ dis = [] →
  channel_target_l1 now req s =
    (s1, if bool_decide (sk = []) then Err NotFound else Ok NoContent).
Proof.
  intros Hk Ht Hp Hnil. unfold channel_target_l1. rewrite Hk.
  rewrite (bind_Ok (lift (Ok key)) _ s s key) by done.
  rewrite (bind_Ok _ _ _ _ _ Ht), Hp, Hnil. simpl. unfold_act. by destruct sk.
Qed.
End hub.

Section endpoint.
Context `{HexCodec, Sha256, RowOrder, SuitSpec} {B I : Type} `{ArtifactIndexSpec I}.
Implicit Types s : AppState B I HubDb Signer.

Lemma l1_campaign_components now req s s1 s' tree l1
    (Hok : index_ok (app_index s))
    (Ht : with_pool (l1_target req) s = (s1, Ok tree))
    (Hu : ∀ path e, tree !! path = Some e → utf8_names e)
    (Hrun : channel_target_l1 now req s = (s', Ok (Campaign l1))) :
  ∃ comps, fanout_l1 l1 = Ok comps ∧
    (l1c_component <$> comps) ≡ₚ
      shipped_paths tree (reported_state (l1_current_state req)) ∧
    ∀ c, c ∈ comps → ∃ entity, tree !! l1c_component c = Some entity ∧
      (let cl := l1_class (reported_state (l1_current_state req)) (l1c_component c) entity in
       cl = Included ∨ cl = DisabledNow) ∧
      l2_of (index_at (app_index s)) (l1c_component c) entity c.
Proof.
  destruct (request_pubkey (l1_device_pubkey req)) as [key|err] eqn:Hk.
  2:{ unfold channel_target_l1 in Hrun. rewrite Hk in Hrun. done. }
  pose proof (channel_target_l1_run _ _ _ _ _ _ _ _ Hk Ht Hrun) as Hr.
  pose proof (partition_elem tree (reported_state (l1_current_state req))) as Hel.
  pose proof (shipped_NoDup tree (reported_state (l1_current_state req))) as Hnd.
  unfold shipped_paths in *.
  destruct (partition_l1_components _ _) as [[inc dis] sk]. destruct Hr as (s2 & l2s & Hf & Hb).
  assert (hub_at (index_at (app_index s)) s1) as Hs1.
  { unfold hub_at. apply with_pool_keeps in Ht as [-> _]. by split. }
  pose proof (build_l2s_triple (B := B) (index_at (app_index s)) now req key (inc ++ dis)) as Htr.
  assert (∀ e, e ∈ inc ++ dis → utf8_names e.2) as Hus
    by (intros e He; apply Hel in He as [He _]; by eapply Hu).
  specialize (Htr Hus s1 Hs1).
  rewrite Hf in Htr. destruct Htr as [_ Hl2].
  destruct (fanout_campaign _ _ _ _ _ _ _ Hb Hl2 Hnd) as (comps & Hc & Hp & Hall).
  exists comps. split_and!; [done|done|]. intros c Hin.
  destruct (Hall c Hin) as ([path e] & He & Hl). pose proof Hl as [Hn _]. simpl in Hn.
  apply Hel in He as [He Hcl]. simpl in *. exists e. rewrite Hn. by split_and!.
Qed.

(** C6: what the hub signs is what the orchestrator reads.  The campaign of a
    vehicle fans out to exactly the components the partition ships, each once; an
    enabled one has the release's parts in order, each under its name, with its
    plaintext digest and the address of the ciphertext the index holds for it; a
    disabled one has nothing to push. *)
Theorem l1_campaign_fans_out now req s s1 s' tree l1
    (Hok : index_ok (app_index s))
    (Ht : with_pool (l1_target req) s = (s1, Ok tree))
    (Hu : ∀ path e, tree !! path = Some e → utf8_names e)
    (Hrun : channel_target_l1 now req s = (s', Ok (Campaign l1))) :
  ∃ comps, fanout_l1 l1 = Ok comps ∧
    (l1c_component <$> comps) ≡ₚ
      shipped_paths tree (reported_state (l1_current_state req)) ∧
    ∀ c, c ∈ comps → ∃ entity, tree !! l1c_component c = Some entity ∧
      if entity_disabled entity then l1c_parts c = []
      else Forall2 (carried (index_at (app_index s))) (entity_parts entity) (l1c_parts c).
Proof.
  destruct (l1_campaign_components now req s s1 s' tree l1 Hok Ht Hu Hrun)
    as (comps & Hc & Hp & Hall).
  exists comps. split_and!; [done|done|]. intros c Hin.
  destruct (Hall c Hin) as (entity & He & _ & _ & Hl). by exists entity.
Qed.

(** The orchestrator's test on a fanned-out component, against the desired one. *)
Lemma component_unchanged_carries entry_at path entity c observed :
  l2_of entry_at path entity c → entity_disabled entity = false → entity_parts entity ≠ [] →
  component_unchanged c observed = true ↔ ∃ e, observed !! path = Some e ∧ carries e entity.
Proof.
  intros [Hn Hl] Hd Hp. rewrite Hd in Hl. unfold component_unchanged. rewrite Hn.
  destruct (observed !! path) as [e|]; [|naive_solver].
  assert (l1c_parts c ≠ []) as Hne by (intros Hc; rewrite Hc in Hl; by inversion Hl).
  destruct (l1c_parts c) as [|lp0 lps] eqn:Hlps; [done|]. rewrite <- Hlps in *. simpl.
  rewrite forallb_forall. split.
  - intros Hall. exists e. split; [done|]. intros p Hin. apply list_elem_of_lookup in Hin as [i Hi].
    destruct (Forall2_lookup_l _ _ _ _ _ Hl Hi) as (lp & Hlp & _ & Hinner & _).
    specialize (Hall lp). rewrite Hinner, existsb_exists in Hall.
    destruct Hall as (rp & Hrp & Heq).
    { apply list_elem_of_In. by eapply list_elem_of_lookup_2. }
    exists rp. apply list_elem_of_In in Hrp. by apply bool_decide_eq_true in Heq.
  - intros (e' & [= <-] & Hcar) lp Hin. apply list_elem_of_In, list_elem_of_lookup in Hin as [i Hi].
    destruct (Forall2_lookup_r _ _ _ _ _ Hl Hi) as (p & Hpi & _ & -> & _).
    destruct (Hcar p) as (rp & Hrp & Heq); [by eapply list_elem_of_lookup_2|].
    apply existsb_exists. exists rp. apply list_elem_of_In in Hrp.
    by rewrite bool_decide_eq_true.
Qed.

(** A job of the list, and the component it was made from. *)
Lemma l1_jobs_component {W} (fetch : ContentHash → act W Error (list byte)) comps observed only
    w w' jobs j :
  l1_jobs fetch comps observed only w = (w', Ok jobs) → j ∈ jobs →
  ∃ c, c ∈ comps ∧ job_component_id j = l1c_component c ∧
    if component_unchanged c observed then job_payloads j = []
    else Forall2 (payload_for (λ _ _, True)) (l1c_parts c) (job_payloads j).
Proof.
  intros Hrun Hj.
  assert (blob_source fetch (λ _, True) (λ _ _, True) (λ _ _, True)) as Hb
    by (intros h w0 _; by destruct (fetch h w0) as [? []]).
  pose proof (l1_jobs_triple _ _ _ _ comps observed only Hb w Logic.I) as Ht.
  rewrite Hrun in Ht. destruct Ht as [_ Ht]. apply list_elem_of_lookup in Hj as [i Hi].
  destruct (Forall2_lookup_r _ _ _ _ _ Ht Hi) as (c & Hc & Hid & _ & _ & Hp).
  apply list_elem_of_lookup_2, list_elem_of_filter in Hc as [_ Hc]. by exists c.
Qed.

(** Payloads that follow the parts of a component bear their names. *)
Lemma payload_names entry_at served parts (c : L1Component) pls :
  Forall2 (carried entry_at) parts (l1c_parts c) →
  Forall2 (payload_for served) (l1c_parts c) pls →
  payload_uri <$> pls = (λ p, "#" +:+ part_id p) <$> parts.
Proof.
  intros Hl. revert pls. induction Hl as [|p lp ps lps (Hid & _) _ IH]; intros pls Hp.
  - by apply Forall2_nil_inv_l in Hp as ->.
  - apply Forall2_cons_inv_l in Hp as (pl & pls' & [Hn _] & Hp & ->).
    rewrite !fmap_cons, Hn, Hid. f_equal. by apply IH.
Qed.

(** The vehicle holds every part of the component, by content. *)
Definition holds (observed : Tree) (path : string) (entity : Entity) : Prop :=
  ∃ e, observed !! path = Some e ∧ carries e entity.

(** C14: what a job without payloads means.  When the orchestrator sends its
    observed tree with the request and makes jobs of the answer, every job is for a
    component of the target.  One that the release disables is a component the
    vehicle reports as enabled, and is pushed by its disable manifest alone.  One
    that the release enables is pushed by its manifest alone exactly when the
    vehicle holds every part of it, and it is then reported as disabled, so that the
    manifest re-enables it: whatever else the vehicle holds was left out by the hub;
    otherwise it carries one payload per part of the release, in order and under
    the name of the part. *)
Theorem manifest_only_jobs {W} (fetch : ContentHash → act W Error (list byte)) now req s s1 s'
    tree l1 observed comps only w w' jobs j
    (Hok : index_ok (app_index s))
    (Hst : l1_current_state req = Some (value_of_tree observed))
    (Ht : with_pool (l1_target req) s = (s1, Ok tree))
    (Hu : ∀ path e, tree !! path = Some e → utf8_names e)
    (Hrun : channel_target_l1 now req s = (s', Ok (Campaign l1)))
    (Hfan : fanout_l1 l1 = Ok comps)
    (Hjobs : l1_jobs fetch comps observed only w = (w', Ok jobs)) (Hj : j ∈ jobs) :
  ∃ entity, tree !! job_component_id j = Some entity ∧
    if entity_disabled entity then
      job_payloads j = [] ∧ admin_of observed (job_component_id j) = Some false
    else
      (holds observed (job_component_id j) entity →
         job_payloads j = [] ∧ admin_of observed (job_component_id j) = Some true) ∧
      (¬ holds observed (job_component_id j) entity → job_payloads j ≠ [] ∧
         payload_uri <$> job_payloads j = (λ p, "#" +:+ part_id p) <$> entity_parts entity).
Proof.
  destruct (l1_campaign_components now req s s1 s' tree l1 Hok Ht Hu Hrun)
    as (comps' & Hc' & _ & Hall). rewrite Hfan in Hc'. injection Hc' as <-.
  destruct (l1_jobs_component _ _ _ _ _ _ _ _ Hjobs Hj) as (c & Hc & -> & Hpay).
  destruct (Hall c Hc) as (entity & He & Hcl & Hl). exists entity. split; [done|].
  unfold reported_state in Hcl. rewrite Hst in Hcl. simpl in Hcl.
  rewrite tree_of_value_of_tree in Hcl.
  pose proof (l1_class_spec (Some observed) (l1c_component c) entity) as Hs.
  destruct Hcl as [Hcl|Hcl]; rewrite Hcl in Hs.
  - destruct Hs as (Hd & Hp & Hnot). rewrite Hd.
    pose proof (component_unchanged_carries _ _ _ _ observed Hl Hd Hp) as Hun. split.
    + intros Hh. pose proof (proj2 Hun Hh) as Hun'. rewrite Hun' in Hpay. split; [done|].
      destruct Hh as (e & Ho & Hcar). unfold admin_of. rewrite Ho. simpl.
      destruct (decide (entity_admin_disabled e = Some true)); [done|].
      destruct Hnot. exists e. by split_and!.
    + intros Hh. destruct (component_unchanged c observed); [by destruct Hh; apply Hun|].
      destruct Hl as [_ Hl]. rewrite Hd in Hl. 
      pose proof (payload_names _ _ _ _ _ Hl Hpay) as Hn. split; [|done].
      intros Hnil. rewrite Hnil in Hn. by destruct (entity_parts entity).
  - destruct Hs as (Hd & e & Ho & Ha). rewrite Hd. destruct Hl as [_ Hl]. rewrite Hd in Hl.
    assert (component_unchanged c observed = false) as Hun
      by (unfold component_unchanged; rewrite Hl; by destruct (observed !! _)).
    rewrite Hun, Hl in Hpay. split; [by apply Forall2_nil_inv_l in Hpay|].
    unfold admin_of. unfold reports in Ho. simpl in Ho. by rewrite Ho.
Qed.

(** The answers without a campaign.  A device key that is not the hex of a
    COSE_Key is refused before anything is read.  Once the target is resolved and
    nothing is to be built, the answer is 204 exactly when some component was
    skipped and 404 otherwise, with no further effect; and when something is to be
    built it is never 204. *)
Lemma channel_target_l1_without_campaign now req s :
  (∀ e, request_pubkey (l1_device_pubkey req) = Err e →
     channel_target_l1 now req s = (s, Err e)) ∧
  (∀ key s1 tree, request_pubkey (l1_device_pubkey req) = Ok key →
     with_pool (l1_target req) s = (s1, Ok tree) →
     let '(included, disabled, skipped) :=
       partition_l1_components tree (reported_state (l1_current_state req)) in
     (included ++ disabled = [] → channel_target_l1 now req s =
        (s1, if bool_decide (skipped = []) then Err NotFound else Ok NoContent)) ∧
     (included ++ disabled ≠ [] → (channel_target_l1 now req s).2 ≠ Ok NoContent)).
Proof.
  split.
  { intros e He. unfold channel_target_l1. by rewrite He. }
  intros key s1 tree Hk Ht.
  destruct (partition_l1_components _ _) as [[inc dis] sk] eqn:Hp. split.
  { intros Hnil. by apply (channel_target_l1_idle now req s s1 tree key inc dis sk). }
  unfold channel_target_l1. rewrite Hk.
  rewrite (bind_Ok (lift (Ok key)) _ s s key) by done. rewrite (bind_Ok _ _ _ _ _ Ht), Hp.
  intros Hne Hr.
  match type of Hr with (?m ?x).2 = _ => destruct (m x) as [s3 r] eqn:Hrun end.
  simpl in Hr. subst r. apply bind_inv_Ok in Hrun as (s2 & l2s & Hf & Hr).
  apply (fold_snoc_inv (λ e, build_l2 now req key e.1 e.2) (λ e l2, (e.1, l2)))
    in Hf as (l2s' & -> & Hf). simpl in Hr.
  destruct Hf as [|e x es l2s' _ _]; [done|].
  unfold_act. destruct (ok_or _ _); simpl in Hr; congruence.
Qed.

(** ** A campaign that was applied *)

(** A component's class depends on its own report only. *)
Lemma l1_class_local rep rep' path entity :
  rep !! path = rep' !! path →
  l1_class (Some rep) path entity = l1_class (Some rep') path entity.
Proof. intros Hp. unfold l1_class, entity_agreed. simpl. by rewrite Hp. Qed.

(** A component of a campaign has been carried out: one without parts is no longer
    reported as enabled, another is enabled and holds every declared digest. *)
Definition component_applied (c : L1Component) (observed : Tree) : bool :=
  match observed !! l1c_component c with
  | None => false
  | Some e =>
      match l1c_parts c with
      | [] => bool_decide (entity_admin_disabled e ≠ Some false)
      | parts =>
          bool_decide (entity_admin_disabled e ≠ Some true) &&
          forallb (λ p,
            match l1p_inner p with
            | Some inner => existsb (λ op, bool_decide (part_content op = inner)) (entity_parts e)
            | None => true
            end) parts
      end
  end.

(** The vehicle has carried out a campaign, and the rest is as before. *)
Definition applied (comps : list L1Component) (observed observed' : Tree) : Prop :=
  (∀ c, c ∈ comps → component_applied c observed' = true) ∧
  (∀ path, path ∉ l1c_component <$> comps → observed' !! path = observed !! path).

(** A component that was carried out needs nothing more. *)
Lemma applied_skipped entry_at observed c entity :
  component_applied c observed = true →
  l2_of entry_at (l1c_component c) entity c →
  (entity_disabled entity = false → entity_parts entity ≠ []) →
  l1_class (Some observed) (l1c_component c) entity = Skipped.
Proof.
  intros Happ [_ Hl] Hparts. unfold component_applied in Happ.
  pose proof (l1_class_spec (Some observed) (l1c_component c) entity) as Hs.
  unfold reports_enabled, up_to_date, reports in Hs. simpl in Hs.
  destruct (observed !! l1c_component c) as [e|]; [|done].
  destruct (entity_disabled entity) eqn:Hd.
  - rewrite Hl in Happ. apply bool_decide_eq_true in Happ.
    destruct (l1_class _ _ _); [by destruct Hs|naive_solver|done|by destruct Hs].
  - specialize (Hparts eq_refl). destruct (l1c_parts c) as [|lp lps] eqn:Hlp.
    { by apply Forall2_nil_inv_r in Hl. }
    rewrite <- Hlp in *.
    apply andb_true_iff in Happ as [Ha%bool_decide_eq_true Hh]. rewrite forallb_forall in Hh.
    assert (carries e entity) as Hcar.
    { intros p Hp. apply list_elem_of_lookup in Hp as [i Hi].
      destruct (Forall2_lookup_l _ _ _ _ _ Hl Hi) as (q & Hq & _ & Hin & _).
      specialize (Hh q). rewrite Hin, existsb_exists in Hh.
      destruct Hh as (rp & Hrp & Heq).
      { apply list_elem_of_In. by eapply list_elem_of_lookup_2. }
      exists rp. apply list_elem_of_In in Hrp. by apply bool_decide_eq_true in Heq. }
    destruct (l1_class _ _ _); [|by destruct Hs|done|by destruct Hs].
    destruct Hs as (_ & _ & []). by exists e.
Qed.

(** A component of the tree that is skipped is listed as such. *)
Lemma partition_skips (tree : Tree) reported path entity : tree !! path = Some entity →
  l1_class reported path entity = Skipped → path ∈ (partition_l1_components tree reported).2.
Proof.
  intros He Hcl. rewrite partition_l1_filter. simpl. apply list_elem_of_fmap.
  exists (path, entity). split; [done|]. apply list_elem_of_filter. by rewrite elem_of_entries.
Qed.

(** A tree of which every component is skipped or omitted ships nothing. *)
Lemma partition_settled (tree : Tree) reported inc dis sk :
  (∀ path entity, tree !! path = Some entity →
     l1_class reported path entity = Skipped ∨ l1_class reported path entity = Omitted) →
  partition_l1_components tree reported = (inc, dis, sk) → inc ++ dis = [].
Proof.
  intros Hrest Hp. apply elem_of_nil_inv. intros [path e] Hin.
  pose proof (partition_elem tree reported (path, e)) as Hel. rewrite Hp in Hel.
  destruct (Hel Hin) as [He Hcl]. simpl in *. destruct (Hrest path e He); naive_solver congruence.
Qed.

(** A campaign that was built ships something. *)
Lemma campaign_nonempty now req s s1 s' tree l1 :
  with_pool (l1_target req) s = (s1, Ok tree) →
  channel_target_l1 now req s = (s', Ok (Campaign l1)) →
  ∃ path, path ∈ shipped_paths tree (reported_state (l1_current_state req)).
Proof.
  intros Ht Hrun. unfold shipped_paths.
  destruct (request_pubkey (l1_device_pubkey req)) as [key|err] eqn:Hk.
  2:{ unfold channel_target_l1 in Hrun. rewrite Hk in Hrun. done. }
  destruct (partition_l1_components _ _) as [[inc dis] sk] eqn:Hp.
  destruct (inc ++ dis) as [|[path e] l] eqn:Hnil.
  - rewrite (channel_target_l1_idle now req s s1 tree key inc dis sk Hk Ht Hp Hnil) in Hrun.
    by case_bool_decide.
  - exists path. set_solver.
Qed.

(** C8: one campaign settles a vehicle.  Once the components of the campaign the hub
    built have been carried out, the next request of that vehicle for the same
    target is answered 204: the loop of requests and pushes ends after one round. *)
Theorem campaign_settles now now' req req' s s1 s' s2 s3 tree l1 observed observed' comps key
    (Hok : index_ok (app_index s))
    (Hst : l1_current_state req = Some (value_of_tree observed))
    (Ht : with_pool (l1_target req) s = (s1, Ok tree))
    (Hu : ∀ path e, tree !! path = Some e → utf8_names e)
    (Hrun : channel_target_l1 now req s = (s', Ok (Campaign l1)))
    (Hfan : fanout_l1 l1 = Ok comps)
    (Happ : applied comps observed observed')
    (Hst' : l1_current_state req' = Some (value_of_tree observed'))
    (Hk : request_pubkey (l1_device_pubkey req') = Ok key)
    (Ht' : with_pool (l1_target req') s2 = (s3, Ok tree)) :
  channel_target_l1 now' req' s2 = (s3, Ok NoContent).
Proof.
  destruct (l1_campaign_components now req s s1 s' tree l1 Hok Ht Hu Hrun)
    as (comps' & Hc' & Hp & Hall). rewrite Hfan in Hc'. injection Hc' as <-.
  assert (reported_state (l1_current_state req) = Some observed) as Hrep
    by (rewrite Hst; simpl; by rewrite tree_of_value_of_tree).
  assert (reported_state (l1_current_state req') = Some observed') as Hrep'
    by (rewrite Hst'; simpl; by rewrite tree_of_value_of_tree).
  rewrite Hrep in Hp, Hall.
  assert (∀ c, c ∈ comps → ∃ entity, tree !! l1c_component c = Some entity ∧
    l1_class (Some observed') (l1c_component c) entity = Skipped) as Hskip.
  { intros c Hc. destruct (Hall c Hc) as (entity & He & Hcl & Hl). exists entity.
    split; [done|]. destruct Happ as [Happ _]. apply (applied_skipped _ _ _ _ (Happ c Hc) Hl).
    intros Hd.
    pose proof (l1_class_spec (Some observed) (l1c_component c) entity) as Hs.
    destruct Hcl as [Hcl|Hcl]; rewrite Hcl in Hs; [by destruct Hs as (_ & ? & _)|].
    destruct Hs; congruence. }
  assert (∀ path entity, tree !! path = Some entity →
    l1_class (Some observed') path entity = Skipped ∨
    l1_class (Some observed') path entity = Omitted) as Hrest.
  { intros path entity He. destruct (decide (path ∈ l1c_component <$> comps)) as [Hin|Hin].
    - left. apply list_elem_of_fmap in Hin as (c & -> & Hc).
      destruct (Hskip c Hc) as (e & He' & Hcl). by simplify_eq.
    - rewrite (l1_class_local observed' observed) by by apply Happ.
      rewrite Hp in Hin. unfold shipped_paths in Hin. rewrite partition_l1_filter, fmap_app in Hin.
      destruct (l1_class (Some observed) path entity) eqn:Hcl; auto; exfalso; apply Hin;
        apply elem_of_app; [left|right]; apply list_elem_of_fmap; exists (path, entity);
        (split; [done|]); apply list_elem_of_filter; by rewrite elem_of_entries. }
  destruct (partition_l1_components tree (Some observed')) as [[inc dis] sk] eqn:Hpart.
  rewrite (channel_target_l1_idle now' req' s2 s3 tree key inc dis sk Hk Ht');
    [|by rewrite Hrep'|by eapply partition_settled].
  destruct (campaign_nonempty _ _ _ _ _ _ _ Ht Hrun) as [path Hpath].
  rewrite Hrep, <- Hp in Hpath. apply list_elem_of_fmap in Hpath as (c & _ & Hc).
  destruct (Hskip c Hc) as (e & He & Hcl).
  rewrite bool_decide_eq_false_2; [done|]. intros ->.
  apply (partition_skips _ _ _ _ He) in Hcl. rewrite Hpart in Hcl. by apply elem_of_nil in Hcl.
Qed.
End endpoint.

(** * A concrete hub and vehicle *)

Definition example_entry (inner outer : ContentHash) : ContentHash * ArtifactEntry :=
  (inner, mkArtifactEntry inner outer (fill CEK_LEN x05) (fill NONCE_LEN x06) 42).

Definition example_l1_db : HubDb := mkHubDb
  (mkTables (t_components example_tables) (t_parts example_tables) (t_vehicles example_tables)
     (t_members example_tables) [] [mkServedRow 1 "rig" "arm64"]) 3 2 1000 [].

Definition example_l1_hub : AppState () MemIndex HubDb Signer :=
  mkAppState () [example_entry hash_a hash_c; example_entry hash_b hash_a]
    (Some example_l1_db) (mkSigner ([x07] : CoseKey)).

(** A vehicle whose first component is up to date but disabled, and whose second
    runs although the release disables it. *)
Definition example_observed : Tree := list_to_map [
  ("vm1", example_entity [mkPart "file" "rootfs" hash_a; mkPart "file" "dt" hash_b]
            false (Some true));
  ("vm2", example_entity [] false (Some false))].

Definition example_l1_request : L1Request :=
  mkL1Request None (Some 1%Z) None "rig" "arm64" "a1ff" "rig-7"
    (Some (value_of_tree example_observed)) 1.

Definition example_l1_run := channel_target_l1 1000 example_l1_request example_l1_hub.
Definition example_l1_target := with_pool (l1_target example_l1_request) example_l1_hub.

Definition example_vm1 : Entity := mkEntity "vm" (Some "1.0.0") None
  [mkPart "file" "kernel" hash_a; mkPart "file" "dtb" hash_b] false None.

Definition example_l1_tree : Tree := list_to_map [
  ("vm1", example_vm1);
  ("vm2", mkEntity "vm" (Some "1.0.0") None [] true None)].

Definition campaign_bytes (r : result AppError L1Response) : option (list byte) :=
  match r with Ok (Campaign l1) => Some l1 | _ => None end.

Definition example_l1_bytes : list byte := default [] (campaign_bytes example_l1_run.2).

Definition example_comps : list L1Component :=
  match fanout_l1 example_l1_bytes with Ok l => l | Err _ => [] end.

Lemma example_l1_target_ok : example_l1_target = (example_l1_target.1, Ok example_l1_tree).
Proof.
  rewrite (surjective_pairing example_l1_target) at 1. f_equal.
  assert (match example_l1_target.2 with
          | Ok t => bool_decide (t = example_l1_tree)
          | Err _ => false
          end = true) as Ht by by vm_compute.
  destruct example_l1_target.2 as [t|]; [|done]. by apply bool_decide_eq_true in Ht as ->.
Qed.

Lemma campaign_bytes_Some (r : result AppError L1Response) :
  is_Some (campaign_bytes r) → r = Ok (Campaign (default [] (campaign_bytes r))).
Proof. destruct r as [[|l1]|]; simpl; [by intros []|done|by intros []]. Qed.

Lemma example_l1_run_ok :
  example_l1_run = (example_l1_run.1, Ok (Campaign example_l1_bytes)).
Proof.
  assert (example_l1_run.2 = Ok (Campaign example_l1_bytes)) as <-
    by (apply campaign_bytes_Some; by_compute).
  apply surjective_pairing.
Qed.

Lemma example_l1_utf8 path e : example_l1_tree !! path = Some e → utf8_names e.
Proof.
  intros He. assert (map_Forall (λ _ e, utf8_names e) example_l1_tree) as Hall.
  { unfold utf8_names. by_compute. }
  by apply (Hall path).
Qed.

#[local] Opaque example_l1_bytes example_l1_run example_l1_target.

Lemma l1_campaign_fans_out_witness :
  example_l1_target.2 = Ok example_l1_tree ∧
  ∃ comps, fanout_l1 example_l1_bytes = Ok comps ∧
    (l1c_component <$> comps) ≡ₚ shipped_paths example_l1_tree
      (reported_state (l1_current_state example_l1_request)).
Proof.
  split; [by rewrite example_l1_target_ok|].
  destruct (l1_campaign_fans_out 1000 example_l1_request example_l1_hub
    example_l1_target.1 example_l1_run.1 example_l1_tree example_l1_bytes)
    as (comps & Hc & Hp & _).
  - exact I.
  - exact example_l1_target_ok.
  - exact example_l1_utf8.
  - exact example_l1_run_ok.
  - exact (ex_intro _ comps (conj Hc Hp)).
Defined.

Lemma example_fanout_ok : fanout_l1 example_l1_bytes = Ok example_comps.
Proof.
  assert (is_ok (fanout_l1 example_l1_bytes) = true) as [l Hl]%is_ok_Ok by by vm_compute.
  unfold example_comps. by rewrite Hl.
Qed.

#[local] Opaque example_comps.

(** A hub whose blobs are all alike. *)
Definition example_fetch : ContentHash → act () Error (list byte) := λ _, mret [x01].

Definition example_l1_jobs : list FlashJob :=
  match (l1_jobs example_fetch example_comps example_observed None ()).2 with
  | Ok jobs => jobs
  | Err _ => []
  end.

Lemma example_l1_jobs_ok :
  l1_jobs example_fetch example_comps example_observed None () = ((), Ok example_l1_jobs).
Proof.
  assert (is_ok (l1_jobs example_fetch example_comps example_observed None ()).2 = true)
    as [l Hl]%is_ok_Ok by by vm_compute.
  unfold example_l1_jobs. rewrite Hl. rewrite <- Hl.
  by destruct (l1_jobs _ _ _ _ _) as [[] r].
Qed.

Lemma example_job_vm1 :
  ∃ j, j ∈ example_l1_jobs ∧ job_component_id j = "vm1" ∧ job_payloads j = [].
Proof.
  assert (existsb (λ j, String.eqb (job_component_id j) "vm1" &&
    match job_payloads j with [] => true | _ => false end) example_l1_jobs = true)
    as Hex by by vm_compute.
  apply existsb_exists in Hex as (j & Hin & [Hn Hu]%andb_true_iff).
  exists j. apply list_elem_of_In in Hin. apply String.eqb_eq in Hn. by destruct (job_payloads j).
Qed.

(** The first component is pushed by its manifest alone: the release enables it, the
    vehicle holds its parts and reports it as disabled. *)
Lemma manifest_only_jobs_witness :
  ∃ j entity, j ∈ example_l1_jobs ∧ example_l1_tree !! "vm1" = Some entity ∧
    entity_disabled entity = false ∧ job_payloads j = [] ∧
    admin_of example_observed "vm1" = Some true.
Proof.
  destruct example_job_vm1 as (j & Hin & Hid & Hp).
  destruct (manifest_only_jobs example_fetch 1000 example_l1_request example_l1_hub
    example_l1_target.1 example_l1_run.1 example_l1_tree example_l1_bytes example_observed
    example_comps None () () example_l1_jobs j) as (entity & He & Hjob);
    [exact I|exact eq_refl|exact example_l1_target_ok|exact example_l1_utf8|
     exact example_l1_run_ok|exact example_fanout_ok|exact example_l1_jobs_ok|exact Hin|].
  rewrite Hid in He, Hjob. assert (entity = example_vm1) as ->.
  { assert (example_l1_tree !! "vm1" = Some example_vm1) as Hvm1 by by_compute. congruence. }
  destruct (proj1 Hjob) as [_ Ha].
  { exists (example_entity [mkPart "file" "rootfs" hash_a; mkPart "file" "dt" hash_b]
      false (Some true)). split; [by_compute|]. intros p Hin'. simpl in Hin'.
    rewrite !elem_of_cons, elem_of_nil in Hin'. destruct Hin' as [->|[->|[]]];
      [exists (mkPart "file" "rootfs" hash_a)|exists (mkPart "file" "dt" hash_b)];
      (split; [set_solver|done]). }
  exists j, example_vm1. split; [exact Hin|]. split; [exact He|]. split; [reflexivity|].
  split; [exact Hp|exact Ha].
Defined.

(** The vehicle after that campaign. *)
Definition example_settled : Tree := list_to_map [
  ("vm1", example_entity [mkPart "file" "rootfs" hash_a; mkPart "file" "dt" hash_b]
            false (Some false));
  ("vm2", example_entity [] false (Some true))].

Definition example_l1_request' : L1Request :=
  mkL1Request None (Some 1%Z) None "rig" "arm64" "a1ff" "rig-7"
    (Some (value_of_tree example_settled)) 1.

Lemma example_applied : applied example_comps example_observed example_settled.
Proof.
  split.
  - intros c Hc. assert (forallb (λ c, component_applied c example_settled) example_comps = true)
      as Hall by by vm_compute.
    rewrite forallb_forall in Hall. apply Hall. by apply list_elem_of_In.
  - intros path Hp.
    assert (foldr delete example_settled (l1c_component <$> example_comps) =
            foldr delete example_observed (l1c_component <$> example_comps)) as Heq by by_compute.
    apply (f_equal (lookup path)) in Heq. by rewrite !lookup_foldr_delete_not_elem_of in Heq.
Qed.

(** The same hub has nothing more for it. *)
Lemma campaign_settles_witness :
  example_l1_run.2 = Ok (Campaign example_l1_bytes) ∧
  channel_target_l1 2000 example_l1_request' example_l1_hub =
    (example_l1_target.1, Ok NoContent).
Proof.
  split; [by rewrite example_l1_run_ok|].
  apply (campaign_settles 1000 2000 example_l1_request example_l1_request' example_l1_hub
    example_l1_target.1 example_l1_run.1 example_l1_hub example_l1_target.1 example_l1_tree
    example_l1_bytes example_observed example_settled example_comps [xa1; xff]).
  - exact I.
  - exact eq_refl.
  - exact example_l1_target_ok.
  - exact example_l1_utf8.
  - exact example_l1_run_ok.
  - exact example_fanout_ok.
  - exact example_applied.
  - exact eq_refl.
  - vm_compute. reflexivity.
  - exact example_l1_target_ok.
Defined.
