(* ===== verification/Campaign.v ===== *)
(** The push and its verdicts (src/crates/orchestrator/src/lib.rs): the boot-bound
    bearer token, the campaign's steps, and the verbs that drive the shared flash
    engine, which is an interface. *)

From S2P Require Import Prelude Ext Wire Json Store Content Signer Client Rig Plan Fanout.

(** * The token source *)

(** [RigToken]; the [cached] cell of a minting token is the second component of the
    state [token] runs on. *)
Inductive RigToken :=
  | StaticToken (jwt : string)
  | MintToken (minter : MinterClient) (rig_url : string) (ttl_secs : option Z)
      (trust : Trust).

Definition fixed (jwt : string) : RigToken := StaticToken jwt.

Definition minting (minter_url operator_token rig_url : string) (ttl_secs : option Z)
    (trust : Trust) : RigToken :=
  MintToken (minter_new minter_url operator_token) rig_url ttl_secs trust.

(** [(boot_id, token)]: the token minted for that boot. *)
Abbreviation TokenCache := (option (string * string)).

Section token.
Context {W : Type} `{Http W}.

Definition engine_call {A} (text : string) : act W HttpError A → act W EngineError A :=
  act_map_err (λ _, EngineInternal text).

(** [fetch_rig_id]. *)
Definition fetch_rig_id (rig_url path what : string) (trust : Trust) :
    act W EngineError string :=
  let url := trim_end_matches slash rig_url +:+ path in
  if client_builds trust then
    resp ← engine_call ("read " +:+ what) (send_with trust (get url));
    if is_success (rs_status resp) then
      text ← engine_call ("read " +:+ what +:+ " body") (lift (resp_text resp));
      let id := trim_matches quote (trim text) in
      if bool_decide (id = "") then throw (EngineInternal ("empty " +:+ what)) else mret id
    else throw (EngineInternal ("read " +:+ what +:+ ": HTTP " +:+ pretty (rs_status resp)))
  else throw (EngineInternal "build http client").

Definition fetch_rig_ecu_id (rig_url : string) (trust : Trust) : act W EngineError string :=
  fetch_rig_id rig_url "/vehicle/v1/components/hsm/x-ecu-id" "ecu id" trust.

Definition fetch_rig_boot_id (rig_url : string) (trust : Trust) : act W EngineError string :=
  fetch_rig_id rig_url "/vehicle/v1/status/x-boot-id" "boot id" trust.

(** A call that leaves the cache alone. *)
Definition on_world {A} (m : act W EngineError A) : act (W * TokenCache) EngineError A :=
  λ '(w, cache), let '(w', r) := m w in ((w', cache), r).

Definition set_cache (boot_id token : string) : act (W * TokenCache) EngineError () :=
  updating (λ '(w, _), ((w, Some (boot_id, token)), ())).

(** Minting for a boot, and caching it. *)
Definition mint_for_boot (minter : MinterClient) (rig_url : string) (ttl_secs : option Z)
    (trust : Trust) (boot_id : string) : act (W * TokenCache) EngineError string :=
  ecu_id ← on_world (fetch_rig_ecu_id rig_url trust);
  minted ← on_world (act_map_err (λ _, EngineInternal "mint token")
    (mint minter ecu_id ["*"] (Some boot_id) ttl_secs));
  _ ← set_cache boot_id (minted_token minted);
  mret (minted_token minted).

(** [RigToken::token]. *)
Definition token (t : RigToken) : act (W * TokenCache) EngineError string :=
  match t with
  | StaticToken jwt => mret jwt
  | MintToken minter rig_url ttl_secs trust =>
      boot_id ← on_world (fetch_rig_boot_id rig_url trust);
      cached ← gets snd;
      match cached with
      | Some (cached_boot, tok) =>
          if bool_decide (cached_boot = boot_id) then mret tok
          else mint_for_boot minter rig_url ttl_secs trust boot_id
      | None => mint_for_boot minter rig_url ttl_secs trust boot_id
      end
  end.
End token.

(** * The engine *)

Class EngineTypes := {
  EcuState : Type;
  Staged : EcuState;
  Activated : EcuState;
  debug_state : EcuState → string;
  UpdateType : Type;
  Firmware : UpdateType;
}.

Record EcuStatus `{EngineTypes} := mkEcuStatus {
  ecu_component_id : string;
  ecu_gateway_id : option string;
  ecu_state : EcuState;
  ecu_update_type : UpdateType;
  ecu_active_version : option string;
  ecu_previous_version : option string;
  ecu_error : option string;
  ecu_update_id : option string;
}.

Arguments mkEcuStatus {_} _ _ _ _ _ _ _ _.

Record CampaignStep := mkCampaignStep {
  step_jobs : list FlashJob;
  step_force_ecu_reset : bool;
}.

(** The arguments of [FlashEngine::new] and [with_force_ecu_reset]. *)
Record EngineConfig := mkEngineConfig {
  engine_rig_url : string;
  engine_token : RigToken;
  engine_trust_anchor : list byte;
  engine_trust : Trust;
  engine_force_ecu_reset : bool;
}.

(** The verbs of the engine; those over statuses update them in place, so that there
    are as many afterwards. *)
Class FlashEngine (W : Type) `{EngineTypes} := {
  engine_guard : EngineConfig → list FlashJob → act W EngineError ();
  stage_all : EngineConfig → list FlashJob → act W EngineError (list EcuStatus);
  reset_all : EngineConfig → list EcuStatus → act W EngineError (list EcuStatus);
  commit_all : EngineConfig → list EcuStatus → act W EngineError (list EcuStatus);
  rollback_all : EngineConfig → list EcuStatus → act W EngineError (list EcuStatus);
  run_campaign : EngineConfig → list CampaignStep → bool → act W EngineError (list EcuStatus);
  commit_node_trials : EngineConfig → act W EngineError ();
  rollback_node_trials : EngineConfig → act W EngineError ();
  reset_all_length cfg l w w' l' : reset_all cfg l w = (w', Ok l') → length l' = length l;
  commit_all_length cfg l w w' l' : commit_all cfg l w = (w', Ok l') → length l' = length l;
  rollback_all_length cfg l w w' l' :
    rollback_all cfg l w = (w', Ok l') → length l' = length l;
}.

(** * Results *)

Record ComponentFlashResult := mkComponentFlashResult {
  cfr_entity : string;
  cfr_update_id : option string;
  cfr_state : string;
}.

Record FlashResult := mkFlashResult {
  fr_channel : string;
  fr_device : string;
  fr_components : list ComponentFlashResult;
}.

(** * The campaign's steps *)

(** A component whose reported update mode has no rollback. *)
Definition is_singleshot (observed : Tree) (component : string) : bool :=
  bool_decide ((e ← observed !! component; m ← entity_update_mode e;
                Some (supports_rollback m)) = Some false).

(** The ordered steps of [campaign_execute]. *)
Definition campaign_steps (observed : Tree) (jobs : list FlashJob) : list CampaignStep :=
  let singleshot := filter (λ j, is_singleshot observed (job_component_id j) = true) jobs in
  let banked := filter (λ j, is_singleshot observed (job_component_id j) = false) jobs in
  ((λ j, mkCampaignStep [j] false) <$> singleshot) ++
  match banked with [] => [] | _ => [mkCampaignStep banked true] end.

(** * The verbs *)

Section verbs.
Context {W : Type} `{Http W, SovdApi W, HexCodec, Suit, FlashEngine W}.

Definition engine {A} : act W EngineError A → act W Error A := act_map_err Engine_.

Definition component_result (s : EcuStatus) : ComponentFlashResult :=
  mkComponentFlashResult (ecu_component_id s) (ecu_update_id s) (debug_state (ecu_state s)).

(** [build_flash_plan]. *)
Definition build_flash_plan (rig_url hub_url ca_url : string) (target : ChannelTarget)
    (device : string) (only : option (list string)) (trust : Trust) :
    act W Error (list FlashJob * list byte) :=
  '(jobs, trust_anchor, _) ← l1_flash_plan rig_url hub_url ca_url target device only trust;
  mret (jobs, trust_anchor).

(** [flash_execute]. *)
Definition flash_execute (rig_url hub_url ca_url : string) (target : ChannelTarget)
    (device : string) (only : option (list string)) (reboot_to_activate : bool)
    (tok : RigToken) (trust : Trust) : act W Error FlashResult :=
  '(jobs, trust_anchor) ← build_flash_plan rig_url hub_url ca_url target device only trust;
  match jobs with
  | [] => mret (mkFlashResult (tgt_channel target) device [])
  | _ =>
      let cfg := mkEngineConfig rig_url tok trust_anchor trust reboot_to_activate in
      _ ← engine (engine_guard cfg jobs);
      ecus ← engine (stage_all cfg jobs);
      ecus ← engine (reset_all cfg ecus);
      mret (mkFlashResult (tgt_channel target) device (component_result <$> ecus))
  end.

(** [campaign_execute]. *)
Definition campaign_execute (rig_url hub_url ca_url : string) (target : ChannelTarget)
    (device : string) (no_commit : bool) (tok : RigToken) (trust : Trust)
    (only : option (list string)) : act W Error (list ComponentFlashResult) :=
  '(jobs, trust_anchor, observed) ←
    l1_flash_plan rig_url hub_url ca_url target device only trust;
  match jobs with
  | [] =>
      match only with
      | Some allow => throw (OnlyMatchedNothing (join ", " allow))
      | None => mret []
      end
  | _ =>
      let cfg := mkEngineConfig rig_url tok trust_anchor trust false in
      report ← engine (run_campaign cfg (campaign_steps observed jobs) no_commit);
      mret (component_result <$> report)
  end.

(** [flash_keystore]. *)
Definition flash_keystore (rig_url : string) (hsm_suit trust_anchor : list byte)
    (tok : RigToken) (trust : Trust) : act W Error FlashResult :=
  let jobs := [mkFlashJob "hsm" None hsm_suit []] in
  ecus ← engine (stage_all (mkEngineConfig rig_url tok trust_anchor trust false) jobs);
  mret (mkFlashResult "(keystore)" "" (component_result <$> ecus)).

(** [verdict_engine] and [ecu_status]. *)
Definition verdict_engine (rig_url : string) (tok : RigToken) (force_ecu_reset : bool)
    (trust : Trust) : EngineConfig :=
  mkEngineConfig rig_url tok [] trust force_ecu_reset.

Definition ecu_status (component update_id : string) (state : EcuState) : EcuStatus :=
  mkEcuStatus component None state Firmware None None None (Some update_id).

(** The verdict on one component; indexing the array of one status panics if it is
    empty, which it never is. *)
Definition verdict_one (verb : EngineConfig → list EcuStatus → act W EngineError (list EcuStatus))
    (rig_url component update_id : string) (state : EcuState) (tok : RigToken)
    (trust : Trust) : act W Error string :=
  ecus ← engine (verb (verdict_engine rig_url tok false trust)
    [ecu_status component update_id state]);
  lift (ok_or (Engine_ (EnginePanicked "index out of bounds"))
    (debug_state ∘ ecu_state <$> head ecus)).

Definition flash_reset (rig_url component update_id : string) :
    RigToken → Trust → act W Error string :=
  verdict_one reset_all rig_url component update_id Staged.

Definition flash_commit (rig_url component update_id : string) :
    RigToken → Trust → act W Error string :=
  verdict_one commit_all rig_url component update_id Activated.

Definition flash_rollback (rig_url component update_id : string) :
    RigToken → Trust → act W Error string :=
  verdict_one rollback_all rig_url component update_id Activated.

(** The verdict on a whole step. *)
Definition verdict_all (verb : EngineConfig → list EcuStatus → act W EngineError (list EcuStatus))
    (rig_url : string) (updates : list (string * string)) (tok : RigToken) (trust : Trust) :
    act W Error (list (string * string)) :=
  ecus ← engine (verb (verdict_engine rig_url tok true trust)
    ((λ '(c, id), ecu_status c id Activated) <$> updates));
  mret ((λ e, (ecu_component_id e, debug_state (ecu_state e))) <$> ecus).

Definition flash_commit_all (rig_url : string) (updates : list (string * string)) :
    RigToken → Trust → act W Error (list (string * string)) :=
  verdict_all commit_all rig_url updates.

Definition flash_rollback_all (rig_url : string) (updates : list (string * string)) :
    RigToken → Trust → act W Error (list (string * string)) :=
  verdict_all rollback_all rig_url updates.

Definition flash_commit_trials (rig_url : string) (tok : RigToken) (trust : Trust) :
    act W Error () :=
  engine (commit_node_trials (verdict_engine rig_url tok true trust)).

Definition flash_rollback_trials (rig_url : string) (tok : RigToken) (trust : Trust) :
    act W Error () :=
  engine (rollback_node_trials (verdict_engine rig_url tok true trust)).
End verbs.

(** * Properties: the steps of a campaign *)

(** The jobs of components without rollback, and the others. *)
Definition singleshot_jobs (observed : Tree) : list FlashJob → list FlashJob :=
  filter (λ j, is_singleshot observed (job_component_id j) = true).
Definition banked_jobs (observed : Tree) : list FlashJob → list FlashJob :=
  filter (λ j, is_singleshot observed (job_component_id j) = false).

Lemma filter_split_perm {A} (f : A → bool) (l : list A) :
  filter (λ x, f x = true) l ++ filter (λ x, f x = false) l ≡ₚ l.
Proof.
  induction l as [|x l IH]; [done|]. rewrite !list.filter_cons.
  destruct (f x) eqn:Hx; repeat case_decide; try congruence; simpl.
  - by rewrite IH.
  - by rewrite <- Permutation_middle, IH.
Qed.

Lemma step_jobs_singletons (l : list FlashJob) :
  mjoin (step_jobs <$> ((λ j, mkCampaignStep [j] false) <$> l)) = l.
Proof. induction l as [|j l IH]; [done|]. rewrite !fmap_cons. simpl. by f_equal. Qed.

(** C27: the order of a campaign.  Every job runs in exactly one step; a component
    whose update mode has no rollback runs alone, in a step without a forced reset,
    and before every banked one; the banked components, an unknown mode among them,
    run together in the last step, which forces the reset; no step is empty. *)
Theorem campaign_steps_spec (observed : Tree) (jobs : list FlashJob) :
  let steps := campaign_steps observed jobs in
  mjoin (step_jobs <$> steps) = singleshot_jobs observed jobs ++ banked_jobs observed jobs ∧
  mjoin (step_jobs <$> steps) ≡ₚ jobs ∧
  ∀ i step, steps !! i = Some step →
    if step_force_ecu_reset step
    then S i = length steps ∧ step_jobs step = banked_jobs observed jobs ∧ step_jobs step ≠ []
    else ∃ j, singleshot_jobs observed jobs !! i = Some j ∧ step_jobs step = [j].
Proof.
  set (single := singleshot_jobs observed jobs). set (banked := banked_jobs observed jobs).
  assert (campaign_steps observed jobs = ((λ j, mkCampaignStep [j] false) <$> single) ++
    match banked with [] => [] | _ => [mkCampaignStep banked true] end) as -> by done.
  assert (mjoin (step_jobs <$> (((λ j, mkCampaignStep [j] false) <$> single) ++
    match banked with [] => [] | _ => [mkCampaignStep banked true] end)) = single ++ banked) as Hj.
  { rewrite fmap_app, join_app, step_jobs_singletons. f_equal.
    destruct banked; simpl; [done|]. by rewrite app_nil_r. }
  simpl. split; [done|]. rewrite Hj. split; [apply filter_split_perm|].
  intros i step Hi. apply lookup_app_Some in Hi as [Hi|[Hge Hi]].
  - rewrite list_lookup_fmap in Hi. destruct (single !! i) as [j|]; [|done].
    injection Hi as <-. simpl. by exists j.
  - rewrite length_fmap in Hge, Hi. destruct banked as [|b banked'] eqn:Hb; [done|].
    apply list_lookup_singleton_Some in Hi as [Hi <-]. simpl.
    rewrite length_app, length_fmap. simpl. split_and!; [lia|done|done].
Qed.

(** * Properties: the token of a push *)

Section token_spec.
Context {W : Type} `{Http W}.

(** The minter issued this token, for this boot, to the ECU the rig names. *)
Definition minted_for (minter : MinterClient) (rig_url : string) (ttl_secs : option Z)
    (trust : Trust) (boot_id tok : string) : Prop :=
  ∃ w0 w w' ecu_id minted, fetch_rig_ecu_id rig_url trust w0 = (w, Ok ecu_id) ∧
    mint minter ecu_id ["*"] (Some boot_id) ttl_secs w = (w', Ok minted) ∧
    tok = minted_token minted.

(** What happens between two uses of a token: the rig reboots, other requests are
    answered; the cell is written by [token] alone. *)
Inductive token_step (t : RigToken) : W * TokenCache → W * TokenCache → Prop :=
  | step_world w w' cache : token_step t (w, cache) (w', cache)
  | step_token st : token_step t st (token t st).1.

(** The cell holds a token of the boot it is filed under. *)
Definition cache_ok (t : RigToken) (cache : TokenCache) : Prop :=
  match t, cache with
  | MintToken minter rig_url ttl_secs trust, Some (boot_id, tok) =>
      minted_for minter rig_url ttl_secs trust boot_id tok
  | _, _ => True
  end.

(** What one use of a token does to the cell and answers. *)
Definition token_outcome (t : RigToken) (w : W) (cache : TokenCache)
    (cache' : TokenCache) (w' : W) (r : result EngineError string) : Prop :=
  match t, r with
  | StaticToken jwt, r => r = Ok jwt ∧ cache' = cache ∧ w' = w
  | MintToken _ _ _ _, Err _ => cache' = cache
  | MintToken minter rig_url ttl_secs trust, Ok tok =>
      ∃ w1 boot_id, fetch_rig_boot_id rig_url trust w = (w1, Ok boot_id) ∧
        cache' = Some (boot_id, tok) ∧
        (cache = Some (boot_id, tok) ∧ w' = w1 ∨
         (∀ tok', cache ≠ Some (boot_id, tok')) ∧
         minted_for minter rig_url ttl_secs trust boot_id tok)
  end.

Lemma mint_for_boot_spec minter rig_url ttl_secs trust boot_id w cache w' cache' r :
  mint_for_boot minter rig_url ttl_secs trust boot_id (w, cache) = ((w', cache'), r) →
  match r with
  | Ok tok => cache' = Some (boot_id, tok) ∧
      minted_for minter rig_url ttl_secs trust boot_id tok
  | Err _ => cache' = cache
  end.
Proof.
  unfold mint_for_boot, on_world, act_map_err, set_cache, updating. unfold_act.
  destruct (fetch_rig_ecu_id rig_url trust w) as [w1 [ecu_id|e]] eqn:Hecu;
    [|by intros [= <- <- <-]].
  destruct (mint minter ecu_id ["*"] (Some boot_id) ttl_secs w1) as [w2 [minted|e]] eqn:Hmint;
    simpl; intros [= <- <- <-]; [|done].
  split; [done|]. by exists w, w1, w2, ecu_id, minted.
Qed.

Lemma token_outcome_holds t w cache w' cache' r :
  token t (w, cache) = ((w', cache'), r) → token_outcome t w cache cache' w' r.
Proof.
  destruct t as [jwt|minter rig_url ttl_secs trust]; simpl; [by intros [= <- <- <-]|].
  unfold on_world at 1. unfold mbind at 1, act_bind at 1.
  destruct (fetch_rig_boot_id rig_url trust w) as [w1 [boot_id|e]] eqn:Hboot;
    [|by intros [= <- <- <-]].
  unfold gets. unfold mbind at 1, act_bind at 1. simpl.
  destruct cache as [[cached_boot tok]|].
  - case_bool_decide as Hb.
    + subst cached_boot. intros [= <- <- <-]. exists w1, boot_id. by split_and!; [..|left].
    + intros Hm%mint_for_boot_spec. destruct r as [tok'|]; [|done].
      destruct Hm as [-> Hm]. exists w1, boot_id. split_and!; [done..|right].
      split; [congruence|done].
  - intros Hm%mint_for_boot_spec. destruct r as [tok'|]; [|done].
    destruct Hm as [-> Hm]. exists w1, boot_id. by split_and!; [..|right].
Qed.

Lemma token_step_ok t st st' : token_step t st st' → cache_ok t st.2 → cache_ok t st'.2.
Proof.
  intros [w w' cache|[w cache]]; [done|]. intros Hok.
  destruct (token t (w, cache)) as [[w' cache'] r] eqn:Ht. apply token_outcome_holds in Ht.
  destruct t as [|minter rig_url ttl_secs trust]; [done|]. simpl in *.
  destruct r as [tok|e]; [|by subst].
  destruct Ht as (w1 & boot_id & _ & -> & [[-> _]|[_ Hm]]); done.
Qed.

(** C23: the token of a push is bound to the live boot.  However often the rig
    reboots between two uses, a token handed out was minted for the boot the rig
    reports at that moment; a token cached for that boot is reused without asking
    the minter, a boot change mints a new one, and an error leaves the cell as it
    was. *)
Theorem token_live_boot t w0 w cache w' cache' r
    (Hreach : rtc (token_step t) (w0, None) (w, cache))
    (Hrun : token t (w, cache) = ((w', cache'), r)) :
  token_outcome t w cache cache' w' r ∧
  match t, r with
  | MintToken minter rig_url ttl_secs trust, Ok tok =>
      ∃ w1 boot_id, fetch_rig_boot_id rig_url trust w = (w1, Ok boot_id) ∧
        minted_for minter rig_url ttl_secs trust boot_id tok
  | _, _ => True
  end.
Proof.
  assert (cache_ok t cache) as Hok.
  { refine (rtc_ind_r (λ st, cache_ok t st.2) (w0, None) _ _ _ Hreach); [by destruct t|].
    intros st st' _ Hstep. by apply token_step_ok. }
  apply token_outcome_holds in Hrun. split; [done|].
  destruct t as [|minter rig_url ttl_secs trust]; [done|]. destruct r as [tok|]; [|done].
  destruct Hrun as (w1 & boot_id & Hb & _ & [[-> _]|[_ Hm]]); by exists w1, boot_id.
Qed.
End token_spec.

(** A rig that reboots between two uses. *)
Definition example_docs : list Value := [
  VObj [("token", VStr "tok-a"); ("expires_at", VStr "2030-01-01T00:00:00Z")]].

#[local] Instance example_http : Http Scripted := scripted_http example_docs.

Definition example_rig (boot_id : string) : Scripted := [
  ("http://rig/vehicle/v1/components/hsm/x-ecu-id", mkResponse 200 (Some (as_bytes "ecu-7")));
  ("http://rig/vehicle/v1/status/x-boot-id", mkResponse 200 (Some (as_bytes boot_id)));
  ("http://minter/mint", mkResponse 200 (Some [x00]))].

Definition example_token : RigToken :=
  minting "http://minter/" "operator" "http://rig/" None default_trust.

Lemma token_live_boot_witness :
  (∃ w, token example_token (example_rig "boot-2", Some ("boot-1", "tok-a")) =
     ((w, Some ("boot-2", "tok-a")), Ok "tok-a")) ∧
  minted_for (minter_new "http://minter/" "operator") "http://rig/" None default_trust
    "boot-2" "tok-a".
Proof.
  split; [exists (example_rig "boot-2"); vm_compute; reflexivity|].
  assert (rtc (token_step example_token) (example_rig "boot-1", None)
    (example_rig "boot-2", Some ("boot-1", "tok-a"))) as Hreach.
  { eapply rtc_l; [apply step_token|].
    replace (token example_token (example_rig "boot-1", None)).1
      with (example_rig "boot-1", Some ("boot-1", "tok-a")) by (vm_compute; reflexivity).
    apply rtc_once, step_world. }
  destruct (token_live_boot _ _ _ _ (example_rig "boot-2") (Some ("boot-2", "tok-a"))
    (Ok "tok-a") Hreach) as [_ (w1 & boot_id & Hb & Hm)].
  - vm_compute. reflexivity.
  - assert (boot_id = "boot-2") as ->; [|exact Hm].
    vm_compute in Hb. congruence.
Defined.
