(* ===== verification/Cose.v ===== *)
(** P-256 points and COSE keys (src/crates/identity-tower/src/keystore.rs,
    [cose_to_sec1] and [sec1_to_cose]): the form in which the roster stores a
    device key, and the form an HSM slot holds. *)

From S2P Require Import Prelude Ext Wire Store Content Signer.

(** The coset crate and [CoseKey::ec2_public_xy]: an EC2 P-256 key and its
    coordinates. *)
Class Coset `{Suit} := {
  ec2_public_xy : CoseKey → option (array 32 * array 32);
  ec2_pub_key_bytes : list byte → list byte → list byte;
  spki_of_sec1 : array 65 → option (list byte);
  ec2_roundtrip (x y : array 32) :
    ∃ k, cose_parse (ec2_pub_key_bytes (slice x) (slice y)) = Some k ∧
         ec2_public_xy k = Some (x, y);
}.

Section cose.
Context `{Coset}.

(** [0x04 || x || y]. *)
Definition sec1_of_xy (x y : array 32) : option (array 65) :=
  try_into 65 (x04 :: slice x ++ slice y).

(** [cose_to_sec1]. *)
Definition cose_to_sec1 (cose_key_cbor : list byte) : option (array 65) :=
  key ← cose_parse cose_key_cbor;
  '(x, y) ← ec2_public_xy key;
  sec1_of_xy x y.

(** [sec1_to_cose]: the leading octet is dropped, not checked. *)
Definition sec1_to_cose (sec1 : array 65) : list byte :=
  ec2_pub_key_bytes (take 32 (drop 1 (slice sec1))) (take 32 (drop 33 (slice sec1))).

Lemma sec1_of_xy_Some x y : ∃ s, sec1_of_xy x y = Some s ∧ slice s = x04 :: slice x ++ slice y.
Proof.
  unfold sec1_of_xy. destruct (try_into _ _) as [s|] eqn:Hs.
  - apply try_into_Some in Hs. eauto.
  - apply try_into_None in Hs. destruct Hs. simpl. by rewrite length_app, !length_slice.
Qed.

(** The stored form of an uncompressed point gives the point back. *)
Lemma cose_sec1_roundtrip (s : array 65) : head (slice s) = Some x04 →
  cose_to_sec1 (sec1_to_cose s) = Some s.
Proof.
  intros Hh. unfold cose_to_sec1, sec1_to_cose.
  pose proof (length_slice s) as Hl. destruct (slice s) as [|b rest] eqn:Hs; [done|].
  injection Hh as ->. simpl in Hl.
  destruct (try_into 32 (take 32 (drop 1 (x04 :: rest)))) as [x|] eqn:Hx.
  2:{ apply try_into_None in Hx. destruct Hx. rewrite length_take, length_drop. cbn [length]. lia. }
  destruct (try_into 32 (take 32 (drop 33 (x04 :: rest)))) as [y|] eqn:Hy.
  2:{ apply try_into_None in Hy. destruct Hy. rewrite length_take, length_drop. cbn [length]. lia. }
  apply try_into_Some in Hx, Hy. rewrite <- Hx, <- Hy.
  destruct (ec2_roundtrip x y) as (k & -> & Hk). simpl. rewrite Hk. simpl.
  destruct (sec1_of_xy_Some x y) as (s' & Hs' & Hsl). rewrite Hs'. f_equal.
  apply slice_inj. rewrite Hsl, Hs, Hx, Hy. simpl. f_equal.
  rewrite (take_ge (drop 32 rest)); [apply take_drop|]. rewrite length_drop. lia.
Qed.
End cose.

(** * A concrete instance *)

Definition toy_ec2_bytes (x y : list byte) : list byte := xa1 :: x ++ y.

Definition toy_ec2_xy (k : list byte) : option (array 32 * array 32) :=
  x ← try_into 32 (take 32 k); y ← try_into 32 (drop 32 k); Some (x, y).

Lemma toy_ec2_roundtrip (x y : array 32) :
  ∃ k, cose_parse (Suit := toy_suit) (toy_ec2_bytes (slice x) (slice y)) = Some k ∧
    toy_ec2_xy k = Some (x, y).
Proof.
  exists (slice x ++ slice y). split; [done|]. unfold toy_ec2_xy.
  pose proof (length_slice x) as Hx.
  rewrite take_app_length', drop_app_length' by done. by rewrite !try_into_slice.
Qed.

#[export] Instance toy_coset : Coset := {|
  ec2_public_xy := toy_ec2_xy;
  ec2_pub_key_bytes := toy_ec2_bytes;
  spki_of_sec1 s := Some (x30 :: slice s);
  ec2_roundtrip := toy_ec2_roundtrip;
|}.
