(* ===== verification/Ca.v ===== *)
(** The certificate authorities of Tower 1 (src/crates/identity-tower/src/ca.rs and
    delegated_rights.rs): device leaves issued from a verified CSR, delegate leaves
    carrying the delegated-rights extension, over an interface of the X.509 crates. *)

From S2P Require Import Prelude Ext Wire.

(** * The certificate content *)

Inductive KeyUsageId := ClientAuth | ServerAuth.

#[export] Instance KeyUsageId_eq_dec : EqDecision KeyUsageId.
Proof. solve_decision. Defined.

(** The extensions this code adds; the delegated-rights one is the bare DER
    [UTF8String] of its scopes, never critical. *)
Inductive Extension :=
  | ExtendedKeyUsage (eku : list KeyUsageId)
  | SubjectAltName (dns_names : list string)
  | DelegatedRights (critical : bool) (der_utf8 : string).

Inductive Profile := RootProfile | LeafProfile (issuer : string).

(** What [CertificateBuilder] is given; names by their text. *)
Record CertRequest := mkCertRequest {
  cert_profile : Profile;
  cert_serial : list byte;
  cert_lifetime : Z;
  cert_subject : string;
  cert_spki : list byte;
  cert_extensions : list Extension;
}.

(** A broken-down UTC instant. *)
Record DateTime := mkDateTime {
  dt_year : Z; dt_month : Z; dt_day : Z; dt_hour : Z; dt_minutes : Z; dt_seconds : Z;
}.

(** x509-cert, p256 and der.  A CSR carries its public key and whether its
    self-signature verifies under it; building a certificate at an instant signs
    the request, and the DER it yields decodes to what was signed. *)
Class X509 := {
  SigningKey : Type;
  verifying_spki : SigningKey → list byte;
  pkcs8_pem : SigningKey → string;
  Csr : Type;
  csr_from_der : list byte → option Csr;
  csr_from_pem : list byte → option Csr;
  csr_spki : Csr → list byte;
  csr_pop : Csr → bool;
  (** the SEC1 octets of a public key, when octet-aligned *)
  spki_octets : list byte → option (list byte);
  name_from_str : string → option string;
  is_ia5 : string → bool;
  Certificate : Type;
  build_certificate : SigningKey → Z → CertRequest → option Certificate;
  cert_der : Certificate → option (list byte);
  cert_pem : Certificate → option string;
  cert_subject_name : Certificate → string;
  cert_not_after : Certificate → DateTime;
  read_certificate : list byte → option CertRequest;
  read_built key now r c der : build_certificate key now r = Some c →
    cert_der c = Some der → read_certificate der = Some r;
}.

Definition KEY_AUTHORITY_ROOT_DN : string := "CN=sumo-ca root,O=sumo".
Definition IDENTITY_ROOT_DN : string := "CN=sumo identity root,O=sumo".
Definition DELEGATION_ROOT_DN : string := "CN=sumo delegation root,O=sumo".

Definition ROOT_VALIDITY : Z := 10 * 365 * 24 * 3600.
Definition LEAF_VALIDITY : Z := 825 * 24 * 3600.

Record IssuedCert := mkIssuedCert {
  issued_der : list byte;
  issued_pem : string;
  issued_serial_hex : string;
  issued_not_after : string;
  issued_fingerprint : string;
}.

Inductive LeafUsage := Client | Mtls.

#[export] Instance LeafUsage_eq_dec : EqDecision LeafUsage.
Proof. solve_decision. Defined.

(** [random_serial]: the masks of the first of the 20 random octets. *)
Definition serial_head (b : byte) : byte :=
  default x00 (Byte.of_N (N.lor (N.land (Byte.to_N b) 127) 1)).

Definition random_serial (rng : array 20) : list byte :=
  match slice rng with
  | [] => []
  | b :: rest => serial_head b :: rest
  end.

(** [{:0n}] of a number. *)
Definition pad_left (n : nat) (s : string) : string :=
  concat_str (replicate (n - String.length s) "0") +:+ s.

(** [fmt_rfc3339]. *)
Definition fmt_rfc3339 (dt : DateTime) : string :=
  pad_left 4 (pretty (dt_year dt)) +:+ "-" +:+ pad_left 2 (pretty (dt_month dt)) +:+ "-"
    +:+ pad_left 2 (pretty (dt_day dt)) +:+ "T" +:+ pad_left 2 (pretty (dt_hour dt)) +:+ ":"
    +:+ pad_left 2 (pretty (dt_minutes dt)) +:+ ":" +:+ pad_left 2 (pretty (dt_seconds dt))
    +:+ "Z".

(** [DelegatedRightsExt::to_extension]. *)
Definition delegated_rights_ext (scopes : string) : Extension := DelegatedRights false scopes.

Section ca.
Context `{X509, HexCodec, Sha256}.

(** [Ca]. *)
Record Ca := mkCa {
  ca_signing_key : SigningKey;
  ca_cert : Certificate;
  ca_issuer : string;
}.

(** [Ca::generate], given the fresh key, the random octets and the clock. *)
Definition ca_generate (key : SigningKey) (rng : array 20) (now : Z) (root_dn : string) :
    option Ca :=
  issuer ← name_from_str root_dn;
  cert ← build_certificate key now
    (mkCertRequest RootProfile (random_serial rng) ROOT_VALIDITY issuer (verifying_spki key) []);
  Some (mkCa key cert issuer).

Definition root_cert_pem (ca : Ca) : option string := cert_pem (ca_cert ca).
Definition root_cert_der (ca : Ca) : option (list byte) := cert_der (ca_cert ca).

(** [Ca::public_sec1]. *)
Definition public_sec1 (ca : Ca) : option (array 65) :=
  bytes ← spki_octets (verifying_spki (ca_signing_key ca));
  try_into 65 bytes.

(** [parse_and_verify_csr]: DER, PEM as a fallback, then the proof of possession. *)
Definition parse_and_verify_csr (bytes : list byte) : option Csr :=
  csr ← match csr_from_der bytes with Some csr => Some csr | None => csr_from_pem bytes end;
  if csr_pop csr then Some csr else None.

(** [Ca::verify_csr_pubkey]. *)
Definition verify_csr_pubkey (csr_bytes : list byte) : option string :=
  csr ← parse_and_verify_csr csr_bytes;
  bytes ← spki_octets (csr_spki csr);
  Some (hex_encode bytes).

(** The extensions of a device leaf; the host names must be IA5 texts. *)
Definition leaf_extensions (device_id : string) (usage : LeafUsage) : option (list Extension) :=
  match usage with
  | Client => Some [ExtendedKeyUsage [ClientAuth]]
  | Mtls =>
      let names := [device_id; device_id +:+ ".local"] in
      if forallb is_ia5 names
      then Some [ExtendedKeyUsage [ClientAuth; ServerAuth]; SubjectAltName names]
      else None
  end.

(** [Ca::issue_leaf]. *)
Definition issue_leaf (ca : Ca) (rng : array 20) (now : Z) (device_id : string)
    (csr_bytes : list byte) (usage : LeafUsage) : option IssuedCert :=
  csr ← parse_and_verify_csr csr_bytes;
  subject ← name_from_str ("CN=" +:+ device_id);
  let serial := random_serial rng in
  extensions ← leaf_extensions device_id usage;
  cert ← build_certificate (ca_signing_key ca) now
    (mkCertRequest (LeafProfile (ca_issuer ca)) serial LEAF_VALIDITY subject (csr_spki csr)
       extensions);
  der ← cert_der cert;
  pem ← cert_pem cert;
  Some (mkIssuedCert der pem (hex_encode serial) (fmt_rfc3339 (cert_not_after cert))
    (to_prefixed (hash_of der))).

(** [Ca::mint_delegate_leaf], given the fresh delegate key. *)
Definition mint_delegate_leaf (ca : Ca) (key : SigningKey) (rng : array 20) (now : Z)
    (cn scopes : string) : option (string * string) :=
  subject ← name_from_str ("CN=" +:+ cn);
  cert ← build_certificate (ca_signing_key ca) now
    (mkCertRequest (LeafProfile (ca_issuer ca)) (random_serial rng) LEAF_VALIDITY subject
       (verifying_spki key)
       [ExtendedKeyUsage [ClientAuth]; delegated_rights_ext scopes]);
  pem ← cert_pem cert;
  Some (pem, pkcs8_pem key).
End ca.

(** * Properties *)

(** The number a big-endian octet string denotes. *)
Definition be_value (l : list byte) : Z :=
  foldl (λ a b, 256 * a + Z.of_N (Byte.to_N b))%Z 0%Z l.

Lemma be_value_app l b : be_value (l ++ [b]) = (256 * be_value l + Z.of_N (Byte.to_N b))%Z.
Proof. unfold be_value. by rewrite foldl_app. Qed.

Lemma be_value_bounds b rest :
  (Z.of_N (Byte.to_N b) * 256 ^ Z.of_nat (length rest) ≤ be_value (b :: rest)
   < (Z.of_N (Byte.to_N b) + 1) * 256 ^ Z.of_nat (length rest))%Z.
Proof.
  induction rest as [|c rest IH] using rev_ind; [unfold be_value; simpl; lia|].
  rewrite app_comm_cons, be_value_app, length_app, Nat2Z.inj_add. simpl (Z.of_nat (length [c])).
  rewrite Z.pow_add_r by lia. pose proof (byte_to_N_lt c). lia.
Qed.

(** The masks leave an odd octet of seven bits. *)
Lemma serial_head_range b :
  (1 ≤ Byte.to_N (serial_head b) ≤ 127)%N ∧ N.odd (Byte.to_N (serial_head b)) = true.
Proof. destruct b; vm_compute; (split; [split|]; congruence). Qed.

Lemma random_serial_range (rng : array 20) :
  length (random_serial rng) = 20 ∧ (2 ^ 152 ≤ be_value (random_serial rng) < 2 ^ 159)%Z.
Proof.
  unfold random_serial. pose proof (length_slice rng) as Hl.
  destruct (slice rng) as [|b rest]; [done|]. simpl in Hl. split; [done|].
  pose proof (be_value_bounds (serial_head b) rest) as Hb.
  pose proof (serial_head_range b) as [[Hlo Hhi] _].
  replace (length rest) with 19 in Hb by lia.
  change (256 ^ Z.of_nat 19)%Z with (2 ^ 152)%Z in Hb.
  change (2 ^ 159)%Z with (128 * 2 ^ 152)%Z. lia.
Qed.

(** What a certificate grants: the scopes of its delegated-rights extensions. *)
Definition delegated_scopes (r : CertRequest) : list string :=
  omap (λ e, match e with DelegatedRights _ s => Some s | _ => None end) (cert_extensions r).

Section issue.
Context `{X509, HexCodec, Sha256}.

Lemma leaf_extensions_no_rights id usage exts : leaf_extensions id usage = Some exts →
  omap (λ e, match e with DelegatedRights _ s => Some s | _ => None end) exts = [].
Proof.
  unfold leaf_extensions. destruct usage; [by intros [= <-]|]. by case_match; intros [= <-].
Qed.

(** C31: what a device leaf states.  An issued leaf reads back as a certificate of the
    authority, valid for 825 days, for the subject CN=id and for exactly the public
    key whose CSR proved possession; an mTLS leaf names the device and its .local
    host, a client leaf no host; it never carries delegated rights; its recorded
    serial is that of the certificate, a positive integer of 20 octets below 2^159;
    its fingerprint is the address of its DER. *)
Theorem issue_leaf_spec (ca : Ca) (rng : array 20) (now : Z) (device_id : string)
    (csr_bytes : list byte) (usage : LeafUsage) (issued : IssuedCert)
    (Hissue : issue_leaf ca rng now device_id csr_bytes usage = Some issued) :
  ∃ csr r, parse_and_verify_csr csr_bytes = Some csr ∧ csr_pop csr = true ∧
    read_certificate (issued_der issued) = Some r ∧
    cert_profile r = LeafProfile (ca_issuer ca) ∧ cert_lifetime r = (825 * 86400)%Z ∧
    name_from_str ("CN=" +:+ device_id) = Some (cert_subject r) ∧
    cert_spki r = csr_spki csr ∧
    cert_extensions r =
      match usage with
      | Client => [ExtendedKeyUsage [ClientAuth]]
      | Mtls => [ExtendedKeyUsage [ClientAuth; ServerAuth];
                 SubjectAltName [device_id; device_id +:+ ".local"]]
      end ∧
    delegated_scopes r = [] ∧
    hex_decode (issued_serial_hex issued) = Some (cert_serial r) ∧
    length (cert_serial r) = 20 ∧ (0 < be_value (cert_serial r) < 2 ^ 159)%Z ∧
    issued_fingerprint issued = to_prefixed (hash_of (issued_der issued)).
Proof.
  unfold issue_leaf in Hissue.
  apply bind_Some in Hissue as (csr & Hcsr & Hissue).
  apply bind_Some in Hissue as (subject & Hsub & Hissue).
  apply bind_Some in Hissue as (exts & Hexts & Hissue).
  apply bind_Some in Hissue as (cert & Hcert & Hissue).
  apply bind_Some in Hissue as (der & Hder & Hissue).
  apply bind_Some in Hissue as (pem & _ & [= <-]).
  pose proof (read_built _ _ _ _ _ Hcert Hder) as Hread.
  pose proof (random_serial_range rng) as [Hlen Hser].
  eexists csr, _. split; [done|]. split.
  { unfold parse_and_verify_csr in Hcsr. apply bind_Some in Hcsr as (c & _ & Hc).
    destruct (csr_pop c) eqn:Hpop; [|done]. by injection Hc as ->. }
  split; [exact Hread|]. cbn [cert_profile cert_lifetime cert_subject cert_spki cert_extensions
    cert_serial issued_serial_hex issued_fingerprint issued_der].
  split_and!; try done.
  - destruct usage; simpl in Hexts; [by injection Hexts as <-|].
    by case_match; simplify_eq.
  - by eapply leaf_extensions_no_rights.
  - apply hex_decode_encode.
  - lia.
  - lia.
Qed.

(** A delegate leaf carries exactly the scopes asked for, and the delegate's key. *)
Lemma mint_delegate_leaf_spec (ca : Ca) key rng now cn scopes pem key_pem :
  mint_delegate_leaf ca key rng now cn scopes = Some (pem, key_pem) →
  ∃ r cert, build_certificate (ca_signing_key ca) now r = Some cert ∧
    cert_pem cert = Some pem ∧ key_pem = pkcs8_pem key ∧
    cert_profile r = LeafProfile (ca_issuer ca) ∧ cert_spki r = verifying_spki key ∧
    delegated_scopes r = [scopes].
Proof.
  unfold mint_delegate_leaf. intros Hm.
  apply bind_Some in Hm as (subject & _ & Hm). apply bind_Some in Hm as (cert & Hc & Hm).
  apply bind_Some in Hm as (p & Hp & [= <- <-]). by eexists _, cert.
Qed.
End issue.

(** * A concrete authority *)

#[export] Instance Extension_eq_dec : EqDecision Extension.
Proof. solve_decision. Defined.
#[export] Instance Profile_eq_dec : EqDecision Profile.
Proof. solve_decision. Defined.
#[export] Instance CertRequest_eq_dec : EqDecision CertRequest.
Proof. solve_decision. Defined.

Definition single_der : list byte := [x30; x01].
Definition single_build (only r : CertRequest) : option CertRequest :=
  if decide (r = only) then Some r else None.
Definition single_read (only : CertRequest) (b : list byte) : option CertRequest :=
  if decide (b = single_der) then Some only else None.

Lemma single_read_built only r c der :
  single_build only r = Some c → Some single_der = Some der → single_read only der = Some r.
Proof.
  unfold single_build, single_read. intros Hb [= <-]. rewrite decide_True by done.
  case_decide; congruence.
Qed.

(** An X.509 library that builds one certificate only; a CSR is [x30] and a key. *)
Definition single_x509 (only : CertRequest) : X509 := {|
  SigningKey := list byte;
  verifying_spki := id;
  pkcs8_pem := λ _, "PRIVATE KEY";
  Csr := list byte;
  csr_from_der := λ b, match b with x30 :: k => Some k | _ => None end;
  csr_from_pem := λ _, None;
  csr_spki := id;
  csr_pop := λ k, bool_decide (k ≠ []);
  spki_octets := λ k, Some k;
  name_from_str := Some;
  is_ia5 := all_chars (λ c, Nat.ltb (Ascii.nat_of_ascii c) 128);
  Certificate := CertRequest;
  build_certificate := λ _ _ r, single_build only r;
  cert_der := λ _, Some single_der;
  cert_pem := λ _, Some "CERTIFICATE";
  cert_subject_name := cert_subject;
  cert_not_after := λ _, mkDateTime 2030 1 2 3 4 5;
  read_certificate := single_read only;
  read_built := λ _ _, single_read_built only;
|}.

Definition example_leaf : CertRequest :=
  mkCertRequest (LeafProfile "CN=sumo identity root,O=sumo")
    (random_serial (fill 20 xff)) LEAF_VALIDITY "CN=rig-7" [x07; x08]
    [ExtendedKeyUsage [ClientAuth; ServerAuth]; SubjectAltName ["rig-7"; "rig-7.local"]].

#[local] Instance example_x509 : X509 := single_x509 example_leaf.

Definition example_ca : Ca := mkCa ([x05] : SigningKey) example_leaf "CN=sumo identity root,O=sumo".

Definition example_issued : IssuedCert :=
  mkIssuedCert [x30; x01] "CERTIFICATE" (hex_encode (cert_serial example_leaf))
    "2030-01-02T03:04:05Z" (to_prefixed (hash_of [x30; x01])).

Lemma issue_leaf_spec_witness :
  issue_leaf example_ca (fill 20 xff) 0 "rig-7" [x30; x07; x08] Mtls = Some example_issued ∧
  ∃ r, read_certificate (issued_der example_issued) = Some r ∧ cert_spki r = [x07; x08] ∧
    delegated_scopes r = [].
Proof.
  assert (issue_leaf example_ca (fill 20 xff) 0 "rig-7" [x30; x07; x08] Mtls =
    Some example_issued) as Hi by (vm_compute; reflexivity).
  split; [exact Hi|].
  destruct (issue_leaf_spec _ _ _ _ _ _ _ Hi)
    as (csr & r & Hcsr & _ & Hread & _ & _ & _ & Hspki & _ & Hno & _).
  exists r. split; [exact Hread|]. split; [|exact Hno].
  rewrite Hspki. vm_compute in Hcsr. injection Hcsr as <-. reflexivity.
Defined.
