(* ===== verification/Startup.v ===== *)
(** Starting and restarting the towers (src/crates/software-tower/src/main.rs,
    src/crates/identity-tower/src/main.rs, [Ca::load] and [Ca::save] in ca.rs):
    the key files on disk, call by call under the faults of [Store], the retries of
    the database connection, and what a restart keeps. *)

From S2P Require Import Prelude Ext Wire Store Content Signer Ca Interleave.

(** * The disk *)

(** The files by path, those whose mode is 0600, and the faults ahead; a fresh file
    gets the default mode. *)
Record Disk := mkDisk {
  disk_files : gmap string (list byte);
  disk_private : gset string;
  disk_faults : faults;
}.

(** One system call. *)
Definition disk_call (name : string) : act Disk string () := λ d,
  let '(f, fs') := next_fault (disk_faults d) in
  let d' := mkDisk (disk_files d) (disk_private d) fs' in
  match f with
  | None => (d', Ok ())
  | Some _ => (d', Err name)
  end.

(** [Path::exists]: an error counts as absent. *)
Definition path_exists (path : string) : act Disk string bool := λ d,
  let '(d', r) := disk_call "stat" d in
  match r with
  | Ok _ => (d', Ok (bool_decide (is_Some (disk_files d !! path))))
  | Err _ => (d', Ok false)
  end.

(** [std::fs::read]. *)
Definition read_file (path : string) : act Disk string (list byte) :=
  _ ← disk_call "read";
  file ← gets (λ d, disk_files d !! path);
  lift (ok_or "not found" file).

(** [File::create]: an existing file is truncated and keeps its mode. *)
Definition create_file (path : string) : act Disk string () :=
  _ ← disk_call "create";
  updating (λ d,
    (mkDisk (<[path := []]> (disk_files d))
       (match disk_files d !! path with
        | Some _ => disk_private d
        | None => disk_private d ∖ {[path]}
        end) (disk_faults d), ())).

(** [write_all] on a fresh file: a failing write may have written a prefix. *)
Definition write_bytes (path : string) (bytes : list byte) : act Disk string () := λ d,
  let '(f, fs') := next_fault (disk_faults d) in
  let '(n, r) := match f with
    | None => (length bytes, Ok ())
    | Some n => (n, Err "write")
    end in
  (mkDisk (<[path := take n bytes]> (disk_files d)) (disk_private d) fs', r).

(** [std::fs::write]. *)
Definition write_file (path : string) (bytes : list byte) : act Disk string () :=
  _ ← create_file path; write_bytes path bytes.

(** [set_permissions(path, 0o600)]. *)
Definition set_private (path : string) : act Disk string () :=
  _ ← disk_call "chmod";
  updating (λ d, (mkDisk (disk_files d) ({[path]} ∪ disk_private d) (disk_faults d), ())).

(** [if let Some(parent) = path.parent() { create_dir_all(parent)?; }]: only the
    empty path and the root have none. *)
Definition create_parent (path : string) : act Disk string () :=
  if all_chars (λ c, bool_decide (c = slash)) path then mret ()
  else disk_call "create_dir_all".

(** * Key files *)

(** PKCS#8 keys and DER certificates (p256, x509-cert): what is encoded decodes to
    itself, and a certificate's subject is the one it was built with. *)
Class KeyFiles `{X509} := {
  key_der : SigningKey → option (list byte);
  key_from_der : list byte → option SigningKey;
  cert_from_der : list byte → option Certificate;
  key_from_der_der k b : key_der k = Some b → key_from_der b = Some k;
  cert_from_der_der c b : cert_der c = Some b → cert_from_der b = Some c;
  built_subject key now r c : build_certificate key now r = Some c →
    cert_subject_name c = cert_subject r;
}.

Section key_files.
Context `{HexCodec, Sha256, Suit, KeyFiles}.

(** [load_or_generate_signer], given the outcome of the key generation. *)
Definition load_or_generate_signer (generated : option CoseKey) (path : string) :
    act Disk string Signer :=
  exists_ ← path_exists path;
  if exists_ : bool then
    bytes ← read_file path;
    lift (ok_or "invalid signing key" (signer_from_cbor bytes))
  else
    s ← lift (ok_or "signing keygen failed" (signer_generate generated));
    _ ← create_parent path;
    _ ← write_file path (signer_to_cbor s);
    _ ← set_private path;
    mret s.

(** [Ca::load]. *)
Definition ca_load (key_path cert_path : string) : act Disk string Ca :=
  key_bytes ← read_file key_path;
  key ← lift (ok_or "invalid key" (key_from_der key_bytes));
  cert_bytes ← read_file cert_path;
  cert ← lift (ok_or "invalid certificate" (cert_from_der cert_bytes));
  mret (mkCa key cert (cert_subject_name cert)).

(** [Ca::save]: the key first, then the certificate; only the key's directory is
    created. *)
Definition ca_save (ca : Ca) (key_path cert_path : string) : act Disk string () :=
  _ ← create_parent key_path;
  key ← lift (ok_or "key encoding" (key_der (ca_signing_key ca)));
  _ ← write_file key_path key;
  _ ← set_private key_path;
  cert ← lift (ok_or "certificate encoding" (root_cert_der ca));
  write_file cert_path cert.

(** [load_or_generate_ca], given the fresh key, the random octets and the clock. *)
Definition load_or_generate_ca (fresh : SigningKey) (rng : array 20) (now : Z)
    (key_path cert_path root_dn : string) : act Disk string Ca :=
  key_exists ← path_exists key_path;
  cert_exists ← if key_exists : bool then path_exists cert_path else mret false;
  if (cert_exists : bool) then ca_load key_path cert_path
  else
    authority ← lift (ok_or "ca generation" (ca_generate fresh rng now root_dn));
    _ ← ca_save authority key_path cert_path;
    mret authority.
End key_files.

(** * Connecting to the database *)

Section connect.
Context {W Pool : Type} (connect : act W string Pool) (sleep : W → W).

(** The loop of [connect_with_retry] with [n] attempts left: a second's sleep after
    every failure.  The final [expect] panics when no attempt was made. *)
Fixpoint connect_loop (url : string) (n : nat) (last_err : option string) :
    act W string Pool := λ w,
  match n with
  | 0 => (w, Err match last_err with
                 | Some e => "could not connect to postgres at " +:+ url +:+ ": " +:+ e
                 | None => "panicked: loop ran at least once"
                 end)
  | S n' =>
      let '(w', r) := connect w in
      match r with
      | Ok pool => (w', Ok pool)
      | Err e => connect_loop url n' (Some e) (sleep w')
      end
  end.

Definition CONNECT_ATTEMPTS : nat := 15.

(** [connect_with_retry]. *)
Definition connect_with_retry (url : string) : act W string Pool :=
  connect_loop url CONNECT_ATTEMPTS None.

(** The world after [k] failed attempts. *)
Definition after_attempts (k : nat) (w : W) : W := Nat.iter k (λ w, sleep (connect w).1) w.

Lemma after_attempts_S k w : after_attempts (S k) w = after_attempts k (sleep (connect w).1).
Proof. unfold after_attempts. by rewrite Nat.iter_succ_r. Qed.

Lemma connect_loop_spec url n last w :
  (∃ k pool w', k < n ∧ (∀ j, j < k → ∃ e, (connect (after_attempts j w)).2 = Err e) ∧
     connect (after_attempts k w) = (w', Ok pool) ∧
     connect_loop url n last w = (w', Ok pool)) ∨
  (∀ j, j < n → ∃ e, (connect (after_attempts j w)).2 = Err e) ∧
  (connect_loop url n last w).1 = after_attempts n w ∧
  ∀ k e, n = S k → (connect (after_attempts k w)).2 = Err e →
    (connect_loop url n last w).2 =
      Err ("could not connect to postgres at " +:+ url +:+ ": " +:+ e).
Proof.
  revert last w. induction n as [|n IH]; intros last w; simpl.
  { right. split_and!; [lia|done|lia]. }
  destruct (connect w) as [w1 [pool|e1]] eqn:Hc.
  { left. exists 0, pool, w1. simpl. split_and!; [lia|lia|done|done]. }
  assert (∀ j, after_attempts (S j) w = after_attempts j (sleep w1)) as Hj
    by (intros j; by rewrite after_attempts_S, Hc).
  assert (∃ e, (connect (after_attempts 0 w)).2 = Err e) as H0 by (simpl; rewrite Hc; eauto).
  destruct (IH (Some e1) (sleep w1)) as [(k & pool & w' & Hk & Hf & Hok & Hr)|(Hf & Hw & He)].
  - left. exists (S k), pool, w'. rewrite Hj. split_and!; [lia| |done|done].
    intros [|j] Hlt; [done|]. rewrite Hj. apply Hf. lia.
  - right. split_and!.
    + intros [|j] Hlt; [done|]. rewrite Hj. apply Hf. lia.
    + rewrite Hw. symmetry. exact (Hj n).
    + intros k e [= <-] Hke. destruct n as [|n].
      * simpl in Hke. rewrite Hc in Hke. by simplify_eq/=.
      * rewrite Hj in Hke. by apply (He n).
Qed.
End connect.

(** * The towers *)

Section towers.
Context `{HexCodec, Sha256, Suit, KeyFiles}.

(** The key and certificate paths of Tower 1's three roots ([Args]). *)
Record RootPaths := mkRootPaths {
  arg_ca_key : string; arg_ca_cert : string;
  arg_identity_key : string; arg_identity_cert : string;
  arg_delegation_key : string; arg_delegation_cert : string;
}.

Definition all_paths (a : RootPaths) : list string :=
  [arg_ca_key a; arg_ca_cert a; arg_identity_key a; arg_identity_cert a;
   arg_delegation_key a; arg_delegation_cert a].

(** What the random source and the clock give the three generations. *)
Record Entropy := mkEntropy {
  fresh_key : nat → SigningKey;
  fresh_octets : nat → array 20;
  fresh_now : nat → Z;
}.

(** The roots [main] of Tower 1 opens, in its order: the key authority, the
    identity root, the delegation root. *)
Definition identity_roots (e : Entropy) (a : RootPaths) : act Disk string (Ca * Ca * Ca) :=
  key_authority ← load_or_generate_ca (fresh_key e 0) (fresh_octets e 0) (fresh_now e 0)
    (arg_ca_key a) (arg_ca_cert a) KEY_AUTHORITY_ROOT_DN;
  identity ← load_or_generate_ca (fresh_key e 1) (fresh_octets e 1) (fresh_now e 1)
    (arg_identity_key a) (arg_identity_cert a) IDENTITY_ROOT_DN;
  delegation ← load_or_generate_ca (fresh_key e 2) (fresh_octets e 2) (fresh_now e 2)
    (arg_delegation_key a) (arg_delegation_cert a) DELEGATION_ROOT_DN;
  mret (key_authority, identity, delegation).

(** A new hub process over the old blob directory: its own id, its own [TEMP_SEQ]. *)
Definition fs_restart (pid : Z) (flts : faults) (b : Fs) : Fs :=
  mkFs (fs_files b) pid 0 flts.

(** The state [main] of Tower 2 serves from. *)
Definition hub_state {I P} (pid : Z) (flts : faults) (blobs : Fs) (index : I) (pool : P)
    (signer : Signer) : AppState Fs I P Signer :=
  mkAppState (fs_restart pid flts blobs) index (Some pool) signer.
End towers.

(** * Lemmas *)

Section disk_lemmas.
Implicit Types d : Disk.

(** No call fails from here on. *)
Definition steady d : Prop := no_faults (disk_faults d).

Lemma disk_call_inv name d d' r : disk_call name d = (d', r) →
  disk_files d' = disk_files d ∧ disk_private d' = disk_private d ∧
  (steady d → steady d' ∧ r = Ok ()).
Proof.
  unfold disk_call, steady. pose proof (no_faults_next (disk_faults d)) as Hq.
  destruct (next_fault _) as [[n|] fs']; intros [= <- <-]; simpl; naive_solver.
Qed.

Lemma path_exists_inv path d d' x : path_exists path d = (d', Ok x) →
  disk_files d' = disk_files d ∧ disk_private d' = disk_private d ∧
  (x = true → is_Some (disk_files d !! path)) ∧
  (steady d → steady d' ∧ x = bool_decide (is_Some (disk_files d !! path))).
Proof.
  unfold path_exists. destruct (disk_call _ d) as [d1 r] eqn:Hc.
  apply disk_call_inv in Hc as (Hf & Hp & Hq). destruct r as [[]|e]; intros [= <- <-].
  - split_and!; [done..| |naive_solver]. by intros ?%bool_decide_eq_true.
  - split_and!; [done..|naive_solver].
Qed.

Lemma path_exists_never_fails path d : ∃ d' x, path_exists path d = (d', Ok x).
Proof. unfold path_exists. destruct (disk_call _ d) as [d1 [[]|e]]; eauto. Qed.

Lemma read_file_Ok path d d' b : read_file path d = (d', Ok b) →
  disk_files d' = disk_files d ∧ disk_private d' = disk_private d ∧
  disk_files d !! path = Some b.
Proof.
  unfold read_file. unfold_act. unfold gets. destruct (disk_call _ d) as [d1 r] eqn:Hc.
  apply disk_call_inv in Hc as (Hf & Hp & _). destruct r as [[]|e]; [|done].
  intros [= <- Hr]. apply ok_or_Ok in Hr. split_and!; [done..|congruence].
Qed.

Lemma read_file_steady path d b : steady d → disk_files d !! path = Some b →
  ∃ d', read_file path d = (d', Ok b) ∧ disk_files d' = disk_files d ∧ steady d'.
Proof.
  intros Hs Hb. unfold read_file. unfold_act. unfold gets.
  destruct (disk_call _ d) as [d1 r] eqn:Hc. apply disk_call_inv in Hc as (Hf & _ & Hq).
  destruct (Hq Hs) as [Hs1 ->]. rewrite Hf, Hb. eauto.
Qed.

Lemma path_exists_steady path d : steady d →
  ∃ d', path_exists path d = (d', Ok (bool_decide (is_Some (disk_files d !! path)))) ∧
    disk_files d' = disk_files d ∧ steady d'.
Proof.
  intros Hs. destruct (path_exists_never_fails path d) as (d' & x & Hx). exists d'.
  rewrite Hx. apply path_exists_inv in Hx as (? & _ & _ & Hq). by destruct (Hq Hs) as [? ->].
Qed.

Lemma create_parent_inv path d d' r : create_parent path d = (d', r) →
  disk_files d' = disk_files d ∧ disk_private d' = disk_private d ∧
  (steady d → steady d' ∧ r = Ok ()).
Proof.
  unfold create_parent. destruct (all_chars _ path); [by intros [= <- <-]|].
  apply disk_call_inv.
Qed.

(** A write touches no other file; one that succeeds leaves exactly its bytes. *)
Lemma write_file_inv path b d d' r : write_file path b d = (d', r) →
  (∀ p, p ≠ path → disk_files d' !! p = disk_files d !! p) ∧
  (∀ p, p ≠ path → p ∈ disk_private d' ↔ p ∈ disk_private d) ∧
  (r = Ok () → disk_files d' = <[path := b]> (disk_files d)) ∧
  (steady d → steady d' ∧ r = Ok ()).
Proof.
  unfold write_file, create_file. unfold_act. unfold updating.
  destruct (disk_call _ d) as [d1 r1] eqn:Hc. apply disk_call_inv in Hc as (Hf & Hp & Hq).
  destruct r1 as [[]|e]; simpl.
  2:{ intros [= <- <-]. rewrite Hf, Hp. split_and!; [done..|naive_solver]. }
  unfold write_bytes. simpl. unfold steady in *.
  pose proof (no_faults_next (disk_faults d1)) as Hn.
  destruct (next_fault _) as [[n|] fs']; intros [= <- <-]; simpl in *;
    rewrite insert_insert_eq, ?firstn_all, Hf, Hp;
    (split_and!; [by intros; apply lookup_insert_ne|by intros; case_match; set_solver|done|]);
    intros Hs; destruct (Hq Hs) as [Hs1 _]; by destruct (Hn Hs1).
Qed.

Lemma set_private_inv path d d' r : set_private path d = (d', r) →
  disk_files d' = disk_files d ∧ (r = Ok () → path ∈ disk_private d') ∧
  (steady d → steady d' ∧ r = Ok ()).
Proof.
  unfold set_private. unfold_act. unfold updating.
  destruct (disk_call _ d) as [d1 r1] eqn:Hc. apply disk_call_inv in Hc as (Hf & Hp & Hq).
  destruct r1 as [[]|e]; intros [= <- <-]; simpl; split_and!; try done; try naive_solver.
  set_solver.
Qed.
End disk_lemmas.

Section authority_lemmas.
Context `{HexCodec, Sha256, Suit, KeyFiles}.
Implicit Types (d : Disk) (ca : Ca).

(** The files hold the authority. *)
Definition stored (key_path cert_path : string) (files : gmap string (list byte)) ca : Prop :=
  ∃ kb cb, files !! key_path = Some kb ∧ key_from_der kb = Some (ca_signing_key ca) ∧
    files !! cert_path = Some cb ∧ cert_from_der cb = Some (ca_cert ca) ∧
    ca_issuer ca = cert_subject_name (ca_cert ca).

Lemma ca_load_Ok kp cp d d' ca : ca_load kp cp d = (d', Ok ca) →
  disk_files d' = disk_files d ∧ stored kp cp (disk_files d) ca.
Proof.
  intros (d1 & kb & Hk & Hr)%bind_inv_Ok. apply bind_inv_Ok in Hr as (d2 & k & Hkd & Hr).
  apply bind_inv_Ok in Hr as (d3 & cb & Hc & Hr). apply bind_inv_Ok in Hr as (d4 & c & Hcd & Hr).
  unfold lift in Hkd, Hcd. injection Hkd as -> Hkd%ok_or_Ok. injection Hcd as -> Hcd%ok_or_Ok.
  injection Hr as <- <-.
  apply read_file_Ok in Hk as (Hf1 & _ & Hk), Hc as (Hf2 & _ & Hc).
  split; [congruence|]. exists kb, cb. simpl. by rewrite <- Hf1 at 2.
Qed.

Lemma ca_load_steady kp cp d ca : steady d → stored kp cp (disk_files d) ca →
  ∃ d', ca_load kp cp d = (d', Ok ca) ∧ disk_files d' = disk_files d ∧ steady d'.
Proof.
  intros Hs (kb & cb & Hk & Hkd & Hc & Hcd & Hi).
  destruct (read_file_steady kp d kb Hs Hk) as (d1 & Hr1 & Hf1 & Hs1).
  destruct (read_file_steady cp d1 cb Hs1) as (d2 & Hr2 & Hf2 & Hs2); [by rewrite Hf1|].
  exists d2. split; [|split; [congruence|done]]. unfold ca_load.
  rewrite (bind_Ok _ _ _ _ _ Hr1). rewrite Hkd. simpl.
  erewrite bind_Ok by reflexivity. rewrite (bind_Ok _ _ _ _ _ Hr2), Hcd.
  erewrite bind_Ok by reflexivity. rewrite <- Hi. by destruct ca.
Qed.

Lemma ca_save_Ok ca kp cp d d' : kp ≠ cp → ca_save ca kp cp d = (d', Ok ()) →
  ∃ kb cb, key_der (ca_signing_key ca) = Some kb ∧ root_cert_der ca = Some cb ∧
    disk_files d' = <[cp := cb]> (<[kp := kb]> (disk_files d)) ∧ kp ∈ disk_private d'.
Proof.
  intros Hne (d1 & [] & Hp & Hr)%bind_inv_Ok. apply bind_inv_Ok in Hr as (d2 & kb & Hk & Hr).
  apply bind_inv_Ok in Hr as (d3 & [] & Hw & Hr). apply bind_inv_Ok in Hr as (d4 & [] & Hm & Hr).
  apply bind_inv_Ok in Hr as (d5 & cb & Hc & Hw2).
  injection Hk as -> Hk%ok_or_Ok. injection Hc as -> Hc%ok_or_Ok. exists kb, cb.
  apply create_parent_inv in Hp as (Hf1 & _). apply write_file_inv in Hw as (_ & _ & Hf2 & _).
  apply set_private_inv in Hm as (Hf3 & Hpr & _).
  apply write_file_inv in Hw2 as (_ & Hpr2 & Hf4 & _).
  split_and!; [done|done| |by apply Hpr2, Hpr].
  rewrite Hf4, Hf3, Hf2, Hf1 by done. done.
Qed.

(** What a generated authority encodes to decodes to it. *)
Lemma generated_stored key rng now dn ca kb cb files kp cp : kp ≠ cp →
  ca_generate key rng now dn = Some ca → key_der (ca_signing_key ca) = Some kb →
  root_cert_der ca = Some cb → stored kp cp (<[cp := cb]> (<[kp := kb]> files)) ca.
Proof.
  intros Hne (issuer & Hi & Hg)%bind_Some Hk Hc.
  apply bind_Some in Hg as (cert & Hb & [= <-]). simpl in *.
  exists kb, cb. rewrite lookup_insert_ne, !lookup_insert_eq by done.
  split_and!; [done|by apply key_from_der_der|done|by apply cert_from_der_der|].
  simpl. apply built_subject in Hb. by rewrite Hb.
Qed.

Lemma load_or_generate_ca_Ok key rng now kp cp dn d d' ca : kp ≠ cp →
  load_or_generate_ca key rng now kp cp dn d = (d', Ok ca) →
  stored kp cp (disk_files d') ca ∧
  (∀ p, p ≠ kp → p ≠ cp → disk_files d' !! p = disk_files d !! p) ∧
  (disk_files d' = disk_files d ∨ kp ∈ disk_private d').
Proof.
  intros Hne (d1 & ke & Hke & Hr)%bind_inv_Ok. apply path_exists_inv in Hke as (Hf1 & _).
  apply bind_inv_Ok in Hr as (d2 & ce & Hce & Hr).
  assert (disk_files d2 = disk_files d) as Hf2.
  { destruct ke; [|by injection Hce as <- _]. apply path_exists_inv in Hce as (? & _).
    congruence. }
  destruct ce.
  - apply ca_load_Ok in Hr as [Hf3 Hst]. rewrite Hf3, Hf2 in *. auto.
  - apply bind_inv_Ok in Hr as (d3 & ca' & Hg & Hr). injection Hg as -> Hg%ok_or_Ok.
    apply bind_inv_Ok in Hr as (d4 & [] & Hs & Hr). injection Hr as <- <-.
    apply ca_save_Ok in Hs as (kb & cb & Hk & Hc & Hf4 & Hp); [|done].
    rewrite Hf4, Hf2. split_and!; [by eapply generated_stored| |auto].
    intros p ? ?. by rewrite !lookup_insert_ne.
Qed.

(** Once stored, an authority is found again. *)
Lemma load_or_generate_ca_stored key rng now kp cp dn d ca :
  steady d → stored kp cp (disk_files d) ca →
  ∃ d', load_or_generate_ca key rng now kp cp dn d = (d', Ok ca) ∧
    disk_files d' = disk_files d ∧ steady d'.
Proof.
  intros Hs Hst. pose proof Hst as (kb & cb & Hk & _ & Hc & _).
  destruct (path_exists_steady kp d Hs) as (d1 & Hx1 & Hf1 & Hs1).
  destruct (path_exists_steady cp d1 Hs1) as (d2 & Hx2 & Hf2 & Hs2).
  rewrite bool_decide_true in Hx1 by eauto.
  rewrite Hf1, bool_decide_true in Hx2 by eauto.
  destruct (ca_load_steady kp cp d2 ca Hs2) as (d3 & Hl & Hf3 & Hs3); [by rewrite Hf2, Hf1|].
  exists d3. split; [|split; [congruence|done]]. unfold load_or_generate_ca.
  rewrite (bind_Ok _ _ _ _ _ Hx1), (bind_Ok _ _ _ _ _ Hx2). exact Hl.
Qed.

Lemma stored_agree kp cp f1 f2 ca :
  f2 !! kp = f1 !! kp → f2 !! cp = f1 !! cp → stored kp cp f1 ca → stored kp cp f2 ca.
Proof. intros Hk Hc (kb & cb & ?). exists kb, cb. by rewrite Hk, Hc. Qed.
End authority_lemmas.

(** * Properties *)

Section startup_properties.
Context `{HexCodec, Sha256, Suit, KeyFiles}.
Implicit Types d : Disk.

(** Once Tower 1 has started, whatever calls failed on the way, a restart that
    can read its files serves with exactly the three roots of the first start
    (fresh keys drawn or not), and leaves the files as they are. *)
Lemma identity_restart (e e' : Entropy) (a : RootPaths) d d1 d2 roots
    (Hpaths : NoDup (all_paths a)) (Hstart : identity_roots e a d = (d1, Ok roots))
    (Hfiles : disk_files d2 = disk_files d1) (Hsteady : steady d2) :
  ∃ d3, identity_roots e' a d2 = (d3, Ok roots) ∧ disk_files d3 = disk_files d2.
Proof.
  destruct a as [k1 c1 k2 c2 k3 c3]. unfold identity_roots, all_paths in *. simpl in *.
  rewrite !list.NoDup_cons, !not_elem_of_cons in Hpaths.
  destruct Hpaths as ((? & ? & ? & ? & ? & _) & (? & ? & ? & ? & _) & (? & ? & ? & _) &
    (? & ? & _) & (? & _) & _).
  apply bind_inv_Ok in Hstart as (da & ca1 & H1' & Hr).
  apply bind_inv_Ok in Hr as (db & ca2 & H2' & Hr).
  apply bind_inv_Ok in Hr as (dc & ca3 & H3' & Hr). injection Hr as <- <-.
  apply load_or_generate_ca_Ok in H1' as (Hs1 & _ & _), H2' as (Hs2 & Hf2 & _),
    H3' as (Hs3 & Hf3 & _); [|done..].
  assert (stored k1 c1 (disk_files d2) ca1) as Hst1.
  { eapply stored_agree; [..|exact Hs1]; by rewrite Hfiles, Hf3, Hf2. }
  assert (stored k2 c2 (disk_files d2) ca2) as Hst2.
  { eapply stored_agree; [..|exact Hs2]; by rewrite Hfiles, Hf3. }
  assert (stored k3 c3 (disk_files d2) ca3) as Hst3 by by rewrite Hfiles.
  destruct (load_or_generate_ca_stored (fresh_key e' 0) (fresh_octets e' 0) (fresh_now e' 0)
    k1 c1 KEY_AUTHORITY_ROOT_DN d2 ca1) as (da' & Hr1 & Hfa & Hsa); [done..|].
  destruct (load_or_generate_ca_stored (fresh_key e' 1) (fresh_octets e' 1) (fresh_now e' 1)
    k2 c2 IDENTITY_ROOT_DN da' ca2) as (db' & Hr2 & Hfb & Hsb); [done|by rewrite Hfa|].
  destruct (load_or_generate_ca_stored (fresh_key e' 2) (fresh_octets e' 2) (fresh_now e' 2)
    k3 c3 DELEGATION_ROOT_DN db' ca3) as (dc' & Hr3 & Hfc & Hsc); [done|by rewrite Hfb, Hfa|].
  exists dc'. rewrite (bind_Ok _ _ _ _ _ Hr1), (bind_Ok _ _ _ _ _ Hr2),
    (bind_Ok _ _ _ _ _ Hr3). split; [done|congruence].
Qed.

(** C35: "on first run" is weaker than it reads: with the key of a root on disk but
    its certificate missing, a start neither fails nor re-issues the certificate, it
    draws a new root and writes it over the old key, which is lost. *)
Theorem lost_certificate_replaces_root key rng now kp cp dn d ca kb cb
    (Hsteady : steady d) (Hkey : is_Some (disk_files d !! kp))
    (Hcert : disk_files d !! cp = None) (Hgen : ca_generate key rng now dn = Some ca)
    (Hkb : key_der key = Some kb) (Hcb : root_cert_der ca = Some cb) :
  ∃ d', load_or_generate_ca key rng now kp cp dn d = (d', Ok ca) ∧
    disk_files d' = <[cp := cb]> (<[kp := kb]> (disk_files d)) ∧ kp ∈ disk_private d'.
Proof.
  assert (kp ≠ cp) as Hne by (intros ->; rewrite Hcert in Hkey; by destruct Hkey).
  assert (ca_signing_key ca = key) as Hk.
  { apply bind_Some in Hgen as (i & _ & (c & _ & [= <-])%bind_Some). done. }
  destruct (path_exists_steady kp d Hsteady) as (d1 & Hx1 & Hf1 & Hs1).
  destruct (path_exists_steady cp d1 Hs1) as (d2 & Hx2 & Hf2 & Hs2).
  rewrite bool_decide_true in Hx1 by done.
  rewrite Hf1, Hcert, bool_decide_false in Hx2 by (by intros []).
  destruct (ca_save ca kp cp d2) as [d3 r] eqn:Hsave.
  assert (r = Ok ()) as ->.
  { unfold ca_save in Hsave. unfold_act.
    destruct (create_parent kp d2) as [e1 r1] eqn:E1.
    apply create_parent_inv in E1 as (_ & _ & E1). destruct (E1 Hs2) as [S1 ->].
    rewrite Hk, Hkb in Hsave. simpl in Hsave.
    destruct (write_file kp kb e1) as [e2 r2] eqn:E2.
    apply write_file_inv in E2 as (_ & _ & _ & E2). destruct (E2 S1) as [S2 ->].
    destruct (set_private kp e2) as [e3 r3] eqn:E3.
    apply set_private_inv in E3 as (_ & _ & E3). destruct (E3 S2) as [S3 ->].
    rewrite Hcb in Hsave. simpl in Hsave.
    apply write_file_inv in Hsave as (_ & _ & _ & E4). by destruct (E4 S3). }
  pose proof (ca_save_Ok ca kp cp d2 d3 Hne Hsave) as (kb' & cb' & Hkb' & Hcb' & Hf3 & Hp).
  exists d3. split; [|rewrite Hf3, Hf2, Hf1; split; [congruence|done]].
  unfold load_or_generate_ca. rewrite (bind_Ok _ _ _ _ _ Hx1), (bind_Ok _ _ _ _ _ Hx2), Hgen.
  erewrite bind_Ok by reflexivity. by rewrite (bind_Ok _ _ _ _ _ Hsave).
Qed.

(** The key file holds the signer. *)
Definition signer_stored (path : string) (files : gmap string (list byte)) (s : Signer) : Prop :=
  ∃ b, files !! path = Some b ∧ signer_from_cbor b = Some s.

Lemma load_or_generate_signer_Ok `{!SuitSpec} generated path d d' s :
  load_or_generate_signer generated path d = (d', Ok s) →
  signer_stored path (disk_files d') s ∧ (disk_files d' = disk_files d ∨ path ∈ disk_private d').
Proof.
  intros (d1 & x & Hx & Hr)%bind_inv_Ok. apply path_exists_inv in Hx as (Hf1 & _). destruct x.
  - apply bind_inv_Ok in Hr as (d2 & b & Hb & Hr). injection Hr as <- Hr%ok_or_Ok.
    apply read_file_Ok in Hb as (Hf2 & _ & Hb). rewrite Hf2, Hf1. split; [|auto].
    exists b. by rewrite <- Hf1.
  - apply bind_inv_Ok in Hr as (d2 & s' & Hg & Hr). injection Hg as -> Hg%ok_or_Ok.
    apply bind_inv_Ok in Hr as (d3 & [] & _ & Hr). apply bind_inv_Ok in Hr as (d4 & [] & Hw & Hr).
    apply bind_inv_Ok in Hr as (d5 & [] & Hm & Hr). injection Hr as <- <-.
    apply write_file_inv in Hw as (_ & _ & Hf4 & _). apply set_private_inv in Hm as (Hf5 & Hp & _).
    split; [|auto]. exists (signer_to_cbor s'). rewrite Hf5, Hf4, lookup_insert_eq by done.
    split; [done|]. unfold signer_from_cbor, signer_to_cbor. rewrite cose_parse_bytes.
    by destruct s'.
Qed.

Lemma load_or_generate_signer_stored generated path d s :
  steady d → signer_stored path (disk_files d) s →
  ∃ d', load_or_generate_signer generated path d = (d', Ok s) ∧ disk_files d' = disk_files d.
Proof.
  intros Hs (b & Hb & Hp). destruct (path_exists_steady path d Hs) as (d1 & Hx & Hf1 & Hs1).
  rewrite bool_decide_true in Hx by eauto.
  destruct (read_file_steady path d1 b Hs1) as (d2 & Hr & Hf2 & _); [by rewrite Hf1|].
  exists d2. split; [|congruence]. unfold load_or_generate_signer.
  by rewrite (bind_Ok _ _ _ _ _ Hx), (bind_Ok _ _ _ _ _ Hr), Hp.
Qed.

(** A hub restarted on its key file, its blob directory and its index signs
    with the same key, whether a fresh one is drawn or not, finds the hub as
    consistent as it left it, whatever publishes were under way, and has staging
    numbers for 2^64 further publishes. *)
Lemma hub_restart `{!SuitSpec} {I P} `{StreamAead, Zstd, !ArtifactIndex I, !ArtifactIndexSpec I}
    generated generated' path d d1 d2 signer (s : AppState Fs I P Signer) (pool : P) pid flts
    (requests : list (option (array CEK_LEN * array NONCE_LEN) * list (result string (list byte))))
    (Hstart : load_or_generate_signer generated path d = (d1, Ok signer))
    (Hfiles : disk_files d2 = disk_files d1) (Hsteady : steady d2) (Hok : hub_ok s)
    (Hmany : (Z.of_nat (length requests) < two64)%Z) :
  ∃ d3, load_or_generate_signer generated' path d2 = (d3, Ok signer) ∧
    disk_files d3 = disk_files d2 ∧
    let s' := hub_state pid flts (app_blobs s) (app_index s) pool signer in
    hub_ok s' ∧ numbered requests s'.
Proof.
  apply load_or_generate_signer_Ok in Hstart as [Hst _]. rewrite <- Hfiles in Hst.
  destruct (load_or_generate_signer_stored generated' path d2 signer Hsteady Hst)
    as (d3 & Hl & Hf). exists d3. split; [done|]. split; [done|]. split; [|by split].
  destruct Hok as (Hi & Hb & He). by split_and!.
Qed.
End startup_properties.

Section connect_property.
Context {W Pool : Type} (connect : act W string Pool) (sleep : W → W).

(** A tower that waits for its database tries fifteen times, a sleep after every
    failure: it goes on with the first connection made, and otherwise stops with the
    error of the last attempt; the [expect] on that error never panics. *)
Lemma connect_with_retry_spec url w :
  (∃ k pool w', k < CONNECT_ATTEMPTS ∧
     (∀ j, j < k → ∃ e, (connect (after_attempts connect sleep j w)).2 = Err e) ∧
     connect (after_attempts connect sleep k w) = (w', Ok pool) ∧
     connect_with_retry connect sleep url w = (w', Ok pool)) ∨
  (∀ j, j < CONNECT_ATTEMPTS → ∃ e, (connect (after_attempts connect sleep j w)).2 = Err e) ∧
  ∃ e, (connect (after_attempts connect sleep 14 w)).2 = Err e ∧
    connect_with_retry connect sleep url w =
      (after_attempts connect sleep CONNECT_ATTEMPTS w,
       Err ("could not connect to postgres at " +:+ url +:+ ": " +:+ e)).
Proof.
  destruct (connect_loop_spec connect sleep url CONNECT_ATTEMPTS None w)
    as [?|(Hf & Hw & He)]; [by left|]. right. split; [done|].
  destruct (Hf 14) as [e Hlast]; [unfold CONNECT_ATTEMPTS; lia|]. exists e. split; [done|].
  unfold connect_with_retry. rewrite (surjective_pairing (connect_loop _ _ _ _ _ _)).
  rewrite Hw. by rewrite (He 14 e).
Qed.
End connect_property.

(** * Concrete starts *)

(** An X.509 library that encodes the certificates it knows by their number. *)
Definition table_der (known : list CertRequest) (c : CertRequest) : option (list byte) :=
  i ← list_find (c =.) known; b ← Byte.of_N (N.of_nat i.1); Some [b].

Definition table_from_der (known : list CertRequest) (b : list byte) : option CertRequest :=
  match b with
  | [x] => known !! N.to_nat (Byte.to_N x)
  | _ => None
  end.

Lemma table_roundtrip known c b :
  table_der known c = Some b → table_from_der known b = Some c.
Proof.
  intros ([i x] & Hf & (y & Hy & [= <-])%bind_Some)%bind_Some. simpl in *.
  apply list_find_Some in Hf as (Hi & <- & _).
  by rewrite (Byte.to_of_N _ Hy), Nat2N.id.
Qed.

Definition table_x509 (known : list CertRequest) : X509 := {|
  SigningKey := list byte;
  verifying_spki := id;
  pkcs8_pem := λ _, "PRIVATE KEY";
  Csr := list byte;
  csr_from_der := λ b, Some b;
  csr_from_pem := λ _, None;
  csr_spki := id;
  csr_pop := λ _, true;
  spki_octets := λ k, Some k;
  name_from_str := Some;
  is_ia5 := λ _, true;
  Certificate := CertRequest;
  build_certificate := λ _ _ r, Some r;
  cert_der := table_der known;
  cert_pem := λ _, Some "CERTIFICATE";
  cert_subject_name := cert_subject;
  cert_not_after := λ _, mkDateTime 2030 1 2 3 4 5;
  read_certificate := table_from_der known;
  read_built := λ _ _ r c der Hb Hd,
    table_roundtrip known r der (eq_ind_r (λ x, table_der known x = Some der) Hd (inj Some _ _ Hb));
|}.

Definition root_request (key : list byte) (dn : string) : CertRequest :=
  mkCertRequest RootProfile (random_serial (fill 20 xff)) ROOT_VALIDITY dn key [].

Definition three_roots : list CertRequest :=
  [root_request [x01] KEY_AUTHORITY_ROOT_DN; root_request [x02] IDENTITY_ROOT_DN;
   root_request [x03] DELEGATION_ROOT_DN].

#[local] Instance start_x509 : X509 := table_x509 three_roots.

#[local] Instance start_key_files : KeyFiles.
Proof.
  refine (@Build_KeyFiles start_x509 (λ k, Some k) (λ b, Some b) (table_from_der three_roots)
    _ (table_roundtrip three_roots) _).
  - by intros k b [= ->].
  - by intros _ _ r c [= ->].
Defined.

Definition key_of (b : list byte) : SigningKey (X509 := start_x509) := b.

Definition example_entropy (keys : list (list byte)) : Entropy :=
  mkEntropy (λ i, key_of (default [] (keys !! i))) (λ _, fill 20 xff) (λ _, 0%Z).

Definition example_paths : RootPaths :=
  mkRootPaths "data/ca.key" "data/ca-cert.der" "data/identity.key" "data/identity-cert.der"
    "data/delegation.key" "data/delegation-cert.der".

(** The first start of an empty disk. *)
Definition example_start : Disk * result string (Ca * Ca * Ca) :=
  identity_roots (example_entropy [[x01]; [x02]; [x03]]) example_paths (mkDisk ∅ ∅ []).

Definition example_restart : Disk * result string (Ca * Ca * Ca) :=
  identity_roots (example_entropy [[x07]; [x08]; [x09]]) example_paths example_start.1.

Lemma example_start_ok : is_ok example_start.2 = true.
Proof. by vm_compute. Qed.

Lemma identity_restart_witness : ∃ roots,
  example_start.2 = Ok roots ∧ NoDup (all_paths example_paths) ∧ steady example_start.1 ∧
  example_restart.2 = Ok roots.
Proof.
  destruct (is_ok_Ok _ example_start_ok) as [roots Hroots]. exists roots.
  assert (NoDup (all_paths example_paths)) as Hnd
    by by_compute.
  assert (steady example_start.1) as Hs by (vm_compute; constructor).
  split; [exact Hroots|]. split; [exact Hnd|]. split; [exact Hs|].
  destruct (identity_restart (example_entropy [[x01]; [x02]; [x03]])
    (example_entropy [[x07]; [x08]; [x09]]) example_paths (mkDisk ∅ ∅ []) example_start.1
    example_start.1 roots Hnd) as (d3 & Hr & _).
  - change (example_start = (example_start.1, Ok roots)).
    rewrite <- Hroots. apply surjective_pairing.
  - reflexivity.
  - exact Hs.
  - unfold example_restart. by rewrite Hr.
Defined.

(** A disk that lost the certificate of the root whose key is [x09]. *)
Definition lost_disk : Disk := mkDisk {["data/ca.key" := [x09]]} {["data/ca.key"]} [].

Definition new_root : Ca :=
  mkCa (key_of [x01]) (root_request [x01] KEY_AUTHORITY_ROOT_DN) KEY_AUTHORITY_ROOT_DN.

Lemma lost_certificate_replaces_root_witness :
  disk_files lost_disk !! "data/ca.key" = Some [x09] ∧
  ∃ d' ca, load_or_generate_ca (key_of [x01]) (fill 20 xff) 0 "data/ca.key"
      "data/ca-cert.der" KEY_AUTHORITY_ROOT_DN lost_disk = (d', Ok ca) ∧
    disk_files d' !! "data/ca.key" = Some [x01].
Proof.
  split; [reflexivity|].
  assert (ca_generate (key_of [x01]) (fill 20 xff) 0 KEY_AUTHORITY_ROOT_DN = Some new_root)
    as Hg by reflexivity.
  destruct (lost_certificate_replaces_root (key_of [x01]) (fill 20 xff) 0 "data/ca.key"
    "data/ca-cert.der" KEY_AUTHORITY_ROOT_DN lost_disk new_root [x01] [x00])
    as (d' & Hl & Hf & _).
  - constructor.
  - by eexists.
  - reflexivity.
  - exact Hg.
  - reflexivity.
  - vm_compute. reflexivity.
  - exists d', new_root. split; [exact Hl|]. rewrite Hf. reflexivity.
Defined.

Definition cose_of (b : list byte) : CoseKey (Suit := toy_suit) := b.

Definition example_signer : Signer := mkSigner (cose_of [x05]).

(** The first start of a hub. *)
Definition example_hub_start : Disk * result string Signer :=
  load_or_generate_signer (Some (cose_of [x05])) "data/sw-authority.key" (mkDisk ∅ ∅ []).

Definition example_served : AppState Fs PgIndex () Signer :=
  mkAppState (mkFs ∅ 7 3 []) (mkPgIndex ∅ []) (Some ()) example_signer.

Lemma hub_restart_witness :
  example_hub_start.2 = Ok example_signer ∧ "data/sw-authority.key" ∈ disk_private example_hub_start.1 ∧
  (load_or_generate_signer (Some (cose_of [x06])) "data/sw-authority.key"
     example_hub_start.1).2 = Ok example_signer ∧
  hub_ok (hub_state 8 [] (app_blobs example_served) (app_index example_served) () example_signer).
Proof.
  assert (hub_ok example_served) as Hok by exact example_hub_ok.
  split; [vm_compute; reflexivity|].
  split; [by_compute|].
  destruct (hub_restart (Some (cose_of [x05])) (Some (cose_of [x06]))
    "data/sw-authority.key" (mkDisk ∅ ∅ []) example_hub_start.1 example_hub_start.1
    example_signer example_served () 8 [] []) as (d3 & Hl & _ & Hok' & _).
  - vm_compute. reflexivity.
  - reflexivity.
  - vm_compute. constructor.
  - exact Hok.
  - reflexivity.
  - split; [by rewrite Hl|exact Hok'].
Defined.

(** The start whose [set_permissions] failed stops, but the key it wrote stays with
    the default mode, and the next start uses it without looking at the mode. *)
Lemma unprotected_signing_key :
  let first := load_or_generate_signer (Some (cose_of [x05])) "key"
    (mkDisk ∅ ∅ [None; None; None; None; Some 0]) in
  let second := load_or_generate_signer (Some (cose_of [x06])) "key" first.1 in
  first.2 = Err "chmod" ∧ second.2 = Ok example_signer ∧ "key" ∉ disk_private second.1.
Proof.
  split; [vm_compute; reflexivity|]. split; [vm_compute; reflexivity|].
  by_compute.
Qed.
