(* ===== verification/Roster.v ===== *)
(** The device roster of Tower 1 (src/crates/identity-tower/src/devices.rs and
    migrations): registration, enrollment of a key slot, the delegate certificate
    and the trust anchors. *)

From S2P Require Import Prelude Ext Wire Store Content Signer Cose Ca.

(** * Errors *)

Inductive RosterError :=
  | RosterNotFound
  | RosterBadRequest (text : string)
  | RosterInternal (text : string).

#[export] Instance RosterError_eq_dec : EqDecision RosterError.
Proof. solve_decision. Defined.

Definition roster_response (e : RosterError) : Z * string :=
  match e with
  | RosterNotFound => (404, "not found")
  | RosterBadRequest m => (400, m)
  | RosterInternal _ => (500, "internal error")
  end%Z.

(** * The database *)

(** A row of [devices] but its key, and of [device_certs] but its key. *)
Record DeviceRow := mkDeviceRow {
  dr_model : option string;
  dr_status : string;
  dr_pubkey : option string;
  dr_created_at : Z;
}.

Record CertRow := mkCertRow {
  dc_der : list byte;
  dc_serial : option string;
  dc_not_after : option string;
  dc_fingerprint : option string;
  dc_enrolled_at : Z;
}.

Record RosterDb := mkRosterDb {
  devices : gmap string DeviceRow;
  device_certs : gmap (string * string) CertRow;
  roster_now : Z;
  roster_faults : faults;
}.

Definition set_devices (d : gmap string DeviceRow) (s : RosterDb) : RosterDb :=
  mkRosterDb d (device_certs s) (roster_now s) (roster_faults s).
Definition set_certs (c : gmap (string * string) CertRow) (s : RosterDb) : RosterDb :=
  mkRosterDb (devices s) c (roster_now s) (roster_faults s).

(** One statement, as the environment lets it run: [Some 0] is not applied, with
    [Some (S _)] its answer is lost. *)
Definition roster_statement {A} (f : RosterDb → RosterDb * result RosterError A) :
    act RosterDb RosterError A := λ s,
  let '(flt, fs) := next_fault (roster_faults s) in
  let s := mkRosterDb (devices s) (device_certs s) (roster_now s) fs in
  match flt with
  | None => f s
  | Some O => (s, Err (RosterInternal "connection lost"))
  | Some (S _) => ((f s).1, Err (RosterInternal "connection lost"))
  end.

(** The upsert of [register_device], with [COALESCE] on both fields. *)
Definition upsert_device (req : RegisterDevice) :
    act RosterDb RosterError DeviceRow :=
  roster_statement (λ s,
    let row :=
      match devices s !! register_id req with
      | None => mkDeviceRow (register_model req) "registered" (register_pubkey req)
                  (roster_now s)
      | Some old =>
          mkDeviceRow
            (match register_model req with Some m => Some m | None => dr_model old end)
            (dr_status old)
            (match register_pubkey req with Some p => Some p | None => dr_pubkey old end)
            (dr_created_at old)
      end in
    (set_devices (<[register_id req := row]> (devices s)) s, Ok row)).

(** [UPDATE devices SET status='enrolled', pubkey=..]: how many rows it touched. *)
Definition update_enrolled (id pubkey : string) : act RosterDb RosterError nat :=
  roster_statement (λ s,
    match devices s !! id with
    | None => (s, Ok 0)
    | Some old =>
        (set_devices (<[id := mkDeviceRow (dr_model old) "enrolled" (Some pubkey)
           (dr_created_at old)]> (devices s)) s, Ok 1)
    end).

Definition select_device (id : string) : act RosterDb RosterError (option DeviceRow) :=
  roster_statement (λ s, (s, Ok (devices s !! id))).

(** Another slot already holds this serial: the unique index on it. *)
Definition serial_taken (s : RosterDb) (slot : string * string) (serial : string) : bool :=
  existsb (λ e, bool_decide (e.1 ≠ slot ∧ dc_serial e.2 = Some serial))
    (map_to_list (device_certs s)).

(** The upsert of a slot's leaf: foreign key, unique serial, primary key. *)
Definition upsert_cert (id key_id : string) (issued : IssuedCert) :
    act RosterDb RosterError () :=
  roster_statement (λ s,
    match devices s !! id with
    | None => (s, Err (RosterInternal "foreign key violation"))
    | Some _ =>
        if serial_taken s (id, key_id) (issued_serial_hex issued)
        then (s, Err (RosterInternal "unique violation"))
        else
          (set_certs (<[(id, key_id) := mkCertRow (issued_der issued)
             (Some (issued_serial_hex issued)) (Some (issued_not_after issued))
             (Some (issued_fingerprint issued)) (roster_now s)]> (device_certs s)) s, Ok ())
    end).

(** * The handlers *)

(** The text order of the database's collation. *)
Class Collation := { text_le : string → string → bool }.

Section handlers.
Context `{X509, HexCodec, Sha256, Coset}.

(** The authorities of the tower; its [pool] is the state of the handlers. *)
Record Authorities := mkAuthorities {
  key_authority_ca : Ca;
  identity_ca : Ca;
  delegation_ca : Ca;
}.

(** [ecu_id_from_cose_hex]. *)
Definition ecu_id_from_cose_hex (pubkey_cose_hex : string) : option string :=
  cose ← hex_decode pubkey_cose_hex;
  sec1 ← cose_to_sec1 cose;
  spki ← spki_of_sec1 sec1;
  Some (hex_encode (slice (hash_bytes (hash_of spki)))).

(** [device_from_row]. *)
Definition device_from_row (id : string) (r : DeviceRow) : Device :=
  mkDevice id (dr_model r) (dr_status r) (dr_pubkey r)
    (key ← dr_pubkey r; ecu_id_from_cose_hex key).

(** [register_device]. *)
Definition register_device (req : RegisterDevice) : act RosterDb RosterError Device :=
  row ← upsert_device req;
  mret (device_from_row (register_id req) row).

Definition default_enroll_key_id : string := "device-decrypt".

(** [enroll_device] for the registration key: the CSR's key, as a COSE_Key. *)
Definition enroll_decrypt (id key_id : string) (body : list byte) :
    act RosterDb RosterError EnrollResponse :=
  pubkey_hex ← lift (ok_or (RosterBadRequest "CSR rejected") (verify_csr_pubkey body));
  sec1 ← lift (ok_or (RosterBadRequest "CSR key is not a 65-byte P-256 point")
    (v ← hex_decode pubkey_hex; try_into 65 v));
  rows ← update_enrolled id (hex_encode (sec1_to_cose sec1));
  if Nat.eqb rows 0 then throw RosterNotFound
  else mret (mkEnrollResponse id key_id None None None None).

(** [enroll_device] for a slot that bears a certificate. *)
Definition enroll_leaf (auth : Authorities) (rng : array 20) (now : Z) (id key_id : string)
    (body : list byte) : act RosterDb RosterError EnrollResponse :=
  let usage := if bool_decide (key_id = "tls-identity") then Mtls else Client in
  issued ← lift (ok_or (RosterBadRequest "CSR rejected")
    (issue_leaf (identity_ca auth) rng now id body usage));
  known ← select_device id;
  match known with
  | None => throw RosterNotFound
  | Some _ =>
      _ ← upsert_cert id key_id issued;
      mret (mkEnrollResponse id key_id (Some (issued_pem issued))
        (Some (issued_serial_hex issued)) (Some (issued_not_after issued))
        (Some (issued_fingerprint issued)))
  end.

(** [enroll_device]. *)
Definition enroll_device (auth : Authorities) (rng : array 20) (now : Z) (id : string)
    (key_id : option string) (body : list byte) : act RosterDb RosterError EnrollResponse :=
  let key_id := default default_enroll_key_id key_id in
  if bool_decide (key_id = "device-decrypt") then enroll_decrypt id key_id body
  else enroll_leaf auth rng now id key_id body.

Record DelegateCertReq := mkDelegateCertReq { dcr_scopes : string; dcr_cn : option string }.

Record DelegateCertResponse := mkDelegateCertResponse {
  dcp_cert_pem : string;
  dcp_key_pem : string;
  dcp_ca_root_pem : string;
}.

Definition default_delegate_cn : string := "workshop-minter".

(** [mint_delegate_cert]. *)
Definition mint_delegate_cert (auth : Authorities) (key : SigningKey) (rng : array 20)
    (now : Z) (req : DelegateCertReq) : result RosterError DelegateCertResponse :=
  '(cert, key) ← ok_or (RosterInternal "mint delegate leaf")
    (mint_delegate_leaf (delegation_ca auth) key rng now
       (default default_delegate_cn (dcr_cn req)) (dcr_scopes req));
  root ← ok_or (RosterInternal "root certificate") (root_cert_pem (delegation_ca auth));
  mret (mkDelegateCertResponse cert key root).

(** [ca_cert] and [trust_bundle]. *)
Definition ca_cert_handler (auth : Authorities) : result RosterError string :=
  ok_or (RosterInternal "root certificate") (root_cert_pem (identity_ca auth)).

Definition trust_bundle (auth : Authorities) : result RosterError TrustBundle :=
  identity ← ok_or (RosterInternal "root certificate") (root_cert_pem (identity_ca auth));
  delegation ← ok_or (RosterInternal "root certificate") (root_cert_pem (delegation_ca auth));
  mret (<["delegation" := delegation]> (<["identity" := identity]> ∅)).

(** [list_devices], ordered by the database. *)
Definition list_devices `{Collation} : act RosterDb RosterError (list Device) :=
  rows ← roster_statement (λ s,
    (s, Ok (sort_by (λ a b, text_le a.1 b.1) (map_to_list (devices s)))));
  mret ((λ '(id, r), device_from_row id r) <$> rows).

(** [get_device]. *)
Definition get_device (id : string) : act RosterDb RosterError Device :=
  row ← select_device id;
  match row with
  | Some r => mret (device_from_row id r)
  | None => throw RosterNotFound
  end.

(** Without a failing statement a registration succeeds, whatever is sent. *)
Lemma register_device_quiet req s : no_faults (roster_faults s) →
  ∃ s1 row, register_device req s = (s1, Ok (device_from_row (register_id req) row)) ∧
    devices s1 = <[register_id req := row]> (devices s) ∧ device_certs s1 = device_certs s ∧
    (∀ old, devices s !! register_id req = Some old → dr_status row = dr_status old) ∧
    (∀ text, register_pubkey req = Some text → dr_pubkey row = Some text).
Proof.
  intros Hq. destruct s as [devs certs clock fs]. simpl in *.
  unfold register_device, upsert_device, roster_statement. unfold_act. simpl.
  assert (next_fault fs = (None, tail fs)) as -> by (destruct fs; by inversion Hq; subst).
  simpl. eexists _, _. split; [done|]. simpl.
  split_and!; [done..| |]; intros x Hx; rewrite Hx; [done|].
  by destruct (devs !! register_id req).
Qed.
End handlers.

(** * Properties *)

(** The roster is consistent: a leaf belongs to a device, no two slots share a
    serial, a device is registered or enrolled, and an enrolled one has a key. *)
Record roster_ok (s : RosterDb) : Prop := {
  certs_owned id key_id row :
    device_certs s !! (id, key_id) = Some row → is_Some (devices s !! id);
  serials_unique slot slot' row row' serial :
    device_certs s !! slot = Some row → device_certs s !! slot' = Some row' →
    dc_serial row = Some serial → dc_serial row' = Some serial → slot = slot';
  status_known id row : devices s !! id = Some row →
    dr_status row = "registered" ∨ dr_status row = "enrolled" ∧ is_Some (dr_pubkey row);
}.

(** The tables of a roster. *)
Definition same_roster (s s' : RosterDb) : Prop :=
  devices s' = devices s ∧ device_certs s' = device_certs s.

Lemma roster_ok_same s s' : same_roster s s' → roster_ok s → roster_ok s'.
Proof. intros [Hd Hc] [Ho Hu Hs]. split; rewrite ?Hd, ?Hc; eauto. Qed.

Lemma roster_statement_preserves {A} (P : RosterDb → Prop)
    (f : RosterDb → RosterDb * result RosterError A) :
  (∀ s s', same_roster s s' → P s → P s') → (∀ s, P s → P (f s).1) →
  preserves P (roster_statement f).
Proof.
  intros Hsame Hf s Hs. unfold roster_statement.
  destruct (next_fault _) as [flt fs].
  assert (P (mkRosterDb (devices s) (device_certs s) (roster_now s) fs)) as Hs'
    by (apply (Hsame s); done).
  destruct flt as [[|n]|]; simpl; [done|by apply Hf|by apply Hf].
Qed.

(** A statement without faults is its function. *)
Lemma roster_statement_run {A} (f : RosterDb → RosterDb * result RosterError A) s s' r :
  roster_statement f s = (s', r) →
  (∃ e, r = Err e ∧ ¬ no_faults (roster_faults s)) ∨
  ∃ s0, same_roster s s0 ∧ f s0 = (s', r) ∧
    (no_faults (roster_faults s) → no_faults (roster_faults s0)).
Proof.
  unfold roster_statement. pose proof (no_faults_next (roster_faults s)) as Hn.
  destruct (next_fault _) as [[[|n]|] fs]; intros Hr.
  - left. simplify_eq. eexists. split; [done|]. naive_solver.
  - left. simplify_eq. eexists. split; [done|]. naive_solver.
  - right. eexists. split; [|split; [exact Hr|]]; [done|]. naive_solver.
Qed.

Lemma serial_taken_false s slot serial slot' row :
  serial_taken s slot serial = false → device_certs s !! slot' = Some row →
  dc_serial row = Some serial → slot' = slot.
Proof.
  intros Ht Hrow Hser. destruct (decide (slot' = slot)) as [|Hne]; [done|].
  assert (serial_taken s slot serial = true) as Hc; [|congruence].
  apply existsb_exists. exists (slot', row). split.
  - by apply list_elem_of_In, elem_of_map_to_list.
  - by apply bool_decide_eq_true_2.
Qed.

Lemma set_device_ok s id row : roster_ok s →
  dr_status row = "registered" ∨ dr_status row = "enrolled" ∧ is_Some (dr_pubkey row) →
  roster_ok (set_devices (<[id := row]> (devices s)) s).
Proof.
  intros [Ho Hu Hs] Hrow. split; simpl; [|done|].
  - intros id' key_id r Hr. destruct (decide (id = id')) as [->|Hne];
      [rewrite lookup_insert_eq; eauto|]. rewrite lookup_insert_ne by done. by eapply Ho.
  - intros id' r. destruct (decide (id = id')) as [->|Hne].
    + rewrite lookup_insert_eq. by intros [= <-].
    + rewrite lookup_insert_ne by done. apply Hs.
Qed.

Section roster.
Context `{X509, HexCodec, Sha256, Coset}.

Lemma upsert_device_ok req : preserves roster_ok (upsert_device req).
Proof.
  apply roster_statement_preserves; [apply roster_ok_same|]. intros s Hs. simpl.
  apply set_device_ok; [done|].
  destruct (devices s !! register_id req) as [old|] eqn:Hold; simpl; [|by left].
  destruct (status_known s Hs _ _ Hold) as [|[? Hk]]; [by left|right]. split; [done|].
  destruct (register_pubkey req); [by eexists|done].
Qed.

Lemma update_enrolled_ok id pubkey : preserves roster_ok (update_enrolled id pubkey).
Proof.
  apply roster_statement_preserves; [apply roster_ok_same|]. intros s Hs. simpl.
  destruct (devices s !! id) as [old|]; [|done]. apply set_device_ok; [done|].
  right. split; [done|by eexists].
Qed.

Lemma upsert_cert_ok id key_id issued : preserves roster_ok (upsert_cert id key_id issued).
Proof.
  apply roster_statement_preserves; [apply roster_ok_same|]. intros s [Ho Hu Hs]. simpl.
  destruct (devices s !! id) as [dev|] eqn:Hdev; [|done].
  destruct (serial_taken s (id, key_id) (issued_serial_hex issued)) eqn:Hser; [done|].
  pose proof (λ slot row, serial_taken_false _ _ _ slot row Hser) as Hfree. split; simpl; [| |done].
  - intros id' key' row. rewrite lookup_insert_Some. intros [[[= <- <-] _]|[_ Hr]]; eauto.
  - intros slot slot' row row' serial. rewrite !lookup_insert_Some.
    intros [[<- <-]|[Hn1 Hr1]] [[<- <-]|[Hn2 Hr2]]; simpl; [done|..|by eapply Hu].
    + intros [= <-] Hs2. by rewrite (Hfree _ _ Hr2 Hs2).
    + intros Hs1 [= <-]. by rewrite (Hfree _ _ Hr1 Hs1).
Qed.

Lemma select_device_ok id : preserves roster_ok (select_device id).
Proof. apply roster_statement_preserves; [apply roster_ok_same|done]. Qed.

#[local] Hint Resolve upsert_device_ok update_enrolled_ok upsert_cert_ok select_device_ok : preserve.

(** C36: the writing handlers of the roster keep it consistent, whichever of their
    statements fail and whichever answers are lost. *)
Theorem roster_handlers_preserve_ok (auth : Authorities) (rng : array 20) (now : Z)
    (req : RegisterDevice) (id : string) (key_id : option string) (body : list byte) :
  preserves roster_ok (register_device req) ∧
  preserves roster_ok (enroll_device auth rng now id key_id body).
Proof.
  split; [unfold register_device; auto with preserve|].
  unfold enroll_device, enroll_decrypt, enroll_leaf. case_bool_decide.
  - repeat (apply preserves_bind; [auto with preserve|intros]).
    case_match; auto with preserve.
  - apply preserves_bind; [auto with preserve|intros issued].
    apply preserves_bind; [auto with preserve|intros [row|]]; auto with preserve.
Qed.

(** What a successful registration of a decryption key recorded. *)
Definition decrypt_enrolled (id : string) (body : list byte) (s s' : RosterDb)
    (r : EnrollResponse) : Prop :=
  ∃ csr sec1 old, parse_and_verify_csr body = Some csr ∧
    spki_octets (csr_spki csr) = Some (slice sec1) ∧ devices s !! id = Some old ∧
    devices s' = <[id := mkDeviceRow (dr_model old) "enrolled"
      (Some (hex_encode (sec1_to_cose sec1))) (dr_created_at old)]> (devices s) ∧
    device_certs s' = device_certs s ∧
    r = mkEnrollResponse id "device-decrypt" None None None None ∧
    (head (slice sec1) = Some x04 →
     (row ← devices s' !! id; k ← dr_pubkey row; cose ← hex_decode k; cose_to_sec1 cose) =
       Some sec1).

(** And what a certificate slot's enrollment did. *)
Definition leaf_enrolled (auth : Authorities) (rng : array 20) (now : Z) (id key_id : string)
    (body : list byte) (s s' : RosterDb) (r : EnrollResponse) : Prop :=
  ∃ issued row, issue_leaf (identity_ca auth) rng now id body
      (if bool_decide (key_id = "tls-identity") then Mtls else Client) = Some issued ∧
    is_Some (devices s !! id) ∧ devices s' = devices s ∧
    device_certs s' = <[(id, key_id) := row]> (device_certs s) ∧
    dc_der row = issued_der issued ∧ dc_serial row = Some (issued_serial_hex issued) ∧
    dc_fingerprint row = Some (issued_fingerprint issued) ∧
    r = mkEnrollResponse id key_id (Some (issued_pem issued))
      (Some (issued_serial_hex issued)) (Some (issued_not_after issued))
      (Some (issued_fingerprint issued)).

Lemma enroll_decrypt_spec id body s s' r :
  enroll_decrypt id "device-decrypt" body s = (s', r) →
  match r with
  | Ok resp => decrypt_enrolled id body s s' resp
  | Err _ => no_faults (roster_faults s) → same_roster s s'
  end.
Proof.
  unfold enroll_decrypt.
  destruct (verify_csr_pubkey body) as [hexkey|] eqn:Hv; [|by intros [= <- <-]].
  unfold verify_csr_pubkey in Hv. apply bind_Some in Hv as (csr & Hcsr & Hv).
  apply bind_Some in Hv as (octets & Hoct & [= <-]).
  rewrite (bind_Ok (lift (ok_or _ _)) _ s s (hex_encode octets)) by done.
  rewrite hex_decode_encode. simpl.
  destruct (try_into 65 octets) as [sec1|] eqn:Hsec; [|by intros [= <- <-]].
  apply try_into_Some in Hsec. subst octets.
  rewrite (bind_Ok (lift (ok_or _ _)) _ s s sec1) by done. unfold_act.
  destruct (update_enrolled _ _ s) as [s1 [rows|e]] eqn:Hup.
  - apply roster_statement_run in Hup as [(? & ? & _)|(s0 & [Hd Hc] & Hf & _)]; [done|].
    simpl in Hf. rewrite Hd in Hf.
    destruct (devices s !! id) as [old|] eqn:Hold; simplify_eq/=; intros ?; simplify_eq/=.
    + exists csr, sec1, old. split_and!; [done..|]. intros Hh. simpl.
      rewrite lookup_insert_eq. simpl.
      rewrite hex_decode_encode. simpl. by apply cose_sec1_roundtrip.
    + done.
  - intros [= <- <-] Hnf.
    apply roster_statement_run in Hup as [(? & _ & ?)|(s0 & Hsame & Hf & _)]; [done|].
    simpl in Hf. by destruct (devices s0 !! id).
Qed.

Lemma enroll_leaf_spec auth rng now id key_id body s s' r :
  enroll_leaf auth rng now id key_id body s = (s', r) →
  match r with
  | Ok resp => leaf_enrolled auth rng now id key_id body s s' resp
  | Err _ => no_faults (roster_faults s) → same_roster s s'
  end.
Proof.
  unfold enroll_leaf, leaf_enrolled.
  destruct (issue_leaf _ _ _ _ _ _) as [issued|] eqn:Hi; [|by intros [= <- <-]].
  rewrite (bind_Ok (lift (ok_or _ _)) _ s s issued) by done. unfold_act.
  destruct (select_device id s) as [s1 [known|e]] eqn:Hsel;
    apply roster_statement_run in Hsel as [(e' & He & Hf)|(s0 & [Hd Hc] & Hf & Hnf)];
    simplify_eq/=; [|by intros ?; simplify_eq].
  rewrite Hd. destruct (devices s !! id) as [dev|] eqn:Hdev; [|by intros ?; simplify_eq].
  destruct (upsert_cert id key_id issued s1) as [s2 [[]|e]] eqn:Hup;
    apply roster_statement_run in Hup as [(e' & He & Hf)|(s3 & [Hd3 Hc3] & Hf & _)];
    simplify_eq/=; try (rewrite Hd3, Hd, Hdev in Hf).
  - intros [= <- <-]. destruct (serial_taken _ _ _); simplify_eq/=.
    eexists issued, _. rewrite Hd3, Hc3, Hd, Hc. by split_and!.
  - intros [= <- <-] Hq. destruct Hf. auto.
  - intros [= <- <-] _. destruct (serial_taken _ _ _); simplify_eq. split; congruence.
Qed.

(** C29: enrollment does what the slot calls for.  For device-decrypt it records, on
    the registered device alone, the key whose CSR proved possession, in the stored
    form from which the keystore mint gets the same point back, and marks it
    enrolled; for any other slot it issues a leaf of the slot's usage, stores it
    under (device, slot) alone and returns it; and unless a statement failed, a
    refusal changes nothing. *)
Theorem enroll_device_records (auth : Authorities) (rng : array 20) (now : Z) (id : string)
    (key_id : option string) (body : list byte) (s s' : RosterDb)
    (r : result RosterError EnrollResponse)
    (Hrun : enroll_device auth rng now id key_id body s = (s', r)) :
  match r with
  | Ok resp =>
      let slot := default "device-decrypt" key_id in
      if decide (slot = "device-decrypt") then decrypt_enrolled id body s s' resp
      else leaf_enrolled auth rng now id slot body s s' resp
  | Err _ => no_faults (roster_faults s) → same_roster s s'
  end.
Proof.
  unfold enroll_device, default_enroll_key_id in Hrun. cbn zeta.
  destruct (decide (default "device-decrypt" key_id = "device-decrypt")) as [Hk|Hk].
  - rewrite bool_decide_eq_true_2, Hk in Hrun by done. by apply enroll_decrypt_spec in Hrun.
  - rewrite bool_decide_eq_false_2 in Hrun by done. by apply enroll_leaf_spec in Hrun.
Qed.
End roster.

(** * A concrete roster *)

#[local] Instance roster_x509 : X509 := single_x509 example_leaf.

Definition example_auth : Authorities :=
  mkAuthorities example_ca example_ca example_ca.

Definition example_roster : RosterDb :=
  mkRosterDb {[ "rig-7" := mkDeviceRow (Some "m1") "registered" None 5 ]} ∅ 9 [].

(** The CSR of an uncompressed point. *)
Definition example_point : list byte := x04 :: replicate 32 x11 ++ replicate 32 x22.

Definition example_enrolled : RosterDb :=
  mkRosterDb {[ "rig-7" := mkDeviceRow (Some "m1") "enrolled"
    (Some (hex_encode (xa1 :: replicate 32 x11 ++ replicate 32 x22))) 5 ]} ∅ 9 [].

Lemma enroll_device_records_witness :
  devices (enroll_device example_auth (fill 20 x00) 0 "rig-7" None (x30 :: example_point)
    example_roster).1 = devices example_enrolled ∧
  decrypt_enrolled "rig-7" (x30 :: example_point) example_roster example_enrolled
    (mkEnrollResponse "rig-7" "device-decrypt" None None None None).
Proof.
  assert (enroll_device example_auth (fill 20 x00) 0 "rig-7" None (x30 :: example_point)
    example_roster = (example_enrolled,
      Ok (mkEnrollResponse "rig-7" "device-decrypt" None None None None))) as Hrun
    by (vm_compute; reflexivity).
  split; [by rewrite Hrun|]. exact (enroll_device_records _ _ _ _ _ _ _ _ _ Hrun).
Defined.
