(* ===== verification/Keystore.v ===== *)
(** The factory HSM keystore of Tower 1 (src/crates/identity-tower/src/keystore.rs):
    the key slots and trust anchors of a device, and the signed and encrypted
    envelope that carries them. *)

From S2P Require Import Prelude Ext Wire Store Content Signer Cose Ca Roster.

(** * The hsm crate's schema *)

Record KeySlot := mkKeySlot {
  slot_key_id : string;
  slot_key_kind : Z;
  slot_anchor_public_key : option (list byte);
  slot_allowed_guests : option (list string);
  slot_allowed_ops : option (list Z);
}.

Record LeafCert := mkLeafCert { leaf_key_id : string; leaf_certificate : list byte }.

Record TrustAnchorCert := mkTrustAnchorCert {
  anchor_id : string;
  anchor_certificate : list byte;
}.

Record HsmKeystore := mkHsmKeystore {
  ks_schema_version : Z;
  ks_security_version : Z;
  ks_identities : list string;
  ks_slots : list KeySlot;
  ks_certificates : list LeafCert;
  ks_trust_anchors : list TrustAnchorCert;
}.

(** The roles and constants of the schema. *)
Class Hsm := {
  KeyRole : Type;
  KeyRole_eq_dec :: EqDecision KeyRole;
  mandatory_roles : list KeyRole;
  SoftwareAuthority : KeyRole;
  FactoryResetIssuer : KeyRole;
  TlsIdentity : KeyRole;
  DeviceDecryption : KeyRole;
  is_device_generated : KeyRole → bool;
  is_aes_256 : KeyRole → bool;
  role_key_id : KeyRole → string;
  FACTORY_SIGNING_PUBLIC : array 65;
  FACTORY_SIGNING_SCALAR : array 32;
  KEY_TYPE_AES_256 : Z;
  KEY_TYPE_EC_P256 : Z;
  OP_ENCRYPT : Z;
  OP_DECRYPT : Z;
  OP_SIGN : Z;
  OP_VERIFY : Z;
  OP_GET_PUBKEY : Z;
  SCHEMA_VERSION : Z;
  DELEGATION_ROOT_ANCHOR_ID : string;
  payload_encode : HsmKeystore → option (list byte);
}.

(** * Assembling the keystore *)

Section assemble.
Context `{Hsm}.

(** The public key an anchor slot carries; a device-generated slot has none. *)
Definition anchor_key (sw_authority_sec1 key_authority_pub_sec1 : array 65) (role : KeyRole) :
    option (list byte) :=
  if is_device_generated role then None
  else Some (if decide (role = SoftwareAuthority) then slice sw_authority_sec1
             else if decide (role = FactoryResetIssuer) then slice FACTORY_SIGNING_PUBLIC
             else slice key_authority_pub_sec1).

(** The slot of one role. *)
Definition key_slot (sw_authority_sec1 key_authority_pub_sec1 : array 65) (role : KeyRole) :
    KeySlot :=
  let anchor_public_key := anchor_key sw_authority_sec1 key_authority_pub_sec1 role in
  let is_aes := is_aes_256 role in
  let allowed_ops :=
    match anchor_public_key with
    | Some _ => [OP_VERIFY; OP_GET_PUBKEY]
    | None => if is_aes then [OP_ENCRYPT; OP_DECRYPT]
              else [OP_SIGN; OP_VERIFY; OP_GET_PUBKEY]
    end in
  mkKeySlot (role_key_id role) (if is_aes then KEY_TYPE_AES_256 else KEY_TYPE_EC_P256)
    anchor_public_key None (Some allowed_ops).

(** [assemble_keystore]. *)
Definition assemble_keystore (sw_authority_sec1 key_authority_pub_sec1 : array 65)
    (security_version : Z) (tls_identity_leaf : option (list byte))
    (delegation_root_der : list byte) : HsmKeystore :=
  mkHsmKeystore SCHEMA_VERSION security_version []
    (key_slot sw_authority_sec1 key_authority_pub_sec1 <$> mandatory_roles)
    (match tls_identity_leaf with
     | Some leaf => [mkLeafCert (role_key_id TlsIdentity) leaf]
     | None => []
     end)
    [mkTrustAnchorCert DELEGATION_ROOT_ANCHOR_ID delegation_root_der].
End assemble.

(** * Minting the envelope *)

(** What the manifest of the keystore states. *)
Record KeystoreManifest := mkKeystoreManifest {
  km_signing_time : Z;
  km_component_id : list string;
  km_sequence_number : Z;
  km_security_version : Z;
  km_digest : list byte;
  km_size : Z;
  km_uri : string;
  km_encryption_info : list byte;
  km_integrated : string * list byte;
  km_text_version : string;
}.

(** The encryptor and image builder of the SUIT toolkit; the recipient decrypts
    what was encrypted to it. *)
Class KeystoreKit `{Suit} := {
  compress_firmware : list byte → Z → option (list byte);
  encrypt_firmware_ecdh : list byte → CoseKey → CoseKey * list byte →
    option (list byte * list byte);
  ec2_private_key : list byte → list byte → list byte → option (list byte);
  build_image : CoseKey → KeystoreManifest → option (list byte);
  decompress : list byte → option (list byte);
  decrypt_firmware : CoseKey → list byte → list byte → option (list byte);
  decompress_compress b level c : compress_firmware b level = Some c → decompress c = Some b;
  decrypt_encrypt b eph sk pk kid info ct :
    cose_parse (cose_public sk) = Some pk →
    encrypt_firmware_ecdh b eph (pk, kid) = Some (info, ct) →
    decrypt_firmware sk info ct = Some b;
}.

Section mint.
Context `{X509, HexCodec, Sha256, Coset, Hsm, !KeystoreKit}.

(** [factory_signing_key]: the well-known scalar and its public point. *)
Definition factory_signing_key : option CoseKey :=
  bytes ← ec2_private_key (take 32 (drop 1 (slice FACTORY_SIGNING_PUBLIC)))
    (take 32 (drop 33 (slice FACTORY_SIGNING_PUBLIC))) (slice FACTORY_SIGNING_SCALAR);
  cose_parse bytes.

(** [mint_keystore], given the ephemeral sender key and the clock. *)
Definition mint_keystore (ephemeral : option CoseKey) (now : Z)
    (device_decrypt_cose sw_authority_cose : list byte) (key_authority_pub_sec1 : array 65)
    (security_version : Z) (tls_identity_leaf : option (list byte))
    (delegation_root_der : list byte) : option (list byte) :=
  sw_authority_sec1 ← cose_to_sec1 sw_authority_cose;
  let keystore := assemble_keystore sw_authority_sec1 key_authority_pub_sec1
    security_version tls_identity_leaf delegation_root_der in
  cbor ← payload_encode keystore;
  let plaintext_digest := slice (hash_bytes (hash_of cbor)) in
  compressed ← compress_firmware cbor 3;
  public_key ← cose_parse device_decrypt_cose;
  ephemeral ← ephemeral;
  '(info, ciphertext) ← encrypt_firmware_ecdh compressed ephemeral
    (public_key, as_bytes (role_key_id DeviceDecryption));
  factory_key ← factory_signing_key;
  build_image factory_key
    (mkKeystoreManifest now ["hsm"; "keys"] security_version security_version
       plaintext_digest (Z.of_nat (length cbor)) "#hsm-keys" info ("#hsm-keys", ciphertext)
       (pretty security_version +:+ ".0.0")).

(** [MintKeystoreReq]. *)
Record MintKeystoreRequest := mkMintKeystoreRequest {
  mkr_sw_authority_pubkey : string;
  mkr_security_version : Z;
}.

Definition default_security_version : Z := 1.

(** The stored leaf of the slot [tls-identity]. *)
Definition select_tls_leaf (id : string) : act RosterDb RosterError (option (list byte)) :=
  roster_statement (λ s, (s, Ok (dc_der <$> device_certs s !! (id, "tls-identity")))).

(** [mint_keystore_endpoint]. *)
Definition mint_keystore_endpoint (auth : Authorities) (ephemeral : option CoseKey) (now : Z)
    (id : string) (req : MintKeystoreRequest) : act RosterDb RosterError (list byte) :=
  row ← select_device id;
  pubkey_hex ← lift (ok_or (RosterBadRequest "no registered pubkey")
    (r ← row; dr_pubkey r));
  device_decrypt_cose ← lift (ok_or (RosterBadRequest "device pubkey is not hex")
    (hex_decode (trim pubkey_hex)));
  sw_authority_cose ← lift (ok_or (RosterBadRequest "sw_authority_pubkey is not hex")
    (hex_decode (trim (mkr_sw_authority_pubkey req))));
  ka_sec1 ← lift (ok_or (RosterInternal "CA public key") (public_sec1 (key_authority_ca auth)));
  delegation_root_der ← lift (ok_or (RosterInternal "root certificate")
    (root_cert_der (delegation_ca auth)));
  tls_leaf ← select_tls_leaf id;
  lift (ok_or (RosterInternal "mint keystore")
    (mint_keystore ephemeral now device_decrypt_cose sw_authority_cose ka_sec1
       (mkr_security_version req) tls_leaf delegation_root_der)).
End mint.

(** * Properties *)

Section keystore.
Context `{X509, HexCodec, Sha256, Coset, Hsm, !KeystoreKit}.

(** What a slot of the keystore holds: a role that a device generates carries no
    key; any other carries the anchor of its authority, to verify with only. *)
Definition slot_of (sw_authority key_authority : array 65) (role : KeyRole)
    (slot : KeySlot) : Prop :=
  slot_key_id slot = role_key_id role ∧
  if is_device_generated role then slot_anchor_public_key slot = None
  else
    slot_anchor_public_key slot = Some (
      if decide (role = SoftwareAuthority) then slice sw_authority
      else if decide (role = FactoryResetIssuer) then slice FACTORY_SIGNING_PUBLIC
      else slice key_authority) ∧
    slot_allowed_ops slot = Some [OP_VERIFY; OP_GET_PUBKEY].

Lemma assemble_keystore_slots sw ka sv leaf deleg :
  Forall2 (slot_of sw ka) mandatory_roles (ks_slots (assemble_keystore sw ka sv leaf deleg)).
Proof.
  simpl. induction mandatory_roles as [|role roles IH]; [constructor|].
  constructor; [|exact IH]. unfold slot_of, key_slot, anchor_key. simpl.
  split; [done|]. by destruct (is_device_generated role).
Qed.

(** An envelope that carries [keystore] to the owner of [device_key]: signed with
    the factory key over the digest and size of the encoding, versioned alike, and
    opened by any secret key of which [device_key] is the public half. *)
Definition carries_keystore (device_key : CoseKey) (keystore : HsmKeystore)
    (envelope : list byte) : Prop :=
  ∃ cbor m factory_key, payload_encode keystore = Some cbor ∧
    factory_signing_key = Some factory_key ∧ build_image factory_key m = Some envelope ∧
    km_component_id m = ["hsm"; "keys"] ∧
    km_sequence_number m = ks_security_version keystore ∧
    km_security_version m = ks_security_version keystore ∧
    km_digest m = slice (hash_bytes (hash_of cbor)) ∧
    km_size m = Z.of_nat (length cbor) ∧ km_uri m = (km_integrated m).1 ∧
    ∀ sk, cose_parse (cose_public sk) = Some device_key →
      (decrypt_firmware sk (km_encryption_info m) (km_integrated m).2 ≫= decompress) = Some cbor.

Lemma mint_keystore_carries eph now dev_cose sw_cose ka sv leaf deleg envelope :
  mint_keystore eph now dev_cose sw_cose ka sv leaf deleg = Some envelope →
  ∃ device_key sw, cose_parse dev_cose = Some device_key ∧ cose_to_sec1 sw_cose = Some sw ∧
    carries_keystore device_key (assemble_keystore sw ka sv leaf deleg) envelope.
Proof.
  unfold mint_keystore. intros Hm.
  apply bind_Some in Hm as (sw & Hsw & Hm). apply bind_Some in Hm as (cbor & Hcbor & Hm).
  apply bind_Some in Hm as (compressed & Hcomp & Hm).
  apply bind_Some in Hm as (device_key & Hkey & Hm). apply bind_Some in Hm as (e & _ & Hm).
  apply bind_Some in Hm as ([info ct] & Henc & Hm).
  apply bind_Some in Hm as (fk & Hfk & Hm).
  exists device_key, sw. split_and!; [done..|].
  eexists cbor, _, fk. split; [done|]. split; [done|]. split; [exact Hm|]. simpl.
  split_and!; [done..|]. intros sk Hsk.
  rewrite (decrypt_encrypt _ _ _ _ _ _ _ Hsk Henc). simpl. by eapply decompress_compress.
Qed.

(** The registered key of a device, decoded. *)
Definition registered_key (s : RosterDb) (id : string) : option CoseKey :=
  row ← devices s !! id; text ← dr_pubkey row; cose ← hex_decode (trim text); cose_parse cose.

(** The keystore a device is sent.  A successful mint leaves the roster as it was
    and answers an envelope that the registered key of that device opens, to the
    encoding of a keystore whose slots follow the mandatory roles (anchors of
    the requested software authority, of the factory, of the key authority; no key
    where the device generates its own), whose leaf is the one stored for the slot
    tls-identity, and whose trust anchor is the delegation root. *)
Lemma mint_endpoint_spec (auth : Authorities) (ephemeral : option CoseKey) (now : Z)
    (id : string) (req : MintKeystoreRequest) (s s' : RosterDb) (envelope : list byte)
    (Hrun : mint_keystore_endpoint auth ephemeral now id req s = (s', Ok envelope)) :
  same_roster s s' ∧
  ∃ device_key sw ka root sw_cose, registered_key s id = Some device_key ∧
    hex_decode (trim (mkr_sw_authority_pubkey req)) = Some sw_cose ∧
    cose_to_sec1 sw_cose = Some sw ∧ public_sec1 (key_authority_ca auth) = Some ka ∧
    root_cert_der (delegation_ca auth) = Some root ∧
    let keystore := assemble_keystore sw ka (mkr_security_version req)
      (dc_der <$> device_certs s !! (id, "tls-identity")) root in
    carries_keystore device_key keystore envelope ∧
    Forall2 (slot_of sw ka) mandatory_roles (ks_slots keystore) ∧
    ks_trust_anchors keystore = [mkTrustAnchorCert DELEGATION_ROOT_ANCHOR_ID root].
Proof.
  unfold mint_keystore_endpoint in Hrun.
  apply bind_inv_Ok in Hrun as (s1 & row & Hsel & Hrun).
  apply roster_statement_run in Hsel as [(e & ? & _)|(s0 & [Hd0 Hc0] & Hsel & _)]; [done|].
  injection Hsel as <- <-.
  apply bind_inv_Ok in Hrun as (s2 & pubkey & Hpk & Hrun). injection Hpk as <- Hpk.
  apply bind_inv_Ok in Hrun as (s2 & dev_cose & Hdc & Hrun). injection Hdc as <- Hdc.
  apply bind_inv_Ok in Hrun as (s2 & sw_cose & Hsw & Hrun). injection Hsw as <- Hsw.
  apply bind_inv_Ok in Hrun as (s2 & ka & Hka & Hrun). injection Hka as <- Hka.
  apply bind_inv_Ok in Hrun as (s2 & root & Hroot & Hrun). injection Hroot as <- Hroot.
  apply bind_inv_Ok in Hrun as (s2 & leaf & Hsel & Hrun).
  apply roster_statement_run in Hsel as [(e & ? & _)|(s3 & [Hd3 Hc3] & Hsel & _)]; [done|].
  injection Hsel as <- <-. injection Hrun as <- Hmint.
  apply ok_or_Ok in Hpk, Hdc, Hsw, Hka, Hroot, Hmint.
  split; [split; congruence|].
  apply mint_keystore_carries in Hmint as (device_key & sw & Hkey & Hsec & Hcar).
  exists device_key, sw, ka, root, sw_cose. rewrite Hc3, Hc0 in Hcar. split.
  { unfold registered_key. rewrite <- Hd0. apply bind_Some in Hpk as (r & -> & Hr). simpl.
    rewrite Hr. simpl. by rewrite Hdc. }
  cbn zeta. split_and!; [done..|apply assemble_keystore_slots|done].
Qed.

(** C30: the key of an enrolled device can be replaced without any proof of its
    possession.  Unless a statement fails, a registration of a known id with another
    key succeeds, whatever the key and whatever was proven before; the device keeps
    the status it had, enrolled included, and its certificates; and every keystore
    minted for it from there opens with the key that was sent. *)
Theorem reregistration_redirects_keystore (auth : Authorities) (req : RegisterDevice)
    (s : RosterDb) (old : DeviceRow) (text : string)
    (Hold : devices s !! register_id req = Some old)
    (Htext : register_pubkey req = Some text)
    (Hq : no_faults (roster_faults s)) :
  ∃ s1 d, register_device req s = (s1, Ok d) ∧
    device_status d = dr_status old ∧ device_pubkey d = Some text ∧
    dr_status <$> devices s1 !! register_id req = Some (dr_status old) ∧
    device_certs s1 = device_certs s ∧
    ∀ ephemeral now mreq s2 envelope,
      mint_keystore_endpoint auth ephemeral now (register_id req) mreq s1 = (s2, Ok envelope) →
      ∃ cose key keystore, hex_decode (trim text) = Some cose ∧ cose_parse cose = Some key ∧
        carries_keystore key keystore envelope.
Proof.
  destruct (register_device_quiet req s Hq) as (s1 & row & Hreg & Hdev & Hcerts & Hst & Hpk).
  specialize (Hst _ Hold). specialize (Hpk _ Htext). eexists _, _. split; [done|].
  rewrite Hdev, lookup_insert_eq. simpl. split_and!; [done|done|by rewrite Hst|done|].
  intros ephemeral now mreq s2 envelope Hmint.
  apply mint_endpoint_spec in Hmint as (_ & key & sw & ka & root & sw_cose & Hkey & Hmint).
  unfold registered_key in Hkey. rewrite Hdev, lookup_insert_eq in Hkey. simpl in Hkey.
  rewrite Hpk in Hkey. simpl in Hkey.
  destruct (hex_decode (trim text)) as [cose|]; [|done].
  simpl in Hkey. destruct Hmint as (_ & _ & _ & _ & Hcar & _). by eexists cose, key, _.
Qed.
End keystore.

(** * A concrete factory *)

#[local] Instance toy_hsm : Hsm := {|
  KeyRole := nat;
  mandatory_roles := [0; 1; 2; 3];
  SoftwareAuthority := 0; FactoryResetIssuer := 1; TlsIdentity := 2; DeviceDecryption := 3;
  is_device_generated := Nat.leb 2;
  is_aes_256 := Nat.eqb 4;
  role_key_id := λ r, "role-" +:+ pretty r;
  FACTORY_SIGNING_PUBLIC := fill 65 x66;
  FACTORY_SIGNING_SCALAR := fill 32 x67;
  KEY_TYPE_AES_256 := 1; KEY_TYPE_EC_P256 := 2;
  OP_ENCRYPT := 1; OP_DECRYPT := 2; OP_SIGN := 3; OP_VERIFY := 4; OP_GET_PUBKEY := 5;
  SCHEMA_VERSION := 1;
  DELEGATION_ROOT_ANCHOR_ID := "delegation-root";
  payload_encode := λ ks, Some (frames (default [] ∘ slot_anchor_public_key <$> ks_slots ks));
|}.

(** An encryptor that writes the recipient before the text. *)
Definition toy_encrypt (b : list byte) (r : list byte * list byte) : list byte * list byte :=
  ([xee], frames [r.1; b]).

Definition toy_firmware (sk : list byte) (ct : list byte) : option (list byte) :=
  match parse_frames ct with
  | Some [k; b] => if decide (k = sk) then Some b else None
  | _ => None
  end.

Lemma toy_decrypt_encrypt b sk pk kid info ct :
  cose_parse (Suit := toy_suit) (cose_public (Suit := toy_suit) sk) = Some pk →
  Some (toy_encrypt b (pk, kid)) = Some (info, ct) → toy_firmware sk ct = Some b.
Proof.
  simpl. intros [= <-] [= <- <-]. unfold toy_firmware. rewrite parse_frames_frames.
  by rewrite decide_True.
Qed.

Lemma toy_decompress (b : list byte) (level : Z) c :
  Some (x1f :: b) = Some c → Some (drop 1 c) = Some b.
Proof. by intros [= <-]. Qed.

#[local] Instance toy_kit : KeystoreKit (H := toy_suit) := {|
  compress_firmware := λ b _, Some (x1f :: b);
  encrypt_firmware_ecdh := λ b _ r, Some (toy_encrypt b r);
  ec2_private_key := λ _ _ d, Some (xa1 :: d);
  build_image := λ _ m, Some (x05 :: km_digest m);
  decompress := λ c, Some (drop 1 c);
  decrypt_firmware := λ sk _ ct, toy_firmware sk ct;
  decompress_compress := toy_decompress;
  decrypt_encrypt := λ b _, toy_decrypt_encrypt b;
|}.

#[local] Instance factory_x509 : X509 := single_x509 example_leaf.

Definition example_factory : Authorities :=
  mkAuthorities (mkCa (example_point : SigningKey) example_leaf "") example_ca example_ca.

(** A device enrolled with one key, registered again with another. *)
Definition other_key : list byte := xa1 :: replicate 64 x77.

Definition takeover_request : RegisterDevice :=
  mkRegisterDevice "rig-7" None (Some (hex_encode other_key)).

Definition example_ephemeral : CoseKey (Suit := toy_suit) := [x0e].

Definition takeover_mint (s : RosterDb) : RosterDb * result RosterError (list byte) :=
  mint_keystore_endpoint example_factory (Some example_ephemeral) 0 "rig-7"
    (mkMintKeystoreRequest (hex_encode (xa1 :: replicate 64 x33)) 1) s.

Lemma takeover_runs :
  match register_device takeover_request example_enrolled with
  | (s1, Ok _) => is_ok (takeover_mint s1).2
  | _ => false
  end = true.
Proof. vm_compute. reflexivity. Qed.

Lemma reregistration_redirects_keystore_witness : ∃ s1 d s2 envelope keystore,
  register_device takeover_request example_enrolled = (s1, Ok d) ∧
  device_status d = "enrolled" ∧ takeover_mint s1 = (s2, Ok envelope) ∧
  carries_keystore (drop 1 other_key) keystore envelope.
Proof.
  destruct (reregistration_redirects_keystore example_factory takeover_request
    example_enrolled _ (hex_encode other_key) eq_refl eq_refl (List.Forall_nil _))
    as (s1 & d & Hreg & Hst & _ & _ & _ & Hmint).
  pose proof takeover_runs as Hr. rewrite Hreg in Hr.
  destruct (takeover_mint s1) as [s2 [envelope|]] eqn:Hm; [|discriminate Hr].
  destruct (Hmint _ _ _ _ _ Hm) as (cose & key & keystore & Hc & Hk & Hcar).
  exists s1, d, s2, envelope, keystore.
  split; [exact Hreg|]. split; [exact Hst|]. split; [exact Hm|].
  rewrite trim_hex, hex_decode_encode in Hc. injection Hc as <-. injection Hk as <-. exact Hcar.
Defined.
