(* ===== verification/IdentityRouter.v ===== *)
(** The HTTP surface of Tower 1 (src/crates/identity-tower/src/main.rs): its routes,
    what each handler reads from a request and writes into its response (the serde
    attributes of devices.rs and keystore.rs), the typed client of
    src/crates/client/src/lib.rs talking to it, and the provisioning of a device
    through both towers. *)

From S2P Require Import Prelude Ext Wire Json Store Content Signer Client Web Cose Ca Roster.
From S2P Require Import HubDb Releases L1 Exchange Router Keystore.

(** * Routes *)

Inductive CaHandler :=
  | CaHealthz | CaGetVersion | Register | Enroll | MintKeystore | MintDelegateCert
  | CaCert | GetTrustBundle | ListDevices | GetDevice.

Definition ca_routes : Routes CaHandler :=
  [([Some "healthz"], [(Get, CaHealthz)]);
   ([Some "version"], [(Get, CaGetVersion)]);
   ([Some "admin"; Some "devices"], [(Post, Register)]);
   ([Some "admin"; Some "devices"; None; Some "enroll"], [(Post, Enroll)]);
   ([Some "admin"; Some "devices"; None; Some "keystore"], [(Post, MintKeystore)]);
   ([Some "admin"; Some "workshop"; Some "delegate-cert"], [(Post, MintDelegateCert)]);
   ([Some "admin"; Some "ca"; Some "cert"], [(Get, CaCert)]);
   ([Some "admin"; Some "ca"; Some "trust-bundle"], [(Get, GetTrustBundle)]);
   ([Some "devices"], [(Get, ListDevices)]);
   ([Some "devices"; None], [(Get, GetDevice)])].

Definition CA_VERSION : Version := mkVersion "sumo-ca" "0.0.0".

(** * Bodies and queries *)

(** [Query<EnrollParams>]; the default is applied by the handler. *)
Definition enroll_params_of_query (q : list (string * string)) : option (option string) :=
  query_field Some q "key_id".

(** [Json<MintKeystoreReq>]. *)
Definition mint_request_of_value (v : Value) : option MintKeystoreRequest :=
  l ← fields ["sw_authority_pubkey"; "security_version"] v;
  pubkey ← required l "sw_authority_pubkey" d_str;
  security_version ← defaulted l "security_version" d_u64 default_security_version;
  Some (mkMintKeystoreRequest pubkey security_version).

(** [Json<DelegateCertReq>]. *)
Definition delegate_req_of_value (v : Value) : option DelegateCertReq :=
  l ← fields ["scopes"; "cn"] v;
  scopes ← required l "scopes" d_str;
  cn ← defaulted l "cn" (λ v, Some <$> d_str v) None;
  Some (mkDelegateCertReq scopes cn).

Definition value_of_delegate_response (r : DelegateCertResponse) : Value :=
  VObj [("cert_pem", VStr (dcp_cert_pem r)); ("key_pem", VStr (dcp_key_pem r));
        ("ca_root_pem", VStr (dcp_ca_root_pem r))].

(** * Serving a request *)

(** What a request finds around it: the random source and the clock. *)
Record CaEnv `{X509, Suit} := mkCaEnv {
  ce_octets : array 20;
  ce_key : SigningKey;
  ce_ephemeral : option CoseKey;
  ce_now : Z;
}.

#[export] Instance roster_errors : AppErrors RosterError.
Proof. refine {| error_response := roster_response |}. by intros []. Defined.

Section serve.
Context `{X509, HexCodec, Sha256, Coset, Hsm, !KeystoreKit, Collation, WebStack}.
Context (auth : Authorities).

(** The router's handlers, with their captures, query and body. *)
Definition ca_handle (e : CaEnv) (h : CaHandler) (captures : list string)
    (query : list (string * string)) (body : Body) : RosterDb → RosterDb * Response :=
  match h, captures with
  | CaHealthz, _ => λ s, (s, respond_ok 200 (as_bytes "ok"))
  | CaGetVersion, _ => λ s, (s, respond_ok 200 (json_text (value_of_version CA_VERSION)))
  | Register, _ =>
      extracting (json_body register_of_value body) (λ req,
        respond_json value_of_device (register_device req))
  | Enroll, [id] =>
      extracting (query_of (enroll_params_of_query query)) (λ key_id,
        respond_json value_of_enroll
          (enroll_device auth (ce_octets e) (ce_now e) id key_id (body_bytes body)))
  | MintKeystore, [id] =>
      extracting (json_body mint_request_of_value body) (λ req,
        respond (respond_ok 200)
          (mint_keystore_endpoint auth (ce_ephemeral e) (ce_now e) id req))
  | MintDelegateCert, _ =>
      extracting (json_body delegate_req_of_value body) (λ req,
        respond_json value_of_delegate_response
          (lift (mint_delegate_cert auth (ce_key e) (ce_octets e) (ce_now e) req)))
  | CaCert, _ => respond (λ pem, respond_ok 200 (as_bytes pem)) (lift (ca_cert_handler auth))
  | GetTrustBundle, _ => respond_json value_of_trust_bundle (lift (trust_bundle auth))
  | ListDevices, _ => respond_json (λ l, VArr (value_of_device <$> l)) list_devices
  | GetDevice, [id] => respond_json value_of_device (get_device id)
  | _, _ => refuse 500
  end.

Definition ca_serve (e : CaEnv) : Server RosterDb := λ verb path query body,
  extracting (route ca_routes verb path) (λ '(h, captures), ca_handle e h captures query body).

(** Tower 1 at [url], for a client in the same process. *)
Definition ca_http (e : CaEnv) (url : string) : Http RosterDb := loopback url (ca_serve e).
End serve.

(** * The client over Tower 1 *)

Lemma mint_body_reads_back pubkey :
  mint_request_of_value (value_of_mint_keystore (mkMintKeystoreReq pubkey)) =
  Some (mkMintKeystoreRequest pubkey default_security_version).
Proof. done. Qed.

Section over_tower.
Context `{X509, HexCodec, Sha256, Coset, Hsm, !KeystoreKit, Collation, WebStack}.
Context (auth : Authorities) (e : CaEnv) (url : string) (c : TowerClient) (Hc : base c = url).
#[local] Hint Extern 0 (Http _) => exact (loopback url (ca_serve auth e)) : typeclass_instances.
Implicit Types (s : RosterDb) (id : string).

Lemma segment_avoids id : plain_segment id = true →
  avoids slash id = true ∧ avoids question id = true ∧ String.eqb id "" = false.
Proof.
  intros Hi. split; [|split]; [by apply plain_segment_avoids..|by apply plain_segment_nonempty].
Qed.

Lemma route_device id : plain_segment id = true →
  route ca_routes Get ("/devices/" +:+ id) = Ok (GetDevice, [id]).
Proof.
  intros (Ha & _ & Hn)%segment_avoids.
  transitivity (route_segments ca_routes Get ["devices"; id]).
  - apply (route_join ca_routes Get ["devices"; id]); auto.
  - unfold route_segments. cbn. by rewrite Hn.
Qed.

Lemma route_slot id op h : plain_segment id = true →
  op = "/enroll" ∧ h = Enroll ∨ op = "/keystore" ∧ h = MintKeystore →
  route ca_routes Post ("/admin/devices/" +:+ id +:+ op) = Ok (h, [id]).
Proof.
  intros (Ha & _ & Hn)%segment_avoids [[-> ->]|[-> ->]].
  - transitivity (route_segments ca_routes Post ["admin"; "devices"; id; "enroll"]).
    + apply (route_join ca_routes Post ["admin"; "devices"; id; "enroll"]); auto.
    + unfold route_segments. cbn. by rewrite Hn.
  - transitivity (route_segments ca_routes Post ["admin"; "devices"; id; "keystore"]).
    + apply (route_join ca_routes Post ["admin"; "devices"; id; "keystore"]); auto.
    + unfold route_segments. cbn. by rewrite Hn.
Qed.

Lemma register_over_tower req s :
  client_register_device c req s = outcome client_result (register_device req) s.
Proof.
  unfold client_register_device.
  rewrite (fetch_path url (ca_serve auth e) _ "/admin/devices" (register_device req)
    (λ d, respond_ok 200 (json_text (value_of_device d))) _ id).
  - unfold outcome. by destruct (register_device req s) as [s' []].
  - simpl. by rewrite Hc.
  - done.
  - change (extracting (json_body register_of_value (JsonBody (value_of_register req)))
      (λ req, respond_json value_of_device (register_device req)) s =
      respond (λ d, respond_ok 200 (json_text (value_of_device d))) (register_device req) s).
    unfold json_body. by rewrite register_value_roundtrip.
  - intros d s' _. split; [simpl; lia|]. apply read_json, device_value_roundtrip.
Qed.

Lemma list_over_tower s : client_list_devices c s = outcome client_result list_devices s.
Proof.
  unfold client_list_devices.
  rewrite (fetch_path url (ca_serve auth e) _ "/devices" list_devices
    (λ l, respond_ok 200 (json_text (VArr (value_of_device <$> l)))) _ id).
  - unfold outcome. by destruct (list_devices s) as [s' []].
  - simpl. by rewrite Hc.
  - done.
  - done.
  - intros l s' _. split; [simpl; lia|]. apply (read_json _ _ (λ l, VArr (value_of_device <$> l))).
    apply mapM_fmap_id, device_value_roundtrip.
Qed.

Lemma get_device_over_tower id s : plain_segment id = true →
  client_get_device c id s = outcome client_option (get_device id) s.
Proof.
  intros Hi. unfold client_get_device.
  rewrite (fetch_option_path url (ca_serve auth e) _ ("/devices/" +:+ id) (get_device id)
    (λ d, respond_ok 200 (json_text (value_of_device d))) _ (λ d, d)).
  - unfold outcome. destruct (get_device id s) as [s' []]; reflexivity.
  - simpl. by rewrite Hc.
  - exact (proj1 (proj2 (segment_avoids id Hi))).
  - unfold ca_serve. cbn [rq_method get verb_of]. by rewrite route_device.
  - intros d s' _. split; [simpl; lia|]. apply read_json, device_value_roundtrip.
Qed.

Lemma enroll_target (id key_id : string) : avoids question id = true →
  split_query ("/admin/devices/" +:+ id +:+ "/enroll?key_id=" +:+ key_id) =
  ("/admin/devices/" +:+ id +:+ "/enroll", query_pairs ("key_id=" +:+ key_id)).
Proof.
  intros Hq. unfold split_query.
  assert (split_once "?" ("/admin/devices/" +:+ id +:+ "/enroll?key_id=" +:+ key_id) =
    Some ("/admin/devices/" +:+ id +:+ "/enroll", "key_id=" +:+ key_id)) as ->; [|done].
  transitivity (split_once "?" (("/admin/devices/" +:+ id +:+ "/enroll") +:+
    String question ("key_id=" +:+ key_id))).
  - f_equal. by rewrite !sapp_assoc.
  - apply split_once_word. by rewrite !avoids_app, Hq.
Qed.

Lemma key_id_query (key_id : string) : plain_segment key_id = true →
  enroll_params_of_query (query_pairs ("key_id=" +:+ key_id)) = Some (Some key_id).
Proof.
  intros Hk. assert (avoids ampersand ("key_id=" +:+ key_id) = true) as Ha.
  { rewrite avoids_app. by apply (plain_segment_avoids ampersand) in Hk as ->. }
  assert (query_pairs ("key_id=" +:+ key_id) = [("key_id", key_id)]) as ->; [|done].
  unfold query_pairs. rewrite split_on_avoids by done. rewrite filter_cons_True by done.
  rewrite filter_nil, list_fmap_singleton.
  by assert (split_once "=" ("key_id=" +:+ key_id) = Some ("key_id", key_id)) as ->
    by exact (split_once_word (Ascii.ascii_of_nat 61) "key_id" key_id eq_refl).
Qed.

Lemma enroll_over_tower (id key_id : string) csr s :
  plain_segment id = true → plain_segment key_id = true →
  client_enroll c id key_id csr s =
  outcome client_result (enroll_device auth (ce_octets e) (ce_now e) id (Some key_id) csr) s.
Proof.
  intros Hi Hk. unfold client_enroll.
  set (m := enroll_device auth (ce_octets e) (ce_now e) id (Some key_id) csr).
  rewrite (fetch_served url (ca_serve auth e) _
    ("/admin/devices/" +:+ id +:+ "/enroll?key_id=" +:+ key_id)
    ("/admin/devices/" +:+ id +:+ "/enroll", query_pairs ("key_id=" +:+ key_id)) m
    (λ r, respond_ok 200 (json_text (value_of_enroll r))) _ (λ r, r)).
  - unfold outcome. destruct (m s) as [s' []]; reflexivity.
  - simpl. by rewrite Hc.
  - by apply enroll_target, segment_avoids.
  - cbn [fst snd rq_method post verb_of rq_query rq_body app]. unfold ca_serve.
    rewrite (route_slot id "/enroll" Enroll) by auto. cbn [extracting ca_handle].
    rewrite app_nil_r, key_id_query by done. done.
  - intros r s' _. split; [simpl; lia|]. apply read_json, enroll_value_roundtrip.
Qed.

Lemma mint_over_tower (id pubkey : string) s : plain_segment id = true →
  client_mint_keystore c id pubkey s =
  outcome client_result (mint_keystore_endpoint auth (ce_ephemeral e) (ce_now e) id
    (mkMintKeystoreRequest pubkey default_security_version)) s.
Proof.
  intros Hi. unfold client_mint_keystore. set (m := mint_keystore_endpoint _ _ _ _ _).
  destruct (segment_avoids id Hi) as (_ & Hq & _).
  rewrite (fetch_path url (ca_serve auth e) _ ("/admin/devices/" +:+ id +:+ "/keystore") m
    (respond_ok 200) _ (λ r, r)).
  - unfold outcome. destruct (m s) as [s' []]; reflexivity.
  - simpl. by rewrite Hc.
  - by rewrite !avoids_app, Hq.
  - unfold ca_serve. cbn [rq_method post verb_of].
    by rewrite (route_slot id "/keystore" MintKeystore) by auto.
  - intros r s' _. split; [simpl; lia|done].
Qed.

Lemma ca_cert_over_tower s :
  (∀ pem, ca_cert_handler auth = Ok pem → utf8_ok pem = true) →
  client_ca_cert c s = outcome client_result (lift (ca_cert_handler auth)) s.
Proof.
  intros Hu. unfold client_ca_cert.
  rewrite (fetch_path url (ca_serve auth e) _ "/admin/ca/cert" (lift (ca_cert_handler auth))
    (λ pem, respond_ok 200 (as_bytes pem)) _ (λ r, r)).
  - unfold outcome, lift. destruct (ca_cert_handler auth); reflexivity.
  - simpl. by rewrite Hc.
  - done.
  - done.
  - intros pem s' [= _ Hp]. split; [simpl; lia|]. apply Hu, bool_decide_eq_true in Hp.
    unfold resp_text, resp_bytes. simpl. by rewrite Hp.
Qed.

Lemma trust_bundle_over_tower s :
  client_trust_bundle c s = outcome client_result (lift (trust_bundle auth)) s.
Proof.
  unfold client_trust_bundle.
  rewrite (fetch_path url (ca_serve auth e) _ "/admin/ca/trust-bundle"
    (lift (trust_bundle auth))
    (λ b, respond_ok 200 (json_text (value_of_trust_bundle b))) _ (λ r, r)).
  - unfold outcome, lift. destruct (trust_bundle auth); reflexivity.
  - simpl. by rewrite Hc.
  - done.
  - done.
  - intros b s' _. split; [simpl; lia|]. apply read_json, trust_bundle_value_roundtrip.
Qed.
End over_tower.

(** * Properties *)

Section identity_properties.
Context `{X509, HexCodec, Sha256, Coset, Hsm, !KeystoreKit, Collation, WebStack}.
Context (auth : Authorities).

(** C13: the typed client over Tower 1's router is Tower 1's handlers: every call of the
    identity client reaches the handler it is meant for with the arguments it was given
    (the device in the path, the slot in the query, the request in the body), returns
    the handler's value unchanged, [None] for a device that is not registered, and
    otherwise the status of its error. *)
Theorem identity_client_over_tower (e : CaEnv) (c : TowerClient) (s : RosterDb)
    (req : RegisterDevice) (id key_id : string) (csr : list byte) (pubkey : string)
    (Hid : plain_segment id = true) (Hkey : plain_segment key_id = true)
    (Hpem : ∀ pem, ca_cert_handler auth = Ok pem → utf8_ok pem = true) :
  let _ : Http RosterDb := ca_http auth e (base c) in
  client_register_device c req s = outcome client_result (register_device req) s ∧
  client_list_devices c s = outcome client_result list_devices s ∧
  client_get_device c id s = outcome client_option (get_device id) s ∧
  client_enroll c id key_id csr s = outcome client_result
    (enroll_device auth (ce_octets e) (ce_now e) id (Some key_id) csr) s ∧
  client_mint_keystore c id pubkey s = outcome client_result
    (mint_keystore_endpoint auth (ce_ephemeral e) (ce_now e) id
       (mkMintKeystoreRequest pubkey default_security_version)) s ∧
  client_ca_cert c s = outcome client_result (lift (ca_cert_handler auth)) s ∧
  client_trust_bundle c s = outcome client_result (lift (trust_bundle auth)) s.
Proof.
  intros Hhttp.
  split; [by apply register_over_tower|].
  split; [by apply list_over_tower|].
  split; [by apply get_device_over_tower|].
  split; [by apply enroll_over_tower|].
  split; [by apply mint_over_tower|].
  split; [by apply ca_cert_over_tower|by apply trust_bundle_over_tower].
Qed.

(** An id of plain characters and slashes, with at least one slash. *)
Definition slashed_id (id : string) : bool :=
  all_chars (λ a, plain_char a || Ascii.eqb a slash) id && negb (avoids slash id).

(** It makes a path of more segments than any route has for it. *)
Lemma slashed_unrouted id :
  slashed_id id = true →
  route ca_routes Get ("/devices/" +:+ id) = Err 404%Z ∧
  ∀ op, avoids slash op = true →
    route ca_routes Post ("/admin/devices/" +:+ id +:+ "/" +:+ op) = Err 404%Z.
Proof.
  intros [_ Hs%negb_true_iff%split_on_contains]%andb_true_iff. split.
  - unfold route.
    assert (split_on slash ("/devices/" +:+ id) = "" :: "devices" :: split_on slash id) as ->.
    { change ("/devices/" +:+ id) with ("" +:+ String slash ("devices" +:+ String slash id)).
      by rewrite !split_on_app. }
    destruct (split_on slash id) as [|v [|w ws]]; simpl in Hs; [lia|lia|].
    unfold route_segments. cbn. by destruct (String.eqb v "").
  - intros op Hop. unfold route.
    assert (split_on slash ("/admin/devices/" +:+ id +:+ "/" +:+ op) =
      "" :: "admin" :: "devices" :: split_on slash id ++ [op]) as ->.
    { change ("/admin/devices/" +:+ id +:+ "/" +:+ op) with
        ("" +:+ String slash ("admin" +:+ String slash ("devices" +:+ String slash
          (id +:+ String slash op)))).
      rewrite !split_on_app. by rewrite (split_on_avoids slash op). }
    apply route_length. cbn [length]. rewrite length_app. simpl.
    repeat constructor; simpl; lia.
Qed.

Lemma slashed_avoids_question id : slashed_id id = true → avoids question id = true.
Proof.
  intros [Hs _]%andb_true_iff. by apply (all_chars_avoids (λ a, plain_char a || Ascii.eqb a slash)).
Qed.

(** C34: a device whose id contains a slash can be registered but not reached again: the
    id goes into the path unescaped, so that looking the device up answers [None], as if
    it had never been registered, and enrolling it or minting its keystore is [404],
    whatever the roster holds.  The registration succeeds unless a statement fails, and the
    device is in the roster.  The ids are those of letters, digits, [-], [_] and slashes, in
    any arrangement: with other characters (dot segments among them) the URL parser may
    change the path before it is sent. *)
Theorem slashed_id_unreachable (e : CaEnv) (c : TowerClient) (s : RosterDb)
    (id key_id : string) (model key : option string) (csr : list byte) (pubkey : string)
    (Hid : slashed_id id = true) (Hq : no_faults (roster_faults s)) :
  let _ : Http RosterDb := ca_http auth e (base c) in
  (∃ s1 d, client_register_device c (mkRegisterDevice id model key) s = (s1, Ok d) ∧
     device_id d = id ∧ is_Some (devices s1 !! id)) ∧
  ∀ s2 : RosterDb,
    client_get_device c id s2 = (s2, Ok None) ∧
    client_enroll c id key_id csr s2 = (s2, Err (HttpErr (StatusError 404))) ∧
    client_mint_keystore c id pubkey s2 = (s2, Err (HttpErr (StatusError 404))).
Proof.
  intros Hhttp. destruct (slashed_unrouted id Hid) as [Hget Hpost].
  pose proof (slashed_avoids_question id Hid) as Hqid. split.
  { destruct (register_device_quiet (mkRegisterDevice id model key) s Hq)
      as (s1 & row & Hreg & Hdev & _).
    eexists s1, _. split; [|split].
    - unfold Hhttp, ca_http. rewrite (register_over_tower auth e (base c) c eq_refl).
      unfold outcome. rewrite Hreg. reflexivity.
    - done.
    - by rewrite Hdev, lookup_insert_eq. }
  intros s2. split; [|split].
  - apply (fetch_option_unrouted (base c) (ca_serve auth e) _ ("/devices/" +:+ id)
      ("/devices/" +:+ id, [])).
    + done.
    + by apply split_query_plain.
    + unfold ca_serve. cbn [rq_method get verb_of fst]. by rewrite Hget.
  - apply (fetch_refused (base c) (ca_serve auth e) _
      ("/admin/devices/" +:+ id +:+ "/enroll?key_id=" +:+ key_id)
      ("/admin/devices/" +:+ id +:+ "/enroll", query_pairs ("key_id=" +:+ key_id))).
    + done.
    + by apply enroll_target.
    + lia.
    + unfold ca_serve. cbn [rq_method post verb_of fst].
      by rewrite (Hpost "enroll" eq_refl : route _ _ ("/admin/devices/" +:+ id +:+ "/enroll") = _).
  - apply (fetch_refused (base c) (ca_serve auth e) _
      ("/admin/devices/" +:+ id +:+ "/keystore") ("/admin/devices/" +:+ id +:+ "/keystore", [])).
    + done.
    + apply split_query_plain. by rewrite !avoids_app, Hqid.
    + lia.
    + unfold ca_serve. cbn [rq_method post verb_of fst].
      by rewrite (Hpost "keystore" eq_refl
        : route _ _ ("/admin/devices/" +:+ id +:+ "/keystore") = _).
Qed.

(** A mint over HTTP that answered bytes is a mint that succeeded. *)
Lemma minted_inv e c id pubkey s s' envelope :
  plain_segment id = true →
  client_mint_keystore (H := ca_http auth e (base c)) c id pubkey s = (s', Ok envelope) →
  mint_keystore_endpoint auth (ce_ephemeral e) (ce_now e) id
    (mkMintKeystoreRequest pubkey default_security_version) s = (s', Ok envelope).
Proof.
  intros Hi Hm. unfold ca_http in Hm.
  rewrite (mint_over_tower auth e (base c) c eq_refl id pubkey s Hi) in Hm.
  unfold outcome in Hm. by destruct (mint_keystore_endpoint _ _ _ _ _ s) as [? []]; simplify_eq/=.
Qed.

Lemma enrolled_inv e c id key_id csr s s' resp :
  plain_segment id = true → plain_segment key_id = true →
  client_enroll (H := ca_http auth e (base c)) c id key_id csr s = (s', Ok resp) →
  enroll_device auth (ce_octets e) (ce_now e) id (Some key_id) csr s = (s', Ok resp).
Proof.
  intros Hi Hk Hm. unfold ca_http in Hm.
  rewrite (enroll_over_tower auth e (base c) c eq_refl id key_id csr s Hi Hk) in Hm.
  unfold outcome in Hm. by destruct (enroll_device _ _ _ _ _ _ s) as [? []]; simplify_eq/=.
Qed.
End identity_properties.

(** * Provisioning a device through both towers *)

Section provisioning.
Context `{X509, HexCodec, Sha256, StreamAead, Zstd, RowOrder, Coset, Hsm, !KeystoreKit}.
Context `{Collation, WebStack} {B I : Type} `{BlobStore B, ArtifactIndex I}.
Context (auth : Authorities).

(** C7: provisioning a device.  When the operator enrolled a device's decryption CSR with
    Tower 1 and later minted its keystore with the public key that Tower 2 answered, and
    nobody re-registered the device in between, then the envelope opens with the key of
    that very CSR, to a keystore that anchors Tower 2's signing key as the software
    authority and Tower 1's own key as the key authority, with the leaf on record and
    the delegation root. *)
Theorem provisioned_keystore_opens (env : Env) (e1 e2 : CaEnv) (hc c : TowerClient)
    (hub hub' : AppState B I HubDb Signer) (s0 s1 s1' s2 : RosterDb) (id : string)
    (csr sw_pubkey envelope : list byte) resp
    (Hid : plain_segment id = true)
    (Henroll : client_enroll (H := ca_http auth e1 (base c)) c id "device-decrypt" csr s0 =
      (s1, Ok resp))
    (Hsame : devices s1' !! id = devices s1 !! id)
    (Hhub : client_signer_pubkey (H := hub_http env (base hc)) hc hub = (hub', Ok sw_pubkey))
    (Hmint : client_mint_keystore (H := ca_http auth e2 (base c)) c id (hex_encode sw_pubkey)
      s1' = (s2, Ok envelope)) :
  ∃ req sec1 key sw ka root,
    parse_and_verify_csr csr = Some req ∧ spki_octets (csr_spki req) = Some (slice sec1) ∧
    cose_parse (sec1_to_cose sec1) = Some key ∧
    cose_to_sec1 (public_key_cbor (app_signer hub)) = Some sw ∧
    public_sec1 (key_authority_ca auth) = Some ka ∧
    root_cert_der (delegation_ca auth) = Some root ∧
    let keystore := assemble_keystore sw ka 1
      (dc_der <$> device_certs s1' !! (id, "tls-identity")) root in
    carries_keystore key keystore envelope ∧
    Forall2 (slot_of sw ka) mandatory_roles (ks_slots keystore).
Proof.
  apply minted_inv, mint_endpoint_spec in Hmint; [|done].
  apply enrolled_inv in Henroll; [|done..].
  destruct Hmint as (_ & key & sw & ka & root & sw_cose & Hkey & Hsw & Hsec & Hka & Hroot & Hks).
  assert (enroll_decrypt id "device-decrypt" csr s0 = (s1, Ok resp)) as He by exact Henroll.
  apply enroll_decrypt_spec in He.
  destruct He as (req & sec1 & old & Hreq & Hoct & Hold & Hd & _ & _ & _).
  unfold hub_http in Hhub. rewrite (pubkey_over_hub env (base hc)) in Hhub by done.
  injection Hhub as _ Hpk. unfold signer_pubkey in Hpk. subst sw_pubkey.
  simpl in Hsw. rewrite trim_hex, hex_decode_encode in Hsw. injection Hsw as <-.
  unfold registered_key in Hkey. rewrite Hsame, Hd, lookup_insert_eq in Hkey. simpl in Hkey.
  rewrite trim_hex, hex_decode_encode in Hkey. simpl in Hkey.
  exists req, sec1, key, sw, ka, root. destruct Hks as (Hcar & Hslots & _).
  do 6 (split; [done|]). by split.
Qed.
End provisioning.

(** * Witnesses *)

#[local] Existing Instances toy_hsm toy_kit factory_x509.
#[local] Instance any_order : Collation := {| text_le := λ _ _, true |}.

Definition example_ca_tower : TowerClient := tower_new "http://ca:8080/".

Definition example_ca_env : CaEnv :=
  mkCaEnv _ _ (fill 20 x00) example_point (Some ([x0e] : CoseKey)) 0.

(** A hub whose key is a point. *)
Definition keyed_hub : AppState Fs PgIndex HubDb Signer :=
  mkAppState (mkFs ∅ 7 0 []) (mkPgIndex ∅ []) None (mkSigner (replicate 64 x33 : CoseKey)).

Abbreviation ca_here := (ca_http example_factory example_ca_env (base example_ca_tower)).

Lemma identity_client_over_tower_witness :
  client_get_device (H := ca_here) example_ca_tower "rig-8" example_roster =
    (example_roster, Ok None) ∧
  ∃ d, client_get_device (H := ca_here) example_ca_tower "rig-7" example_roster =
    (example_roster, Ok (Some d)).
Proof.
  assert (∀ pem, ca_cert_handler example_factory = Ok pem → utf8_ok pem = true) as Hpem
    by (vm_compute; intros pem [= <-]; reflexivity).
  pose proof (λ id Hid, identity_client_over_tower example_factory example_ca_env
    example_ca_tower example_roster (mkRegisterDevice "rig-8" None None) id "tls-identity"
    [] "" Hid eq_refl Hpem) as Hall.
  split.
  - destruct (Hall "rig-8" eq_refl) as (_ & _ & Hg & _). etrans; [exact Hg|reflexivity].
  - destruct (Hall "rig-7" eq_refl) as (_ & _ & Hg & _). eexists.
    etrans; [exact Hg|]. vm_compute. reflexivity.
Defined.

Lemma slashed_id_unreachable_witness :
  slashed_id "fleet/7//rig" = true ∧
  ∃ s1 d, client_register_device (H := ca_here) example_ca_tower
      (mkRegisterDevice "fleet/7//rig" None None) example_roster = (s1, Ok d) ∧
    is_Some (devices s1 !! "fleet/7//rig") ∧
    client_get_device (H := ca_here) example_ca_tower "fleet/7//rig" s1 = (s1, Ok None).
Proof.
  split; [reflexivity|].
  destruct (slashed_id_unreachable example_factory example_ca_env example_ca_tower
    example_roster "fleet/7//rig" "tls-identity" None None [] "" eq_refl (List.Forall_nil _))
    as [(s1 & d & Hreg & _ & Hin) Hall].
  exists s1, d. split; [exact Hreg|]. split; [exact Hin|]. exact (proj1 (Hall s1)).
Defined.

Abbreviation ca_enroll := (client_enroll (H := ca_here) example_ca_tower "rig-7" "device-decrypt"
  (x30 :: example_point) example_roster).
Abbreviation ca_mint s := (client_mint_keystore (H := ca_here) example_ca_tower "rig-7"
  (hex_encode (xa1 :: replicate 64 x33)) s).

Lemma example_provisioning :
  match ca_enroll with (s1, Ok _) => is_ok (ca_mint s1).2 | _ => false end = true.
Proof. vm_compute. reflexivity. Qed.

Lemma provisioned_keystore_opens_witness : ∃ key keystore envelope s1 s2,
  ca_mint s1 = (s2, Ok envelope) ∧ carries_keystore key keystore envelope.
Proof.
  pose proof example_provisioning as Hr.
  destruct ca_enroll as [s1 [resp|]] eqn:He; [|discriminate Hr].
  destruct (ca_mint s1) as [s2 [envelope|]] eqn:Hm; [|discriminate Hr].
  destruct (provisioned_keystore_opens example_factory example_env example_ca_env
    example_ca_env example_tower example_ca_tower keyed_hub keyed_hub example_roster s1 s1 s2
    "rig-7" (x30 :: example_point) (xa1 :: replicate 64 x33) envelope resp eq_refl He eq_refl
    eq_refl Hm) as (req & sec1 & key & sw & ka & root & _ & _ & _ & _ & _ & _ & Hcar & _).
  eexists key, _, envelope, s1, s2. split; [exact Hm|exact Hcar].
Defined.
