(* ===== verification/Vhsm.v ===== *)
(** Off-box vHSM provisioning (src/crates/cli/src/vhsm.rs): validity windows, the
    claims of a minted CWT, bootstrap tokens and the YAML entry that records one. *)

From S2P Require Import Prelude Ext Wire.

(** * The CWT *)

Record ValidityWindow := mkValidityWindow {
  vw_iat : Z;
  vw_nbf : Z;
  vw_exp : Z;
}.

(** [ValidityWindow::from_now]. *)
Definition from_now (now_unix lifetime_secs : Z) : ValidityWindow :=
  mkValidityWindow now_unix now_unix (saturating_add_u64 now_unix lifetime_secs).

(** The CBOR values of the claims (ciborium). *)
Inductive CborValue :=
  | CborInteger (z : Z)
  | CborText (s : string)
  | CborBytes (b : list byte)
  | CborMap (l : list (CborValue * CborValue)).

(** An EC2 COSE_Key as the coset crate builds it: algorithm and parameters. *)
Record CnfKey := mkCnfKey {
  cnf_alg_es256 : bool;
  cnf_params : list (Z * CborValue);
}.

(** vhsm-proto's labels, and coset, ciborium and p256. *)
Class Cwt := {
  CLAIM_ISS : Z; CLAIM_SUB : Z; CLAIM_AUD : Z; CLAIM_EXP : Z; CLAIM_NBF : Z; CLAIM_IAT : Z;
  CLAIM_CTI : Z; CLAIM_CNF : Z;
  VHSM_AUDIENCE : string;
  COSE_KEY_EC2_CRV : Z; COSE_KEY_EC2_X : Z; COSE_KEY_EC2_Y : Z;
  CURVE_P_256 : Z;
  cnf_to_cbor : CnfKey → option CborValue;
  cbor_encode : CborValue → option (list byte);
  CwtKey : Type;
  sign1_es256 : CwtKey → list byte → option (list byte);
}.

Section cwt.
Context `{Cwt}.

(** The confirmation claim: the guest's key under label 1. *)
Definition cnf_claim (cnf_pub_x cnf_pub_y : list byte) : option CborValue :=
  key ← cnf_to_cbor (mkCnfKey true
    [(COSE_KEY_EC2_CRV, CborInteger CURVE_P_256); (COSE_KEY_EC2_X, CborBytes cnf_pub_x);
     (COSE_KEY_EC2_Y, CborBytes cnf_pub_y)]);
  Some (CborMap [(CborInteger 1, key)]).

(** The claims map, in the order it is written. *)
Definition cwt_claims (subject issuer : string) (validity : ValidityWindow)
    (cti : array 16) (cnf : CborValue) : CborValue :=
  CborMap [
    (CborInteger CLAIM_ISS, CborText issuer);
    (CborInteger CLAIM_SUB, CborText subject);
    (CborInteger CLAIM_AUD, CborText VHSM_AUDIENCE);
    (CborInteger CLAIM_EXP, CborInteger (vw_exp validity));
    (CborInteger CLAIM_NBF, CborInteger (vw_nbf validity));
    (CborInteger CLAIM_IAT, CborInteger (vw_iat validity));
    (CborInteger CLAIM_CTI, CborBytes (slice cti));
    (CborInteger CLAIM_CNF, cnf)].

(** [mint_cwt], given the random token id. *)
Definition mint_cwt (signing_key : CwtKey) (subject issuer : string)
    (cnf_pub_x cnf_pub_y : list byte) (validity : ValidityWindow) (cti : array 16) :
    option (list byte) :=
  if bool_decide (length cnf_pub_x ≠ 32 ∨ length cnf_pub_y ≠ 32) then None
  else
    cnf ← cnf_claim cnf_pub_x cnf_pub_y;
    payload ← cbor_encode (cwt_claims subject issuer validity cti cnf);
    sign1_es256 signing_key payload.
End cwt.

(** * Bootstrap tokens *)

Definition TOKEN_LEN : nat := 32.

(** [generate_token] fills the token with random octets. *)
Definition generate_token (rng : array TOKEN_LEN) : array TOKEN_LEN := rng.

Definition token_sha256_hex `{HexCodec, Sha256} (raw_token : list byte) : string :=
  hex_encode (slice (sha_finalize (sha_update sha_new raw_token))).

Definition backslash : Ascii.ascii := Ascii.ascii_of_nat 92.

(** [str::replace] of a character. *)
Fixpoint replace_char (c : Ascii.ascii) (by_ s : string) : string :=
  match s with
  | EmptyString => EmptyString
  | String a s' => if Ascii.eqb a c then by_ +:+ replace_char c by_ s'
                   else String a (replace_char c by_ s')
  end.

(** [yaml_escape]. *)
Definition yaml_escape (s : string) : string :=
  replace_char quote (String backslash (String quote ""))
    (replace_char backslash (String backslash (String backslash "")) s).

Definition quoted (s : string) : string := String quote (s +:+ String quote "").

(** [bootstrap_yaml_fragment] and [bootstrap_yaml_document]. *)
Definition bootstrap_yaml_fragment (vm_id sha256_hex : string) : string :=
  "  " +:+ quoted (yaml_escape vm_id) +:+ ":" +:+ nl +:+
  "    sha256: " +:+ quoted sha256_hex +:+ nl +:+ "    consumed: false" +:+ nl.

Definition bootstrap_yaml_document (vm_id sha256_hex : string) : string :=
  "tokens:" +:+ nl +:+ bootstrap_yaml_fragment vm_id sha256_hex.

(** * Properties *)

Lemma yaml_escape_nil : yaml_escape "" = "".
Proof. reflexivity. Qed.

Lemma replace_char_app c r s t :
  replace_char c r (s +:+ t) = replace_char c r s +:+ replace_char c r t.
Proof.
  str_induction s. destruct (Ascii.eqb a c); rewrite IH; [by rewrite sapp_assoc|done].
Qed.

(** Escaping one character at a time. *)
Lemma yaml_escape_cons a s :
  yaml_escape (String a s) =
  (if Ascii.eqb a backslash then String backslash (String backslash "")
   else if Ascii.eqb a quote then String backslash (String quote "")
   else String a "") +:+ yaml_escape s.
Proof.
  unfold yaml_escape. cbn [replace_char].
  destruct (Ascii.eqb_spec a backslash) as [->|Ha].
  - by rewrite replace_char_app.
  - cbn [replace_char]. by destruct (Ascii.eqb a quote).
Qed.

(** An escaped text ends at the first quote that is not escaped. *)
Lemma yaml_escape_inj s t r r' :
  yaml_escape s +:+ String quote r = yaml_escape t +:+ String quote r' → s = t ∧ r = r'.
Proof.
  assert (∀ a s, ∃ b l, yaml_escape (String a s) = String b l ∧ b ≠ quote) as Hhead.
  { intros a u. rewrite yaml_escape_cons.
    destruct (Ascii.eqb_spec a backslash); [by eexists _, _|].
    destruct (Ascii.eqb_spec a quote); by eexists _, _. }
  revert t. induction s as [|a s IH]; intros [|b t].
  - rewrite yaml_escape_nil, !sapp_nil_l. by intros [= ->].
  - destruct (Hhead b t) as (c & l & -> & Hc). rewrite yaml_escape_nil, sapp_nil_l, sapp_cons.
    intros [= Heq _]. by destruct Hc.
  - destruct (Hhead a s) as (c & l & -> & Hc). rewrite yaml_escape_nil, sapp_nil_l, sapp_cons.
    by intros [= -> _].
  - rewrite !yaml_escape_cons.
    destruct (Ascii.eqb_spec a backslash) as [->|Ha]; [|destruct (Ascii.eqb_spec a quote) as [->|Ha']];
    (destruct (Ascii.eqb_spec b backslash) as [->|Hb]; [|destruct (Ascii.eqb_spec b quote) as [->|Hb']]);
    rewrite ?sapp_cons, ?sapp_nil_l; intros Heq; injection Heq; clear Heq; intros;
    try (exfalso; congruence); try done;
    match goal with H : yaml_escape _ +:+ _ = _ |- _ => destruct (IH t H) as [-> ->] end;
    split; congruence.
Qed.

(** A bootstrap file, of one of the two shapes. *)
Definition bootstrap_text (standalone : bool) (vm_id sha256_hex : string) : string :=
  if standalone then bootstrap_yaml_document vm_id sha256_hex
  else bootstrap_yaml_fragment vm_id sha256_hex.

Lemma bootstrap_fragment_inj vm_id vm_id' sha sha' :
  bootstrap_yaml_fragment vm_id sha = bootstrap_yaml_fragment vm_id' sha' →
  vm_id = vm_id' ∧ sha = sha'.
Proof.
  assert (∀ v h, bootstrap_yaml_fragment v h = ("  " +:+ String quote "") +:+
    (yaml_escape v +:+ String quote (":" +:+ nl +:+ "    sha256: " +:+ String quote
      (h +:+ (String quote "" +:+ nl +:+ "    consumed: false" +:+ nl))))) as Hfrag.
  { intros v h. unfold bootstrap_yaml_fragment, quoted.
    repeat first [rewrite sapp_assoc | progress autorewrite with sumo_rw]; done. }
  rewrite !Hfrag. intros [-> Heq]%(inj (String.append _))%yaml_escape_inj. split; [done|].
  do 3 apply (inj (String.append _)) in Heq. injection Heq as Heq.
  apply (f_equal as_bytes) in Heq. rewrite !as_bytes_app in Heq.
  by apply app_inv_tail, as_bytes_inj in Heq.
Qed.

(** The text of a file determines its shape, the guest and the hash. *)
Lemma bootstrap_text_inj standalone standalone' vm_id vm_id' sha sha' :
  bootstrap_text standalone vm_id sha = bootstrap_text standalone' vm_id' sha' →
  standalone = standalone' ∧ vm_id = vm_id' ∧ sha = sha'.
Proof.
  destruct standalone, standalone'; simpl; unfold bootstrap_yaml_document.
  - by intros ?%(inj (String.append _))%(inj (String.append _))%bootstrap_fragment_inj.
  - by intros [=].
  - by intros [=].
  - by intros ?%bootstrap_fragment_inj.
Qed.

Section cwt_spec.
Context `{Cwt}.

(** C40: what a minted token states.  Minting succeeds only for a confirmation key of
    two 32-octet coordinates; the signed payload is the encoding of the claims for
    that subject and issuer, for the one audience, with the guest's key under the
    confirmation label; and its window opens at the time of minting, never closes
    before it opens, lasts the asked lifetime unless that leaves 64 bits, and stays
    within 64 bits. *)
Theorem mint_cwt_states (key : CwtKey) (subject issuer : string) (x y : list byte)
    (now lifetime : Z) (cti : array 16) (cwt : list byte)
    (Hnow : u64_ok now) (Hlife : u64_ok lifetime)
    (Hmint : mint_cwt key subject issuer x y (from_now now lifetime) cti = Some cwt) :
  length x = 32 ∧ length y = 32 ∧
  ∃ cnf exp payload, cnf_claim x y = Some cnf ∧
    cbor_encode (CborMap [
      (CborInteger CLAIM_ISS, CborText issuer); (CborInteger CLAIM_SUB, CborText subject);
      (CborInteger CLAIM_AUD, CborText VHSM_AUDIENCE); (CborInteger CLAIM_EXP, CborInteger exp);
      (CborInteger CLAIM_NBF, CborInteger now); (CborInteger CLAIM_IAT, CborInteger now);
      (CborInteger CLAIM_CTI, CborBytes (slice cti)); (CborInteger CLAIM_CNF, cnf)]) =
      Some payload ∧
    sign1_es256 key payload = Some cwt ∧
    u64_ok exp ∧ (now ≤ exp)%Z ∧
    (exp = now + lifetime ∨ two64 ≤ now + lifetime ∧ exp = two64 - 1)%Z.
Proof.
  unfold mint_cwt in Hmint. case_bool_decide as Hlen; [done|].
  apply Decidable.not_or in Hlen as [Hx%dec_stable Hy%dec_stable].
  apply bind_Some in Hmint as (cnf & Hcnf & Hmint).
  apply bind_Some in Hmint as (payload & Hp & Hsign).
  split_and!; [done..|]. exists cnf, (vw_exp (from_now now lifetime)), payload. split; [done|]. split; [exact Hp|].
  cbn [vw_exp from_now].
  split; [done|]. unfold u64_ok, saturating_add_u64 in *. lia.
Qed.
End cwt_spec.

(** Labels in the order of the claims, and a signer that prefixes the payload. *)
#[local] Instance toy_cwt : Cwt := {|
  CLAIM_ISS := 1; CLAIM_SUB := 2; CLAIM_AUD := 3; CLAIM_EXP := 4; CLAIM_NBF := 5;
  CLAIM_IAT := 6; CLAIM_CTI := 7; CLAIM_CNF := 8;
  VHSM_AUDIENCE := "vhsm";
  COSE_KEY_EC2_CRV := -1; COSE_KEY_EC2_X := -2; COSE_KEY_EC2_Y := -3; CURVE_P_256 := 1;
  cnf_to_cbor := λ k, Some (CborMap ((λ p, (CborInteger p.1, p.2)) <$> cnf_params k));
  cbor_encode := λ v, match v with CborMap l => Some (replicate (length l) xbf) | _ => None end;
  CwtKey := byte;
  sign1_es256 := λ k p, Some (k :: p);
|}.

(** A lifetime that does not fit saturates. *)
Lemma mint_cwt_states_witness :
  mint_cwt (xaa : CwtKey) "guest" "fleet" (replicate 32 x01) (replicate 32 x02)
    (from_now 1000 (two64 - 1)) (fill 16 x00) = Some (xaa :: replicate 8 xbf) ∧
  vw_exp (from_now 1000 (two64 - 1)) = (two64 - 1)%Z ∧
  ∃ cnf, cnf_claim (replicate 32 x01) (replicate 32 x02) = Some cnf.
Proof.
  assert (mint_cwt (xaa : CwtKey) "guest" "fleet" (replicate 32 x01) (replicate 32 x02)
    (from_now 1000 (two64 - 1)) (fill 16 x00) = Some (xaa :: replicate 8 xbf)) as Hm
    by (vm_compute; reflexivity).
  split; [exact Hm|]. split; [vm_compute; reflexivity|].
  destruct (mint_cwt_states _ _ _ _ _ 1000 (two64 - 1) _ _ ltac:(by split) ltac:(by split) Hm)
    as (_ & _ & cnf & _ & _ & Hc & _).
  exact (ex_intro _ cnf Hc).
Defined.
