(* ===== verification/Operator.v ===== *)
(** The operator's hub and ca commands (src/crates/cli/src/main.rs, [run_hub] and
    [run_ca]): the client calls between the files they read and the files they
    write.  What goes to standard output is the value a command returns ([Commands]
    prints it); messages on standard error, and file modes, are left out. *)

From S2P Require Import Prelude Ext Wire Json Store Content Signer Client Cose Vhsm.

(** What a command fails with. *)
Inductive OperatorError :=
  | OpClient (e : ClientError)
  | OpIo
  | OpText (text : string).

(** The operator's machine: the network, its files, and the file operations to
    come; a write that fails may leave a prefix of the new content. *)
Record Host (W : Type) := mkHost {
  host_world : W;
  host_files : gmap string (list byte);
  host_faults : faults;
}.
Arguments mkHost {_} _ _ _.
Arguments host_world {_} _.
Arguments host_files {_} _.
Arguments host_faults {_} _.

(** [Path::join] with a non-empty name: an absolute one replaces the directory. *)
Definition path_join (dir name : string) : string :=
  match name with
  | String a _ =>
      if Ascii.eqb a slash then name
      else if bool_decide (dir = "" ∨ trim_end_matches slash dir ≠ dir) then dir +:+ name
      else dir +:+ "/" +:+ name
  | EmptyString => dir
  end.

(** The file of one trust anchor. *)
Definition anchor_path (out name : string) : string := path_join out (name +:+ "-root.pem").

Section host.
Context {W : Type}.

Definition set_file (path : string) (b : list byte) (s : Host W) : Host W :=
  mkHost (host_world s) (<[path := b]> (host_files s)) (host_faults s).

(** One file operation, as the environment lets it run. *)
Definition io {A} (f : Host W → Host W * result OperatorError A)
    (torn : nat → Host W → Host W) : act (Host W) OperatorError A := λ s,
  let '(flt, fs) := next_fault (host_faults s) in
  let s := mkHost (host_world s) (host_files s) fs in
  match flt with
  | None => f s
  | Some n => (torn n s, Err OpIo)
  end.

(** [std::fs::read]. *)
Definition fs_read (path : string) : act (Host W) OperatorError (list byte) :=
  io (λ s, (s, ok_or OpIo (host_files s !! path))) (λ _ s, s).

(** [std::fs::read_to_string]: the bytes must be UTF-8. *)
Definition fs_read_to_string (path : string) : act (Host W) OperatorError string :=
  b ← fs_read path;
  let text := String.string_of_list_byte b in
  lift (if utf8_ok text then Ok text else Err OpIo).

(** [std::fs::write]: not opened, or cut short, when it fails. *)
Definition fs_write (path : string) (b : list byte) : act (Host W) OperatorError () :=
  io (λ s, (set_file path b s, Ok tt))
    (λ n s, match n with O => s | S n => set_file path (take n b) s end).

(** [std::fs::create_dir_all]; directories are not part of the state. *)
Definition fs_create_dir_all (path : string) : act (Host W) OperatorError () :=
  io (λ s, (s, Ok tt)) (λ _ s, s).

(** A client call from a command. *)
Definition on_network {A} (m : act W ClientError A) : act (Host W) OperatorError A := λ s,
  let '(w, r) := m (host_world s) in
  (mkHost w (host_files s) (host_faults s), map_err OpClient r).

(** The tail of the commands with an optional [--out]: the file, or the value to
    print. *)
Definition write_or_print (out : option string) (b : list byte) :
    act (Host W) OperatorError (option (list byte)) :=
  match out with
  | Some path => _ ← fs_write path b; mret None
  | None => mret (Some b)
  end.
End host.

Section operator.
Context {W : Type} `{Http W, HexCodec, Sha256}.

(** [ping]: whether the tower is healthy, and its version. *)
Definition ping (url : string) : act (Host W) OperatorError (bool * Version) :=
  let tower := tower_new url in
  ok ← on_network (healthy tower);
  v ← on_network (version tower);
  mret (ok, v).

(** [HubCmd::Publish], [Get] and [Channel]. *)
Definition hub_publish (url file : string) : act (Host W) OperatorError ArtifactRef :=
  bytes ← fs_read file;
  on_network (publish_artifact (tower_new url) bytes).

Definition hub_get (url hash : string) (out : option string) :
    act (Host W) OperatorError (option (list byte)) :=
  outer ← lift (map_err (λ _, OpText ("invalid hash: " +:+ hash)) (from_str hash));
  found ← on_network (client_get_blob (tower_new url) outer);
  bytes ← lift (ok_or (OpText ("no blob " +:+ to_prefixed outer)) found);
  write_or_print out bytes.

Definition hub_channel (url name : string) (device architecture : option string) :
    act (Host W) OperatorError Tree :=
  found ← on_network (client_channel_target_tree (tower_new url) name device architecture);
  lift (ok_or (OpText ("channel '" +:+ name +:+ "' not found on " +:+ url)) found).

(** [CaCmd::Register], [Devices] and [Device]. *)
Definition ca_register (url id : string) (model pubkey_file : option string) :
    act (Host W) OperatorError Device :=
  pubkey ← match pubkey_file with
           | Some path => text ← fs_read_to_string path; mret (Some (trim text))
           | None => mret None
           end;
  on_network (client_register_device (tower_new url) (mkRegisterDevice id model pubkey)).

Definition ca_devices (url : string) : act (Host W) OperatorError (list Device) :=
  on_network (client_list_devices (tower_new url)).

Definition ca_device (url id : string) : act (Host W) OperatorError Device :=
  found ← on_network (client_get_device (tower_new url) id);
  lift (ok_or (OpText ("device '" +:+ id +:+ "' not registered")) found).

(** [CaCmd::Enroll]: the answer, and the certificate when it is printed. *)
Definition ca_enroll (url id key_id csr : string) (out : option string) :
    act (Host W) OperatorError (EnrollResponse * option (list byte)) :=
  csr_der ← fs_read csr;
  resp ← on_network (client_enroll (tower_new url) id key_id csr_der);
  printed ← match enroll_certificate_pem resp with
            | Some pem => write_or_print out (as_bytes pem)
            | None => mret None
            end;
  mret (resp, printed).

(** [CaCmd::MintKeystore]. *)
Definition ca_mint_keystore (url id hub_url : string) (out : option string) :
    act (Host W) OperatorError (option (list byte)) :=
  sw_pubkey ← on_network (client_signer_pubkey (tower_new hub_url));
  suit ← on_network (client_mint_keystore (tower_new url) id (hex_encode sw_pubkey));
  write_or_print out suit.

(** [CaCmd::CaCert]. *)
Definition ca_ca_cert (url : string) (out : option string) :
    act (Host W) OperatorError (option (list byte)) :=
  pem ← on_network (client_ca_cert (tower_new url));
  write_or_print out (as_bytes pem).

(** [CaCmd::TrustBundle]: the files written. *)
Definition ca_trust_bundle (url out : string) : act (Host W) OperatorError (list string) :=
  bundle ← on_network (client_trust_bundle (tower_new url));
  _ ← fs_create_dir_all out;
  fold_act (λ written e,
    let path := anchor_path out e.1 in
    _ ← fs_write path (as_bytes e.2);
    mret (written ++ [path])) (entries bundle) [].

(** [CaCmd::VhsmBootstrapToken], given the random octets. *)
Definition ca_bootstrap_token (rng : array TOKEN_LEN) (vm_id token_out : string)
    (state_out : option string) (standalone : bool) :
    act (Host W) OperatorError (option (list byte)) :=
  let token := generate_token rng in
  let sha := token_sha256_hex (slice token) in
  _ ← fs_write token_out (slice token);
  let yaml := if standalone then bootstrap_yaml_document vm_id sha
              else bootstrap_yaml_fragment vm_id sha in
  write_or_print state_out (as_bytes yaml).

(** [CaCmd::VhsmMintCwt], given the clock and the random token id. *)
Definition ca_mint_cwt `{Coset, Cwt} (to_signing_key : CoseKey → option CwtKey)
    (now : Z) (cti : array 16) (signing_key vm_id issuer cnf_pub : string)
    (lifetime_secs : Z) (output : string) : act (Host W) OperatorError ValidityWindow :=
  signer_bytes ← fs_read signing_key;
  signer_cose ← lift (ok_or (OpText "signing key") (cose_parse signer_bytes));
  signer ← lift (ok_or (OpText "signing key") (to_signing_key signer_cose));
  cnf_bytes ← fs_read cnf_pub;
  cnf_cose ← lift (ok_or (OpText "confirmation key") (cose_parse cnf_bytes));
  '(x, y) ← lift (ok_or (OpText "confirmation key") (ec2_public_xy cnf_cose));
  let validity := from_now now lifetime_secs in
  cwt ← lift (ok_or (OpText "mint CWT")
    (mint_cwt signer vm_id issuer (slice x) (slice y) validity cti));
  _ ← fs_write output cwt;
  mret validity.
End operator.

(** * Properties *)

Section files.
Context {W : Type}.

Lemma fs_write_Ok path b (s s' : Host W) u :
  fs_write path b s = (s', Ok u) → host_files s' = <[path := b]> (host_files s).
Proof. unfold fs_write, io. destruct (next_fault _) as [[n|] fs]; intros; by simplify_eq. Qed.

Lemma fs_read_Ok path b (s s' : Host W) :
  fs_read path s = (s', Ok b) →
  host_files s !! path = Some b ∧ host_files s' = host_files s.
Proof.
  unfold fs_read, io. destruct (next_fault _) as [[n|] fs]; intros; simplify_eq/=.
  split; [|done]. by eapply ok_or_Ok.
Qed.

(** A client call touches no file. *)
Lemma on_network_files {A} (m : act W ClientError A) (s s' : Host W) r :
  on_network m s = (s', r) → host_files s' = host_files s.
Proof. unfold on_network. destruct (m _) as [w r']. by intros [= <- _]. Qed.

(** C38: the two halves of a bootstrap token.  A successful command leaves the raw
    token of 32 octets in its own file and, in the other, the entry (or the document)
    of that guest and the hash of exactly those octets; no other file is touched.
    The text is unambiguous: whatever quotes, backslashes and other characters the
    name has, no other guest, hash or shape of file has the same text.  It holds for
    two different paths. *)
Theorem bootstrap_token_files `{HexCodec, Sha256} (rng : array TOKEN_LEN)
    (vm_id token_out state_out : string) (standalone : bool) (s s' : Host W)
    (printed : option (list byte))
    (Hpaths : token_out ≠ state_out)
    (Hrun : ca_bootstrap_token rng vm_id token_out (Some state_out) standalone s =
       (s', Ok printed)) :
  printed = None ∧
  ∃ token text, host_files s' !! token_out = Some token ∧ length token = 32 ∧
    host_files s' !! state_out = Some text ∧
    (∀ standalone' vm_id' sha', text = as_bytes (bootstrap_text standalone' vm_id' sha') ↔
       standalone' = standalone ∧ vm_id' = vm_id ∧ sha' = token_sha256_hex token) ∧
    ∀ path, path ≠ token_out → path ≠ state_out → host_files s' !! path = host_files s !! path.
Proof.
  unfold ca_bootstrap_token, write_or_print in Hrun.
  apply bind_inv_Ok in Hrun as (s1 & [] & Hw1 & Hrun).
  apply bind_inv_Ok in Hrun as (s2 & [] & Hw2 & Hrun). injection Hrun as <- <-.
  apply fs_write_Ok in Hw1, Hw2. split; [done|]. eexists (slice rng), _.
  rewrite Hw2, Hw1, lookup_insert_ne, !lookup_insert_eq by done.
  split; [done|]. split; [apply length_slice|]. split; [done|]. split.
  - intros standalone' vm_id' sha'. split; [|by intros (-> & -> & ->)].
    intros Heq%as_bytes_inj. by apply (bootstrap_text_inj standalone) in Heq as (<- & <- & <-).
  - intros path Ht Hs. by rewrite !lookup_insert_ne.
Qed.
End files.

(** A guest with a quote and a backslash in its name. *)
Definition example_guest : string := "vm" +:+ String quote (String backslash "x").

Definition example_bootstrap : Host () * result OperatorError (option (list byte)) :=
  ca_bootstrap_token (fill TOKEN_LEN x5a) example_guest "token.bin" (Some "bootstrap.yaml") true
    (mkHost tt {[ "other" := [x01] ]} []).

Lemma bootstrap_token_files_witness :
  example_bootstrap.2 = Ok None ∧
  ∃ token, host_files example_bootstrap.1 !! "token.bin" = Some token ∧
    host_files example_bootstrap.1 !! "bootstrap.yaml" =
      Some (as_bytes (bootstrap_text true example_guest (token_sha256_hex token))).
Proof.
  assert (example_bootstrap.2 = Ok None) as Hok by (vm_compute; reflexivity).
  split; [exact Hok|].
  assert (example_bootstrap = (example_bootstrap.1, Ok None)) as Hrun
    by (rewrite <- Hok; apply surjective_pairing).
  unfold example_bootstrap in Hrun at 1.
  destruct (bootstrap_token_files (fill TOKEN_LEN x5a) example_guest "token.bin"
    "bootstrap.yaml" true (mkHost tt {[ "other" := [x01] ]} []) example_bootstrap.1 None)
    as (_ & token & text & Ht & _ & Hs & Hr & _).
  - discriminate.
  - exact Hrun.
  - exists token. split; [exact Ht|]. rewrite Hs. f_equal.
    exact (proj2 (Hr true example_guest (token_sha256_hex token))
      (conj eq_refl (conj eq_refl eq_refl))).
Defined.
