(* ===== verification/Report.v ===== *)
(** What the operator's commands print (src/crates/cli/src/main.rs, the [print_*]
    functions and [human_size]), as the text that goes to standard output. *)

From S2P Require Import Prelude Ext Wire Json Store Content Signer Client Rig Plan Fanout Campaign.

(** * Formatting *)

(** [println!] of a text. *)
Definition line (s : string) : string := s +:+ nl.

(** The lines of a loop. *)
Definition lines {A} (f : A → string) (l : list A) : string := concat_str (f <$> l).

(** [str::chars().count()]: the units that do not continue a character. *)
Definition char_count (s : string) : nat :=
  length (filter (λ n, Nat.leb 128 n && Nat.leb n 191 = false) (code_units s)).

(** [{:<n}]. *)
Definition pad_right (n : nat) (s : string) : string :=
  s +:+ concat_str (replicate (n - char_count s) " ").

(** * Sizes *)

(** The integer nearest to [n / d], a tie to the even one. *)
Definition round_half_even (n d : Z) : Z :=
  let q := (n / d)%Z in
  match (2 * (n mod d) ?= d)%Z with
  | Lt => q
  | Gt => (q + 1)%Z
  | Eq => if Z.even q then q else (q + 1)%Z
  end.

(** [u64 as f64]: 53 significant bits; the result is an integer. *)
Definition as_f64 (z : Z) : Z :=
  let d := (2 ^ Z.max 0 (Z.log2 z - 52))%Z in (round_half_even z d * d)%Z.

(** A size as a float: [num] over [2 ^ exp]. Dividing by 1024 is exact, the values
    being far from the smallest ones. *)
Record Float := mkFloat { num : Z; exp : Z }.

Definition at_least_1024 (x : Float) : bool := (1024 * 2 ^ exp x <=? num x)%Z.
Definition div_1024 (x : Float) : Float := mkFloat (num x) (exp x + 10).

(** The [while] of [human_size]; each round takes a unit, of which four are left. *)
Fixpoint scale (units_left : nat) (size : Float) (unit : nat) : Float * nat :=
  match units_left with
  | O => (size, unit)
  | S n => if at_least_1024 size then scale n (div_1024 size) (S unit) else (size, unit)
  end.

Definition UNITS : list string := ["B"; "KB"; "MB"; "GB"; "TB"].

(** [{:.1}]: the nearest tenth. *)
Definition tenths (x : Float) : Z := round_half_even (10 * num x) (2 ^ exp x).

Definition human_size (bytes : Z) : string :=
  let '(size, unit) := scale (length UNITS - 1) (mkFloat (as_f64 bytes) 0) 0 in
  if bool_decide (unit = 0) then pretty bytes +:+ " B"
  else pretty (tenths size / 10)%Z +:+ "." +:+ pretty (tenths size mod 10)%Z +:+ " "
    +:+ default "" (UNITS !! unit).

(** * The reports *)

Section reports.
Context `{HexCodec}.

Definition print_device (d : Device) : string :=
  line ("id      " +:+ device_id d)
  +:+ match device_model d with Some m => line ("model   " +:+ m) | None => "" end
  +:+ line ("status  " +:+ device_status d)
  +:+ line ("pubkey  " +:+ default "(none)" (device_pubkey d)).

(** The roster as [CaCmd::Devices] lists it. *)
Definition print_devices (l : list Device) : string :=
  match l with
  | [] => line "(no devices registered)"
  | _ => lines (λ d, line (pad_right 20 (device_id d) +:+ " "
           +:+ pad_right 14 (default "-" (device_model d)) +:+ " " +:+ device_status d)) l
  end.

Definition print_tree (tree : Tree) : string :=
  lines (λ '(path, e),
    let ver := match entity_version e with Some v => " — " +:+ v | None => "" end in
    line (path +:+ "  [" +:+ entity_kind e +:+ "]" +:+ ver)
    +:+ match entity_parts e with [] => line "    (no signed manifest)" | _ => "" end
    +:+ lines (λ p, line ("    " +:+ pad_right 16 (part_id p) +:+ " "
          +:+ to_prefixed (part_content p))) (entity_parts e)) (entries tree).

Definition change_sign (c : Change) : string :=
  match c with Added => "+" | Removed => "-" | Changed => "~" end.

Definition print_diff (d : TreeDiff) : string :=
  if diff_is_empty d then line "up to date — nothing to flash"
  else
    lines (λ e, line ("+ entity " +:+ e)) (entities_added d)
    +:+ lines (λ e, line ("- entity " +:+ e)) (entities_removed d)
    +:+ lines (λ c, line (change_sign (pc_change c) +:+ " " +:+ pc_entity c +:+ "  " +:+ pc_part c
          +:+ " [" +:+ pc_kind c +:+ "]")) (diff_part_changes d).

(** The counters of [print_plan]. *)
Definition count_plan (plan : FlashPlan) : nat * nat :=
  foldl (λ '(ship, reuse) p,
    match pp_plan p with Ship => (S ship, reuse) | Reuse => (ship, S reuse) end) (0, 0) plan.

Definition print_plan (plan : FlashPlan) : string :=
  if is_noop plan then line "up to date — every part already in the active bank"
  else
    let '(ship, reuse) := count_plan plan in
    lines (λ p, match pp_plan p with
      | Ship => line ("↑ ship   " +:+ pp_entity p +:+ " " +:+ pp_part p +:+ " [" +:+ pp_kind p
                  +:+ "]  " +:+ to_prefixed (pp_content p))
      | Reuse => ""
      end) plan
    +:+ line (nl +:+ pretty ship +:+ " to ship from Tower 2, " +:+ pretty reuse
          +:+ " reused bank-to-bank on-device").

Definition print_apply (plan : ApplyPlan) : string :=
  if plan_is_noop plan
  then line ("up to date — nothing to ship for channel '" +:+ ap_channel plan +:+ "'")
  else
    lines (λ c,
      let ver := match ca_version c with Some v => " " +:+ v | None => "" end in
      line (ca_entity c +:+ ver +:+ "  — ship " +:+ pretty (length (ca_ship c)) +:+ ", reuse "
        +:+ pretty (ca_reuse c))
      +:+ lines (λ s, line match ship_blob s with
            | Some b => "  ↑ " +:+ pad_right 14 (ship_part s) +:+ " "
                +:+ to_prefixed (ship_content s) +:+ "  (" +:+ human_size (blob_size b) +:+ ")"
            | None => "  ✗ " +:+ pad_right 14 (ship_part s) +:+ " "
                +:+ to_prefixed (ship_content s) +:+ "  — NOT in Tower 2"
            end) (ca_ship c)) (ap_components plan)
    +:+ nl +:+ pretty (sum_list (length ∘ ca_ship <$> ap_components plan))
    +:+ " part(s) to ship, " +:+ human_size (plan_ship_bytes plan) +:+ " total"
    +:+ match missing plan with
        | [] => nl
        | l => line (" — " +:+ pretty (length l) +:+ " unservable (not in Tower 2)")
        end
    +:+ line "flash (per component): SOVD open_update → upload manifest + parts → prepare → execute → commit"
    +:+ line "(read-only plan; `rig flash` assembles the signed envelopes)".

Definition print_bundle (b : FlashBundle) : string :=
  match fb_components b with
  | [] => line ("up to date — nothing to flash for channel '" +:+ fb_channel b +:+ "'")
  | components =>
      line ("flash bundle for device '" +:+ fb_device b +:+ "' (channel '" +:+ fb_channel b
        +:+ "'):")
      +:+ lines (λ c,
        line ("  " +:+ cf_entity c +:+ " — signed envelope "
          +:+ human_size (Z.of_nat (cf_envelope_bytes c)) +:+ ", "
          +:+ pretty (length (cf_payloads c)) +:+ " payload(s):")
        +:+ lines (λ p, line ("    " +:+ pad_right 14 (payload_ref_uri p) +:+ " "
              +:+ to_prefixed (payload_ref_outer p) +:+ "  ("
              +:+ human_size (payload_ref_size p) +:+ ")")) (cf_payloads c)) components
      +:+ line (nl +:+ pretty (length components) +:+ " component(s), "
            +:+ human_size (sum_u64 (payload_ref_size <$> mjoin (cf_payloads <$> components)))
            +:+ " of payloads to upload")
      +:+ line "would flash (per component): SOVD open_update → upload manifest + payloads → prepare → execute → commit"
      +:+ line "(dry run — no rig flash; the live flash authenticates to SOVD with a sovd-token-helper JWT)"
  end.

(** A component in a trial, by its state's name. *)
Definition state_in_trial (s : string) : bool :=
  bool_decide (s ∈ ["Staged"; "AwaitingSystemReboot"; "Activated"]).

Definition print_flash_result (r : FlashResult) (trial_hint : bool) : string :=
  match fr_components r with
  | [] => line ("nothing flashed — up to date for channel '" +:+ fr_channel r +:+ "'")
  | components =>
      line ("flashed device '" +:+ fr_device r +:+ "' (channel '" +:+ fr_channel r +:+ "'):")
      +:+ lines (λ c, line ("  " +:+ pad_right 8 (cfr_entity c) +:+ " "
            +:+ pad_right 12 (cfr_state c) +:+ " update " +:+ default "-" (cfr_update_id c)))
          components
      +:+ if trial_hint && existsb (state_in_trial ∘ cfr_state) components
          then line (nl +:+ "in trial — the rig rebooted into the staged bank. When healthy, finalize:"
            +:+ nl +:+ "  ./commit.sh   (or `rig rollback …` to revert)")
          else ""
  end.

Definition print_campaign (channel device : string) (singleshot banked : list ComponentApply) :
    string :=
  let steps := length singleshot + (if bool_decide (banked = []) then 0 else 1) in
  line ("Campaign — bring '" +:+ device +:+ "' to channel '" +:+ channel +:+ "' in "
    +:+ pretty steps +:+ " step(s):")
  +:+ concat_str (imap (λ i c,
        line ("  Step " +:+ pretty (S i) +:+ " (singleshot, irreversible): " +:+ ca_entity c
          +:+ " — " +:+ pretty (length (ca_ship c)) +:+ " part(s), "
          +:+ human_size (component_ship_bytes c) +:+ " — write-through + node reboot"))
        singleshot)
  +:+ match banked with
      | [] => ""
      | _ => line ("  Step " +:+ pretty (S (length singleshot)) +:+ " (banked, trial): "
               +:+ join ", " (ca_entity <$> banked) +:+ " — "
               +:+ pretty (sum_list (length ∘ ca_ship <$> banked)) +:+ " part(s), "
               +:+ human_size (sum_u64 (component_ship_bytes <$> banked))
               +:+ " — flash → reboot → trial → commit")
      end.

(** The line of [ping]. *)
Definition print_ping (url : string) (healthy : bool) (v : Version) : string :=
  line (url +:+ " — " +:+ version_service v +:+ " v" +:+ version_version v +:+ " ("
    +:+ (if healthy then "healthy" else "unhealthy") +:+ ")").
End reports.

(** * Lemmas: rounding *)

Lemma round_half_even_near n d : (0 < d)%Z → (2 * Z.abs (round_half_even n d * d - n) ≤ d)%Z.
Proof.
  intros Hd. unfold round_half_even. pose proof (Z.div_mod n d). pose proof (Z.mod_pos_bound n d).
  destruct (Z.compare_spec (2 * (n mod d)) d); [destruct (Z.even _)|..]; nia.
Qed.

(** A float of a 64-bit number is off by at most one part in 2^53, and exact below
    2^53. *)
Lemma as_f64_near z : (0 ≤ z)%Z → (2 ^ 53 * Z.abs (as_f64 z - z) ≤ z)%Z.
Proof.
  intros Hz. unfold as_f64. set (k := Z.max 0 (Z.log2 z - 52)).
  assert (0 < 2 ^ k)%Z by (apply Z.pow_pos_nonneg; lia).
  pose proof (round_half_even_near z (2 ^ k) ltac:(done)) as Hr.
  destruct (Z.le_gt_cases (Z.log2 z) 52) as [Hs|Hb].
  - assert (k = 0)%Z as Hk by lia. rewrite Hk in *. rewrite Z.pow_0_r in *. lia.
  - assert (2 ^ 52 * 2 ^ k ≤ z)%Z; [|lia].
    rewrite <- Z.pow_add_r by lia. replace (52 + k)%Z with (Z.log2 z) by lia.
    apply Z.log2_spec. destruct (Z.eq_dec z 0%Z) as [->|]; [done|lia].
Qed.

Lemma as_f64_small z : (0 ≤ z < 2 ^ 53)%Z → as_f64 z = z.
Proof. intros Hz. pose proof (as_f64_near z). lia. Qed.

(** The loop ends because the size is below 1024 or the units are used up, and what it
    divided by is the unit it stopped at. *)
Lemma scale_spec n x u y v :
  (0 ≤ exp x)%Z → scale n x u = (y, v) →
  num y = num x ∧ exp y = (exp x + 10 * Z.of_nat (v - u))%Z ∧ u ≤ v ≤ u + n ∧
  (v < u + n → (num y < 1024 * 2 ^ exp y)%Z) ∧
  (u < v → (2 ^ exp y ≤ num y)%Z).
Proof.
  revert x u. induction n as [|n IH]; intros x u Hx; simpl.
  - intros [= <- <-]. rewrite Nat.sub_diag. repeat split; try lia.
  - destruct (at_least_1024 x) eqn:Hl; unfold at_least_1024 in Hl.
    + apply Z.leb_le in Hl. intros Hs. apply IH in Hs; [|simpl; lia]. simpl in Hs.
      destruct Hs as (Hn & He & Hv & Hlt & Hge). split; [done|]. split; [lia|]. split; [lia|].
      split; [intros; apply Hlt; lia|]. intros _.
      destruct (decide (S u < v)) as [Hd|Hd]; [auto|].
      assert (v = S u) as -> by lia. rewrite Nat.sub_diag in He.
      rewrite He, Hn. replace (exp x + 10 + 10 * Z.of_nat 0)%Z with (10 + exp x)%Z by lia.
      rewrite Z.pow_add_r by lia. lia.
    + apply Z.leb_gt in Hl. intros [= <- <-]. rewrite Nat.sub_diag. repeat split; lia.
Qed.

(** What [human_size] prints, by its unit and its tenths. *)
Definition printed_size (bytes t : Z) (unit : nat) : string :=
  if bool_decide (unit = 0) then pretty bytes +:+ " B"
  else pretty (t / 10)%Z +:+ "." +:+ pretty (t mod 10)%Z +:+ " " +:+ default "" (UNITS !! unit).

(** C37: sizes as the operator reads them.  For every 64-bit size, [human_size] ends, in
    the largest unit that leaves at least one of it (up to TB), with a whole number of
    bytes below 1 KB and otherwise a number of tenths within half a tenth of the size as
    a float, which is within one part in 2^53 of the size and is the size itself below
    2^53. *)
Theorem human_size_spec (bytes : Z) (Hb : u64_ok bytes) :
  ∃ unit t, human_size bytes = printed_size bytes t unit ∧ unit ≤ 4 ∧
    (unit < 4 → (as_f64 bytes < 1024 ^ Z.of_nat (S unit))%Z) ∧
    (0 < unit → (1024 ^ Z.of_nat unit ≤ as_f64 bytes)%Z) ∧
    (2 * Z.abs (t * 1024 ^ Z.of_nat unit - 10 * as_f64 bytes) ≤ 1024 ^ Z.of_nat unit)%Z ∧
    (2 ^ 53 * Z.abs (as_f64 bytes - bytes) ≤ bytes)%Z ∧
    ((bytes < 2 ^ 53)%Z → as_f64 bytes = bytes).
Proof.
  destruct Hb as [H0 _]. unfold human_size.
  destruct (scale _ _ _) as [y v] eqn:Hs.
  apply scale_spec in Hs as (Hn & He & Hv & Hlt & Hge); [|done]. simpl in *.
  rewrite Nat.sub_0_r in He.
  assert (∀ k, (0 ≤ k)%Z → (1024 ^ k = 2 ^ (10 * k))%Z) as Hpow
    by (intros k Hk; by rewrite Z.pow_mul_r by lia).
  assert (2 ^ exp y = 1024 ^ Z.of_nat v)%Z as Hexp by (rewrite He, Hpow by lia; f_equal; lia).
  exists v, (tenths y). split; [done|]. split; [lia|]. split.
  { intros Hv4. rewrite Nat2Z.inj_succ, Z.pow_succ_r, <- Hexp, <- Hn by lia. apply Hlt. lia. }
  split; [intros Hv0; rewrite <- Hexp, <- Hn; by apply Hge|]. split.
  { unfold tenths. rewrite <- Hexp, <- Hn. apply round_half_even_near.
    rewrite Hexp. apply Z.pow_pos_nonneg; lia. }
  split; [by apply as_f64_near|]. intros Hsm. by apply as_f64_small.
Qed.

Lemma human_size_spec_witness :
  u64_ok 1048575 ∧ human_size 1048575 = "1024.0 KB" ∧ human_size 1023 = "1023 B" ∧
  human_size (two64 - 1) = "16777216.0 TB" ∧
  ∃ unit t, human_size 1258291 = printed_size 1258291 t unit ∧ unit = 2 ∧ t = 12%Z.
Proof.
  split; [by split|]. split; [reflexivity|]. split; [reflexivity|]. split; [reflexivity|].
  destruct (human_size_spec 1258291) as (unit & t & Heq & Hu & Hlt & Hge & Ht & _ & Hf);
    [by split|].
  rewrite Hf in * by lia.
  assert (unit = 2) as ->.
  { destruct (decide (unit < 2)) as [Hs|]; [|destruct (decide (unit = 2)); [done|]].
    - assert (1024 ^ Z.of_nat (S unit) ≤ 1024 ^ 2)%Z by (apply Z.pow_le_mono_r; lia). lia.
    - assert (1024 ^ 3 ≤ 1024 ^ Z.of_nat unit)%Z by (apply Z.pow_le_mono_r; lia). lia. }
  exists 2, t. split; [exact Heq|]. split; [reflexivity|]. lia.
Defined.
