(* ===== verification/Cli.v ===== *)
(** The operator's rig commands (src/crates/cli/src/main.rs): choosing the bearer
    token, the gates of the campaign command, and the calls the other commands make.
    What is printed is left to [Commands]. *)

From S2P Require Import Prelude Ext Wire Json Store Content Signer Client Rig Plan Fanout Campaign.

(** * Arguments *)

Record ChannelSel := mkChannelSel {
  sel_channel : string;
  sel_device : option string;
  sel_architecture : option string;
}.

(** [ChannelSel::target]. *)
Definition sel_target (s : ChannelSel) : ChannelTarget :=
  mkChannelTarget (sel_channel s) (sel_device s) (sel_architecture s) None None.

Record AuthArgs := mkAuthArgs {
  auth_device_id : string;
  auth_token : option string;
  auth_minter_url : option string;
  auth_operator_token : option string;
}.

(** What a command fails with. *)
Inductive CliError :=
  | CliOrchestrator (e : Error)
  | CliUsage (text : string)
  | CampaignDeferred (components : list string)
  | UnresolvedTransaction (phase : string) (components : list string).

(** [rig_token]. *)
Definition rig_token (auth : AuthArgs) (rig_url : string) (trust : Trust) :
    result CliError RigToken :=
  match auth_token auth with
  | Some t => Ok (fixed t)
  | None =>
      match auth_minter_url auth with
      | Some minter_url =>
          operator ← ok_or (CliUsage "--minter-url requires --operator-token")
            (auth_operator_token auth);
          mret (minting minter_url operator rig_url None trust)
      | None => Ok (fixed "")
      end
  end.

(** [only.is_none_or(|id| id == c)]. *)
Definition only_is (only : option string) (id : string) : bool :=
  match only with
  | Some o => String.eqb o id
  | None => true
  end.

(** Whether a component of the plan ships anything. *)
Definition ships_any (c : ComponentApply) : bool :=
  match ca_ship c with [] => false | _ => true end.

(** [campaign_has_work]. *)
Definition campaign_has_work (plan : ApplyPlan) (only : option string) : bool :=
  existsb (λ c, ships_any c && only_is only (ca_entity c)) (ap_components plan) ||
  existsb (only_is only) (assess_components (ap_assessment plan)).

(** What the campaign command reports. *)
Inductive CampaignReport :=
  | UpToDate
  | PlanOnly (admin_only : bool) (singleshot banked : list ComponentApply)
  | CampaignDone (results : list ComponentFlashResult) (in_trial : bool).

Section cli.
Context {W : Type} `{Http W, SovdApi W, HexCodec, Suit, FlashEngine W}.

Definition orchestrate {A} : act W Error A → act W CliError A := act_map_err CliOrchestrator.

(** [RigCmd::State]. *)
Definition cmd_state (url : string) (trust : Trust) : act W CliError Tree :=
  orchestrate (read_rig_state url trust).

(** [RigCmd::Apply]. *)
Definition cmd_apply (url hub_url : string) (sel : ChannelSel) (trust : Trust) :
    act W CliError ApplyPlan :=
  orchestrate (apply_plan url hub_url (sel_target sel) None trust).

(** [RigCmd::Flash]. *)
Definition cmd_flash (url hub_url ca_url : string) (sel : ChannelSel) (auth : AuthArgs)
    (only : option string) (execute : bool) (trust : Trust) :
    act W CliError (FlashResult + FlashBundle) :=
  let only := (λ o, [o]) <$> only in
  if execute then
    tok ← lift (rig_token auth url trust);
    r ← orchestrate (flash_execute url hub_url ca_url (sel_target sel) (auth_device_id auth)
          only false tok trust);
    mret (inl r)
  else
    b ← orchestrate (flash_bundle url hub_url ca_url (sel_target sel) (auth_device_id auth)
          only trust);
    mret (inr b).

(** [RigCmd::Campaign] before it touches the rig: deferred, up to date, or the
    plan in its two groups. *)
Definition campaign_gate (plan : ApplyPlan) (only : option string) :
    result CliError (option (list ComponentApply * list ComponentApply)) :=
  let a := ap_assessment plan in
  if bool_decide (assess_outcome a = Deferred) &&
     match only with
     | None => true
     | Some id => existsb (λ c, String.eqb c id) (assess_components a)
     end
  then Err (CampaignDeferred (assess_components a))
  else
    let shipping := filter (λ c, ships_any c && only_is only (ca_entity c) = true)
      (ap_components plan) in
    if campaign_has_work plan only then
      mret (Some (filter (λ c, ca_supports_rollback c = Some false) shipping,
                  filter (λ c, ca_supports_rollback c ≠ Some false) shipping))
    else mret None.

(** [RigCmd::Campaign]. *)
Definition cmd_campaign (url hub_url ca_url : string) (sel : ChannelSel) (auth : AuthArgs)
    (execute no_commit : bool) (only : option string) (trust : Trust) :
    act W CliError CampaignReport :=
  let target := sel_target sel in
  plan ← orchestrate (apply_plan url hub_url target None trust);
  groups ← lift (campaign_gate plan only);
  match groups with
  | None => mret UpToDate
  | Some (singleshot, banked) =>
      if execute then
        node_state ← orchestrate (node_update_state url trust);
        if is_unresolved node_state
        then throw (UnresolvedTransaction (node_phase node_state) (node_components node_state))
        else
          tok ← lift (rig_token auth url trust);
          results ← orchestrate (campaign_execute url hub_url ca_url target
            (auth_device_id auth) no_commit tok trust ((λ o, [o]) <$> only));
          mret (CampaignDone results no_commit)
      else
        mret (PlanOnly (bool_decide (singleshot = [] ∧ banked = [])) singleshot banked)
  end.

(** A verdict command: the token, then the verb. *)
Definition cmd_verdict {A} (url : string) (auth : AuthArgs) (trust : Trust)
    (verb : RigToken → Trust → act W Error A) : act W CliError A :=
  tok ← lift (rig_token auth url trust);
  orchestrate (verb tok trust).

(** [RigCmd::Commit], [Rollback], [Reset], [CommitTrials] and [RollbackTrials]. *)
Definition cmd_commit (url component update : string) (auth : AuthArgs) (trust : Trust) :=
  cmd_verdict url auth trust (flash_commit url component update).
Definition cmd_rollback (url component update : string) (auth : AuthArgs) (trust : Trust) :=
  cmd_verdict url auth trust (flash_rollback url component update).
Definition cmd_reset (url component update : string) (auth : AuthArgs) (trust : Trust) :=
  cmd_verdict url auth trust (flash_reset url component update).
Definition cmd_commit_trials (url : string) (auth : AuthArgs) (trust : Trust) :=
  cmd_verdict url auth trust (flash_commit_trials url).
Definition cmd_rollback_trials (url : string) (auth : AuthArgs) (trust : Trust) :=
  cmd_verdict url auth trust (flash_rollback_trials url).
End cli.
