(* ===== verification/Guard.v ===== *)
(** What the campaign command may do to a rig (src/crates/cli/src/main.rs and
    src/crates/orchestrator/src/lib.rs): everything before the engine only observes,
    and the engine runs only behind the command's gates. *)

From S2P Require Import Prelude Ext Wire Json Store Content Signer Client Rig Plan Fanout.
From S2P Require Import Campaign Cli.

(** The paths below which the towers are written to. *)
Definition tower_writes : list string :=
  ["/admin/artifacts"; "/admin/envelope"; "/channel-targets/l1"; "/admin/devices"].

(** The requests that do not act on a rig: reads, and writes to a tower. *)
Definition observing (rq : Request) : Prop :=
  rq_method rq = GET ∨
  ∃ base path rest, path ∈ tower_writes ∧ rq_url rq = base +:+ path +:+ rest.

(** A fact of the world that such requests and SOVD reads leave alone: of the
    firmware on the rig, say. *)
Record Observational {W : Type} `{Http W, SovdApi W} (P : W → Prop) : Prop := {
  send_keeps t rq w : observing rq → P w → P (send t rq w).1;
  list_keeps c : preserves P (list_components c);
  status_keeps c component : preserves P (read_status c component);
  data_keeps c component name : preserves P (read_data c component name);
}.

Lemma observing_get rq : rq_method rq = GET → observing rq.
Proof. by left. Qed.

Lemma observing_post base path rest body :
  path ∈ tower_writes → observing (post (base +:+ path +:+ rest) body).
Proof. intros Hp. right. by exists base, path, rest. Qed.

(** The writes of the clients. *)
Lemma observing_artifacts base body : observing (post (base +:+ "/admin/artifacts") body).
Proof. apply (observing_post base "/admin/artifacts" ""). set_solver. Qed.

Lemma observing_envelope base body : observing (post (base +:+ "/admin/envelope") body).
Proof. apply (observing_post base "/admin/envelope" ""). set_solver. Qed.

Lemma observing_l1 base body : observing (post (base +:+ "/channel-targets/l1") body).
Proof. apply (observing_post base "/channel-targets/l1" ""). set_solver. Qed.

Lemma observing_register base body : observing (post (base +:+ "/admin/devices") body).
Proof. apply (observing_post base "/admin/devices" ""). set_solver. Qed.

Lemma observing_device base rest body :
  observing (post (base +:+ "/admin/devices/" +:+ rest) body).
Proof. apply (observing_post base "/admin/devices" ("/" +:+ rest)). set_solver. Qed.

Create HintDb observing.
#[export] Hint Resolve observing_artifacts observing_envelope observing_l1 observing_register
  observing_device : observing.
#[export] Hint Extern 1 (observing _) => apply observing_get; reflexivity : observing.

(** Preservation of observing code, construct by construct. *)
Ltac keeps := repeat first
  [ done
  | progress intros
  | case_match
  | solve [auto with preserve nocore]
  | solve [auto with observing nocore]
  | apply preserves_bind
  | apply preserves_fold
  | apply preserves_map_err
  | apply preserves_attempt ].

Section observe.
Context {W : Type} `{Http W, SovdApi W, HexCodec, Suit} (P : W → Prop) (Hobs : Observational P).

Lemma send_with_keeps t rq : observing rq → preserves P (send_with t rq).
Proof.
  intros Hrq w Hw. unfold send_with. pose proof (send_keeps P Hobs t rq w Hrq Hw) as Hs.
  by destruct (send t rq w).
Qed.

Lemma fetch_keeps {A} rq (read : Response → result HttpError A) :
  observing rq → preserves P (fetch rq read).
Proof.
  intros Hrq. unfold fetch, client_call. pose proof (send_with_keeps default_trust rq Hrq). keeps.
Qed.

Lemma fetch_option_keeps {A} rq (read : Response → result HttpError A) :
  observing rq → preserves P (fetch_option rq read).
Proof.
  intros Hrq. unfold fetch_option, client_call. pose proof (send_with_keeps default_trust rq Hrq).
  keeps.
Qed.

#[local] Hint Extern 2 (preserves _ (send_with _ _)) =>
  apply send_with_keeps; solve [auto with observing nocore] : preserve.
#[local] Hint Extern 2 (preserves _ (fetch _ _)) =>
  apply fetch_keeps; solve [auto with observing nocore] : preserve.
#[local] Hint Extern 2 (preserves _ (fetch_option _ _)) =>
  apply fetch_option_keeps; solve [auto with observing nocore] : preserve.

Lemma tower_keeps {A} (m : act W ClientError A) : preserves P m → preserves P (tower m).
Proof. intros Hm. by apply preserves_map_err. Qed.
#[local] Hint Resolve tower_keeps : preserve.

Lemma node_update_state_keeps url trust : preserves P (node_update_state url trust).
Proof. unfold node_update_state, node_call. keeps. Qed.

Lemma probe_keeps trust urls last : preserves P (probe trust urls last).
Proof.
  pose proof (list_keeps P Hobs). revert last.
  induction urls as [|url urls IH]; intros last; simpl; keeps.
Qed.
#[local] Hint Resolve probe_keeps : preserve.

Lemma read_entity_keeps client c : preserves P (read_entity client c).
Proof.
  pose proof (data_keeps P Hobs). pose proof (status_keeps P Hobs).
  unfold read_entity, read_installed, read_update_mode, read_optional, read_admin_disabled.
  keeps.
Qed.
#[local] Hint Resolve read_entity_keeps : preserve.

Lemma read_rig_state_keeps url trust : preserves P (read_rig_state url trust).
Proof. unfold read_rig_state, connect_sovd. keeps. Qed.
#[local] Hint Resolve read_rig_state_keeps : preserve.

Lemma apply_plan_keeps url hub target only trust :
  preserves P (apply_plan url hub target only trust).
Proof.
  unfold apply_plan, desired_tree, vehicle_release_tree, client_channel_target_tree,
    apply_entity, apply_part, client_artifact_exists.
  keeps.
Qed.

Lemma l1_flash_plan_keeps url hub ca target device only trust :
  preserves P (l1_flash_plan url hub ca target device only trust).
Proof.
  unfold l1_flash_plan, roster_pubkey, client_get_device, vehicle_release_l1,
    client_channel_target_l1, l1_post, l1_jobs, component_payloads, fetch_ciphertext,
    client_get_blob, client_signer_pubkey.
  keeps.
Qed.
End observe.

(** ** The gate *)

(** An operation that keeps [P], or fails, as a step of a longer run. *)
Lemma keeps_bind {W E A B} (P : W → Prop) (m : act W E A) (f : A → act W E B) w w' r :
  preserves P m → P w → (m ≫= f) w = (w', r) →
  P w' ∨ ∃ w1 a, m w = (w1, Ok a) ∧ P w1 ∧ f a w1 = (w', r).
Proof.
  intros Hm Hw Hrun. specialize (Hm w Hw). unfold mbind, act_bind in Hrun.
  destruct (m w) as [w1 [a|e]]; simpl in *; [right; by exists w1, a|].
  left. by injection Hrun as <- _.
Qed.

Lemma map_err_inv {W E F A} (f : E → F) (m : act W E A) w w' a :
  act_map_err f m w = (w', Ok a) → m w = (w', Ok a).
Proof. unfold act_map_err. by destruct (m w) as [w1 [b|e]]; intros [= -> ->]. Qed.

Lemma campaign_gate_Some plan only groups :
  campaign_gate plan only = Ok (Some groups) →
  campaign_has_work plan only = true ∧
  (assess_outcome (ap_assessment plan) = Deferred →
   ∃ id, only = Some id ∧ id ∉ assess_components (ap_assessment plan)).
Proof.
  unfold campaign_gate. case_match eqn:Hd; [done|].
  destruct (campaign_has_work plan only); [|done]. intros _. split; [done|].
  intros Hdef. rewrite bool_decide_eq_true_2 in Hd by done. simpl in Hd.
  destruct only as [id|]; [|done]. exists id. split; [done|]. intros Hin.
  assert (existsb (λ c, String.eqb c id) (assess_components (ap_assessment plan)) = true)
    as Hex by (apply existsb_exists; exists id; split; [by apply list_elem_of_In|];
               by apply String.eqb_eq).
  congruence.
Qed.

Section campaign.
Context {W : Type} `{Http W, SovdApi W, HexCodec, Suit, FlashEngine W}.

(** The run of the engine that [campaign_execute] makes, if it makes one. *)
Lemma campaign_execute_run (P : W → Prop) (Hobs : Observational P)
    url hub_url ca_url target device no_commit tok trust only w w' r :
  P w → campaign_execute url hub_url ca_url target device no_commit tok trust only w = (w', r) →
  P w' ∨ ∃ w1 jobs anchor observed,
    l1_flash_plan url hub_url ca_url target device only trust w =
      (w1, Ok (jobs, anchor, observed)) ∧ jobs ≠ [] ∧ P w1 ∧
    w' = (run_campaign (mkEngineConfig url tok anchor trust false)
            (campaign_steps observed jobs) no_commit w1).1.
Proof.
  intros Hw Hrun. unfold campaign_execute in Hrun.
  apply keeps_bind with (P := P) in Hrun as [Hp|(w1 & [[jobs anchor] observed] & Hplan & Hw1 & Hrun)];
    [by left| |by apply l1_flash_plan_keeps|done].
  destruct jobs as [|job jobs].
  { left. destruct only; by injection Hrun as <- _. }
  right. exists w1, (job :: jobs), anchor, observed. split_and!; [done..|].
  unfold engine, act_map_err in Hrun. unfold_act.
  destruct (run_campaign _ _ _ w1) as [w2 [report|e]]; simpl in *; by simplify_eq.
Qed.

(** C17: the campaign command drives the engine only behind its gates.  Whatever
    observing cannot change, the command leaves as it was, on every outcome, except
    by one run of the engine; and it makes that run only when it was asked to
    execute, the plan has work and is not deferred (or the one component asked for
    is not among the deferred ones), the rig reported no unresolved transaction, and
    the hub's campaign has jobs.  The run is over that campaign's steps. *)
Theorem campaign_engine_guarded (P : W → Prop) (Hobs : Observational P)
    url hub_url ca_url sel auth execute no_commit only trust w w' r
    (Hw : P w)
    (Hrun : cmd_campaign url hub_url ca_url sel auth execute no_commit only trust w = (w', r)) :
  P w' ∨
  ∃ plan wa st wb tok wc jobs anchor observed,
    execute = true ∧
    apply_plan url hub_url (sel_target sel) None trust w = (wa, Ok plan) ∧
    campaign_has_work plan only = true ∧
    (assess_outcome (ap_assessment plan) = Deferred →
     ∃ id, only = Some id ∧ id ∉ assess_components (ap_assessment plan)) ∧
    node_update_state url trust wa = (wb, Ok st) ∧ is_unresolved st = false ∧
    rig_token auth url trust = Ok tok ∧
    l1_flash_plan url hub_url ca_url (sel_target sel) (auth_device_id auth)
      ((λ o, [o]) <$> only) trust wb = (wc, Ok (jobs, anchor, observed)) ∧
    jobs ≠ [] ∧ P wc ∧
    w' = (run_campaign (mkEngineConfig url tok anchor trust false)
            (campaign_steps observed jobs) no_commit wc).1.
Proof.
  unfold cmd_campaign in Hrun.
  apply keeps_bind with (P := P) in Hrun as [Hp|(wa & plan & Hplan & Hwa & Hrun)];
    [by left| |by apply preserves_map_err, apply_plan_keeps|done].
  apply map_err_inv in Hplan.
  apply keeps_bind with (P := P) in Hrun as [Hp|(w1 & groups & Hgate & _ & Hrun)];
    [by left| |apply preserves_lift|done].
  injection Hgate as <- Hgate.
  destruct groups as [[single banked]|]; [|left; by injection Hrun as <- _].
  destruct execute; [|left; by injection Hrun as <- _].
  apply campaign_gate_Some in Hgate as [Hwork Hdef].
  apply keeps_bind with (P := P) in Hrun as [Hp|(wb & st & Hst & Hwb & Hrun)];
    [by left| |by apply preserves_map_err, node_update_state_keeps|done].
  apply map_err_inv in Hst.
  destruct (is_unresolved st) eqn:Hres; [left; by injection Hrun as <- _|].
  apply keeps_bind with (P := P) in Hrun as [Hp|(w1 & tok & Htok & _ & Hrun)];
    [by left| |apply preserves_lift|done].
  injection Htok as <- Htok.
  assert (∃ r', campaign_execute url hub_url ca_url (sel_target sel) (auth_device_id auth)
    no_commit tok trust ((λ o, [o]) <$> only) wb = (w', r')) as [r' Hexec].
  { unfold orchestrate, act_map_err in Hrun. unfold_act.
    destruct (campaign_execute _ _ _ _ _ _ _ _ _ wb) as [w2 [res|e]]; simpl in *; simplify_eq;
      by eexists. }
  apply campaign_execute_run with (P := P) in Hexec
    as [Hp|(wc & jobs & anchor & observed & Hl1 & Hne & Hwc & ->)]; [by left| |done|done].
  right. exists plan, wa, st, wb, tok, wc, jobs, anchor, observed. by split_and!.
Qed.
End campaign.

(** * A concrete rig *)

(** A world of scripted servers and a rig with one component, which an engine has
    flashed or not. *)
Definition RigWorld : Type := Scripted * bool.

Definition example_guard_docs : list Value := [
  value_of_tree {[ "vm1" := example_entity [mkPart "file" "kernel" hash_a] false None ]};
  VObj [("phase", VStr "Idle")];
  value_of_device (mkDevice "rig-7" None "enrolled" (Some "a1ff") None);
  VObj [("phase", VStr "Trial"); ("components", VArr [VStr "vm1"])]].

#[local] Instance rig_http : Http RigWorld :=
  let base := scripted_http example_guard_docs in {|
    client_builds := client_builds;
    send := λ t rq w, ((send t rq w.1).1, w.2, (send t rq w.1).2);
    json_parse := json_parse;
  |}.

#[local] Instance rig_sovd : SovdApi RigWorld := {|
  SovdClient := unit;
  new_verifying := λ _ _, Ok tt;
  list_components := λ _, mret [mkComponent "vm1" (Some "vm")];
  read_status := λ _ _, mret [];
  read_data := λ _ _ _, throw (ServerError 404);
|}.

#[local] Instance toy_engine_types : EngineTypes := {|
  EcuState := bool; Staged := false; Activated := true;
  debug_state := λ b, if b : bool then "Activated" else "Staged";
  UpdateType := unit; Firmware := tt;
|}.

#[local] Instance rig_engine : FlashEngine RigWorld := {|
  engine_guard := λ _ _, mret tt;
  stage_all := λ _ _, mret [];
  reset_all := λ _ l, mret l;
  commit_all := λ _ l, mret l;
  rollback_all := λ _ l, mret l;
  run_campaign := λ _ _ _ w, ((w.1, true), Ok []);
  commit_node_trials := λ _, mret tt;
  rollback_node_trials := λ _, mret tt;
  reset_all_length := λ _ l _ _ l' Hr, f_equal length (Ok_inj _ _ (f_equal snd (eq_sym Hr)));
  commit_all_length := λ _ l _ _ l' Hr, f_equal length (Ok_inj _ _ (f_equal snd (eq_sym Hr)));
  rollback_all_length := λ _ l _ _ l' Hr, f_equal length (Ok_inj _ _ (f_equal snd (eq_sym Hr)));
|}.

(** A hub whose campaign disables the component; [state] is the document with the
    rig's update state. *)
Definition example_rig_world (state : byte) : RigWorld :=
  ([("http://hub/channel-targets/tree", mkResponse 200 (Some [x00]));
    ("http://hub/admin/artifacts/" +:+ to_prefixed hash_a, mkResponse 404 None);
    ("http://rig/vehicle/v1/data/x-update-state", mkResponse 200 (Some [state]));
    ("http://roster/devices/rig-7", mkResponse 200 (Some [x02]));
    ("http://hub/channel-targets/l1", mkResponse 200 (Some
       (x03 :: frames [frames [as_bytes "#vm1"; x02 :: frames [as_bytes "vm1"]]])));
    ("http://hub/admin/signer/pubkey", mkResponse 200 (Some [x09]))], false).

Definition example_campaign_cmd : act RigWorld CliError CampaignReport :=
  cmd_campaign "http://rig" "http://hub" "http://roster"
    (mkChannelSel "stable" (Some "rig") (Some "arm64")) (mkAuthArgs "rig-7" (Some "jwt") None None)
    true true None default_trust.

(** The facts of the rig that observing leaves alone. *)
Lemma rig_flag_observational : Observational (W := RigWorld) (λ w, w.2 = false).
Proof. split; [by intros t rq w Hw|by intros c w Hw..|by intros c k n w Hw]. Qed.

Definition campaign_done (r : result CliError CampaignReport) : bool :=
  match r with Ok (CampaignDone _ _) => true | _ => false end.

Definition campaign_refused (r : result CliError CampaignReport) : bool :=
  match r with Err (UnresolvedTransaction _ _) => true | _ => false end.

(** An idle rig is flashed; one with a trial pending is not touched. *)
Lemma campaign_engine_guarded_witness :
  campaign_refused (example_campaign_cmd (example_rig_world x03)).2 = true ∧
  (example_campaign_cmd (example_rig_world x03)).1.2 = false ∧
  campaign_done (example_campaign_cmd (example_rig_world x01)).2 = true ∧
  ∃ plan st, campaign_has_work plan None = true ∧ is_unresolved st = false ∧
    ∃ wa wb, node_update_state "http://rig" default_trust wa = (wb, Ok st).
Proof.
  split_and!; [vm_compute; reflexivity..|].
  destruct (campaign_engine_guarded _ rig_flag_observational "http://rig" "http://hub"
    "http://roster" (mkChannelSel "stable" (Some "rig") (Some "arm64"))
    (mkAuthArgs "rig-7" (Some "jwt") None None) true true None default_trust
    (example_rig_world x01) (example_campaign_cmd (example_rig_world x01)).1
    (example_campaign_cmd (example_rig_world x01)).2)
    as [Hflag|(plan & wa & st & wb & tok & wc & jobs & anchor & observed & Hg)].
  - reflexivity.
  - apply surjective_pairing.
  - vm_compute in Hflag. discriminate.
  - destruct Hg as (_ & Ha & Hwork & _ & Hst & Hres & _).
    exact (ex_intro _ plan (ex_intro _ st (conj Hwork (conj Hres
      (ex_intro _ wa (ex_intro _ wb Hst)))))).
Defined.
