(* ===== verification/Commands.v ===== *)
(** The command line as a whole (src/crates/cli/src/main.rs): its commands and the
    constraints clap enforces on them, what each reads, calls and writes, and what it
    prints on standard output, up to the point where it fails or panics; printing may
    fail itself.  Messages on standard error are left out. *)

From S2P Require Import Prelude Ext Wire Json Store Content Signer Client Rig Plan Fanout.
From S2P Require Import Web Campaign Cose Vhsm Operator Report Cli Guard.

(** * Commands *)

Inductive HubCmd :=
  | HubPing
  | HubPublish (file : string)
  | HubGet (hash : string) (out : option string)
  | HubChannel (name : string) (device architecture : option string) (json : bool).

Inductive CaCmd :=
  | CaPing
  | CaRegister (id : string) (model pubkey_file : option string)
  | CaDevices
  | CaDevice (id : string)
  | CaEnroll (id key_id csr : string) (out : option string)
  | CaMintKeystore (id hub_url : string) (out : option string)
  | CaCaCert (out : option string)
  | CaTrustBundle (out : string)
  | CaVhsmBootstrapToken (vm_id token_out : string) (state_out : option string)
      (standalone : bool)
  | CaVhsmMintCwt (signing_key vm_id issuer cnf_pub : string) (lifetime_secs : Z)
      (output : string).

Inductive RigCmd :=
  | RigState (json : bool)
  | RigDiff (release channel device architecture : option string) (hub_url : string)
      (plan : bool)
  | RigApply (sel : ChannelSel) (hub_url : string) (json : bool)
  | RigFlash (sel : ChannelSel) (hub_url ca_url : string) (auth : AuthArgs)
      (only : option string) (execute json : bool)
  | RigCampaign (sel : ChannelSel) (hub_url ca_url : string) (auth : AuthArgs)
      (execute no_commit : bool) (only : option string)
  | RigCommit (component update : string) (auth : AuthArgs)
  | RigRollback (component update : string) (auth : AuthArgs)
  | RigCommitTrials (auth : AuthArgs)
  | RigRollbackTrials (auth : AuthArgs)
  | RigReset (component update : string) (auth : AuthArgs)
  | RigInstallKeystore (suit hub_url : string) (auth : AuthArgs).

(** [HubArgs], [CaArgs] and [RigArgs]: a tower's or the rig's URL and the command. *)
Inductive Command :=
  | Hub (url : string) (cmd : HubCmd)
  | Ca (url : string) (cmd : CaCmd)
  | Rig (url : string) (cmd : RigCmd).

(** [Cli]. *)
Record CliArgs := mkCliArgs {
  cli_insecure : bool;
  cli_cacert : option string;
  cli_command : Command;
}.

(** What clap refuses: [required_unless_present] and [conflicts_with]. *)
Definition accepted_rig (cmd : RigCmd) : bool :=
  match cmd with
  | RigDiff (Some _) None None None _ _ | RigDiff None (Some _) _ _ _ _ => true
  | RigDiff _ _ _ _ _ _ => false
  | _ => true
  end.

Definition accepted (cli : CliArgs) : bool :=
  match cli_command cli with Rig _ cmd => accepted_rig cmd | _ => true end.

(** The commands that ask the flash engine to act on the rig. *)
Definition drives_rig (cmd : Command) : option AuthArgs :=
  match cmd with
  | Rig _ (RigFlash _ _ _ auth _ true _) | Rig _ (RigCampaign _ _ _ auth true _ _)
  | Rig _ (RigCommit _ _ auth) | Rig _ (RigRollback _ _ auth) | Rig _ (RigReset _ _ auth)
  | Rig _ (RigCommitTrials auth) | Rig _ (RigRollbackTrials auth)
  | Rig _ (RigInstallKeystore _ _ auth) => Some auth
  | _ => None
  end.

(** * The terminal *)

(** A document as [to_string_pretty] prints it, and the [{:?}] of a list of texts. *)
Class Console (W : Type) `{Http W} := {
  json_pretty : Value → string;
  debug_list : list string → string;
  json_parse_pretty v : json_parse (as_bytes (line (json_pretty v))) = Some v;
}.

(** The operator's machine, what was written to its standard output, and the faults
    of the writes to come: one that fails may have written a prefix. *)
Record Term (W : Type) := mkTerm {
  term_host : Host W;
  term_out : list byte;
  term_faults : faults;
}.
Arguments mkTerm {_} _ _ _.
Arguments term_host {_} _.
Arguments term_out {_} _.
Arguments term_faults {_} _.

Definition term_world {W} (t : Term W) : W := host_world (term_host t).

Inductive CommandError :=
  | OpErr (e : OperatorError)
  | RigErr (e : CliError)
  | Panicked (text : string).

(** What the [print] macros panic with. *)
Definition PRINT_FAILED : string := "failed printing to stdout".

(** A failure of a call of the orchestrator: a panic of the engine comes through. *)
Definition rig_failure (e : CliError) : CommandError :=
  match e with
  | CliOrchestrator (Engine_ (EnginePanicked text)) => Panicked text
  | _ => RigErr e
  end.

Section terminal.
Context {W : Type}.

(** Writing to standard output, [e] being what a failure does. *)
Definition write_out (e : CommandError) (b : list byte) : act (Term W) CommandError () := λ t,
  match b with
  | [] => (t, Ok tt)
  | _ =>
      let '(flt, fs) := next_fault (term_faults t) in
      match flt with
      | None => (mkTerm (term_host t) (term_out t ++ b) fs, Ok tt)
      | Some n => (mkTerm (term_host t) (term_out t ++ take n b) fs, Err e)
      end
  end.

(** The [print] macros, and [std::io::stdout().write_all]. *)
Definition print_out (b : list byte) : act (Term W) CommandError () :=
  write_out (Panicked PRINT_FAILED) b.

Definition stdout_write_all (b : list byte) : act (Term W) CommandError () :=
  write_out (OpErr OpIo) b.

Definition say (s : string) : act (Term W) CommandError () := print_out (as_bytes s).

Definition on_host {A} (m : act (Host W) OperatorError A) : act (Term W) CommandError A := λ t,
  let '(h, r) := m (term_host t) in
  (mkTerm h (term_out t) (term_faults t), map_err OpErr r).

Definition on_rig {A} (m : act W CliError A) : act (Term W) CommandError A := λ t,
  let h := term_host t in
  let '(w, r) := m (host_world h) in
  (mkTerm (mkHost w (host_files h) (host_faults h)) (term_out t) (term_faults t),
   map_err rig_failure r).

(** What a command with [--out] has left to print, or to write. *)
Definition say_rest (b : option (list byte)) : act (Term W) CommandError () :=
  match b with Some b => print_out b | None => mret tt end.

Definition write_rest (b : option (list byte)) : act (Term W) CommandError () :=
  match b with Some b => stdout_write_all b | None => mret tt end.
End terminal.

(** * JSON reports *)

Section reports.
Context `{HexCodec}.

Definition value_of_blob_ref (b : BlobRef) : Value :=
  VObj [("outer", value_of_hash (blob_outer b)); ("size", VInt (blob_size b))].

Definition value_of_ship_part (s : ShipPart) : Value :=
  VObj [("part", VStr (ship_part s)); ("kind", VStr (ship_kind s));
        ("content", value_of_hash (ship_content s));
        ("blob", value_of_option value_of_blob_ref (ship_blob s))].

Definition value_of_component_apply (c : ComponentApply) : Value :=
  VObj ([("entity", VStr (ca_entity c)); ("version", value_of_option VStr (ca_version c));
         ("ship", VArr (value_of_ship_part <$> ca_ship c));
         ("reuse", VInt (Z.of_nat (ca_reuse c)))]
    ++ skip_none "supports_rollback" VBool (ca_supports_rollback c)).

Definition outcome_name (o : AssessmentOutcome) : string :=
  match o with
  | Converged => "converged"
  | ConvergedIgnoringDeviceOnly => "converged_ignoring_device_only"
  | Deferred => "deferred"
  | Actionable => "actionable"
  end.

Definition value_of_assessment (a : ConvergenceAssessment) : Value :=
  VObj [("outcome", VStr (outcome_name (assess_outcome a)));
        ("components", VArr (VStr <$> assess_components a));
        ("ignored_device_only_entities", VArr (VStr <$> ignored_device_only_entities a))].

Definition value_of_apply_plan (p : ApplyPlan) : Value :=
  VObj [("channel", VStr (ap_channel p));
        ("components", VArr (value_of_component_apply <$> ap_components p));
        ("assessment", value_of_assessment (ap_assessment p))].

Definition value_of_payload_ref (p : PayloadRef) : Value :=
  VObj [("uri", VStr (payload_ref_uri p)); ("outer", value_of_hash (payload_ref_outer p));
        ("size", VInt (payload_ref_size p))].

Definition value_of_component_flash (c : ComponentFlash) : Value :=
  VObj [("entity", VStr (cf_entity c)); ("envelope_bytes", VInt (Z.of_nat (cf_envelope_bytes c)));
        ("payloads", VArr (value_of_payload_ref <$> cf_payloads c))].

Definition value_of_flash_bundle (b : FlashBundle) : Value :=
  VObj [("channel", VStr (fb_channel b)); ("device", VStr (fb_device b));
        ("components", VArr (value_of_component_flash <$> fb_components b))].

Definition value_of_component_result (c : ComponentFlashResult) : Value :=
  VObj [("entity", VStr (cfr_entity c)); ("update_id", value_of_option VStr (cfr_update_id c));
        ("state", VStr (cfr_state c))].

Definition value_of_flash_result (r : FlashResult) : Value :=
  VObj [("channel", VStr (fr_channel r)); ("device", VStr (fr_device r));
        ("components", VArr (value_of_component_result <$> fr_components r))].
End reports.

(** * Running a command *)

(** What the commands draw from the machine: random octets and the clock. *)
Record Draws := mkDraws {
  draw_token : array TOKEN_LEN;
  draw_cti : array 16;
  draw_now : Z;
}.

Section commands.
Context {W : Type} `{Http W, SovdApi W, HexCodec, Sha256, Suit, FlashEngine W, !Coset, Cwt}.
Context `{!Console W} (to_signing_key : CoseKey → option CwtKey).

(** A report, as JSON or as text. *)
Definition report {A} (json : bool) (f : A → Value) (text : A → string) (a : A) :
    act (Term W) CommandError () :=
  say (if json then line (json_pretty (f a)) else text a).

(** [run_hub]. *)
Definition run_hub (url : string) (cmd : HubCmd) : act (Term W) CommandError () :=
  match cmd with
  | HubPing => '(ok, v) ← on_host (ping url); say (print_ping url ok v)
  | HubPublish file =>
      aref ← on_host (hub_publish url file);
      say (line ("inner " +:+ to_prefixed (ref_inner aref))
        +:+ line ("outer " +:+ to_prefixed (ref_outer aref))
        +:+ line ("size  " +:+ pretty (ref_size aref)))
  | HubGet hash out => rest ← on_host (hub_get url hash out); write_rest rest
  | HubChannel name device architecture json =>
      tree ← on_host (hub_channel url name device architecture);
      report json value_of_tree print_tree tree
  end.

(** [run_ca]. *)
Definition run_ca (d : Draws) (url : string) (cmd : CaCmd) : act (Term W) CommandError () :=
  match cmd with
  | CaPing => '(ok, v) ← on_host (ping url); say (print_ping url ok v)
  | CaRegister id model pubkey_file =>
      dev ← on_host (ca_register url id model pubkey_file); say (print_device dev)
  | CaDevices => l ← on_host (ca_devices url); say (print_devices l)
  | CaDevice id => dev ← on_host (ca_device url id); say (print_device dev)
  | CaEnroll id key_id csr out =>
      '(_, rest) ← on_host (ca_enroll url id key_id csr out); say_rest rest
  | CaMintKeystore id hub_url out =>
      rest ← on_host (ca_mint_keystore url id hub_url out); write_rest rest
  | CaCaCert out => rest ← on_host (ca_ca_cert url out); say_rest rest
  | CaTrustBundle out => _ ← on_host (ca_trust_bundle url out); mret tt
  | CaVhsmBootstrapToken vm_id token_out state_out standalone =>
      rest ← on_host (ca_bootstrap_token (draw_token d) vm_id token_out state_out standalone);
      say_rest rest
  | CaVhsmMintCwt signing_key vm_id issuer cnf_pub lifetime_secs output =>
      _ ← on_host (ca_mint_cwt to_signing_key (draw_now d) (draw_cti d) signing_key vm_id issuer
        cnf_pub lifetime_secs output);
      mret tt
  end.

(** [RigCmd::Diff]: the desired tree from a file or from a channel. *)
Definition cmd_diff (url : string) (release channel device architecture : option string)
    (hub_url : string) (plan : bool) (trust : Trust) : act (Term W) CommandError () :=
  observed ← on_rig (orchestrate (read_rig_state url trust));
  desired ← match release, channel with
    | Some path, _ =>
        text ← on_host (fs_read path);
        lift (ok_or (OpErr (OpText "not a tree")) (v ← json_parse text; tree_of_value v))
    | None, Some name => on_host (hub_channel hub_url name device architecture)
    | None, None => throw (Panicked "clap requires --release or --channel")
    end;
  say (if plan : bool then print_plan (flash_plan observed desired)
       else print_diff (diff observed desired)).

(** [RigCmd::Campaign] with what it prints on the way. *)
Definition cmd_campaign_out (url hub_url ca_url : string) (sel : ChannelSel) (auth : AuthArgs)
    (execute no_commit : bool) (only : option string) (trust : Trust) :
    act (Term W) CommandError () :=
  let target := sel_target sel in
  plan ← on_rig (orchestrate (apply_plan url hub_url target None trust));
  groups ← on_rig (lift (campaign_gate plan only));
  match groups with
  | None => say (line ("up to date — nothing to flash for channel '" +:+ sel_channel sel +:+ "'"))
  | Some (singleshot, banked) =>
      _ ← say (
        if bool_decide (singleshot = [] ∧ banked = []) then
          line "administrative-only or removal drift — signed campaign still required"
          +:+ line ("Campaign — apply administrative/removal change(s) to "
                +:+ debug_list (assess_components (ap_assessment plan)))
        else print_campaign (sel_channel sel) (auth_device_id auth) singleshot banked);
      if execute then
        node_state ← on_rig (orchestrate (node_update_state url trust));
        if is_unresolved node_state then
          throw (RigErr (UnresolvedTransaction (node_phase node_state)
            (node_components node_state)))
        else
          tok ← on_rig (lift (rig_token auth url trust));
          results ← on_rig (orchestrate (campaign_execute url hub_url ca_url target
            (auth_device_id auth) no_commit tok trust ((λ o, [o]) <$> only)));
          say (lines (λ r, line ("  " +:+ cfr_entity r +:+ " → " +:+ cfr_state r)) results
            +:+ line (nl +:+ "campaign complete — "
                  +:+ if no_commit : bool
                      then "banked components in trial; commit when healthy (./commit.sh)."
                      else "each healthy step committed."))
      else say (line (nl +:+ "(plan only — re-run with --execute to run the campaign)"))
  end.

(** [RigCmd::InstallKeystore]. *)
Definition cmd_install_keystore (url suit hub_url : string) (auth : AuthArgs) (trust : Trust) :
    act (Term W) CommandError () :=
  tok ← on_rig (lift (rig_token auth url trust));
  suit_bytes ← on_host (fs_read suit);
  trust_anchor ← on_host (on_network (client_signer_pubkey (tower_new hub_url)));
  result ← on_rig (orchestrate (flash_keystore url suit_bytes trust_anchor tok trust));
  say (lines (λ c, line ("hsm keystore → " +:+ cfr_state c)) (fr_components result)
    +:+ line "keystore installed — the rig now trusts Tower 2's signer; flash firmware next.").

(** [run_rig]. *)
Definition run_rig (url : string) (cmd : RigCmd) (trust : Trust) : act (Term W) CommandError () :=
  match cmd with
  | RigState json =>
      observed ← on_rig (cmd_state url trust); report json value_of_tree print_tree observed
  | RigDiff release channel device architecture hub_url plan =>
      cmd_diff url release channel device architecture hub_url plan trust
  | RigApply sel hub_url json =>
      plan ← on_rig (cmd_apply url hub_url sel trust);
      report json value_of_apply_plan print_apply plan
  | RigFlash sel hub_url ca_url auth only execute json =>
      r ← on_rig (cmd_flash url hub_url ca_url sel auth only execute trust);
      match r with
      | inl result => report json value_of_flash_result (λ r, print_flash_result r true) result
      | inr bundle => report json value_of_flash_bundle print_bundle bundle
      end
  | RigCampaign sel hub_url ca_url auth execute no_commit only =>
      cmd_campaign_out url hub_url ca_url sel auth execute no_commit only trust
  | RigCommit component update auth =>
      status ← on_rig (cmd_commit url component update auth trust);
      say (line (component +:+ " committed → " +:+ status))
  | RigRollback component update auth =>
      status ← on_rig (cmd_rollback url component update auth trust);
      say (line (component +:+ " rolled back → " +:+ status))
  | RigCommitTrials auth =>
      _ ← on_rig (cmd_commit_trials url auth trust);
      say (line "node trials committed (the update session is the commit unit)")
  | RigRollbackTrials auth =>
      _ ← on_rig (cmd_rollback_trials url auth trust);
      say (line "node trials rolled back")
  | RigReset component update auth =>
      status ← on_rig (cmd_reset url component update auth trust);
      say (line (component +:+ " reset → " +:+ status))
  | RigInstallKeystore suit hub_url auth => cmd_install_keystore url suit hub_url auth trust
  end.

(** [main]: the pinned root is read before any work. *)
Definition main (d : Draws) (cli : CliArgs) : act (Term W) CommandError () :=
  ca_cert_pem ← match cli_cacert cli with
    | Some path => pem ← on_host (fs_read path); mret (Some pem)
    | None => mret None
    end;
  match cli_command cli with
  | Hub url cmd => run_hub url cmd
  | Ca url cmd => run_ca d url cmd
  | Rig url cmd => run_rig url cmd (mkTrust (cli_insecure cli) ca_cert_pem)
  end.
End commands.

(** * Lemmas: what a command leaves alone *)

Section keeps.
Context {W : Type} `{Http W, SovdApi W, HexCodec, Sha256, Suit, FlashEngine W, !Coset, Cwt}.
Context `{!Console W} (to_signing_key : CoseKey → option CwtKey).
Context (P : W → Prop) (Hobs : Observational P).

Abbreviation on_the_host := (λ h : Host W, P (host_world h)).
Abbreviation on_the_term := (λ t : Term W, P (term_world t)).

Lemma on_network_keeps {A} (m : act W ClientError A) :
  preserves P m → preserves on_the_host (on_network m).
Proof.
  intros Hm h Hh. specialize (Hm _ Hh). unfold on_network. by destruct (m (host_world h)).
Qed.

Lemma fs_read_keeps path : preserves on_the_host (fs_read path).
Proof. intros h Hh. unfold fs_read, io. by destruct (next_fault _) as [[] ?]. Qed.

Lemma fs_write_keeps path b : preserves on_the_host (fs_write path b).
Proof. intros h Hh. unfold fs_write, io. by destruct (next_fault _) as [[[]|] ?]. Qed.

Lemma fs_create_keeps path : preserves on_the_host (fs_create_dir_all path).
Proof. intros h Hh. unfold fs_create_dir_all, io. by destruct (next_fault _) as [[] ?]. Qed.

Lemma on_host_keeps {A} (m : act (Host W) OperatorError A) :
  preserves on_the_host m → preserves on_the_term (on_host m).
Proof.
  intros Hm t Ht. specialize (Hm _ Ht). unfold on_host. by destruct (m (term_host t)).
Qed.

Lemma on_rig_keeps {A} (m : act W CliError A) :
  preserves P m → preserves on_the_term (on_rig m).
Proof.
  intros Hm t Ht. specialize (Hm _ Ht). unfold on_rig, term_world in *. cbv zeta.
  by destruct (m (host_world (term_host t))).
Qed.

Lemma write_out_keeps e b : preserves on_the_term (write_out e b).
Proof. intros t Ht. destruct b; [done|]. unfold write_out. by destruct (next_fault _) as [[] ?]. Qed.

Lemma say_keeps s : preserves on_the_term (say s).
Proof. apply write_out_keeps. Qed.

Lemma say_rest_keeps b : preserves on_the_term (say_rest b).
Proof. destruct b; [apply write_out_keeps|apply preserves_ret]. Qed.

Lemma write_rest_keeps b : preserves on_the_term (write_rest b).
Proof. destruct b; [apply write_out_keeps|apply preserves_ret]. Qed.

Ltac leaves_once := first
  [ done | progress intros | case_match
  | apply say_keeps | apply say_rest_keeps | apply write_rest_keeps | apply fs_read_keeps | apply fs_write_keeps
  | apply fs_create_keeps | apply on_network_keeps | apply on_host_keeps | apply on_rig_keeps
  | apply (fetch_keeps P Hobs); solve [auto with observing nocore]
  | apply (fetch_option_keeps P Hobs); solve [auto with observing nocore]
  | apply (apply_plan_keeps P Hobs) | apply (node_update_state_keeps P Hobs)
  | apply (read_rig_state_keeps P Hobs)
  | apply preserves_ret | apply preserves_throw | apply preserves_lift
  | apply preserves_bind | apply preserves_fold | apply preserves_map_err ].

Ltac leaves := repeat leaves_once.

Lemma run_hub_keeps url cmd : preserves on_the_term (run_hub url cmd).
Proof.
  destruct cmd; simpl;
    unfold ping, healthy, version, hub_publish, publish_artifact, hub_get, client_get_blob,
      write_or_print, hub_channel, client_channel_target_tree, report; leaves.
Qed.

Lemma run_ca_keeps d url cmd : preserves on_the_term (run_ca to_signing_key d url cmd).
Proof.
  destruct cmd; simpl;
    unfold ping, healthy, version, ca_register, client_register_device, fs_read_to_string,
      ca_devices, client_list_devices, ca_device, client_get_device, ca_enroll, client_enroll,
      ca_mint_keystore, client_signer_pubkey, client_mint_keystore, ca_ca_cert, client_ca_cert,
      ca_trust_bundle, client_trust_bundle, ca_bootstrap_token, ca_mint_cwt, write_or_print;
    leaves.
Qed.

Lemma flash_bundle_keeps url hub ca target device only trust :
  preserves P (flash_bundle url hub ca target device only trust).
Proof.
  unfold flash_bundle, roster_pubkey, client_get_device, bundle_component,
    client_build_envelope, tower.
  leaves.
Qed.

Lemma cmd_diff_keeps url release channel device architecture hub_url plan trust :
  preserves on_the_term (cmd_diff url release channel device architecture hub_url plan trust).
Proof.
  unfold cmd_diff, orchestrate, hub_channel, client_channel_target_tree.
  leaves.
Qed.

Lemma lift_err_keeps {S E A B} (Q : S → Prop) (e : E) (f : A → act S E B) :
  preserves Q (lift (Err e) ≫= f).
Proof. by intros s Hs. Qed.

Lemma on_rig_err_keeps {A B} (e : CliError) (f : A → act (Term W) CommandError B) :
  preserves on_the_term (on_rig (lift (Err e)) ≫= f).
Proof. by intros t Ht. Qed.

(** A command that drives the rig and has no token. *)
Lemma no_token_keeps url cmd auth e trust :
  drives_rig (Rig url cmd) = Some auth → rig_token auth url trust = Err e →
  preserves on_the_term (run_rig url cmd trust).
Proof.
  destruct cmd; simpl; try done; try (destruct execute; [|done]); intros [= <-] He;
    unfold cmd_flash, cmd_campaign_out, cmd_commit, cmd_rollback, cmd_reset, cmd_commit_trials,
      cmd_rollback_trials, cmd_verdict, cmd_install_keystore, orchestrate; rewrite ?He.
  all: repeat first [apply lift_err_keeps|apply on_rig_err_keeps|progress leaves_once].
Qed.

(** One that does not. *)
Lemma observing_keeps url cmd trust :
  drives_rig (Rig url cmd) = None → preserves on_the_term (run_rig url cmd trust).
Proof.
  destruct cmd; simpl; try done; try (destruct execute; [done|]); intros _;
    unfold cmd_flash, cmd_campaign_out, cmd_state, cmd_apply, report, orchestrate.
  all: repeat first [apply cmd_diff_keeps|apply flash_bundle_keeps|progress leaves_once].
Qed.
End keeps.

(** * Lemmas: where a panic comes from *)

Section raises.
Context {W : Type} `{Http W, SovdApi W, HexCodec, Sha256, Suit, FlashEngine W, !Coset, Cwt}.

(** A verb of the engine panics with this text, for some arguments in some state. *)
Definition engine_panics (text : string) : Prop :=
  let panics {A} (m : act W EngineError A) := ∃ w, (m w).2 = Err (EnginePanicked text) in
  (∃ cfg jobs, panics (engine_guard cfg jobs)) ∨ (∃ cfg jobs, panics (stage_all cfg jobs)) ∨
  (∃ cfg ecus, panics (reset_all cfg ecus)) ∨ (∃ cfg ecus, panics (commit_all cfg ecus)) ∨
  (∃ cfg ecus, panics (rollback_all cfg ecus)) ∨
  (∃ cfg steps b, panics (run_campaign cfg steps b)) ∨
  (∃ cfg, panics (commit_node_trials cfg)) ∨ (∃ cfg, panics (rollback_node_trials cfg)).

Context (R : string → Prop).

(** An error that is a panic is one of those of [R]. *)
Definition engine_raises (e : Error) : Prop :=
  ∀ text, e = Engine_ (EnginePanicked text) → R text.
Definition rig_raises (e : CliError) : Prop :=
  ∀ text, e = CliOrchestrator (Engine_ (EnginePanicked text)) → R text.

Lemma parse_admin_disabled_raises v e : parse_admin_disabled v = Err e → engine_raises e.
Proof. unfold parse_admin_disabled. intros He text ->. by repeat case_match. Qed.

Lemma l1_selector_raises t e : l1_selector t = Err e → engine_raises e.
Proof. unfold l1_selector. intros He text ->. by repeat case_match. Qed.

Lemma try_map_raises {A B} (f : A → result Error B) l e :
  (∀ x e, f x = Err e → engine_raises e) → try_map f l = Err e → engine_raises e.
Proof.
  intros Hf. revert e. induction l as [|x l IH]; intros e; simpl; [done|].
  destruct (f x) as [y|e'] eqn:Hx; simpl; [|by intros [= <-]; eapply Hf].
  destruct (try_map f l) as [ys|e']; simpl; [done|]. intros [= <-]. by apply IH.
Qed.

Lemma fanout_part_raises c m i e : fanout_part c m i = Err e → engine_raises e.
Proof.
  unfold fanout_part. intros He text ->. revert He.
  destruct (component_id m i ≫= _) as [part|]; simpl; [|done].
  destruct (manifest_uri m i) as [uri|]; simpl; [|done]. by destruct (from_str uri).
Qed.

Lemma fanout_l1_raises l1 e : fanout_l1 l1 = Err e → engine_raises e.
Proof.
  unfold fanout_l1. destruct (decode_envelope l1) as [c|]; simpl; [|by intros [= <-] text].
  apply try_map_raises. intros [key l2] e'. unfold fanout_l2.
  destruct (decode_envelope l2) as [m|]; simpl; [|by intros [= <-] text].
  destruct (try_map _ _) as [ps|e2] eqn:Hps; simpl; [done|]. intros [= <-].
  eapply try_map_raises; [|exact Hps]. intros i e3. apply fanout_part_raises.
Qed.

Lemma rig_token_raises auth url trust e : rig_token auth url trust = Err e → rig_raises e.
Proof.
  unfold rig_token. intros He text ->. repeat case_match; try done.
  by destruct (auth_operator_token auth).
Qed.

Lemma campaign_gate_raises plan only e : campaign_gate plan only = Err e → rig_raises e.
Proof. unfold campaign_gate. intros He text ->. by repeat case_match. Qed.

(** Code that raises only such errors, construct by construct. *)
Ltac raising := repeat first
  [ done | progress intros | case_match
  | apply raises_bind | apply raises_fold | apply raises_attempt | apply raises_throw
  | apply raises_map_err
  | solve [apply raises_lift; eauto using parse_admin_disabled_raises, l1_selector_raises,
      fanout_l1_raises]
  | apply raises_lift; intros ? ?; unfold ok_or, map_err in *; case_match; by simplify_eq ].

Lemma node_update_state_raises url trust : raises engine_raises (node_update_state url trust).
Proof. unfold node_update_state, node_call. raising. Qed.

Lemma read_rig_state_raises url trust : raises engine_raises (read_rig_state url trust).
Proof.
  unfold read_rig_state, connect_sovd. apply raises_bind.
  - generalize (@None SovdClientError). induction (scheme_candidates url) as [|u urls IH];
      intros last; simpl; raising.
  - unfold read_entity, read_installed, read_update_mode, read_optional, read_admin_disabled.
    raising.
Qed.

Lemma apply_plan_raises url hub target only trust :
  raises engine_raises (apply_plan url hub target only trust).
Proof.
  unfold apply_plan, desired_tree, apply_entity, apply_part, tower.
  apply raises_bind; [apply read_rig_state_raises|]. raising.
Qed.

Lemma l1_flash_plan_raises url hub ca target device only trust :
  raises engine_raises (l1_flash_plan url hub ca target device only trust).
Proof.
  unfold l1_flash_plan, roster_pubkey, l1_jobs, component_payloads, fetch_ciphertext, tower.
  apply raises_bind; [apply read_rig_state_raises|]. raising.
Qed.

Lemma flash_bundle_raises url hub ca target device only trust :
  raises engine_raises (flash_bundle url hub ca target device only trust).
Proof.
  unfold flash_bundle, roster_pubkey, bundle_component, tower.
  apply raises_bind; [apply apply_plan_raises|]. raising.
Qed.

(** ** The verbs *)

Lemma engine_verb_raises {A} (m : act W EngineError A) :
  (∀ text, (∃ w, (m w).2 = Err (EnginePanicked text)) → R text) → raises engine_raises (engine m).
Proof.
  intros Hm. apply raises_map_err_of. intros w e He text [= ->]. apply Hm. by exists w.
Qed.

Context (Heng : ∀ text, engine_panics text → R text).

Ltac verb := apply engine_verb_raises; intros text Hp; apply Heng; unfold engine_panics;
  repeat (first [by left; eauto|right]); eauto.

Lemma flash_execute_raises url hub ca target device only reboot tok trust :
  raises engine_raises (flash_execute url hub ca target device only reboot tok trust).
Proof.
  unfold flash_execute, build_flash_plan. apply raises_bind.
  { apply raises_bind; [apply l1_flash_plan_raises|]. raising. }
  intros [jobs anchor]. destruct jobs; [raising|].
  apply raises_bind; [verb|]. intros _. apply raises_bind; [verb|]. intros ecus.
  apply raises_bind; [verb|]. raising.
Qed.

Lemma campaign_execute_raises url hub ca target device no_commit tok trust only :
  raises engine_raises (campaign_execute url hub ca target device no_commit tok trust only).
Proof.
  unfold campaign_execute. apply raises_bind; [apply l1_flash_plan_raises|].
  intros [[jobs anchor] observed]. destruct jobs; [raising|].
  apply raises_bind; [verb|]. raising.
Qed.

Lemma flash_keystore_raises url suit anchor tok trust :
  raises engine_raises (flash_keystore url suit anchor tok trust).
Proof. unfold flash_keystore. apply raises_bind; [verb|]. raising. Qed.

(** The status of the one component is there after the verb. *)
Lemma verdict_one_raises
    (verb : EngineConfig → list EcuStatus → act W EngineError (list EcuStatus))
    url component update state tok trust :
  (∀ cfg l w w' l', verb cfg l w = (w', Ok l') → length l' = length l) →
  (∀ cfg l, raises engine_raises (engine (verb cfg l))) →
  raises engine_raises (verdict_one verb url component update state tok trust).
Proof.
  intros Hlen Hverb w e. unfold verdict_one. unfold_act.
  match goal with |- context [engine ?m w] => destruct (engine m w) as [w' [l|e']] eqn:Hr end.
  - unfold engine in Hr. apply map_err_inv, Hlen in Hr. by destruct l.
  - intros [= <-]. eapply Hverb. by rewrite Hr.
Qed.

Lemma verdicts_raise url component update tok trust :
  raises engine_raises (flash_reset url component update tok trust) ∧
  raises engine_raises (flash_commit url component update tok trust) ∧
  raises engine_raises (flash_rollback url component update tok trust) ∧
  raises engine_raises (flash_commit_trials url tok trust) ∧
  raises engine_raises (flash_rollback_trials url tok trust).
Proof.
  split_and!.
  - apply verdict_one_raises; [apply reset_all_length|intros; verb].
  - apply verdict_one_raises; [apply commit_all_length|intros; verb].
  - apply verdict_one_raises; [apply rollback_all_length|intros; verb].
  - verb.
  - verb.
Qed.

(** ** The commands *)

(** Standard output has failed, or works from here on. *)
Context (noisy : Prop) (Hnoisy : noisy → R PRINT_FAILED).

Definition stdout_ok (t : Term W) : Prop := no_faults (term_faults t) ∨ noisy.

(** A command that panics only with a text of [R]. *)
Definition panics_in {A} (m : act (Term W) CommandError A) : Prop :=
  ∀ t, stdout_ok t → stdout_ok (m t).1 ∧ ∀ text, (m t).2 = Err (Panicked text) → R text.

Lemma panics_in_bind {A B} (m : act (Term W) CommandError A) (f : A → act (Term W) CommandError B) :
  panics_in m → (∀ a, panics_in (f a)) → panics_in (m ≫= f).
Proof.
  intros Hm Hf t Ht. destruct (Hm t Ht) as [Ht' Hr]. unfold mbind, act_bind.
  destruct (m t) as [t' [a|e]]; simpl in *; [by apply Hf|].
  split; [done|]. intros text [= ->]. by apply Hr.
Qed.

Lemma panics_in_ret {A} (a : A) : panics_in (mret a).
Proof. by intros t Ht. Qed.

Lemma panics_in_lift {A} (r : result CommandError A) :
  (∀ text, r = Err (Panicked text) → R text) → panics_in (lift r).
Proof. by intros Hr t Ht. Qed.

Lemma panics_in_throw {A} e : (∀ text, e ≠ Panicked text) → panics_in (throw e : act _ _ A).
Proof. intros He t Ht. split; [done|]. intros text [= ->]. by destruct (He text). Qed.

Lemma panics_in_write e b : (∀ text, e = Panicked text → text = PRINT_FAILED) →
  panics_in (write_out e b).
Proof.
  intros He t Ht. destruct b as [|x b]; [done|]. unfold write_out, stdout_ok in *.
  destruct (term_faults t) as [|flt fs] eqn:Hf; simpl; [by split|].
  destruct flt as [n|]; simpl.
  - destruct Ht as [Ht|Ht]; [by inversion Ht|]. split; [by right|].
    intros text [= Hp]. apply He in Hp as ->. by apply Hnoisy.
  - split; [|done]. destruct Ht as [Ht|Ht]; [left; by inversion Ht|by right].
Qed.

Lemma panics_in_say s : panics_in (say s).
Proof. apply panics_in_write. by intros text [= <-]. Qed.

Lemma panics_in_say_rest b : panics_in (say_rest b).
Proof. destruct b; [|apply panics_in_ret]. apply panics_in_write. by intros text [= <-]. Qed.

Lemma panics_in_write_rest b : panics_in (write_rest b).
Proof. destruct b; [|apply panics_in_ret]. by apply panics_in_write. Qed.

Lemma panics_in_host {A} (m : act (Host W) OperatorError A) : panics_in (on_host m).
Proof.
  intros t Ht. unfold on_host. destruct (m _) as [h [a|e]]; simpl; by split.
Qed.

Lemma panics_in_rig {A} (m : act W CliError A) : raises rig_raises m → panics_in (on_rig m).
Proof.
  intros Hm t Ht. unfold on_rig. cbv zeta. specialize (Hm (host_world (term_host t))).
  destruct (m _) as [w [a|e]]; simpl in *; [by split|]. split; [done|].
  intros text [= He]. apply (Hm e eq_refl). unfold rig_failure in He. by repeat case_match; simplify_eq.
Qed.

Lemma orchestrate_raises {A} (m : act W Error A) :
  raises engine_raises m → raises rig_raises (orchestrate m).
Proof.
  intros Hm. apply raises_map_err_of. intros w e He text [= ->]. by eapply Hm.
Qed.
End raises.

Section panics.
Context {W : Type} `{Http W, SovdApi W, HexCodec, Sha256, Suit, FlashEngine W, !Coset, Cwt}.
Context `{!Console W} (to_signing_key : CoseKey → option CwtKey).
Context (R : string → Prop) (noisy : Prop) (Hnoisy : noisy → R PRINT_FAILED).

Abbreviation panics := (panics_in R noisy).

Ltac panicking := repeat first
  [ done | progress intros | case_match
  | apply panics_in_ret | apply panics_in_bind | apply panics_in_host | apply panics_in_throw
  | apply (panics_in_say R noisy Hnoisy) | apply (panics_in_say_rest R noisy Hnoisy)
  | apply (panics_in_write_rest R noisy Hnoisy)
  | apply panics_in_rig | apply orchestrate_raises
  | apply read_rig_state_raises | apply apply_plan_raises | apply node_update_state_raises
  | apply flash_bundle_raises
  | apply raises_lift; [apply campaign_gate_raises]
  | apply raises_lift; eauto using rig_token_raises, campaign_gate_raises
  | match goal with |- raises _ _ => first [apply raises_bind|apply raises_ret] end ].

Lemma run_hub_panics url cmd : panics (run_hub url cmd).
Proof. destruct cmd; simpl; unfold report; panicking. Qed.

Lemma run_ca_panics d url cmd : panics (run_ca to_signing_key d url cmd).
Proof. destruct cmd; simpl; panicking. Qed.

Lemma cmd_diff_panics url release channel device architecture hub_url plan trust :
  accepted_rig (RigDiff release channel device architecture hub_url plan) = true →
  panics (cmd_diff url release channel device architecture hub_url plan trust).
Proof.
  intros Hacc. unfold cmd_diff. apply panics_in_bind; [panicking|]. intros observed.
  apply panics_in_bind; [|panicking].
  destruct release as [path|]; [|destruct channel as [name|]; [panicking|done]].
  apply panics_in_bind; [panicking|]. intros text. apply panics_in_lift.
  intros msg. by destruct (json_parse text ≫= _).
Qed.

(** With the token in hand: the rest of a command that drives the rig. *)
Lemma on_rig_token {A} auth url trust (f : RigToken → act (Term W) CommandError A) :
  (∀ tok, rig_token auth url trust = Ok tok → panics (f tok)) →
  panics (tok ← on_rig (lift (rig_token auth url trust)); f tok).
Proof.
  intros Hf t Ht. destruct (rig_token auth url trust) as [tok|e] eqn:He.
  - destruct t as [[w files hf] out tf]. by apply Hf.
  - split; [done|]. intros text [= Hr]. apply rig_token_raises with (R := R) in He.
    unfold rig_failure in Hr. apply He. by repeat case_match; simplify_eq.
Qed.

Lemma token_raises {A} auth url trust (f : RigToken → act W CliError A) :
  (∀ tok, rig_token auth url trust = Ok tok → raises (rig_raises R) (f tok)) →
  raises (rig_raises R) (tok ← lift (rig_token auth url trust); f tok).
Proof.
  intros Hf w e. destruct (rig_token auth url trust) as [tok|e'] eqn:He.
  - by apply Hf.
  - intros [= <-]. by apply rig_token_raises with (R := R) in He.
Qed.

(** The panics of a rig command: those of standard output, and those of the engine if
    the command drives the rig and has a token. *)
Lemma run_rig_panics url cmd trust :
  accepted_rig cmd = true →
  (∀ auth tok, drives_rig (Rig url cmd) = Some auth → rig_token auth url trust = Ok tok →
     ∀ text, engine_panics text → R text) →
  panics (run_rig url cmd trust).
Proof.
  intros Hacc Heng.
  assert (∀ auth tok, drives_rig (Rig url cmd) = Some auth → rig_token auth url trust = Ok tok →
    ∀ component update,
      raises (rig_raises R) (orchestrate (flash_reset url component update tok trust)) ∧
      raises (rig_raises R) (orchestrate (flash_commit url component update tok trust)) ∧
      raises (rig_raises R) (orchestrate (flash_rollback url component update tok trust)) ∧
      raises (rig_raises R) (orchestrate (flash_commit_trials url tok trust)) ∧
      raises (rig_raises R) (orchestrate (flash_rollback_trials url tok trust))) as Hverbs.
  { intros auth tok Hd Htok component update.
    destruct (verdicts_raise R (Heng auth tok Hd Htok) url component update tok trust)
      as (? & ? & ? & ? & ?). split_and!; by apply orchestrate_raises. }
  destruct cmd; simpl in Heng, Hverbs |- *; unfold report, cmd_state, cmd_apply, cmd_commit,
    cmd_rollback, cmd_reset, cmd_commit_trials, cmd_rollback_trials, cmd_verdict.
  - panicking.
  - by apply cmd_diff_panics.
  - panicking.
  - unfold cmd_flash. destruct execute; [|panicking]. apply panics_in_bind; [|panicking].
    apply panics_in_rig, token_raises. intros tok Htok.
    apply raises_bind; [|intros; apply raises_ret].
    by apply orchestrate_raises, flash_execute_raises, (Heng auth tok).
  - unfold cmd_campaign_out. apply panics_in_bind; [panicking|]. intros plan.
    apply panics_in_bind; [panicking|]. intros [[single banked]|]; [|panicking].
    apply panics_in_bind; [panicking|]. intros _. destruct execute; [|panicking].
    apply panics_in_bind; [panicking|]. intros st. destruct (is_unresolved st); [panicking|].
    apply on_rig_token. intros tok Htok. apply panics_in_bind; [|panicking].
    by apply panics_in_rig, orchestrate_raises, campaign_execute_raises, (Heng auth tok).
  - apply panics_in_bind; [|panicking]. apply panics_in_rig, token_raises. intros tok Htok.
    by apply (Hverbs auth tok eq_refl Htok component update).
  - apply panics_in_bind; [|panicking]. apply panics_in_rig, token_raises. intros tok Htok.
    by apply (Hverbs auth tok eq_refl Htok component update).
  - apply panics_in_bind; [|panicking]. apply panics_in_rig, token_raises. intros tok Htok.
    by apply (Hverbs auth tok eq_refl Htok "" "").
  - apply panics_in_bind; [|panicking]. apply panics_in_rig, token_raises. intros tok Htok.
    by apply (Hverbs auth tok eq_refl Htok "" "").
  - apply panics_in_bind; [|panicking]. apply panics_in_rig, token_raises. intros tok Htok.
    by apply (Hverbs auth tok eq_refl Htok component update).
  - unfold cmd_install_keystore. apply on_rig_token. intros tok Htok.
    apply panics_in_bind; [panicking|]. intros bytes. apply panics_in_bind; [panicking|].
    intros anchor. apply panics_in_bind; [|panicking].
    by apply panics_in_rig, orchestrate_raises, flash_keystore_raises, (Heng auth tok).
Qed.

(** A command line that clap accepts. *)
Lemma main_panics d cli :
  accepted cli = true →
  (∀ url cmd auth tok trust, cli_command cli = Rig url cmd →
     drives_rig (cli_command cli) = Some auth → rig_token auth url trust = Ok tok →
     ∀ text, engine_panics text → R text) →
  panics (main to_signing_key d cli).
Proof.
  intros Hacc Heng. unfold main. apply panics_in_bind.
  { destruct (cli_cacert cli); panicking. }
  intros pem. unfold accepted in Hacc. destruct (cli_command cli) as [url cmd|url cmd|url cmd].
  - apply run_hub_panics.
  - apply run_ca_panics.
  - apply run_rig_panics; [done|]. intros auth tok Hd Htok. by eapply Heng.
Qed.
End panics.

(** * Properties *)

Section command_properties.
Context {W : Type} `{Http W, SovdApi W, HexCodec, Sha256, Suit, FlashEngine W, !Coset, Cwt}.
Context `{!Console W} (to_signing_key : CoseKey → option CwtKey).

(** A text that was printed. *)
Lemma say_Ok text (t t' : Term W) :
  say text t = (t', Ok tt) →
  term_host t' = term_host t ∧ term_out t' = term_out t ++ as_bytes text ∧
  (no_faults (term_faults t) → no_faults (term_faults t')).
Proof.
  unfold say, print_out, write_out. destruct (as_bytes text) as [|b l].
  - intros [= <-]. by rewrite app_nil_r.
  - destruct (term_faults t) as [|[n|] fs]; simpl; intros [= <-]; simpl; split_and!; try done.
    by inversion 1.
Qed.

(** Printing to a standard output that works. *)
Lemma say_quiet text (t : Term W) :
  no_faults (term_faults t) →
  ∃ fs, say text t = (mkTerm (term_host t) (term_out t ++ as_bytes text) fs, Ok tt) ∧
    no_faults fs.
Proof.
  intros Hq. unfold say, print_out, write_out. destruct t as [h out fs]. simpl in *.
  destruct (as_bytes text) as [|b l]; [exists fs; by rewrite app_nil_r|].
  destruct fs as [|flt fs]; simpl; [by exists []|].
  inversion Hq; subst. simpl. by exists fs.
Qed.

(** What [cmd_campaign_out] does beyond printing is [cmd_campaign]: the same world, and an
    error exactly when it has one. *)
Lemma campaign_out_erases url hub_url ca_url sel auth execute no_commit only trust (t : Term W) :
  no_faults (term_faults t) →
  let r := cmd_campaign_out url hub_url ca_url sel auth execute no_commit only trust t in
  let r' := cmd_campaign url hub_url ca_url sel auth execute no_commit only trust (term_world t) in
  term_world r.1 = r'.1 ∧ host_files (term_host r.1) = host_files (term_host t) ∧
  match r'.2 with Ok _ => r.2 = Ok tt | Err e => r.2 = Err (rig_failure e) end.
Proof.
  intros Hq. destruct t as [h out fs]. cbn in Hq.
  unfold cmd_campaign_out, cmd_campaign, on_rig, term_world. unfold_act. cbv zeta.
  cbn [term_host term_out term_faults].
  destruct (orchestrate (apply_plan _ _ _ _ _) _) as [w1 [plan|e]]; simpl; [|done].
  destruct (campaign_gate plan only) as [[[single banked]|]|e]; simpl; [| |done].
  2:{ destruct (say_quiet (line ("up to date — nothing to flash for channel '" +:+
        sel_channel sel +:+ "'")) (mkTerm (mkHost w1 (host_files h) (host_faults h)) out fs) Hq)
        as (fs' & -> & _). done. }
  match goal with |- context [say ?x ?t] =>
    destruct (say_quiet x t Hq) as (fs1 & -> & Hq1) end.
  destruct execute; simpl.
  2:{ match goal with |- context [say ?x ?t] =>
        destruct (say_quiet x t Hq1) as (fs2 & -> & _) end. done. }
  destruct (orchestrate (node_update_state _ _) _) as [w2 [st|e]]; simpl; [|done].
  destruct (is_unresolved st); simpl; [done|].
  destruct (rig_token auth url trust) as [tok|e]; simpl; [|done].
  destruct (orchestrate (campaign_execute _ _ _ _ _ _ _ _ _) _) as [w3 [res|e]]; simpl; [|done].
  match goal with |- context [say ?x ?t] =>
    destruct (say_quiet x t Hq1) as (fs2 & -> & _) end. done.
Qed.

(** The command asks the engine to act on the rig, and a token for the rig was chosen. *)
Definition driven (cli : CliArgs) : Prop :=
  ∃ url cmd auth tok trust, cli_command cli = Rig url cmd ∧
    drives_rig (cli_command cli) = Some auth ∧ rig_token auth url trust = Ok tok.


(** A tree does not differ from itself. *)
Lemma diff_self (t : Tree) : unique_ids t → diff_is_empty (diff t t) = true.
Proof.
  intros Hu. apply diff_is_empty_spec. split; [by apply diff_added_nil|].
  split; [by apply diff_removed_nil|]. apply diff_changes_nil; [done|done|].
  intros id des Hd. unfold observed_parts. by rewrite Hd.
Qed.

Lemma plan_self (t : Tree) : unique_ids t → is_noop (flash_plan t t) = true.
Proof.
  intros Hu. pose proof (diff_self t Hu) as Hd. apply diff_is_empty_spec in Hd as (_ & _ & Hd).
  destruct (flash_plan_ships_diff t t) as [Hs _]. rewrite Hd in Hs. simpl in Hs.
  apply fmap_nil_inv in Hs. unfold is_noop. apply forallb_forall. intros p Hp%list_elem_of_In.
  apply bool_decide_eq_true. destruct (pp_plan p) eqn:Hk; [|done].
  assert (p ∈ ships (flash_plan t t)) as Hin by (unfold ships; by apply list_elem_of_filter).
  rewrite Hs in Hin. by apply not_elem_of_nil in Hin.
Qed.

(** C25: a captured state is a release the rig has.  When [rig state --json] printed the tree
    of a rig whose components name each part once, and that text is in a file, then
    [rig diff --release] with that file, on a rig that reads the same, prints that it is
    up to date, and with [--plan] that every part is in the active bank. *)
Theorem captured_state_up_to_date (url hub_url path : string) (trust : Trust)
    (t t1 t2 t3 : Term W) (plan : bool)
    (Hunique : ∀ observed, (read_rig_state url trust (term_world t)).2 = Ok observed →
       unique_ids observed)
    (Hstate : run_rig url (RigState true) trust t = (t1, Ok tt))
    (Hfile : host_files (term_host t2) !! path = Some (drop (length (term_out t)) (term_out t1)))
    (Hsame : (read_rig_state url trust (term_world t2)).2 =
       (read_rig_state url trust (term_world t)).2)
    (Hdiff : run_rig url (RigDiff (Some path) None None None hub_url plan) trust t2 = (t3, Ok tt)) :
  term_out t3 = term_out t2 ++ as_bytes (
    if plan then line "up to date — every part already in the active bank"
    else line "up to date — nothing to flash").
Proof.
  simpl in Hstate, Hdiff. unfold cmd_state, cmd_diff, orchestrate, report in *.
  apply bind_inv_Ok in Hstate as (t1' & o & Ho & Hsay). apply say_Ok in Hsay as (_ & Hout1 & _).
  unfold on_rig, act_map_err in Ho. cbv zeta in Ho. unfold term_world in *.
  destruct (read_rig_state url trust (host_world (term_host t))) as [w1 [observed|e]];
    simplify_eq/=. specialize (Hunique o eq_refl).
  apply bind_inv_Ok in Hdiff as (t2' & o2 & Ho2 & Hdiff).
  unfold on_rig, act_map_err in Ho2. cbv zeta in Ho2.
  destruct (read_rig_state url trust (host_world (term_host t2))) as [w2 [observed|e]];
    simplify_eq/=.
  apply bind_inv_Ok in Hdiff as (t3' & desired & Hdes & Hsay).
  apply bind_inv_Ok in Hdes as (t4 & text & Hread & Hdes). injection Hdes as <- Hdes.
  unfold on_host in Hread. destruct (fs_read path _) as [h r] eqn:Hr. simpl in Hread.
  destruct r as [b|]; simplify_eq/=. apply fs_read_Ok in Hr as [Hb _]. simpl in Hb.
  rewrite Hfile, Hout1, drop_app_length in Hb. injection Hb as <-.
  apply ok_or_Ok in Hdes. rewrite json_parse_pretty in Hdes. simpl in Hdes.
  rewrite tree_of_value_of_tree in Hdes. injection Hdes as <-.
  apply say_Ok in Hsay as (_ & -> & _). simpl. f_equal. f_equal.
  destruct plan; [unfold print_plan; by rewrite plan_self|unfold print_diff; by rewrite diff_self].
Qed.
End command_properties.

(** * Witnesses *)

(** A terminal with no tower in reach, beside the rig of [Guard]. *)
#[local] Existing Instances rig_sovd toy_engine_types rig_engine toy_cwt.

#[local] Instance term_http : Http RigWorld := {|
  client_builds := λ _, true;
  send := λ _ _ w, (w, None);
  json_parse := λ b, json_read (take (length b - 1) b);
|}.

#[local] Instance term_console : Console RigWorld.
Proof.
  refine {| json_pretty v := String.string_of_list_byte (json_text v); debug_list _ := "[..]" |}.
  intros v. unfold line. rewrite as_bytes_app. unfold as_bytes at 1.
  rewrite String.list_byte_of_string_of_list_byte. simpl.
  rewrite length_app, Nat.add_sub, take_app_length. exact (json_read_text v).
Defined.

Definition example_term (files : gmap string (list byte)) : Term RigWorld :=
  mkTerm (mkHost ([], false) files []) [] [].

Definition example_draws : Draws := mkDraws (fill TOKEN_LEN x00) (fill 16 x00) 0.

Lemma term_observational : Observational (W := RigWorld) (λ w, w.2 = false).
Proof. split; [by intros t rq w Hw|by intros c w Hw..|by intros c k n w Hw]. Qed.

Definition example_main := main (λ _, None) example_draws.


Definition captured : Term RigWorld :=
  (run_rig "http://rig" (RigState true) default_trust (example_term ∅)).1.

Definition captured_tree : Tree :=
  match (read_rig_state "http://rig" default_trust (term_world (example_term ∅))).2 with
  | Ok observed => observed
  | Err _ => ∅
  end.

Lemma captured_state_up_to_date_witness :
  term_out (run_rig "http://rig" (RigDiff (Some "state.json") None None None "" false)
    default_trust (example_term {[ "state.json" := term_out captured ]})).1 =
  as_bytes (line "up to date — nothing to flash").
Proof.
  assert (run_rig "http://rig" (RigState true) default_trust (example_term ∅) = (captured, Ok tt))
    as Hstate by (vm_compute; reflexivity).
  set (t2 := example_term {[ "state.json" := term_out captured ]}).
  destruct (run_rig "http://rig" (RigDiff (Some "state.json") None None None "" false)
    default_trust t2) as [t3 r] eqn:Hdiff.
  assert (r = Ok tt) as -> by (apply (f_equal snd) in Hdiff; vm_compute in Hdiff; congruence).
  apply (captured_state_up_to_date "http://rig" "" "state.json" default_trust (example_term ∅)
    captured t2 t3 false) in Hdiff.
  - exact Hdiff.
  - intros observed Ho.
    assert (observed = captured_tree) as -> by (unfold captured_tree; by rewrite Ho).
    by_compute.
  - exact Hstate.
  - reflexivity.
  - reflexivity.
Defined.
