(* ===== verification/Tests.v ===== *)
(** The repository's unit tests, run on the definitions: each [#[test]] is a term
    whose panics are [None], with its fixtures, under SHA-256 itself and the
    concrete instances of the other interfaces.  Tests and assertions whose subject
    is another crate (signatures, certificates, entropy, the ratio of zstd, what
    serde_yaml reads) have no counterpart.  A JSON text is its document, and a
    validated envelope is a decoded one. *)

From S2P Require Import Prelude Ext Sha Wire Json Store Content HubDb Releases Signer L1.
From S2P Require Import Client Web Router Rig Plan Fanout Cose Roster Keystore Vhsm Cli.

(** * Tests *)

(** A test panics or returns. *)
Definition test : Type := option ().

(** [assert!], [assert_eq!] and [assert_ne!]. *)
Definition assert (b : bool) : test := if b then Some () else None.
Definition assert_eq {A} `{!EqDecision A} (a b : A) : test := assert (bool_decide (a = b)).
Definition assert_ne {A} `{!EqDecision A} (a b : A) : test := assert (bool_decide (a ≠ b)).

(** [Result::unwrap] and [unwrap_err]; a slice out of range panics. *)
Definition unwrap {E A} (r : result E A) : option A := ok r.
Definition unwrap_err {E A} (r : result E A) : option E :=
  match r with Ok _ => None | Err e => Some e end.

Definition is_err {E A} (r : result E A) : bool := negb (is_ok r).

(** [str::contains]. *)
Definition contains (needle s : string) : bool := bool_decide (is_Some (split_once needle s)).

(** [is_empty]. *)
Definition is_nil {A} (l : list A) : bool := match l with [] => true | _ => false end.

(** Running the tests of a module. *)
Definition all_pass (tests : list test) : Prop := Forall (λ t, t = Some ()) tests.

#[local] Existing Instance fips_sha.

(** [ContentHash::of(b"..")]. *)
Definition content_of (text : string) : ContentHash := hash_of (as_bytes text).

(** * wire *)

Module WireTests.
Definition part (kind id seed : string) : Part := mkPart kind id (content_of seed).

Definition entity (kind : string) (parts : list Part) : Entity :=
  mkEntity kind None None parts false None.

Definition tree (entries : list (string * Entity)) : Tree := collect_map entries.

Definition roundtrip_prefixed_and_bare : test :=
  let h := content_of "hello sumo" in
  let prefixed := to_prefixed h in
  _ ← assert (bool_decide (is_Some (strip_prefix "sha256:" prefixed)));
  h1 ← unwrap (from_str prefixed);
  _ ← assert_eq h1 h;
  bare ← strip_prefix "sha256:" prefixed;
  h2 ← unwrap (from_str bare);
  assert_eq h2 h.

Definition rejects_bad_input : test :=
  _ ← assert (is_err (from_str "sha256:zz"));
  assert (is_err (from_str "sha256:abcd")).

Definition serde_roundtrip : test :=
  let h := content_of "abc" in
  let json := value_of_hash h in
  _ ← text ← d_str json; assert_eq text (to_prefixed h);
  back ← hash_of_value json;
  assert_eq back h.

Definition identical_trees_have_no_diff : test :=
  let t := tree [("vm1", entity "vm" [part "file" "kernel" "k"])] in
  assert (diff_is_empty (diff t t)).

Definition detects_added_changed_removed_parts : test :=
  let observed := tree [("vm1", entity "vm" [part "file" "kernel" "k1"; part "file" "rootfs" "r"])] in
  let desired := tree [("vm1", entity "vm" [part "file" "kernel" "k2"; part "file" "policy" "p"])] in
  let d := diff observed desired in
  _ ← assert (bool_decide (entities_added d = [] ∧ entities_removed d = []));
  let got := (λ c, (pc_part c, pc_change c)) <$> diff_part_changes d in
  let got := sort_on fst got in
  assert_eq got [("kernel", Changed); ("policy", Added); ("rootfs", Removed)].

Definition detects_entity_add_remove : test :=
  let observed := tree [("vm1", entity "vm" [])] in
  let desired := tree [("vm1/sovd/app", entity "container" [part "oci-image" "image" "img"])] in
  let d := diff observed desired in
  _ ← assert_eq (entities_added d) ["vm1/sovd/app"];
  _ ← assert_eq (entities_removed d) ["vm1"];
  _ ← assert_eq (length (diff_part_changes d)) 1;
  p ← diff_part_changes d !! 0;
  _ ← assert_eq (pc_change p) Added;
  assert_eq (pc_entity p) "vm1/sovd/app".

Definition release_json_roundtrips : test :=
  let t := tree [("vehicle", entity "vehicle" [part "param-blob" "params" "cfg"])] in
  back ← tree_of_value (value_of_tree t);
  assert_eq back t.

Definition flash_plan_ships_changed_reuses_unchanged : test :=
  let observed := tree [("vm1", entity "vm" [part "file" "kernel" "K"; part "file" "rootfs" "R"])] in
  let desired := tree [("vm1", entity "vm"
    [part "file" "kernel" "K2"; part "file" "rootfs" "R"; part "file" "policy" "P"])] in
  let plan := flash_plan observed desired in
  _ ← assert (negb (is_noop plan));
  let by_part := collect_map ((λ p, (pp_part p, pp_plan p)) <$> plan) in
  _ ← p ← by_part !! "kernel"; assert_eq p Ship;
  _ ← p ← by_part !! "rootfs"; assert_eq p Reuse;
  _ ← p ← by_part !! "policy"; assert_eq p Ship;
  let ship := sort_on id (pp_part <$> ships plan) in
  _ ← assert_eq ship ["kernel"; "policy"];
  assert_eq (length (reused plan)) 1.

Definition flash_plan_never_reuses_across_components : test :=
  let observed := tree [("vm1", entity "vm" [part "file" "rootfs" "R"])] in
  let desired := tree [("vm2", entity "vm" [part "file" "rootfs" "R"])] in
  let plan := flash_plan observed desired in
  _ ← assert_eq (length plan) 1;
  p ← plan !! 0;
  _ ← assert_eq (pp_entity p) "vm2";
  _ ← assert_eq (pp_plan p) Ship;
  _ ← assert_eq (length (ships plan)) 1;
  assert_eq (length (reused plan)) 0.

Definition flash_plan_identical_is_noop : test :=
  let t := tree [("vm1", entity "vm" [part "file" "kernel" "k"])] in
  let plan := flash_plan t t in
  _ ← assert (is_noop plan);
  _ ← assert_eq (length (ships plan)) 0;
  assert_eq (length (reused plan)) 1.

Lemma wire_tests_pass : all_pass [
  roundtrip_prefixed_and_bare; rejects_bad_input; serde_roundtrip;
  identical_trees_have_no_diff; detects_added_changed_removed_parts;
  detects_entity_add_remove; release_json_roundtrips;
  flash_plan_ships_changed_reuses_unchanged; flash_plan_never_reuses_across_components;
  flash_plan_identical_is_noop].
Proof. repeat constructor; vm_compute; reflexivity. Qed.
End WireTests.

(** * orchestrator *)

Module OrchestratorTests.

(** [keygen::generate_signing_key]. *)
Definition key : CoseKey := [x05].

(** A part of an L2: id, outer and inner hash; a digest of zeros where the test
    gives none. *)
Definition l2_spec (component part : string) (outer : ContentHash) (digest : list byte) :
    ComponentSpec :=
  mkComponentSpec [as_bytes component; as_bytes part] digest 16 (to_prefixed outer) None.

Definition signed_l2 (component : string) (parts : list (string * ContentHash)) :
    option (list byte) :=
  build_multi key 1751800000 1
    ((λ p, l2_spec component p.1 p.2 (replicate 32 x00)) <$> parts).

Definition build_disable_l2 (component : string) : option (list byte) :=
  build_disable key 1751800000 1 [as_bytes component].

Definition campaign (images : list (string * list byte)) : option (list byte) :=
  build_integrated key 1751800000 1 images.

Definition by_component (fanned : list L1Component) : gmap string L1Component :=
  collect_map ((λ c, (l1c_component c, c)) <$> fanned).

Definition fanout_l1_decodes_components_and_ordered_parts : test :=
  let kernel := content_of "vm1-kernel-ciphertext" in
  let rootfs := content_of "vm1-rootfs-ciphertext" in
  let app := content_of "rt-app-ciphertext" in
  l2_vm1 ← signed_l2 "vm1" [("kernel", kernel); ("rootfs", rootfs)];
  l2_rt ← signed_l2 "rt" [("app", app)];
  l1 ← campaign [("vm1", l2_vm1); ("rt", l2_rt)];
  fanned ← unwrap (fanout_l1 l1);
  _ ← assert_eq (length fanned) 2;
  vm1 ← by_component fanned !! "vm1";
  _ ← assert_eq (l1c_envelope vm1) l2_vm1;
  _ ← assert_eq ((λ p, (l1p_part p, l1p_outer p)) <$> l1c_parts vm1)
        [("kernel", kernel); ("rootfs", rootfs)];
  rt ← by_component fanned !! "rt";
  _ ← assert_eq (length (l1c_parts rt)) 1;
  p ← l1c_parts rt !! 0;
  _ ← assert_eq (l1p_part p) "app";
  assert_eq (l1p_outer p) app.

Definition fanout_l1_rejects_non_campaign_bytes : test :=
  match fanout_l1 (as_bytes "not a suit envelope") with
  | Err DecodeL1 => Some ()
  | _ => None
  end.

Definition fanout_l1_accepts_a_disable_l2 : test :=
  l2_rt ← build_disable_l2 "rt";
  l1 ← campaign [("rt", l2_rt)];
  fanned ← unwrap (fanout_l1 l1);
  _ ← assert_eq (length fanned) 1;
  c ← fanned !! 0;
  _ ← assert_eq (l1c_component c) "rt";
  _ ← assert_eq (l1c_envelope c) l2_rt;
  assert (is_nil (l1c_parts c)).

Definition fanout_l1_mixes_firmware_and_disable_components : test :=
  let kernel := content_of "vm1-kernel-ciphertext" in
  l2_vm1 ← signed_l2 "vm1" [("kernel", kernel)];
  l2_rt ← build_disable_l2 "rt";
  l1 ← campaign [("vm1", l2_vm1); ("rt", l2_rt)];
  fanned ← unwrap (fanout_l1 l1);
  _ ← assert_eq (size (by_component fanned)) 2;
  rt ← by_component fanned !! "rt";
  _ ← assert (is_nil (l1c_parts rt));
  vm1 ← by_component fanned !! "vm1";
  _ ← assert_eq (l1c_envelope vm1) l2_vm1;
  _ ← assert_eq (length (l1c_parts vm1)) 1;
  p ← l1c_parts vm1 !! 0;
  _ ← assert_eq (l1p_part p) "kernel";
  assert_eq (l1p_outer p) kernel.

Definition fanout_l1_rejects_a_firmware_l2_without_a_part_id : test :=
  l2_vm1 ← build_multi key 1751800000 1
    [mkComponentSpec [as_bytes "vm1"] (replicate 32 x00) 16
       (to_prefixed (content_of "vm1-kernel-ciphertext")) None];
  l1 ← campaign [("vm1", l2_vm1)];
  match fanout_l1 l1 with
  | Err (BadL2 component reason) =>
      assert (bool_decide (component = "vm1" ∧ reason = "component 0 has no part-id segment"))
  | _ => None
  end.

Definition l1_selector_requires_device_and_architecture : test :=
  _ ← match l1_selector (target_of_channel "bleeding") with
      | Err (L1NeedsSelector _) => Some ()
      | _ => None
      end;
  let full := mkChannelTarget "bleeding" (Some "rig") (Some "arm64") None None in
  sel ← unwrap (l1_selector full);
  assert_eq sel ("rig", "arm64").

(** [FakeBlobs]: its state counts the fetches. *)
Definition fake_fetch (outer : ContentHash) : act nat Error (list byte) := λ fetches,
  (S fetches, Ok (as_bytes "ciphertext")).

Definition run_jobs (l1 : list byte) (observed : Tree) (only : option (list string)) :
    option (nat * list FlashJob) :=
  components ← unwrap (fanout_l1 l1);
  let '(fetches, r) := l1_jobs fake_fetch components observed only 0 in
  jobs ← unwrap r;
  Some (fetches, jobs).

Definition l1_one_component (component : string)
    (parts : list (string * ContentHash * ContentHash)) : option (list byte) :=
  l2 ← build_multi key 1751800000 1
    ((λ p, l2_spec component p.1.1 p.1.2 (slice (hash_bytes p.2))) <$> parts);
  campaign [(component, l2)].

Definition observed_entity (parts : list (string * ContentHash)) : Entity :=
  mkEntity "vm" None None ((λ p, mkPart "file" p.1 p.2) <$> parts) false None.

Definition observed_of (component : string) (parts : list (string * ContentHash)) : Tree :=
  {[ component := observed_entity parts ]}.

Definition installed_files_to_parts_drops_malformed_sha_keeping_the_rest : test :=
  let parts := installed_files_to_parts
    [mkInstalledFile "kernel" (to_prefixed (content_of "k"));
     mkInstalledFile "rootfs" "not-a-sha"] in
  _ ← assert_eq (part_id <$> parts) ["kernel"];
  p ← parts !! 0;
  assert_eq (part_content p) (content_of "k").

Definition fanout_l1_surfaces_image_digest : test :=
  let outer := content_of "k-ct" in
  let digest := content_of "k-pt" in
  l1 ← l1_one_component "vm1" [("kernel", outer, digest)];
  fanned ← unwrap (fanout_l1 l1);
  c ← fanned !! 0;
  p ← l1c_parts c !! 0;
  _ ← assert_eq (l1p_inner p) (Some digest);
  assert_eq (l1p_outer p) outer.

Definition component_unchanged_matches_by_digest_despite_bank_filename_remap : test :=
  let dk := content_of "kernel-pt" in
  let df := content_of "rootfs-pt" in
  let c := mkL1Component "vm1" []
    [mkL1Part "kernel" (content_of "kc") (Some dk);
     mkL1Part "firmware" (content_of "fc") (Some df)] in
  let observed := observed_of "vm1" [("kernel", dk); ("rootfs.img", df)] in
  assert (component_unchanged c observed).

Definition component_unchanged_false_paths : test :=
  let dk := content_of "kernel-pt" in
  let df := content_of "rootfs-pt" in
  let mk kernel_inner firmware_inner := mkL1Component "vm1" []
    [mkL1Part "kernel" (content_of "kc") kernel_inner;
     mkL1Part "firmware" (content_of "fc") firmware_inner] in
  let c := mk (Some dk) (Some df) in
  let changed := observed_of "vm1" [("kernel", dk); ("rootfs.img", content_of "other")] in
  _ ← assert (negb (component_unchanged c changed));
  _ ← assert (negb (component_unchanged c ∅));
  _ ← assert (negb (component_unchanged c (observed_of "vm2" [("kernel", dk)])));
  let missing := observed_of "vm1" [("kernel", dk)] in
  _ ← assert (negb (component_unchanged c missing));
  let no_digest := mk (Some dk) None in
  assert (negb (component_unchanged no_digest
    (observed_of "vm1" [("kernel", dk); ("rootfs.img", df)]))).

(** The campaign of two parts the next two tests push. *)
Definition two_parts : option (list byte) :=
  l1_one_component "vm1" [("kernel", content_of "k-ct", content_of "k-pt");
                          ("firmware", content_of "f-ct", content_of "f-pt")].

Definition l1_jobs_unchanged_component_pushes_manifest_only : test :=
  l1 ← two_parts;
  let observed := observed_of "vm1"
    [("kernel", content_of "k-pt"); ("rootfs.img", content_of "f-pt")] in
  '(fetches, jobs) ← run_jobs l1 observed None;
  _ ← assert_eq (length jobs) 1;
  j ← jobs !! 0;
  _ ← assert_eq (job_component_id j) "vm1";
  _ ← assert (is_nil (job_payloads j));
  _ ← assert (negb (is_nil (job_envelope j)));
  assert_eq fetches 0.

Definition l1_jobs_changed_component_pushes_all_payloads : test :=
  l1 ← two_parts;
  let observed := observed_of "vm1"
    [("kernel", content_of "k-pt"); ("rootfs.img", content_of "stale")] in
  '(fetches, jobs) ← run_jobs l1 observed None;
  _ ← assert_eq (length jobs) 1;
  j ← jobs !! 0;
  _ ← assert_eq (length (job_payloads j)) 2;
  assert_eq fetches 2.

Definition l1_jobs_unadvertised_component_is_deferred : test :=
  l1 ← l1_one_component "vm1" [("kernel", content_of "k-ct", content_of "k-pt")];
  '(fetches, jobs) ← run_jobs l1 ∅ None;
  _ ← assert (is_nil jobs);
  assert_eq fetches 0.

Definition l1_jobs_advertised_component_flashes : test :=
  l1 ← l1_one_component "vm1" [("kernel", content_of "k-ct", content_of "k-pt")];
  '(fetches, jobs) ← run_jobs l1 (observed_of "vm1" [("kernel", content_of "stale")]) None;
  _ ← assert_eq (length jobs) 1;
  j ← jobs !! 0;
  _ ← assert_eq (length (job_payloads j)) 1;
  assert_eq fetches 1.

Definition l1_host_and_rt : option (list byte) :=
  let mk c := build_multi key 1751800000 1
    [l2_spec c "img" (content_of c) (slice (hash_bytes (content_of c)))] in
  host ← mk "host";
  rt ← mk "rt";
  campaign [("host", host); ("rt", rt)].

Definition l1_jobs_allowlist_restricts_to_listed_subset : test :=
  l1 ← l1_host_and_rt;
  let observed := <["rt" := observed_entity [("img", content_of "stale-rt")]]>
    (observed_of "host" [("img", content_of "stale-host")]) in
  '(fetches, jobs) ← run_jobs l1 observed (Some ["host"]);
  _ ← assert_eq (length jobs) 1;
  j ← jobs !! 0;
  _ ← assert_eq (job_component_id j) "host";
  assert_eq fetches 1.

Definition admin_state_is_absent_valid_or_rejected : test :=
  absent ← unwrap (parse_admin_disabled None);
  _ ← assert_eq absent None;
  enabled ← unwrap (parse_admin_disabled (Some (VStr "enabled")));
  _ ← assert_eq enabled (Some false);
  disabled ← unwrap (parse_admin_disabled (Some (VStr "disabled")));
  _ ← assert_eq disabled (Some true);
  _ ← assert (is_err (parse_admin_disabled (Some (VStr "unknown"))));
  assert (is_err (parse_admin_disabled (Some (VBool false)))).

Lemma orchestrator_tests_pass : all_pass [
  fanout_l1_decodes_components_and_ordered_parts; fanout_l1_rejects_non_campaign_bytes;
  fanout_l1_accepts_a_disable_l2; fanout_l1_mixes_firmware_and_disable_components;
  fanout_l1_rejects_a_firmware_l2_without_a_part_id;
  l1_selector_requires_device_and_architecture;
  installed_files_to_parts_drops_malformed_sha_keeping_the_rest;
  fanout_l1_surfaces_image_digest;
  component_unchanged_matches_by_digest_despite_bank_filename_remap;
  component_unchanged_false_paths; l1_jobs_unchanged_component_pushes_manifest_only;
  l1_jobs_changed_component_pushes_all_payloads; l1_jobs_unadvertised_component_is_deferred;
  l1_jobs_advertised_component_flashes; l1_jobs_allowlist_restricts_to_listed_subset;
  admin_state_is_absent_valid_or_rejected].
Proof. repeat constructor; vm_compute; reflexivity. Qed.
End OrchestratorTests.

(** * software-tower: releases *)

Module ReleasesTests.
Definition new_part (id kind content : string) : NewPart := mkNewPart id kind (content_of content).

Definition wpart (id content : string) : Part := mkPart "file" id (content_of content).

Definition wentity (parts : list Part) : Entity := mkEntity "vm" None None parts false None.

Definition wtree (entries : list (string * Entity)) : Tree := collect_map entries.

(** [entity.disabled = true] and [entity.admin_disabled = Some(b)]. *)
Definition with_disabled (e : Entity) : Entity :=
  mkEntity (entity_kind e) (entity_version e) (entity_update_mode e) (entity_parts e) true
    (entity_admin_disabled e).
Definition with_admin (b : bool) (e : Entity) : Entity :=
  mkEntity (entity_kind e) (entity_version e) (entity_update_mode e) (entity_parts e)
    (entity_disabled e) (Some b).

Definition entity_agreed_matches_by_digest_ignoring_part_name : test :=
  let resolved := wentity [wpart "kernel" "K"; wpart "rootfs" "R"] in
  let reported := wtree [("vm1", wentity [wpart "boot.img" "K"; wpart "rootfs.img" "R"])] in
  assert (entity_agreed reported "vm1" resolved).

Definition entity_agreed_false_when_entity_absent_or_part_missing : test :=
  let resolved := wentity [wpart "kernel" "K2"; wpart "rootfs" "R"] in
  _ ← assert (negb (entity_agreed ∅ "vm1" resolved));
  let stale := wtree [("vm1", wentity [wpart "boot.img" "K1"; wpart "rootfs.img" "R"])] in
  assert (negb (entity_agreed stale "vm1" resolved)).

Definition partition_skips_agreed_includes_rest_and_ignores_partless : test :=
  let tree := wtree [
    ("vm1", wentity [wpart "kernel" "K"; wpart "rootfs" "R"]);
    ("vm2", wentity [wpart "kernel" "K2"]);
    ("empty", wentity [])] in
  let reported := wtree [("vm1", wentity [wpart "boot.img" "K"; wpart "rootfs.img" "R"])] in
  _ ← (let '(included, disabled, skipped) := partition_l1_components tree (Some reported) in
       _ ← assert_eq included.*1 ["vm2"];
       _ ← assert_eq skipped ["vm1"];
       assert (is_nil disabled));
  let '(included, disabled, skipped) := partition_l1_components tree None in
  _ ← assert_eq included.*1 ["vm1"; "vm2"];
  _ ← assert (is_nil skipped);
  assert (is_nil disabled).

Definition partition_all_agreed_includes_nothing : test :=
  let tree := wtree [("vm1", wentity [wpart "kernel" "K"]); ("vm2", wentity [wpart "kernel" "K2"])] in
  let reported := wtree [("vm1", wentity [wpart "boot.img" "K"]);
                         ("vm2", wentity [wpart "boot.img" "K2"])] in
  let '(included, disabled, skipped) := partition_l1_components tree (Some reported) in
  _ ← assert (is_nil included);
  _ ← assert (is_nil disabled);
  assert_eq skipped ["vm1"; "vm2"].

Definition partition_includes_disabled_vehicle_component_to_enable_it : test :=
  let tree := wtree [("vm1", wentity [wpart "kernel" "K"])] in
  let reported := wtree [("vm1", with_admin true (wentity [wpart "boot.img" "K"]))] in
  let '(included, disabled, skipped) := partition_l1_components tree (Some reported) in
  c ← included !! 0;
  _ ← assert_eq c.1 "vm1";
  _ ← assert (is_nil disabled);
  assert (is_nil skipped).

Definition partition_skips_when_desired_and_observed_are_disabled : test :=
  let tree := wtree [("vm1", with_disabled (wentity [wpart "kernel" "K"]))] in
  let reported := wtree [("vm1", with_admin true (wentity [wpart "boot.img" "K"]))] in
  let '(included, disabled, skipped) := partition_l1_components tree (Some reported) in
  _ ← assert (is_nil included);
  _ ← assert (is_nil disabled);
  assert_eq skipped ["vm1"].

(** [Signer::generate] and a device's public key. *)
Definition signer : Signer := mkSigner ([x05] : CoseKey (Suit := toy_suit)).
Definition device_pubkey : list byte := cose_public (Suit := toy_suit) [x07].

Definition l1_envelope_part (p : Part) : EnvelopePart :=
  mkEnvelopePart (part_id p) (slice (hash_bytes (part_content p))) 42 (fill 16 x07) (fill 12 x09)
    (Some (content_of (part_id p))).

Definition build_l1 (included disabled : list (string * Entity)) : option Envelope :=
  l2s ← mapM (λ c : string * Entity,
    l2 ← (if entity_disabled c.2 then build_disable_envelope signer 0 c.1 1
          else build_envelope signer 0 device_pubkey (as_bytes "dev-1") c.1
                 (l1_envelope_part <$> entity_parts c.2) 1);
    Some (c.1, l2)) (included ++ disabled);
  l1 ← build_campaign signer 0 l2s 3;
  decode_envelope l1.

Definition integrated_payload (m : Envelope) (name : string) : option (list byte) :=
  integrated_payloads m !! name.

Definition two_vms : Tree :=
  wtree [("vm1", wentity [wpart "kernel" "K"]); ("vm2", wentity [wpart "kernel" "K2"])].

Definition built_l1_omits_agreed_and_keeps_changed : test :=
  let reported := wtree [("vm1", wentity [wpart "boot.img" "K"])] in
  let '(included, disabled, _) := partition_l1_components two_vms (Some reported) in
  m ← build_l1 included disabled;
  _ ← assert (bool_decide (is_Some (integrated_payload m "#vm2")));
  assert (bool_decide (integrated_payload m "#vm1" = None)).

Definition built_l1_without_state_includes_all_components : test :=
  let '(included, disabled, skipped) := partition_l1_components two_vms None in
  _ ← assert (is_nil skipped);
  m ← build_l1 included disabled;
  _ ← assert (bool_decide (is_Some (integrated_payload m "#vm1")));
  assert (bool_decide (is_Some (integrated_payload m "#vm2"))).

Definition built_l1_disables_disabled_member_and_flashes_enabled : test :=
  let tree := wtree [("vm1", wentity [wpart "kernel" "K"]);
                     ("vm2", with_disabled (wentity [wpart "kernel" "K2"]))] in
  let reported := wtree [("vm2", with_admin false (wentity [wpart "boot.img" "K2"]))] in
  let '(included, disabled, skipped) := partition_l1_components tree (Some reported) in
  _ ← assert_eq included.*1 ["vm1"];
  _ ← assert_eq disabled.*1 ["vm2"];
  _ ← assert (is_nil skipped);
  l1 ← build_l1 included disabled;
  vm1_m ← l2 ← integrated_payload l1 "#vm1"; decode_envelope l2;
  _ ← assert (has_firmware vm1_m);
  vm2_m ← l2 ← integrated_payload l1 "#vm2"; decode_envelope l2;
  _ ← assert (negb (has_firmware vm2_m));
  assert (bool_decide (is_Some (disable_target vm2_m))).

Definition disabled_member_changes_identity_and_tree_hash : test :=
  _ ← assert_ne (vehicle_identity [1; 2; 3]%Z []) (vehicle_identity [1; 2; 3]%Z [2]%Z);
  _ ← assert_eq (vehicle_identity [1; 2; 3]%Z []) (vehicle_identity [1; 2; 3]%Z [99]%Z);
  let enabled := wtree [("vm1", wentity [wpart "kernel" "K"])] in
  let disabled := wtree [("vm1", with_disabled (wentity [wpart "kernel" "K"]))] in
  assert_ne (tree_hash enabled) (tree_hash disabled).

Definition component_identity_ignores_part_order : test :=
  assert_eq (component_identity "bank" [new_part "kernel" "bank" "k"; new_part "rootfs" "bank" "r"])
    (component_identity "bank" [new_part "rootfs" "bank" "r"; new_part "kernel" "bank" "k"]).

Definition component_identity_tracks_content_kind_and_partset : test :=
  let base := [new_part "kernel" "bank" "k1"] in
  _ ← assert_ne (component_identity "bank" base)
        (component_identity "bank" [new_part "kernel" "bank" "k2"]);
  _ ← assert_ne (component_identity "bank" base)
        (component_identity "bank" [new_part "kernel" "bank" "k1"; new_part "rootfs" "bank" "r"]);
  assert_ne (component_identity "bank" base) (component_identity "rt" base).

Definition vehicle_identity_ignores_order_and_dupes : test :=
  _ ← assert_eq (vehicle_identity [1; 2; 3]%Z []) (vehicle_identity [3; 2; 1]%Z []);
  _ ← assert_eq (vehicle_identity [1; 2; 2; 3]%Z []) (vehicle_identity [1; 2; 3]%Z []);
  assert_ne (vehicle_identity [1; 2]%Z []) (vehicle_identity [1; 2; 3]%Z []).

Definition parse_stored_hash_rejects_corrupt_member_naming_the_part : test :=
  err ← unwrap_err (parse_stored_hash "not-a-content-hash" 7 42 "vm1" "kernel");
  _ ← assert (contains "kernel" err);
  _ ← assert (contains "not-a-content-hash" err);
  good ← unwrap (parse_stored_hash (to_prefixed (content_of "k")) 7 42 "vm1" "kernel");
  assert_eq good (content_of "k").

(** ** Request bodies *)

(** A [jsonb] column keeps its document. *)
#[local] Instance tests_web : WebStack.
Proof.
  refine {|
    json_text := json_text (WebStack := toy_web);
    json_read := json_read (WebStack := toy_web);
    json_read_text := json_read_text (WebStack := toy_web);
    rejection := rejection (WebStack := toy_web);
    timestamp_text := timestamp_text (WebStack := toy_web);
    jsonb_text v := String.string_of_list_byte (json_text (WebStack := toy_web) v);
    jsonb_value s := default VNull (json_read (WebStack := toy_web) (as_bytes s));
  |}.
Defined.

(** [value["key"]]: null when there is none. *)
Definition at_key (k : string) (v : Value) : Value := default VNull (get_field k v).
Definition at_index (i : nat) (v : Value) : Value :=
  match v with VArr l => default VNull (l !! i) | _ => VNull end.

Definition set_channel_target_accepts_target_release_alias : test :=
  req ← set_target_of_value (VObj [
    ("channel", VStr "bleeding"); ("device", VStr "rig"); ("architecture", VStr "arm64");
    ("target_release_id", VInt 42)]);
  _ ← assert_eq (sc_channel req) "bleeding";
  _ ← assert_eq (sc_device req) "rig";
  _ ← assert_eq (sc_architecture req) "arm64";
  assert_eq (sc_vehicle_release_id req) 42%Z.

Definition new_vehicle_release_accepts_optional_config_snapshot : test :=
  req ← new_vehicle_of_value (VObj [
    ("tag", VStr "managed-cvc-rig"); ("version", VStr "1.0.0-dev.1");
    ("members", VArr [VInt 1; VInt 2]);
    ("config_snapshot", VObj [
       ("schema", VStr "sumo-target-config/v1");
       ("deployment", VObj [("channel", VStr "bleeding"); ("profile", VStr "default")])])]);
  _ ← assert_eq (nv_tag req) "managed-cvc-rig";
  snapshot ← nv_config_snapshot req;
  assert_eq (d_str (at_key "schema" (jsonb_value snapshot))) (Some "sumo-target-config/v1").

(** ** Requests to a served database *)

Abbreviation App := (AppState Fs PgIndex HubDb (Signer (H0 := toy_suit))).

(** A test on a server: a panic is an error. *)
Definition run (A : Type) : Type := act App () A.

Definition panics {A} (o : option A) : run A := lift (ok_or () o).

(** The routes the tests mount. *)
Definition test_routes : Routes Handler :=
  [([Some "admin"; Some "component-releases"], [(Post, CreateComponentRelease)]);
   ([Some "admin"; Some "vehicle-releases"], [(Post, CreateVehicleRelease)]);
   ([Some "admin"; Some "channels"], [(Get, ListChannels)]);
   ([Some "admin"; Some "channel-targets"], [(Put, SetTarget); (Get, GetTarget)]);
   ([Some "channel-targets"; Some "tree"], [(Get, TargetTree)])].

Definition test_env : Env := mkEnv None 0 (λ b, [b]).

Definition test_app (db : HubDb) : App := mkAppState (mkFs ∅ 7 0 []) (mkPgIndex ∅ []) (Some db) signer.

(** [app.oneshot(request)]. *)
Definition oneshot (verb : Verb) (uri : string) (body : Body) : run Response :=
  updating (
    let '(path, query) := split_query uri in
    extracting (route test_routes verb path) (λ '(h, captures),
      handle test_env h captures query body)).

(** The document of a [200]. *)
Definition json_of (r : Response) : run Value :=
  _ ← panics (assert_eq (rs_status r) 200%Z);
  panics (body ← rs_body r; json_read body).

Definition get_json (uri : string) : run Value :=
  r ← oneshot Get uri NoBody; json_of r.
Definition post_json (uri : string) (body : Value) : run Value :=
  r ← oneshot Post uri (JsonBody body); json_of r.
Definition put_json (uri : string) (body : Value) : run Value :=
  r ← oneshot Put uri (JsonBody body); json_of r.

Definition create_component : run Z :=
  response ← post_json "/admin/component-releases" (VObj [
    ("entity_path", VStr "ecu-a"); ("entity_kind", VStr "adaptive-app");
    ("version", VStr "1.0.0");
    ("parts", VArr [VObj [("id", VStr "app"); ("kind", VStr "binary");
                          ("content", VStr (to_prefixed (content_of "app")))]])]);
  panics (d_i64 (at_key "id" response)).

(** Comparing documents: as text, which their reading inverts. *)
#[local] Instance Value_eq_dec : EqDecision Value.
Proof.
  refine (λ v w, cast_if (decide (json_text (WebStack := tests_web) v = json_text w)));
    [|congruence].
  apply (f_equal json_read) in e. rewrite !json_read_text in e. congruence.
Defined.

Definition check (t : test) : run () := panics t.

Definition original_snapshot : Value := VObj [
  ("schema", VStr "sumo-target-config/v1");
  ("target_type", VObj [("name", VStr "managed-cvc"); ("kind", VStr "vehicle")]);
  ("deployment", VObj [("channel", VStr "bleeding"); ("profile", VStr "default")]);
  ("labels", VObj [("tower", VStr "2")]);
  ("components", VObj [("ecu-a", VObj [
     ("kind", VStr "adaptive-app"); ("version", VStr "1.0.0");
     ("parts", VArr [VObj [("id", VStr "app"); ("kind", VStr "binary");
                           ("source", VStr "app.bin")]])])])].

Definition replacement_snapshot : Value := VObj [
  ("schema", VStr "sumo-target-config/v1");
  ("deployment", VObj [("channel", VStr "bleeding"); ("profile", VStr "replacement")])].

Definition new_release (version : string) (component_id : Z) (snapshot : Value) : Value :=
  VObj [("tag", VStr "managed-cvc"); ("version", VStr version);
        ("members", VArr [VInt component_id]); ("config_snapshot", snapshot)].

Definition profile_of (v : Value) : Value :=
  at_key "profile" (at_key "deployment" (at_key "config_snapshot" v)).

Definition vehicle_release_snapshot_survives_reuse_and_channel_reads : run () :=
  component_id ← create_component;
  release ← post_json "/admin/vehicle-releases"
    (new_release "1.0.0" component_id original_snapshot);
  _ ← check (assert_eq (at_key "reused" release) (VBool false));
  release_id ← panics (d_i64 (at_key "id" release));
  _ ← put_json "/admin/channel-targets" (VObj [
    ("channel", VStr "bleeding"); ("device", VStr "rig"); ("architecture", VStr "arm64");
    ("target_release_id", VInt release_id)]);
  reused ← post_json "/admin/vehicle-releases"
    (new_release "2.0.0" component_id replacement_snapshot);
  _ ← check (assert_eq (at_key "id" reused) (VInt release_id));
  _ ← check (assert_eq (at_key "reused" reused) (VBool true));
  channel ← get_json "/admin/channel-targets?channel=bleeding&device=rig&architecture=arm64";
  _ ← check (assert_eq (at_key "id" (at_key "target_release" channel)) (VInt release_id));
  _ ← check (assert_eq (profile_of channel) (VStr "default"));
  _ ← check (assert_eq (at_key "tower" (at_key "labels" (at_key "config_snapshot" channel)))
        (VStr "2"));
  channels ← get_json "/admin/channels";
  let first := at_index 0 channels in
  _ ← check (assert_eq (at_key "channel" first) (VStr "bleeding"));
  _ ← check (assert_eq (at_key "device" first) (VStr "rig"));
  _ ← check (assert_eq (at_key "architecture" first) (VStr "arm64"));
  _ ← check (assert_eq (at_key "id" (at_key "target_release" first)) (VInt release_id));
  check (assert_eq (profile_of first) (VStr "default")).

Definition rig_release (version : string) (component_id : Z) (disabled : list (string * Value)) :
    Value :=
  VObj ([("tag", VStr "rig"); ("version", VStr version); ("members", VArr [VInt component_id])]
    ++ disabled).

Definition point_channel_at (release : Z) : Value :=
  VObj [("channel", VStr "bleeding"); ("device", VStr "rig"); ("architecture", VStr "arm64");
        ("vehicle_release_id", VInt release)].

(** The guard of the L1 endpoint, on the pool of the server. *)
Definition matches_target (id : Z) (device architecture : string) : run bool :=
  act_map_err (λ _, ()) (with_pool (db (release_matches_target id device architecture))).

Definition disabled_in (tree : Value) : Value :=
  at_key "disabled" (at_key "ecu-a" (at_key "entities" tree)).

Definition pinned_vehicle_release_is_unaffected_by_channel_movement : run () :=
  component_id ← create_component;
  enabled ← post_json "/admin/vehicle-releases" (rig_release "1" component_id []);
  enabled ← panics (d_i64 (at_key "id" enabled));
  disabled ← post_json "/admin/vehicle-releases"
    (rig_release "2" component_id [("disabled_members", VArr [VInt component_id])]);
  disabled ← panics (d_i64 (at_key "id" disabled));
  _ ← put_json "/admin/channel-targets" (point_channel_at enabled);
  here ← matches_target enabled "rig" "arm64";
  _ ← check (assert here);
  elsewhere ← matches_target enabled "rig" "amd64";
  _ ← check (assert (negb elsewhere));
  let tree_uri := "/channel-targets/tree?vehicle_release_id=" +:+ pretty enabled in
  pinned_before ← get_json tree_uri;
  _ ← put_json "/admin/channel-targets" (point_channel_at disabled);
  pinned_after ← get_json tree_uri;
  channel ← get_json "/channel-targets/tree?channel=bleeding&device=rig&architecture=arm64";
  _ ← check (assert_eq pinned_after pinned_before);
  _ ← check (assert_eq (disabled_in pinned_after) (VBool false));
  check (assert_eq (disabled_in channel) (VBool true)).

(** [#[sqlx::test]]: on a fresh database. *)
Definition on_fresh_database (t : run ()) : test := unwrap (t (test_app (example_db []))).2.

Lemma releases_tests_pass : all_pass [
  entity_agreed_matches_by_digest_ignoring_part_name;
  entity_agreed_false_when_entity_absent_or_part_missing;
  partition_skips_agreed_includes_rest_and_ignores_partless;
  partition_all_agreed_includes_nothing;
  partition_includes_disabled_vehicle_component_to_enable_it;
  partition_skips_when_desired_and_observed_are_disabled;
  built_l1_omits_agreed_and_keeps_changed; built_l1_without_state_includes_all_components;
  built_l1_disables_disabled_member_and_flashes_enabled;
  disabled_member_changes_identity_and_tree_hash; component_identity_ignores_part_order;
  component_identity_tracks_content_kind_and_partset; vehicle_identity_ignores_order_and_dupes;
  parse_stored_hash_rejects_corrupt_member_naming_the_part;
  set_channel_target_accepts_target_release_alias;
  new_vehicle_release_accepts_optional_config_snapshot;
  on_fresh_database vehicle_release_snapshot_survives_reuse_and_channel_reads;
  on_fresh_database pinned_vehicle_release_is_unaffected_by_channel_movement].
Proof. repeat constructor; vm_compute; reflexivity. Qed.
End ReleasesTests.

(** * client *)

Module ClientTests.
Definition base_url_trims_trailing_slash : test :=
  assert_eq (base (tower_new "http://localhost:8081/")) "http://localhost:8081".

Definition channel_request (current_state : option Value) (seq : Z) : L1Req :=
  mkL1Req (Some "bleeding") None None "rig" "arm64" "a1b2" "managed-cvc" current_state seq.

(** [v["key"]] as a text. *)
Definition text_at (v : Value) (k : string) : option string := f ← get_field k v; d_str f.

Definition l1_request_body_omits_absent_current_state : test :=
  let v := value_of_l1_req (channel_request None 7) in
  _ ← assert_eq (text_at v "channel") (Some "bleeding");
  _ ← assert_eq (text_at v "device") (Some "rig");
  _ ← assert_eq (text_at v "architecture") (Some "arm64");
  _ ← assert_eq (text_at v "device_pubkey") (Some "a1b2");
  _ ← assert_eq (text_at v "device_id") (Some "managed-cvc");
  _ ← assert_eq (f ← get_field "seq" v; d_u64 f) (Some 7%Z);
  match get_field "current_state" v with None => Some () | Some _ => None end.

Definition l1_request_body_carries_current_state : test :=
  let state := VObj [("entities", VObj [("vm1", VObj [("kind", VStr "vm")])])] in
  let v := value_of_l1_req (channel_request (Some state) 1) in
  carried ← get_field "current_state" v;
  assert_eq (json_text (WebStack := toy_web) carried) (json_text (WebStack := toy_web) state).

Definition pinned_l1_request_uses_release_identity_not_channel : test :=
  let value := value_of_l1_req (mkL1Req None (Some 42%Z) (Some "sha256:abc") "rig" "arm64"
    "a1b2" "device-1" None 1) in
  _ ← assert_eq (f ← get_field "vehicle_release_id" value; d_i64 f) (Some 42%Z);
  _ ← assert_eq (text_at value "tree_hash") (Some "sha256:abc");
  match get_field "channel" value with None => Some () | Some _ => None end.

Lemma client_tests_pass : all_pass [
  base_url_trims_trailing_slash; l1_request_body_omits_absent_current_state;
  l1_request_body_carries_current_state; pinned_l1_request_uses_release_identity_not_channel].
Proof. repeat constructor; vm_compute; reflexivity. Qed.
End ClientTests.

(** * cli *)

Module CliTests.
Definition administrative_only_drift_reaches_campaign_without_byte_transfer : test :=
  let observed : Tree := {[ "vm1" := mkEntity "" None None [] false (Some false) ]} in
  let desired : Tree := {[ "vm1" := mkEntity "" None None [] true None ]} in
  let plan := mkApplyPlan "" [] (assess_tree observed desired) in
  _ ← assert (campaign_has_work plan None);
  _ ← assert (campaign_has_work plan (Some "vm1"));
  _ ← assert (negb (campaign_has_work plan (Some "vm2")));
  let desired : Tree := {[ "vm1" := mkEntity "" None None [] false None ]} in
  let converged := mkApplyPlan "" [] (assess_tree observed desired) in
  assert (negb (campaign_has_work converged None)).

Definition rejects_wrong_length_pubkey_coords : test :=
  match mint_cwt (H := toy_cwt) x01 "vm9" "device-test" (replicate 31 x00) (replicate 32 x00)
          (from_now 0 1) (fill 16 x00) with
  | None => Some ()
  | Some _ => None
  end.

Definition generated_token_is_correct_length_and_random : test :=
  let a := generate_token (fill 32 x01) in
  let b := generate_token (fill 32 x02) in
  _ ← assert_eq (length (slice a)) TOKEN_LEN;
  assert_ne (slice a) (slice b).

Definition sha256_matches_known_vector : test :=
  assert_eq (token_sha256_hex [])
    "e3b0c44298fc1c149afbf4c8996fb92427ae41e4649b934ca495991b7852b855".

Lemma cli_tests_pass : all_pass [
  administrative_only_drift_reaches_campaign_without_byte_transfer;
  rejects_wrong_length_pubkey_coords; generated_token_is_correct_length_and_random;
  sha256_matches_known_vector].
Proof. repeat constructor; vm_compute; reflexivity. Qed.
End CliTests.

(** * software-tower: content *)

Module ContentTests.
Abbreviation App := (AppState Fs MemIndex () ()).

(** [chunks(n)]. *)
Fixpoint chunks (fuel n : nat) (b : list byte) : list (list byte) :=
  match fuel, b with
  | O, _ | _, [] => []
  | S fuel, _ => take n b :: chunks fuel n (drop n b)
  end.

(** [encrypt_streaming]: in chunks of seven, given the random key and nonce. *)
Definition encrypt_streaming (random : option (array CEK_LEN * array NONCE_LEN)) (pt : list byte) :
    option (list byte * array CEK_LEN * array NONCE_LEN) :=
  enc ← encryptor_new random;
  '(enc', ciphertext) ← run_stream encryptor_update enc (chunks (length pt) 7 pt);
  tag ← encryptor_finish enc';
  Some (ciphertext ++ slice tag, enc_cek enc, enc_nonce enc).

Definition crypto_roundtrip : test :=
  let pt := as_bytes "sumo-provision content core, encrypt-once streaming via sumo-crypto" in
  '(ciphertext, cek, nonce) ← encrypt_streaming example_random pt;
  _ ← assert_ne ciphertext pt;
  dec ← aead_decrypt cek nonce ciphertext;
  assert_eq dec pt.

(** Another first octet of the key. *)
Definition wrong_key_fails : test :=
  '(ciphertext, cek, nonce) ← encrypt_streaming example_random (as_bytes "secret");
  bad ← try_into CEK_LEN (xbe :: drop 1 (slice cek));
  assert (bool_decide (aead_decrypt bad nonce ciphertext = None)).

Definition state_with_tempdir : App := mkAppState (mkFs ∅ 7 0 []) [] None ().

(** [read_blob]. *)
Definition read_blob (outer : ContentHash) (s : App) : option (option (list byte)) :=
  match (open outer (app_blobs s)).2 with
  | Ok found => Some (snd <$> found)
  | Err _ => None
  end.

(** [publish_bytes]: the bytes as one chunk. *)
Definition publish_bytes (random : option (array CEK_LEN * array NONCE_LEN)) (b : list byte)
    (s : App) : option (App * ArtifactRef) :=
  let '(s', r) := publish_stream random [Ok b] s in
  aref ← unwrap r;
  Some (s', aref).

Definition publish_fetch_decrypt_roundtrip : test :=
  let plaintext := concat (replicate 10 (as_bytes "the quick brown fox jumps over the lazy dog")) in
  '(state, aref) ← publish_bytes example_random plaintext state_with_tempdir;
  _ ← assert_eq (ref_inner aref) (hash_of plaintext);
  _ ← assert_eq (ref_size aref) (Z.of_nat (length plaintext));
  blob ← read_blob (ref_outer aref) state;
  cipher ← blob;
  _ ← assert_eq (hash_of cipher) (ref_outer aref);
  _ ← assert_ne cipher plaintext;
  found ← unwrap (index_get (ref_inner aref) (app_index state)).2;
  entry ← found;
  frame ← aead_decrypt (entry_cek entry) (entry_nonce entry) cipher;
  dec ← zstd_decode frame;
  assert_eq dec plaintext.

Definition publish_is_idempotent : test :=
  let pt := as_bytes "same bytes twice" in
  '(state, a) ← publish_bytes example_random pt state_with_tempdir;
  '(_, b) ← publish_bytes (Some (fill 16 x00, fill 12 x00)) pt state;
  _ ← assert_eq (ref_inner a) (ref_inner b);
  assert_eq (ref_outer a) (ref_outer b).

Definition missing_blob_is_none : test :=
  blob ← read_blob (content_of "never stored") state_with_tempdir;
  match blob with None => Some () | Some _ => None end.

Lemma content_tests_pass : all_pass [
  crypto_roundtrip; wrong_key_fails; publish_fetch_decrypt_roundtrip; publish_is_idempotent;
  missing_blob_is_none].
Proof. repeat constructor; vm_compute; reflexivity. Qed.
End ContentTests.

(** * identity-tower *)

Module IdentityTests.
#[local] Existing Instance toy_hsm.

Definition ecu_id_matches_the_device_side_spki_thumbprint : test :=
  sec1 ← try_into 65 (x04 :: replicate 31 x11 ++ [x07] ++ replicate 32 x22);
  spki ← spki_of_sec1 sec1;
  let want := hex_encode (slice (hash_bytes (hash_of spki))) in
  let cose_hex := hex_encode (sec1_to_cose sec1) in
  _ ← assert_eq (ecu_id_from_cose_hex cose_hex) (Some want);
  _ ← assert_eq (ecu_id_from_cose_hex "not-hex") None;
  assert_eq (ecu_id_from_cose_hex "") None.

(** [iter().find(..)]. *)
Definition find {A} (p : A → bool) (l : list A) : option A := head (filter p l).

Definition test_root : list byte := [x30; x82; x02; x00; xca; xfe].

Definition assemble_keystore_embeds_tls_leaf_when_provided : test :=
  let sw := fill 65 x04 in
  let ka := fill 65 x04 in
  let leaf := [x30; x82; x01; x00; xab] in
  let ks := assemble_keystore sw ka 1 (Some leaf) test_root in
  tls ← find (λ c, bool_decide (leaf_key_id c = role_key_id TlsIdentity)) (ks_certificates ks);
  _ ← assert_eq (leaf_certificate tls) leaf;
  _ ← assert (existsb (λ s, bool_decide (slot_key_id s = role_key_id TlsIdentity)) (ks_slots ks));
  anchor ← find (λ a, bool_decide (anchor_id a = DELEGATION_ROOT_ANCHOR_ID)) (ks_trust_anchors ks);
  _ ← assert_eq (anchor_certificate anchor) test_root;
  let ks2 := assemble_keystore sw ka 1 None test_root in
  _ ← assert (is_nil (ks_certificates ks2));
  assert_eq (length (ks_trust_anchors ks2)) 1.

Lemma identity_tests_pass : all_pass [
  ecu_id_matches_the_device_side_spki_thumbprint;
  assemble_keystore_embeds_tls_leaf_when_provided].
Proof. repeat constructor; vm_compute; reflexivity. Qed.
End IdentityTests.
